(** * Noter (condb.py): session store, statistics engine and timers

    A shallow embedding of the non-GUI core of [src/condb.py] and the
    properties of it that the specification states.
    The slots of the tabs are embedded as far as they act on that core, and
    further properties, read off the code, follow those of the specification.

    Conventions of the embedding
    - Python [int] is [Z]; a Python [float] is the rational [Q] it stands
      for.  [+] on floats and the quotient and the product of
      [calculate_progress] round to the nearest double ([round64]).  The
      differences of clock readings and the cell count of the progress bar,
      drawn at width 20 by every call, are computed on the rationals
      themselves.  [inf] and [nan] are not among the values: the model is
      that of the code as long as no result leaves the range of the doubles.
    - Python [str] is [string], read as a sequence of code points below 256;
      [<] on [str] is [String.ltb].
    - A Python [dict] with string keys is a [gmap string value].
    - Exceptions are results ([Ok] / [Raise]); code that both mutates and
      raises runs in a state-and-exception monad whose state survives a
      raise, as Python's does.
    - [datetime.now()] and [time.time()] are arguments of the functions that
      call them. *)

From Stdlib Require Import ZArith QArith Qround Qabs Qpower String Ascii List Lia Lqa.
From Stdlib Require Import Permutation Sorted.
From Stdlib Require OrderedTypeEx SpecFloat.
From stdpp Require Import gmap strings list fin_maps.

#[local] Set Warnings "-register-all".
#[local] Open Scope Z_scope.

(* ===================================================================== *)
(** * Python floats: rounding to the nearest double *)
(* ===================================================================== *)

(** Rounding to the nearest integer, ties to even, of a non-negative number. *)
Definition round_half_even (x : Q) : Z :=
  let f := Qfloor x in
  match (x - inject_Z f ?= 1 # 2)%Q with
  | Lt => f
  | Gt => f + 1
  | Eq => if Z.even f then f else f + 1
  end.

(** [floor(log2(x))] of a positive [x]. *)
Definition ilog2 (x : Q) : Z :=
  let k := Z.log2 (Qnum x) - Z.log2 (Zpos (Qden x)) in
  if Qle_bool (2 ^ k) x then k else k - 1.

(** The exponent of the last place of the doubles around a positive [x]:
    53 significant bits, and no exponent under that of the subnormals. *)
Definition ulp_exp (x : Q) : Z := Z.max (ilog2 x - 52) (-1074).

(** A positive [x] rounded at that place: the significand to the nearest
    integer, ties to even. *)
Definition round64_pos (x : Q) : Q :=
  (inject_Z (round_half_even (x / 2 ^ ulp_exp x)) * 2 ^ ulp_exp x)%Q.

(** The double nearest [x], ties to the even significand: what an IEEE 754
    operation returns for the exact result [x], as a reduced fraction.  There
    is no largest exponent here: beyond the largest double, where Python has
    [inf] (or raises [OverflowError] when an [int] is widened), the model is
    not that of the code. *)
Definition round64 (x : Q) : Q :=
  match (x ?= 0)%Q with
  | Eq => 0%Q
  | Gt => Qred (round64_pos x)
  | Lt => Qred (- round64_pos (- x))
  end.

(* ===================================================================== *)
(** * Python values and exceptions *)
(* ===================================================================== *)

Module Py.

(** The built-in exception classes the modelled code can meet.  All of them
    derive from [Exception], so an [except Exception] clause catches each. *)
Inductive exn :=
| KeyError | TypeError | ValueError | AttributeError
| FileNotFoundError | JSONDecodeError | OSError.

Inductive result (A : Type) :=
| Ok (a : A)
| Raise (e : exn).
Arguments Ok {A} a.
Arguments Raise {A} e.

Definition rbind {A B} (r : result A) (k : A -> result B) : result B :=
  match r with
  | Ok a => k a
  | Raise e => Raise e
  end.

(** What [json.load] can produce (and [json.dump] can write). *)
Inductive value :=
| VNone
| VBool (b : bool)
| VInt (z : Z)
| VFloat (q : Q)
| VStr (s : string)
| VList (l : list value)
| VDict (d : gmap string value).

(** Truth value testing, as [or] and [not] use it. *)
Definition truthy (v : value) : bool :=
  match v with
  | VNone => false
  | VBool b => b
  | VInt z => negb (z =? 0)
  | VFloat q => negb (Qeq_bool q 0)
  | VStr s => negb (String.eqb s EmptyString)
  | VList l => match l with [] => false | _ => true end
  | VDict d => negb (bool_decide (d = ∅))
  end.

(** [x or y] *)
Definition py_or (x y : value) : value := if truthy x then x else y.

(** [d.get(k, dflt)] *)
Definition dict_get (d : gmap string value) (k : string) (dflt : value) : value :=
  default dflt (d !! k).

(** [d[k]] *)
Definition dict_item (d : gmap string value) (k : string) : result value :=
  match d !! k with
  | Some v => Ok v
  | None => Raise KeyError
  end.

(** [d.setdefault(k, dflt)]: writes only when the key is absent. *)
Definition dict_setdefault (k : string) (dflt : value) (d : gmap string value)
  : gmap string value :=
  match d !! k with
  | Some _ => d
  | None => <[k := dflt]> d
  end.

(** [s * n] for a one-character string [s]: empty when [n <= 0]. *)
Definition str_repeat (c : ascii) (n : Z) : string :=
  string_of_list_ascii (repeat c (Z.to_nat n)).

(** [x + y], as [stats[date] += duration] evaluates it: [bool] is an [int],
    the sum of two [int] is exact, an [int] next to a [float] widens to the
    nearest double and the sum of two floats is rounded, strings and lists
    concatenate (on a list [+=] also extends the left operand in place,
    which is not modelled), and any other pair is a [TypeError]. *)
Definition py_add (x y : value) : result value :=
  match x, y with
  | VInt a, VInt b => Ok (VInt (a + b))
  | VInt a, VBool b => Ok (VInt (a + Z.b2z b))
  | VBool a, VInt b => Ok (VInt (Z.b2z a + b))
  | VBool a, VBool b => Ok (VInt (Z.b2z a + Z.b2z b))
  | VFloat a, VFloat b => Ok (VFloat (round64 (a + b)))
  | VFloat a, VInt b => Ok (VFloat (round64 (a + round64 (inject_Z b))))
  | VInt a, VFloat b => Ok (VFloat (round64 (round64 (inject_Z a) + b)))
  | VFloat a, VBool b => Ok (VFloat (round64 (a + inject_Z (Z.b2z b))))
  | VBool a, VFloat b => Ok (VFloat (round64 (inject_Z (Z.b2z a) + b)))
  | VStr a, VStr b => Ok (VStr (a +:+ b))
  | VList a, VList b => Ok (VList (a ++ b))
  | _, _ => Raise TypeError
  end.

End Py.
Import Py.

(* ===================================================================== *)
(** * Decimal text *)
(* ===================================================================== *)

Module Dec.

Definition digit_char (d : Z) : ascii := ascii_of_N (Z.to_N (48 + d)).

Definition digit_val (c : ascii) : option Z :=
  let n := Z.of_N (N_of_ascii c) in
  if (48 <=? n) && (n <=? 57) then Some (n - 48) else None.

(** Decimal digits of a non-negative number, least significant first. *)
Fixpoint digits_rev (fuel : nat) (n : Z) : list Z :=
  match fuel with
  | O => []
  | S f => if n <? 10 then [n] else (n mod 10) :: digits_rev f (n / 10)
  end.

Definition digits (n : Z) : list Z :=
  rev (digits_rev (S (Z.to_nat (Z.log2 n))) n).

(** [str(n)] for [n >= 0]. *)
Definition str_nonneg (n : Z) : string :=
  string_of_list_ascii (map digit_char (digits n)).

(** [str(z)] for an [int]. *)
Definition str_int (z : Z) : string :=
  if z <? 0 then "-" +:+ str_nonneg (- z) else str_nonneg z.

(** [format(z, "0w")]: sign first, then zeros up to [w] characters in all. *)
Definition format_zero_pad (w : nat) (z : Z) : string :=
  let body := str_nonneg (Z.abs z) in
  let sign := if z <? 0 then "-" else EmptyString in
  let fill := (w - String.length sign - String.length body)%nat in
  sign +:+ string_of_list_ascii (repeat "0"%char fill) +:+ body.

(** Reading a digit string back: [None] on a non-digit or on the empty string. *)
Fixpoint value_of_digits (acc : Z) (cs : list ascii) : option Z :=
  match cs with
  | [] => Some acc
  | c :: cs' =>
      match digit_val c with
      | Some d => value_of_digits (10 * acc + d) cs'
      | None => None
      end
  end.

Definition int_of_digit_string (s : string) : option Z :=
  match list_ascii_of_string s with
  | [] => None
  | cs => value_of_digits 0 cs
  end.

End Dec.

(* ===================================================================== *)
(** * Calendar dates ([datetime.date], proleptic Gregorian) *)
(* ===================================================================== *)

Module PyDate.

Record date := mkdate { year : Z; month : Z; day : Z }.

(** [_is_leap] *)
Definition is_leap (y : Z) : bool :=
  (y mod 4 =? 0) && (negb (y mod 100 =? 0) || (y mod 400 =? 0)).

(** [_days_before_year]: days before January 1st of year [y]. *)
Definition days_before_year (y : Z) : Z :=
  let p := y - 1 in p * 365 + p / 4 - p / 100 + p / 400.

(** [_DAYS_IN_MONTH] *)
Definition DAYS_IN_MONTH (m : Z) : Z :=
  nth (Z.to_nat m) [-1; 31; 28; 31; 30; 31; 30; 31; 31; 30; 31; 30; 31] 0.

(** [_DAYS_BEFORE_MONTH] *)
Definition DAYS_BEFORE_MONTH (m : Z) : Z :=
  nth (Z.to_nat m) [-1; 0; 31; 59; 90; 120; 151; 181; 212; 243; 273; 304; 334] 0.

(** [_days_in_month] *)
Definition days_in_month (y m : Z) : Z :=
  if (m =? 2) && is_leap y then 29 else DAYS_IN_MONTH m.

(** [_days_before_month] *)
Definition days_before_month (y m : Z) : Z :=
  DAYS_BEFORE_MONTH m + (if (2 <? m) && is_leap y then 1 else 0).

(** [_ymd2ord] *)
Definition ymd2ord (y m d : Z) : Z :=
  days_before_year y + days_before_month y m + d.

(** [date.toordinal()] *)
Definition toordinal (d : date) : Z := ymd2ord (year d) (month d) (day d).

(** [_check_date_fields]: what the [date] constructor accepts. *)
Definition valid_date (d : date) : bool :=
  (1 <=? year d) && (year d <=? 9999) &&
  (1 <=? month d) && (month d <=? 12) &&
  (1 <=? day d) && (day d <=? days_in_month (year d) (month d)).

(** [(a - b).days] *)
Definition days_between (a b : date) : Z := toordinal a - toordinal b.

(** [_isoweek1monday] *)
Definition isoweek1monday (y : Z) : Z :=
  let firstday := ymd2ord y 1 1 in
  let firstweekday := (firstday + 6) mod 7 in
  let week1monday := firstday - firstweekday in
  if 3 <? firstweekday then week1monday + 7 else week1monday.

(** [date.isocalendar()[1]]: the ISO 8601 week number. *)
Definition isoweek (d : date) : Z :=
  let today := toordinal d in
  let week := (today - isoweek1monday (year d)) / 7 in
  if week <? 0 then (today - isoweek1monday (year d - 1)) / 7 + 1
  else if (52 <=? week) && (isoweek1monday (year d + 1) <=? today) then 1
  else week + 1.

(** [date.isoformat()]: ["%04d-%02d-%02d"]. *)
Definition isoformat (d : date) : string :=
  Dec.format_zero_pad 4 (year d) +:+ "-" +:+
  Dec.format_zero_pad 2 (month d) +:+ "-" +:+
  Dec.format_zero_pad 2 (day d).

(** ** [datetime.strptime(s, '%Y-%m-%d')]

    [_strptime] compiles the format to the regular expression
    [(?P<Y>\d\d\d\d)-(?P<m>1[0-2]|0[1-9]|[1-9])-(?P<d>3[01]|[12]\d|0[1-9]|[1-9]| [1-9])],
    matches it at the start of the text, rejects text left over after the
    match, and hands the three numbers to the [date] constructor.  Each
    failure is a [ValueError].  The alternatives of a group are tried in
    order, each against the rest of the pattern, which is what the
    continuations below do. *)

Definition orelse {A} (x y : option A) : option A :=
  match x with
  | Some _ => x
  | None => y
  end.

Definition is_digit_in (lo hi : Z) (c : ascii) : option Z :=
  match Dec.digit_val c with
  | Some v => if (lo <=? v) && (v <=? hi) then Some v else None
  | None => None
  end.

(** One alternative made of two digit classes. *)
Definition two_digits {A} (lo1 hi1 lo2 hi2 : Z) (cs : list ascii)
    (k : Z -> list ascii -> option A) : option A :=
  match cs with
  | c1 :: c2 :: rest =>
      match is_digit_in lo1 hi1 c1, is_digit_in lo2 hi2 c2 with
      | Some a, Some b => k (10 * a + b) rest
      | _, _ => None
      end
  | _ => None
  end.

(** One alternative made of a single digit class. *)
Definition one_digit {A} (lo hi : Z) (cs : list ascii)
    (k : Z -> list ascii -> option A) : option A :=
  match cs with
  | c :: rest =>
      match is_digit_in lo hi c with
      | Some a => k a rest
      | None => None
      end
  | _ => None
  end.

(** A literal character of the pattern. *)
Definition literal {A} (c : ascii) (cs : list ascii)
    (k : list ascii -> option A) : option A :=
  match cs with
  | c' :: rest => if Ascii.eqb c c' then k rest else None
  | [] => None
  end.

(** [\d\d\d\d] *)
Definition re_year {A} (cs : list ascii) (k : Z -> list ascii -> option A)
  : option A :=
  two_digits 0 9 0 9 cs (fun hi rest =>
  two_digits 0 9 0 9 rest (fun lo rest' => k (100 * hi + lo) rest')).

(** [1[0-2]|0[1-9]|[1-9]] *)
Definition re_month {A} (cs : list ascii) (k : Z -> list ascii -> option A)
  : option A :=
  orelse (two_digits 1 1 0 2 cs k)
    (orelse (two_digits 0 0 1 9 cs k) (one_digit 1 9 cs k)).

(** [3[01]|[12]\d|0[1-9]|[1-9]| [1-9]] *)
Definition re_day {A} (cs : list ascii) (k : Z -> list ascii -> option A)
  : option A :=
  orelse (two_digits 3 3 0 1 cs k)
    (orelse (two_digits 1 2 0 9 cs k)
      (orelse (two_digits 0 0 1 9 cs k)
        (orelse (one_digit 1 9 cs k)
                (literal " "%char cs (fun rest => one_digit 1 9 rest k))))).

(** The whole pattern; the match ends wherever the day group ends. *)
Definition re_match_ymd (cs : list ascii) : option (date * list ascii) :=
  re_year cs (fun y r1 =>
  literal "-"%char r1 (fun r2 =>
  re_month r2 (fun m r3 =>
  literal "-"%char r3 (fun r4 =>
  re_day r4 (fun d rest => Some (mkdate y m d, rest)))))).

Definition strptime_ymd (s : string) : result date :=
  match re_match_ymd (list_ascii_of_string s) with
  | Some (d, []) => if valid_date d then Ok d else Raise ValueError
  | Some (_, _ :: _) => Raise ValueError
  | None => Raise ValueError
  end.

(** [datetime.strptime(v, '%Y-%m-%d')] on an arbitrary value: anything but a
    [str] is a [TypeError]. *)
Definition strptime (v : value) : result date :=
  match v with
  | VStr s => strptime_ymd s
  | _ => Raise TypeError
  end.

End PyDate.
Import PyDate.

(* ===================================================================== *)
(** * Sessions *)
(* ===================================================================== *)

(** A session is the [dict] the application builds in
    [CronometroTab.toggle_timer] or reads back from [sessions.json]. *)
Abbreviation session := (gmap string value).

(* ===================================================================== *)
(** * SessionStore: load_sessions and save_session *)
(* ===================================================================== *)

(** What [open(SESSIONS_FILE)] and [json.load] find: no file, a file that
    cannot be read, or text, which decodes to a JSON value or does not. *)
Inductive file_state :=
| FileMissing
| FileUnreadable
| FileText (json : option value).

(** The lines the two functions print. *)
Inductive log_event :=
| LogTryingLoad
| LogFileNotFound
| LogDecodeError
| LogUnexpected (e : exn)
| LogTryingSave
| LogSessionSaved (s : session)
| LogErrorSaving (e : exn).

(** The body of the [for] loop of [load_sessions]; only a [dict] has
    [setdefault]. *)
Definition set_defaults (item : value) : result value :=
  match item with
  | VDict d =>
      Ok (VDict (dict_setdefault "notes" (VStr EmptyString)
                (dict_setdefault "movement" (VStr "Unknown")
                (dict_setdefault "work" (VStr "Unknown")
                (dict_setdefault "composer" (VStr "Unknown") d)))))
  | _ => Raise AttributeError
  end.

Fixpoint for_each_session (items : list value) : result (list value) :=
  match items with
  | [] => Ok []
  | item :: rest =>
      rbind (set_defaults item) (fun item' =>
      rbind (for_each_session rest) (fun rest' => Ok (item' :: rest')))
  end.

(** [for session in sessions_data: ...; return sessions_data].  Iterating a
    [dict] or a [str] yields strings, which have no [setdefault]; the other
    values are not iterable. *)
Definition load_loop (sessions_data : value) : result value :=
  match sessions_data with
  | VList items => rbind (for_each_session items) (fun l => Ok (VList l))
  | VDict d => if bool_decide (d = ∅) then Ok sessions_data else Raise AttributeError
  | VStr s => if String.eqb s EmptyString then Ok sessions_data else Raise AttributeError
  | _ => Raise TypeError
  end.

Definition load_sessions (f : file_state) : value * list log_event :=
  match f with
  | FileMissing => (VList [], [LogTryingLoad; LogFileNotFound])
  | FileUnreadable => (VList [], [LogTryingLoad; LogUnexpected OSError])
  | FileText None => (VList [], [LogTryingLoad; LogDecodeError])
  | FileText (Some sessions_data) =>
      match load_loop sessions_data with
      | Ok v => (v, [LogTryingLoad])
      | Raise e => (VList [], [LogTryingLoad; LogUnexpected e])
      end
  end.

(** ** The store [save_session] works on

    [save_session(sessions, session)] writes into the [dict] it is handed,
    into the list it is handed and into the file.  Dicts live at locations,
    the list holds locations, so a session that is already in the list is
    the same object as the list's element. *)
Definition loc := nat.

Record world := mkworld {
  objs : gmap loc session;     (* the dict objects *)
  sessions : list loc;         (* the list object [sessions] *)
  file : file_state;           (* SESSIONS_FILE *)
  out : list log_event         (* what was printed, oldest first *)
}.

(** State and exceptions; the state reached before a raise stays. *)
Definition M (A : Type) : Type := world -> result A * world.

Definition ret {A} (a : A) : M A := fun w => (Ok a, w).
Definition raise {A} (e : exn) : M A := fun w => (Raise e, w).
Definition bind {A B} (m : M A) (k : A -> M B) : M B :=
  fun w => match m w with
           | (Ok a, w') => k a w'
           | (Raise e, w') => (Raise e, w')
           end.

(** [try: body  except Exception as e: handler(e)] *)
Definition try_except {A} (body : M A) (handler : exn -> M A) : M A :=
  fun w => match body w with
           | (Ok a, w') => (Ok a, w')
           | (Raise e, w') => handler e w'
           end.

Declare Scope py_scope.
Delimit Scope py_scope with py.
Notation "x <- m ;; k" := (bind m (fun x => k))
  (at level 100, m at next level, right associativity) : py_scope.
Notation "m ;;; k" := (bind m (fun _ => k))
  (at level 100, right associativity) : py_scope.

Definition lift {A} (r : result A) : M A := fun w => (r, w).

Definition print (ev : log_event) : M unit :=
  fun w => (Ok tt, mkworld (objs w) (sessions w) (file w) (out w ++ [ev])).

(** [session.get(k, dflt)]; a location without a dict stands for an argument
    that is no dict, which has no [get]. *)
Definition obj_get (l : loc) (k : string) (dflt : value) : M value :=
  fun w => match objs w !! l with
           | Some d => (Ok (dict_get d k dflt), w)
           | None => (Raise AttributeError, w)
           end.

(** [session[k]] *)
Definition obj_item (l : loc) (k : string) : M value :=
  fun w => match objs w !! l with
           | Some d => (dict_item d k, w)
           | None => (Raise TypeError, w)
           end.

(** [session[k] = v] *)
Definition obj_set (l : loc) (k : string) (v : value) : M unit :=
  fun w => match objs w !! l with
           | Some d =>
               (Ok tt, mkworld (<[l := <[k := v]> d]> (objs w)) (sessions w)
                               (file w) (out w))
           | None => (Raise TypeError, w)
           end.

(** [sessions.append(session)] *)
Definition list_append (l : loc) : M unit :=
  fun w => (Ok tt, mkworld (objs w) (sessions w ++ [l]) (file w) (out w)).

(** How the write goes: [open(.., "w")] may fail, which leaves the file as it
    was; [json.dump] may fail after the file was truncated. *)
Inductive write_outcome := WriteOk | OpenFails | DumpFails.

(** What [json.dump(sessions, file)] serialises. *)
Definition dump (w : world) : value :=
  VList (omap (fun l => VDict <$> objs w !! l) (sessions w)).

Definition write_file (io : write_outcome) : M unit :=
  fun w => match io with
           | WriteOk =>
               (Ok tt, mkworld (objs w) (sessions w) (FileText (Some (dump w))) (out w))
           | OpenFails => (Raise OSError, w)
           | DumpFails =>
               (Raise OSError, mkworld (objs w) (sessions w) (FileText None) (out w))
           end.

Definition print_saved (l : loc) : M unit :=
  fun w => print (LogSessionSaved (default ∅ (objs w !! l))) w.

Definition save_session (io : write_outcome) (session : loc) : M unit :=
  (print LogTryingSave ;;;
   try_except
     (composer <- obj_get session "composer" (VStr "Unknown") ;;
      obj_set session "composer" (py_or composer (VStr "Unknown")) ;;;
      work <- obj_get session "work" (VStr "Unknown") ;;
      obj_set session "work" (py_or work (VStr "Unknown")) ;;;
      movement <- obj_get session "movement" (VStr "Unknown") ;;
      obj_set session "movement" (py_or movement (VStr "Unknown")) ;;;
      notes <- obj_get session "notes" (VStr EmptyString) ;;
      obj_set session "notes" notes ;;;
      session_date_str <- obj_item session "date" ;;
      session_date <- lift (strptime session_date_str) ;;
      obj_set session "week" (VInt (isoweek session_date)) ;;;
      obj_set session "month" (VInt (month session_date)) ;;;
      obj_set session "year" (VInt (year session_date)) ;;;
      list_append session ;;;
      write_file io ;;;
      print_saved session)
     (fun e => print (LogErrorSaving e)))%py.

(* ===================================================================== *)
(** * StatisticsEngine: calculate_period_stats *)
(* ===================================================================== *)

(** The test of one session inside the loop of [calculate_period_stats];
    [now] is [datetime.now().date()]. *)
Definition period_keeps (period_type : string) (now session_date : date) : bool :=
  if String.eqb period_type "daily" then
    (year session_date =? year now) && (month session_date =? month now)
    && (day session_date =? day now)
  else if String.eqb period_type "weekly" then
    days_between now session_date <=? 7
  else if String.eqb period_type "monthly" then
    days_between now session_date <=? 30
  else if String.eqb period_type "yearly" then
    days_between now session_date <=? 365
  else false.

(** The first loop: [valid_sessions].  A session whose date is missing or
    does not parse raises out of the loop. *)
Fixpoint valid_sessions (period_type : string) (now : date)
    (sessions : list session) : result (list session) :=
  match sessions with
  | [] => Ok []
  | s :: rest =>
      rbind (dict_item s "date") (fun v =>
      rbind (strptime v) (fun session_date =>
      rbind (valid_sessions period_type now rest) (fun kept =>
      Ok (if period_keeps period_type now session_date
          then s :: kept else kept))))
  end.

(** [stats], a [dict] in insertion order. *)
Fixpoint stats_lookup (k : string) (stats : list (string * value)) : option value :=
  match stats with
  | [] => None
  | (k', v) :: rest => if String.eqb k k' then Some v else stats_lookup k rest
  end.

Fixpoint stats_update (k : string) (v : value) (stats : list (string * value))
  : list (string * value) :=
  match stats with
  | [] => []
  | (k', v') :: rest =>
      if String.eqb k k' then (k', v) :: rest
      else (k', v') :: stats_update k v rest
  end.

(** The second loop: durations summed per date. *)
Fixpoint sum_by_date (stats : list (string * value)) (valid : list session)
  : result (list (string * value)) :=
  match valid with
  | [] => Ok stats
  | s :: rest =>
      rbind (dict_item s "date") (fun date =>
      rbind (dict_item s "duration") (fun duration =>
      match date with
      | VStr k =>
          match stats_lookup k stats with
          | Some total =>
              rbind (py_add total duration) (fun total' =>
              sum_by_date (stats_update k total' stats) rest)
          | None => sum_by_date (stats ++ [(k, duration)]) rest
          end
      | _ => Raise TypeError (* not reached: the first loop parsed this date *)
      end))
  end.

Definition calculate_period_stats (now : date) (sessions : list session)
    (period_type : string) : result (list (string * value)) :=
  match sessions with
  | [] => Ok []
  | _ => rbind (valid_sessions period_type now sessions) (sum_by_date [])
  end.

(* ===================================================================== *)
(** * StatisticsEngine: calculate_progress and generate_progress_bar *)
(* ===================================================================== *)

(** The first definition in the file (goals in minutes).  The module binds
    [calculate_progress] again further down, so no call reaches this one.
    The argument is the number passed, an [int] or a [float]; the quotient
    is rounded to a double (Python divides an [int] by an [int] exactly and
    rounds once), and so is the product. *)
Definition goals_shadowed : gmap string Z :=
  list_to_map [("daily", 5 * 60); ("weekly", 25 * 60);
               ("monthly", 100 * 60); ("yearly", 1200 * 60)].

Definition calculate_progress_shadowed (period_type : string) (total_duration : Q) : Q :=
  let goal := default 0 (goals_shadowed !! period_type) in
  if goal =? 0 then 0%Q
  else round64 (round64 (total_duration / inject_Z goal) * 100).

(** The second definition, the one in force when the statistics tab runs. *)
Definition goals_hours : gmap string Z :=
  list_to_map [("daily", 5); ("weekly", 25); ("monthly", 100); ("yearly", 1200)].

Definition calculate_progress (period_type : string) (total_duration_seconds : Q) : Q :=
  let goal_seconds := default 0 (goals_hours !! period_type) * 3600 in
  if goal_seconds =? 0 then 0%Q
  else round64 (round64 (total_duration_seconds / inject_Z goal_seconds) * 100).

(** [int(x)] on a number: truncation towards zero. *)
Definition py_int (x : Q) : Z :=
  if Qle_bool 0 x then Qfloor x else Qceiling x.

(** [format(x, ".1f")] *)
Definition format_1f (x : Q) : string :=
  let t := round_half_even (Qabs x * 10) in
  (if Qle_bool 0 x then EmptyString else "-") +:+
  Dec.str_nonneg (t / 10) +:+ "." +:+ Dec.str_nonneg (t mod 10).

Definition generate_progress_bar (percentage : Q) (width : Z) : string :=
  let filled := py_int (percentage * inject_Z width / 100) in
  let empty := width - filled in
  "[" +:+ str_repeat "#" filled +:+ str_repeat "." empty +:+ "] " +:+
  format_1f percentage +:+ "%".

(* ===================================================================== *)
(** * StatisticsEngine: calculate_streak *)
(* ===================================================================== *)

(** [list.sort(key=..., reverse=True)] on string keys: descending and stable
    (equal keys keep their order), whatever the algorithm.  An element goes in
    front of the first one it is not smaller than. *)
Fixpoint insert_desc (x : string * session) (l : list (string * session))
  : list (string * session) :=
  match l with
  | [] => [x]
  | y :: l' =>
      if String.ltb (fst x) (fst y) then y :: insert_desc x l'
      else x :: y :: l'
  end.

Definition sort_desc (l : list (string * session)) : list (string * session) :=
  foldr insert_desc [] l.

(** The key function [lambda x: x['date']], applied to every element before
    anything moves. *)
Fixpoint sort_keys (sessions : list session) : result (list value) :=
  match sessions with
  | [] => Ok []
  | s :: rest =>
      rbind (dict_item s "date") (fun k =>
      rbind (sort_keys rest) (fun ks => Ok (k :: ks)))
  end.

Fixpoint all_str (ks : list value) : option (list string) :=
  match ks with
  | [] => Some []
  | VStr s :: rest => option_map (cons s) (all_str rest)
  | _ :: _ => None
  end.

(** The [for] loop of [calculate_streak]. *)
Fixpoint streak_loop (previous_date : date) (streak : Z) (sessions : list session)
  : result Z :=
  match sessions with
  | [] => Ok streak
  | s :: rest =>
      rbind (dict_item s "date") (fun v =>
      rbind (strptime v) (fun current_date =>
      if days_between previous_date current_date =? 1 then
        streak_loop current_date (streak + 1) rest
      else if days_between previous_date current_date =? 0 then
        streak_loop previous_date streak rest
      else Ok streak))
  end.

(** Everything after the sort. *)
Definition streak_of_sorted (sessions : list session) : result Z :=
  match sessions with
  | [] => Raise KeyError (* not reached: the list is not empty *)
  | s0 :: _ =>
      rbind (dict_item s0 "date") (fun v =>
      rbind (strptime v) (fun previous_date =>
      rbind (streak_loop previous_date 0 sessions) (fun streak =>
      Ok (streak + 1))))
  end.

(** [calculate_streak] returns (or raises) and leaves the caller's list in a
    new state, the second component.  [None] stands for an order this model
    does not determine: the sort compared keys that are not all [str], so
    either the sort or [strptime] raises [TypeError], and how far the sort
    got depends on its algorithm. *)
Definition calculate_streak (sessions : list session)
  : result Z * option (list session) :=
  match sessions with
  | [] => (Ok 0, Some [])
  | _ =>
      match sort_keys sessions with
      | Raise e => (Raise e, Some sessions)
      | Ok keys =>
          match all_str keys with
          | Some skeys =>
              let sorted := map snd (sort_desc (combine skeys sessions)) in
              (streak_of_sorted sorted, Some sorted)
          | None =>
              (Raise TypeError,
               match sessions with [_] => Some sessions | _ => None end)
          end
      end
  end.

(* ===================================================================== *)
(** * PracticeTimer *)
(* ===================================================================== *)

Module PracticeTimer.

Record t := mk { start_time : option Q; total_time : Q; running : bool }.

(** [__init__] *)
Definition init : t := mk None 0 false.

(** Every method takes the reading [now] of [time.time()] it would make. *)
Definition start (now : Q) (self : t) : t :=
  if negb (running self) then mk (Some now) (total_time self) true
  else self.

(** [stop] with [start_time] still [None] cannot happen while [running];
    Python would raise [TypeError] on the subtraction, the model adds nothing. *)
Definition stop (now : Q) (self : t) : t :=
  if running self then
    mk None (total_time self + (now - default now (start_time self)))%Q false
  else self.

Definition reset (self : t) : t := mk None 0 false.

(** The value read and the timer afterwards. *)
Definition get_total_time (now : Q) (self : t) : Q * t :=
  if running self then
    ((total_time self + (now - default now (start_time self)))%Q, self)
  else (total_time self, self).

End PracticeTimer.

(* ===================================================================== *)
(** * CountdownTimer *)
(* ===================================================================== *)

Module CountdownTimer.

Definition set_time (hours minutes seconds : Z) : Z :=
  hours * 3600 + minutes * 60 + seconds.

Definition format_time (seconds : Z) : string :=
  let h := seconds / 3600 in
  let m := (seconds mod 3600) / 60 in
  let s := seconds mod 60 in
  Dec.format_zero_pad 2 h +:+ ":" +:+ Dec.format_zero_pad 2 m +:+ ":" +:+
  Dec.format_zero_pad 2 s.

End CountdownTimer.

(* ===================================================================== *)
(** * Numbers and sums, as the tabs use them *)
(* ===================================================================== *)

(** The number a numeric value stands for, as a rational: [bool] is an
    [int].  ([0] for a value that is no number, on which arithmetic raises
    before the number is looked at.) *)
Definition num_of (v : value) : Q :=
  match v with
  | VInt z => inject_Z z
  | VFloat q => q
  | VBool b => inject_Z (Z.b2z b)
  | _ => 0%Q
  end.

(** [sum(items)]: [0 + x1 + x2 + ...], from the left, every sum as [+]
    gives it.  (From version 3.12 on CPython carries a correction term along
    the floats it sums; that variant is not modelled.) *)
Definition py_sum (items : list value) : result value :=
  fold_left (fun acc x => rbind acc (fun a => py_add a x)) items (Ok (VInt 0)).

(* ===================================================================== *)
(** * CountdownTimer: the thread of a countdown *)
(* ===================================================================== *)

(** [CountdownTimer.start] hands [run] to a thread.  The thread is modelled
    on its own: it owns [total_seconds], and what it finds in [self.running]
    each time it looks is given by [flag], the [k]-th look returning
    [flag k] ([stop], called from the GUI, is what clears the flag).
    [time.sleep] is not modelled. *)
Module CountdownThread.

Record t := mk { total_seconds : Z; running : bool }.

(** [__init__] *)
Definition init : t := mk 0 false.

(** [set_time] *)
Definition set_time (hours minutes seconds : Z) (self : t) : t :=
  mk (CountdownTimer.set_time hours minutes seconds) (running self).

(** [stop] *)
Definition stop (self : t) : t := mk (total_seconds self) false.

(** [start] up to the creation of the thread: [None] when it returns at once
    because a countdown is running. *)
Definition start (self : t) : option t :=
  if running self then None else Some (mk (total_seconds self) true).

(** The calls of the two callbacks. *)
Inductive event :=
| Update (formatted : string)     (* [update_callback(formatted)] *)
| Finished.                       (* [finished_callback()] *)

(** The [while] loop of [run]; [and] looks at the flag only when
    [total_seconds > 0].  Returns the calls made, [total_seconds] and the
    number of looks at the flag.  Every turn takes one off [total_seconds],
    so [Z.to_nat total_seconds] turns of fuel are enough. *)
Fixpoint run_loop (fuel : nat) (flag : nat -> bool) (looks : nat) (total_seconds : Z)
    (calls : list event) : list event * Z * nat :=
  match fuel with
  | O => (calls, total_seconds, looks)
  | S fuel' =>
      if 0 <? total_seconds then
        if flag looks then
          let total_seconds' := total_seconds - 1 in
          let formatted := CountdownTimer.format_time total_seconds' in
          run_loop fuel' flag (S looks) total_seconds' (calls ++ [Update formatted])
        else (calls, total_seconds, S looks)
      else (calls, total_seconds, looks)
  end.

(** [run]: the loop, then [if self.running: finished_callback()], then
    [self.running = False]. *)
Definition run_with (fuel : nat) (flag : nat -> bool) (self : t) : list event * t :=
  match run_loop fuel flag 0 (total_seconds self) [] with
  | (calls, total_seconds', looks) =>
      (if flag looks then calls ++ [Finished] else calls, mk total_seconds' false)
  end.

Definition run (flag : nat -> bool) (self : t) : list event * t :=
  run_with (Z.to_nat (total_seconds self)) flag self.

End CountdownThread.

(* ===================================================================== *)
(** * Metronome and MetronomoTab *)
(* ===================================================================== *)

Module Metronome.

(** The object without its thread; [bpm] is an [int], as the tab sets it. *)
Record t := mk { bpm : Z; running : bool }.

(** [__init__] *)
Definition init : t := mk 60 false.

Definition set_bpm (bpm : Z) (self : t) : t :=
  mk (if bpm <? 20 then 20 else if 300 <? bpm then 300 else bpm) (running self).

(** [interval = 60 / self.bpm], which [run] evaluates once, before its loop;
    Python raises [ZeroDivisionError] on a zero [bpm]. *)
Definition interval (self : t) : option Q :=
  if bpm self =? 0 then None else Some (60 / inject_Z (bpm self))%Q.

End Metronome.

Module MetronomoTab.

(** The two buttons: the metronome afterwards and the text of the label. *)
Definition increase_bpm (metronome : Metronome.t) : Metronome.t * string :=
  let metronome' := Metronome.set_bpm (Metronome.bpm metronome + 5) metronome in
  (metronome', "BPM: " +:+ Dec.str_int (Metronome.bpm metronome')).

Definition decrease_bpm (metronome : Metronome.t) : Metronome.t * string :=
  let metronome' := Metronome.set_bpm (Metronome.bpm metronome - 5) metronome in
  (metronome', "BPM: " +:+ Dec.str_int (Metronome.bpm metronome')).

End MetronomoTab.

(* ===================================================================== *)
(** * LogsTab: format_duration and load_logs *)
(* ===================================================================== *)

Module LogsTab.

(** [round(x)]: an [int] is its own rounding, a [float] rounds half to even.
    Only called on a number that is not negative. *)
Definition py_round (x : value) : Z :=
  match x with
  | VInt z => z
  | VBool b => Z.b2z b
  | VFloat q => round_half_even q
  | _ => 0
  end.

Definition format_duration (total_seconds : value) : string :=
  match total_seconds with
  | VInt _ | VFloat _ | VBool _ =>
      if negb (Qle_bool 0 (num_of total_seconds)) then "0:00:00"
      else
        let total_seconds := py_round total_seconds in
        let hours := total_seconds / 3600 in
        let minutes := (total_seconds mod 3600) / 60 in
        let seconds := total_seconds mod 60 in
        Dec.str_int hours +:+ ":" +:+ Dec.format_zero_pad 2 minutes +:+ ":" +:+
        Dec.format_zero_pad 2 seconds
  | _ => "0:00:00"
  end.

(** ** [load_logs], up to the point where the tree widget is filled *)

(** The key of the sort, a tuple of five values. *)
Definition sort_key (s : session) : list value :=
  [dict_get s "composer" (VStr "Unknown"); dict_get s "work" (VStr "Unknown");
   dict_get s "movement" (VStr "Unknown"); dict_get s "date" (VStr "1970-01-01");
   dict_get s "start_time" (VStr EmptyString)].

(** The keys of the list when every one is a tuple of [str]. *)
Fixpoint text_keys (sessions : list session) : option (list (list string)) :=
  match sessions with
  | [] => Some []
  | s :: rest =>
      match all_str (sort_key s), text_keys rest with
      | Some k, Some ks => Some (k :: ks)
      | _, _ => None
      end
  end.

(** [a < b] on two tuples of [str]: the first place where they differ
    decides; a proper prefix is smaller. *)
Fixpoint tuple_ltb (a b : list string) : bool :=
  match a, b with
  | x :: a', y :: b' => if String.eqb x y then tuple_ltb a' b' else String.ltb x y
  | [], _ :: _ => true
  | _, _ => false
  end.

(** [list.sort(key=..., reverse=True)] on such keys: descending and stable. *)
Fixpoint insert_desc (x : list string * session) (l : list (list string * session))
  : list (list string * session) :=
  match l with
  | [] => [x]
  | y :: l' =>
      if tuple_ltb (fst x) (fst y) then y :: insert_desc x l'
      else x :: y :: l'
  end.

Definition sort_desc (l : list (list string * session)) : list (list string * session) :=
  foldr insert_desc [] l.

(** [session.get(k, 'Unknown') or 'Unknown']; a [str] when the key of the
    sort is a tuple of [str], the only case in which it is used. *)
Definition group_label (s : session) (k : string) : string :=
  match py_or (dict_get s k (VStr "Unknown")) (VStr "Unknown") with
  | VStr t => t
  | _ => "Unknown"
  end.

(** [grouped_sessions]: three levels of [dict], each in insertion order,
    with the lists of sessions at the bottom. *)
Definition movements := list (string * list session).
Definition works := list (string * movements).
Definition composers := list (string * works).

(** [if k not in d: d[k] = empty] followed by an update of [d[k]]. *)
Fixpoint upsert {V} (k : string) (empty : V) (f : V -> V) (d : list (string * V))
  : list (string * V) :=
  match d with
  | [] => [(k, f empty)]
  | (k', v) :: rest =>
      if String.eqb k k' then (k', f v) :: rest
      else (k', v) :: upsert k empty f rest
  end.

(** The body of the grouping loop. *)
Definition add_session (grouped_sessions : composers) (s : session) : composers :=
  upsert (group_label s "composer") []
    (upsert (group_label s "work") []
       (upsert (group_label s "movement") [] (fun session_list => session_list ++ [s])))
    grouped_sessions.

(** The sort in place and the grouping loop: [grouped_sessions] and the list
    [sessions_ref] afterwards.  [None] when a key of the sort is not a tuple
    of [str]: whether and where the sort then raises depends on which keys
    it compares, which this model does not determine. *)
Definition load_logs (sessions : list session) : option (composers * list session) :=
  match text_keys sessions with
  | Some keys =>
      let sorted := map snd (sort_desc (combine keys sessions)) in
      Some (fold_left add_session sorted [], sorted)
  | None => None
  end.

End LogsTab.

(* ===================================================================== *)
(** * EstadisticasTab: update_progress *)
(* ===================================================================== *)

Module EstadisticasTab.

(** The line feed of the f-strings. *)
Definition LF : string := String "010"%char EmptyString.

(** [period_names] *)
Definition period_names : gmap string string :=
  list_to_map [("daily", "Diario"); ("weekly", "Semanal");
               ("monthly", "Mensual"); ("yearly", "Anual")].

(** [period_names[period]] *)
Definition period_name (period : string) : result string :=
  match period_names !! period with
  | Some name => Ok name
  | None => Raise KeyError
  end.

(** One turn of the loop of [update_progress]: the text it appends.  [now]
    is the date [calculate_period_stats] reads from the clock in this turn. *)
Definition progress_line (now : date) (sessions : list session) (period : string)
  : result string :=
  rbind (calculate_period_stats now sessions period) (fun data =>
  match data with
  | [] => rbind (period_name period) (fun name => Ok (name +:+ ": No hay datos" +:+ LF))
  | _ =>
      rbind (py_sum (map snd data)) (fun total_duration =>
      let percentage := calculate_progress period (num_of total_duration) in
      let progress_bar := generate_progress_bar percentage 20 in
      rbind (period_name period) (fun name =>
      Ok (name +:+ ": " +:+ progress_bar +:+ LF)))
  end).

Fixpoint progress_loop (now : string -> date) (sessions : list session)
    (periods : list string) (progress_text : string) : result string :=
  match periods with
  | [] => Ok progress_text
  | period :: rest =>
      rbind (progress_line (now period) sessions period) (fun line =>
      progress_loop now sessions rest (progress_text +:+ line))
  end.

(** [update_progress]: the text handed to [progress_label.setText], or the
    exception that leaves the label as it was.  [now period] is the date read
    from the clock while the given period is computed. *)
Definition update_progress (now : string -> date) (sessions : list session)
  : result string :=
  match sessions with
  | [] => Ok "No hay sesiones disponibles."
  | _ =>
      progress_loop now sessions ["daily"; "weekly"; "monthly"; "yearly"]
                    ("Progreso:" +:+ LF)
  end.

End EstadisticasTab.

(* ===================================================================== *)
(** * CronometroTab: toggle_timer and update_timer *)
(* ===================================================================== *)

(** [CronometroTab.toggle_timer], the slot of the stopwatch button, as far as
    it acts on the timer, on the list of sessions and on the file.  The
    widgets are not modelled: what the user typed is an argument, and the
    calls that only draw (labels, button text, the message box, clearing the
    notes, [update_timer]) are left out. *)
Module CronometroTab.

(** The attributes [toggle_timer] reads and writes; [start_time] is [None]
    or the text of the moment the stopwatch was started. *)
Record t := mk { timer : PracticeTimer.t; start_time : value }.

(** [__init__] *)
Definition init : t := mk PracticeTimer.init VNone.

(** The text of the four input fields. *)
Record fields := mkfields {
  composer : string; work : string; movement : string; notes : string }.

(** What one call reads from the clock: [time.time()],
    [datetime.now().isoformat(timespec='seconds')] and
    [datetime.now().date()]. *)
Record clock := mkclock { time : Q; now_text : string; today : date }.

(** Which branch ran. *)
Inductive outcome := Started | TooShort | Saved.

(** The dict literal of the stop branch. *)
Definition new_session (start_time : value) (end_time : string) (duration_seconds : Q)
    (date : string) (f : fields) : session :=
  <["notes" := VStr (notes f)]>
  (<["movement" := VStr (movement f)]>
  (<["work" := VStr (work f)]>
  (<["composer" := VStr (composer f)]>
  (<["date" := VStr date]>
  (<["duration" := VFloat duration_seconds]>
  (<["end_time" := VStr end_time]>
  (<["start_time" := start_time]> ∅))))))).

(** A location no dict lives at yet: where the new dict is created. *)
Definition new_loc (w : world) : loc := fresh (dom (objs w)).

Section Refresh.

(** [self.parent_window.refresh_data()], which redraws the other tabs. *)
Variable refresh_data : M unit.

(** Returns what the call returns or raises, the tab afterwards and the
    store afterwards. *)
Definition toggle_timer (c : clock) (f : fields) (io : write_outcome) (self : t)
    (w : world) : result outcome * t * world :=
  match PracticeTimer.start_time (timer self) with
  | None =>
      (Ok Started, mk (PracticeTimer.start (time c) (timer self)) (VStr (now_text c)), w)
  | Some _ =>
      let timer1 := PracticeTimer.stop (time c) (timer self) in
      let end_time := now_text c in
      let duration_seconds := fst (PracticeTimer.get_total_time (time c) timer1) in
      let date := isoformat (today c) in
      if negb (Qle_bool 1 duration_seconds) then
        (Ok TooShort, mk (PracticeTimer.reset timer1) VNone, w)
      else
        let session := new_loc w in
        let w1 := mkworld (<[session := new_session (start_time self) end_time
                                          duration_seconds date f]> (objs w))
                          (sessions w) (file w) (out w) in
        match save_session io session w1 with
        | (Raise e, w2) => (Raise e, mk timer1 (start_time self), w2)
        | (Ok _, w2) =>
            let self' := mk (PracticeTimer.reset timer1) VNone in
            match refresh_data w2 with
            | (Ok _, w3) => (Ok Saved, self', w3)
            | (Raise e, w3) => (Raise e, self', w3)
            end
        end
  end.

End Refresh.

(** [x // n] and [x % n] for a [float] [x] and a positive [int] [n]: the
    quotient rounded down, as a [float], and what is left. *)
Definition floordiv (x : Q) (n : Z) : Q := inject_Z (Qfloor (x / inject_Z n)).
Definition modulo (x : Q) (n : Z) : Q := (x - inject_Z n * floordiv x n)%Q.

(** [update_timer]: the text it puts on the label, [None] when the stopwatch
    is not running and the label is left alone.  [now] is [time.time()].
    (It then asks Qt to be called again, which is not modelled.) *)
Definition update_timer (now : Q) (self : t) : option string :=
  match PracticeTimer.start_time (timer self) with
  | Some start_time =>
      let elapsed_time := (now - start_time)%Q in
      let hours := py_int (floordiv elapsed_time 3600) in
      let minutes := py_int (floordiv (modulo elapsed_time 3600) 60) in
      let seconds := py_int (modulo elapsed_time 60) in
      Some ("Tiempo: " +:+ Dec.format_zero_pad 2 hours +:+ ":" +:+
            Dec.format_zero_pad 2 minutes +:+ ":" +:+ Dec.format_zero_pad 2 seconds)
  | None => None
  end.

End CronometroTab.

(* ===================================================================== *)
(** * Definitions used by the statements *)
(* ===================================================================== *)

(** Nothing below is part of the program: these are the notions in which the
    properties are stated and proved. *)

(** ** Dates and their text *)

(** The two decimal digits of a number below 100. *)
Definition two_chars (n : Z) : string :=
  String (Dec.digit_char (n / 10)) (String (Dec.digit_char (n mod 10)) EmptyString).

(** The four decimal digits of a number below 10000. *)
Definition four_chars (n : Z) : string :=
  String (Dec.digit_char (n / 1000)) (String (Dec.digit_char (n / 100 mod 10))
    (two_chars (n mod 100))).

(** The order of two dates as [date] compares them: year, then month, then
    day. *)
Definition date_compare (a b : date) : comparison :=
  match year a ?= year b with
  | Eq => match month a ?= month b with
          | Eq => day a ?= day b
          | c => c
          end
  | c => c
  end.

(** The extra day of a leap year. *)
Definition leap_day (y : Z) : Z := if is_leap y then 1 else 0.

(** Evaluates the month tables at a literal month. *)
Ltac table_compute :=
  cbv [Z.to_nat Pos.to_nat Pos.iter_op Nat.add nth DAYS_IN_MONTH DAYS_BEFORE_MONTH
       Z.eqb Z.ltb Z.compare Pos.compare Pos.compare_cont andb Pos.eqb] in *.

(** A date string in the form the application writes it
    ([date.isoformat()], ["YYYY-MM-DD"] with leading zeros): it parses, and
    printing the parsed date gives the string back. *)
Definition iso_date_string (s : string) : bool :=
  match strptime_ymd s with
  | Ok d => String.eqb (isoformat d) s
  | Raise _ => false
  end.

(** The session's [date] is such a string. *)
Definition has_iso_date (s : session) : bool :=
  match s !! "date" with
  | Some (VStr k) => iso_date_string k
  | _ => false
  end.

(** The session has a [date] and it is a [str]. *)
Definition has_str_date (s : session) : bool :=
  match s !! "date" with
  | Some (VStr _) => true
  | _ => false
  end.

(** [datetime.strptime(session['date'], '%Y-%m-%d')], as each function
    evaluates it. *)
Definition session_date (s : session) : result date :=
  rbind (dict_item s "date") strptime.

(** The session's [date] is there and parses. *)
Definition date_parses (s : session) : bool :=
  match session_date s with
  | Ok _ => true
  | Raise _ => false
  end.

(** The day a session is attributed to, as a day number. *)
Definition session_day (s : session) : option Z :=
  match session_date s with
  | Ok d => Some (toordinal d)
  | Raise _ => None
  end.

(** The day number a date string stands for ([0] if it does not parse). *)
Definition key_day (k : string) : Z :=
  match strptime_ymd k with
  | Ok d => toordinal d
  | Raise _ => 0
  end.

(** The date string of a session (empty if it has none). *)
Definition date_str (s : session) : string :=
  match s !! "date" with
  | Some (VStr k) => k
  | _ => EmptyString
  end.

(** The day number of a session with an ISO date. *)
Definition day_of_session (s : session) : Z := key_day (date_str s).

(** The set of days on which the collection has a session. *)
Definition days_of (sessions : list session) : gset Z :=
  list_to_set (omap session_day sessions).

(** A session holding just a date. *)
Definition dated_session (k : string) : session := {[ "date" := VStr k ]}.

(** A session holding a date and a duration in seconds. *)
Definition timed_session (k : string) (seconds : Z) : session :=
  {[ "date" := VStr k; "duration" := VInt seconds ]}.

(** ** The streak *)

(** The walk of the specification over the days, most recent first: a day
    one before the previous one is an advance, the same day is skipped, a
    wider gap ends the walk.  Returns the number of advances. *)
Fixpoint advances (previous : Z) (days : list Z) : Z :=
  match days with
  | [] => 0
  | current :: rest =>
      if previous - current =? 1 then 1 + advances current rest
      else if previous - current =? 0 then advances previous rest
      else 0
  end.

(** The list as the sort sees it: every session with its key. *)
Definition keyed (l : list session) : list (string * session) :=
  map (fun s => (date_str s, s)) l.

(** The list after [sessions.sort(key=lambda x: x['date'], reverse=True)]. *)
Definition sorted_sessions (l : list session) : list session :=
  map snd (sort_desc (keyed l)).

(** Orders on keyed sessions: by day, and the keys that are ISO dates. *)
Definition day_ge (a b : string * session) : Prop := key_day (fst a) >= key_day (fst b).
Definition iso_key (p : string * session) : Prop := iso_date_string (fst p) = true.

(** [a] may stand before [b] in descending order of date strings. *)
Definition date_desc (a b : session) : Prop :=
  String.ltb (date_str a) (date_str b) = false.

(** The same order on keyed sessions. *)
Definition key_desc (p q : string * session) : Prop :=
  String.ltb (fst p) (fst q) = false.

(** The sessions of one date string. *)
Definition dated (k : string) (s : session) : bool := String.eqb (date_str s) k.

(** Sessions on three consecutive days, out of order, one day twice. *)
Definition streak_example : list session :=
  [dated_session "2024-01-07"; dated_session "2024-01-08";
   dated_session "2024-01-06"; dated_session "2024-01-08"].

(** ** Period statistics and progress *)

(** The rolling window of a period kind, in days: weekly 7, monthly 30,
    yearly 365; [daily] has none. *)
(** The window of a period kind, in days; [daily] has none. *)
Definition window_days (period_kind : string) : option Z :=
  if String.eqb period_kind "weekly" then Some 7
  else if String.eqb period_kind "monthly" then Some 30
  else if String.eqb period_kind "yearly" then Some 365
  else None.

(** A value [+] treats as a number. *)
Definition is_number (v : value) : bool :=
  match v with
  | VInt _ | VFloat _ | VBool _ => true
  | _ => false
  end.

(** The session has a [duration] and it is a number. *)
Definition has_numeric_duration (s : session) : bool :=
  match s !! "duration" with
  | Some v => is_number v
  | None => false
  end.

(** The goal table as the specification words it, in hours: daily 5,
    weekly 25, monthly 100, yearly 1200, nothing for another period kind. *)
Definition goal_hours_spec (period_kind : string) : option Z :=
  if String.eqb period_kind "daily" then Some 5
  else if String.eqb period_kind "weekly" then Some 25
  else if String.eqb period_kind "monthly" then Some 100
  else if String.eqb period_kind "yearly" then Some 1200
  else None.

(** The characters before the first [c]. *)
Fixpoint take_until (c : ascii) (cs : list ascii) : list ascii :=
  match cs with
  | [] => []
  | x :: rest => if Ascii.eqb x c then [] else x :: take_until c rest
  end.

(** The characters after the first [c]. *)
Fixpoint drop_through (c : ascii) (cs : list ascii) : list ascii :=
  match cs with
  | [] => []
  | x :: rest => if Ascii.eqb x c then rest else drop_through c rest
  end.

(** The cells of a rendered bar: what stands between the brackets. *)
Definition bar_cells (rendered : string) : list ascii :=
  take_until "]" (drop_through "[" (list_ascii_of_string rendered)).

(** The text of a rendered bar: what follows the closing bracket and the blank. *)
Definition bar_text (rendered : string) : string :=
  string_of_list_ascii (drop_through " " (drop_through "]" (list_ascii_of_string rendered))).

(** ** The session store *)

(** A loaded record against the stored one: an absent key got its default,
    a key that was there kept its value, whatever it is. *)
Definition filled_from (stored loaded : gmap string value) : Prop :=
  loaded !! "composer" = Some (default (VStr "Unknown") (stored !! "composer")) /\
  loaded !! "work" = Some (default (VStr "Unknown") (stored !! "work")) /\
  loaded !! "movement" = Some (default (VStr "Unknown") (stored !! "movement")) /\
  loaded !! "notes" = Some (default (VStr EmptyString) (stored !! "notes")) /\
  forall k v, stored !! k = Some v -> loaded !! k = Some v.

(** A value returned by [load_sessions] against the stored value it comes
    from: both are objects, the second the first with its defaults. *)
Definition loaded_from (item record : value) : Prop :=
  exists stored loaded,
    item = VDict stored /\ record = VDict loaded /\ filled_from stored loaded.

(** A stored record with an empty composer and a null work. *)
Definition blank_record : gmap string value :=
  {[ "composer" := VStr EmptyString; "work" := VNone; "date" := VStr "2024-01-08" ]}.

(** What the four assignments at the top of [save_session] make of a dict. *)
Definition with_defaults (d : session) : session :=
  let d1 := <["composer" := py_or (dict_get d "composer" (VStr "Unknown")) (VStr "Unknown")]> d in
  let d2 := <["work" := py_or (dict_get d1 "work" (VStr "Unknown")) (VStr "Unknown")]> d1 in
  let d3 := <["movement" := py_or (dict_get d2 "movement" (VStr "Unknown")) (VStr "Unknown")]> d2 in
  <["notes" := dict_get d3 "notes" (VStr EmptyString)]> d3.

(** The store with the dict at [l] replaced. *)
Definition put_obj (l : loc) (d : session) (w : world) : world :=
  mkworld (<[l := d]> (objs w)) (sessions w) (file w) (out w).

(** A store with one dict, dated day-first, an empty list and no file. *)
Definition bad_date_world : world :=
  mkworld {[ 0%nat := {[ "date" := VStr "08/01/2024" ]} ]} [] FileMissing [].

(** ** Traces of a PracticeTimer *)

Module TimerTrace.
Import PracticeTimer.

(** What the caller can do with a timer. *)
Inductive op := Start | Stop | Reset | Read.

(** One call, made when the clock reads [now]. *)
Definition step (self : t) (call : Q * op) : t :=
  match call with
  | (now, Start) => start now self
  | (now, Stop) => stop now self
  | (_, Reset) => reset self
  | (now, Read) => snd (get_total_time now self)
  end.

Definition run (calls : list (Q * op)) : t := fold_left step calls init.

(** The same calls as the specification tells them: the running intervals
    completed since the last reset, and the start of the one in progress. *)
Record history := mkhistory { completed : list (Q * Q); since : option Q }.

Definition record (h : history) (call : Q * op) : history :=
  match call, since h with
  | (now, Start), None => mkhistory (completed h) (Some now)
  | (now, Stop), Some s => mkhistory (completed h ++ [(s, now)]) None
  | (_, Reset), _ => mkhistory [] None
  | _, _ => h
  end.

Definition history_of (calls : list (Q * op)) : history :=
  fold_left record calls (mkhistory [] None).

Definition interval_sum (l : list (Q * Q)) : Q :=
  fold_right (fun i acc => (snd i - fst i) + acc)%Q 0%Q l.

Definition elapsed_spec (now : Q) (h : history) : Q :=
  (interval_sum (completed h) +
   match since h with Some s => now - s | None => 0 end)%Q.

Definition is_running (h : history) : bool :=
  match since h with Some _ => true | None => false end.

(** The timer and the history agree after every call. *)
Definition agrees (self : t) (h : history) : Prop :=
  start_time self = since h /\ running self = is_running h /\
  (total_time self == interval_sum (completed h))%Q.

End TimerTrace.

(** ** Doubles, as the Standard Library specifies them *)

(** The number a finite float of the library's specification of IEEE 754
    stands for, as a reduced fraction. *)
Definition SF2Q (f : SpecFloat.spec_float) : option Q :=
  match f with
  | SpecFloat.S754_zero _ => Some 0%Q
  | SpecFloat.S754_finite s m e =>
      Some (Qred ((if s then -1 else 1) * inject_Z (Zpos m) * 2 ^ e))
  | _ => None
  end.

(** [m * 2 ** e] rounded to binary64: 53 bits, exponents below 1024. *)
Definition b64 (m e : Z) : SpecFloat.spec_float :=
  SpecFloat.binary_normalize 53 1024 m e false.

(** ** Totals of a period *)

(** The duration of a session, in seconds. *)
Definition duration_of (s : session) : Q := num_of (default VNone (s !! "duration")).

(** The seconds practised over a list of sessions. *)
Definition total_duration (l : list session) : Q :=
  fold_right (fun s acc => duration_of s + acc)%Q 0%Q l.

(** The sessions the first loop of [calculate_period_stats] keeps. *)
Definition kept_sessions (period_type : string) (now : date) (l : list session)
  : list session :=
  List.filter (fun s => match session_date s with
                        | Ok d => period_keeps period_type now d
                        | Raise _ => false
                        end) l.

(** The exception a session raises when its date is read and parsed. *)
Definition date_error (s : session) : exn :=
  match s !! "date" with
  | None => KeyError
  | Some (VStr _) => ValueError
  | Some _ => TypeError
  end.

(** The total a period is credited with, as [update_progress] computes it:
    [sum(duration for _, duration in calculate_period_stats(sessions, period))]. *)
Definition period_total (now : date) (sessions : list session) (period : string)
  : result value :=
  rbind (calculate_period_stats now sessions period) (fun data => py_sum (map snd data)).

(** Two sessions of 2024-01-08, ten and five minutes, and one of the day before. *)
Definition stats_example : list session :=
  [timed_session "2024-01-08" 600; timed_session "2024-01-07" 60;
   timed_session "2024-01-08" 300].

(** The [duration] of a session ([None] when it has none). *)
Definition duration_value (s : session) : value := default VNone (s !! "duration").

(** [first + x1 + x2 + ...], from the left, as [+=] accumulates it. *)
Definition add_all (first : value) (rest : list value) : result value :=
  fold_left (fun acc x => rbind acc (fun a => py_add a x)) rest (Ok first).

(** The seconds of a list of sessions, signs dropped. *)
Definition gross_duration (l : list session) : Q :=
  fold_right (fun s acc => Qabs (duration_of s) + acc)%Q 0%Q l.

(** The [int] a value is to [+], if it is one. *)
Definition as_int (v : value) : option Z :=
  match v with
  | VInt z => Some z
  | VBool b => Some (Z.b2z b)
  | _ => None
  end.

(** The value is an [int] to [+]. *)
Definition int_like (v : value) : bool :=
  match as_int v with
  | Some _ => true
  | None => false
  end.

(** The [duration] of the session is an [int]. *)
Definition has_int_duration (s : session) : bool := int_like (duration_value s).

(** The magnitude of a value that is an [int] to [+], [0] for a float. *)
Definition int_abs (v : value) : Q :=
  match as_int v with
  | Some z => Qabs (inject_Z z)
  | None => 0%Q
  end.

(** The float an operand of [+] is widened to next to a float. *)
Definition widen (v : value) : Q :=
  match v with
  | VInt z => round64 (inject_Z z)
  | _ => num_of v
  end.

(** What one rounded sum may lose when its operands are within
    [2 * gross + 2 ** -1022] together: [2 ** -53] of that, and [2 ** -1075]
    where the doubles are evenly spaced. *)
Definition sum_slack (gross : Q) : Q := (gross * 2 ^ (-52) + 2 ^ (-1074))%Q.

(** [f x1 + f x2 + ...] *)
Definition sumQ {A} (f : A -> Q) (l : list A) : Q :=
  fold_right (fun x acc => f x + acc)%Q 0%Q l.

(** The test of the first loop of [calculate_period_stats] on a date
    string. *)
Definition key_keeps (period_type : string) (now : date) (k : string) : bool :=
  match strptime_ymd k with
  | Ok d => period_keeps period_type now d
  | Raise _ => false
  end.

(** A session of a date whose duration is the float Python reads from a
    decimal text: the double nearest it. *)
Definition float_session (k : string) (seconds : Q) : session :=
  {[ "date" := VStr k; "duration" := VFloat (round64 seconds) ]}.

(** Sessions of 45.7, 55.1 and 2599.2 seconds on one day, in two orders. *)
Definition float_example : list session :=
  [float_session "2024-01-08" (457 # 10); float_session "2024-01-08" (551 # 10);
   float_session "2024-01-08" (25992 # 10)].

Definition float_example_reordered : list session :=
  [float_session "2024-01-08" (25992 # 10); float_session "2024-01-08" (551 # 10);
   float_session "2024-01-08" (457 # 10)].

(** An [int] duration beyond [2 ** 53] the day after a float. *)
Definition wide_int_example : list session :=
  [float_session "2024-01-07" 0; timed_session "2024-01-08" (2 ^ 53 + 1)].


(** ** Streaks: more examples *)

(** The sessions of the streak example in another order, one of them
    dropped: the same days. *)
Definition streak_example_shuffled : list session :=
  [dated_session "2024-01-06"; dated_session "2024-01-08"; dated_session "2024-01-07"].

(** The streak example as [calculate_streak] leaves it. *)
Definition streak_example_sorted : list session :=
  [dated_session "2024-01-08"; dated_session "2024-01-08";
   dated_session "2024-01-07"; dated_session "2024-01-06"].

(** A session without a date between two dated ones. *)
Definition undated_example : list session :=
  [dated_session "2024-01-07"; ∅; dated_session "2024-01-08"].

(** ** Records of the store *)

(** The dict [save_session] leaves behind for a session [d] dated [dt]. *)
Definition saved_record (d : session) (dt : date) : session :=
  <["year" := VInt (year dt)]>
    (<["month" := VInt (month dt)]>
       (<["week" := VInt (isoweek dt)]> (with_defaults d))).

(** The record has the four keys [load_sessions] fills in. *)
Definition has_defaults (d : session) : bool :=
  forallb (fun k => bool_decide (is_Some (d !! k)))
          ["composer"; "work"; "movement"; "notes"].

(** Every element of the list [sessions] is a dict that has the four keys. *)
Definition normalised (w : world) : Prop :=
  Forall (fun l => exists d, objs w !! l = Some d /\ has_defaults d = true) (sessions w).

(** A value is a record that has the four keys. *)
Definition normal_record (v : value) : Prop :=
  exists d, v = VDict d /\ has_defaults d = true.

(** A store holding one earlier record and, not yet in the list, the dict of
    a new session. *)
Definition save_example : world :=
  mkworld (<[1%nat := timed_session "2024-01-08" 600]>
             {[ 0%nat := timed_session "2024-01-07" 60 ]})
          [0%nat] FileMissing [].

(** A store whose list is empty, with the dict of a first session. *)
Definition first_save_example : world :=
  mkworld {[ 0%nat := timed_session "2024-01-08" 600 ]} [] FileMissing [].

(** An empty store. *)
Definition empty_store : world := mkworld ∅ [] FileMissing [].

(** ** The clock of a PracticeTimer *)

(** The calls are made at clock readings that never go back, none before [t]. *)
Fixpoint chronological (t : Q) (calls : list (Q * TimerTrace.op)) : Prop :=
  match calls with
  | [] => True
  | (t', _) :: rest => (t <= t')%Q /\ chronological t' rest
  end.

(** The reading of the last call, [t] when there is none. *)
Definition last_reading (t : Q) (calls : list (Q * TimerTrace.op)) : Q :=
  fold_left (fun _ call => fst call) calls t.

(** What a chronological run keeps true of a timer first touched at [t0],
    seen at the reading [tl] of the last call. *)
Definition timer_within (t0 tl : Q) (self : PracticeTimer.t) : Prop :=
  (0 <= PracticeTimer.total_time self)%Q /\
  match PracticeTimer.start_time self with
  | Some s => PracticeTimer.running self = true /\ (t0 <= s)%Q /\ (s <= tl)%Q /\
              (PracticeTimer.total_time self <= s - t0)%Q
  | None => PracticeTimer.running self = false /\ (PracticeTimer.total_time self <= tl - t0)%Q
  end.

(** A start at 10, a stop at 12 and a start at 20. *)
Definition timer_example : list (Q * TimerTrace.op) :=
  [(10%Q, TimerTrace.Start); (12%Q, TimerTrace.Stop); (20%Q, TimerTrace.Start)].

(** ** The metronome and the countdown *)

(** What the user does with the metronome tab: the two buttons, and any
    other caller of [set_bpm]. *)
Inductive press := Increase | Decrease | SetBpm (bpm : Z).

Definition press_step (m : Metronome.t) (p : press) : Metronome.t :=
  match p with
  | Increase => fst (MetronomoTab.increase_bpm m)
  | Decrease => fst (MetronomoTab.decrease_bpm m)
  | SetBpm bpm => Metronome.set_bpm bpm m
  end.

Definition after_presses (presses : list press) : Metronome.t :=
  fold_left press_step presses Metronome.init.

(** Only the two buttons. *)
Definition is_button (p : press) : bool :=
  match p with
  | SetBpm _ => false
  | _ => true
  end.

(** The texts a countdown shows from [n - 1] down to [n - count]. *)
Definition countdown_texts (n : Z) (count : nat) : list CountdownThread.event :=
  map (fun i => CountdownThread.Update (CountdownTimer.format_time (n - 1 - Z.of_nat i)))
      (seq 0 count).

(** ** The stopwatch button *)

(** The tab after a start at [t1] from its initial state. *)
Definition started_tab (t1 : Q) (text : string) : CronometroTab.t :=
  CronometroTab.mk (PracticeTimer.start t1 PracticeTimer.init) (VStr text).

(** A press at ten o'clock on 2024-01-08 and a press ten minutes later. *)
Definition press_example : CronometroTab.clock :=
  CronometroTab.mkclock 36000 "2024-01-08T10:00:00" (mkdate 2024 1 8).

Definition release_example : CronometroTab.clock :=
  CronometroTab.mkclock 36600 "2024-01-08T10:10:00" (mkdate 2024 1 8).

Definition fields_example : CronometroTab.fields :=
  CronometroTab.mkfields "Bach" "Suite 1" EmptyString "slow".

(** ** The groups of the Logs tab *)

(** [d.get(k)] on a dict in insertion order. *)
Fixpoint assoc {V} (k : string) (d : list (string * V)) : option V :=
  match d with
  | [] => None
  | (k', v) :: rest => if String.eqb k k' then Some v else assoc k rest
  end.

(** The list of sessions shown under a composer, a work and a movement
    (empty when there is no such entry). *)
Definition leaf (grouped : LogsTab.composers) (c w m : string) : list session :=
  match assoc c grouped with
  | Some works =>
      match assoc w works with
      | Some movements => default [] (assoc m movements)
      | None => []
      end
  | None => []
  end.

(** The session goes under composer [c], work [w] and movement [m]. *)
Definition has_labels (c w m : string) (s : session) : bool :=
  String.eqb (LogsTab.group_label s "composer") c &&
  String.eqb (LogsTab.group_label s "work") w &&
  String.eqb (LogsTab.group_label s "movement") m.

(** The key of a session in the sort, when it is a tuple of [str]. *)
Definition log_key (s : session) : list string :=
  default [] (all_str (LogsTab.sort_key s)).

(** The last two places of the key: date and start time. *)
Definition recency (s : session) : list string := drop 3 (log_key s).

(** [a] may stand before [b] in descending order of keys. *)
Definition log_desc (a b : session) : Prop :=
  LogsTab.tuple_ltb (log_key a) (log_key b) = false.

(** [a] is not older than [b]: descending order of date, then start time. *)
Definition recent_first (a b : session) : Prop :=
  LogsTab.tuple_ltb (recency a) (recency b) = false.

(** The three names of the session are [str] and not empty, as
    [save_session] leaves them for a session the stopwatch built. *)
Definition named (s : session) : bool :=
  match s !! "composer", s !! "work", s !! "movement" with
  | Some (VStr c), Some (VStr w), Some (VStr m) =>
      negb (String.eqb c EmptyString) && negb (String.eqb w EmptyString) &&
      negb (String.eqb m EmptyString)
  | _, _, _ => false
  end.

(** Every key of every level occurs once. *)
Definition distinct_keys (grouped : LogsTab.composers) : Prop :=
  NoDup (map fst grouped) /\
  forall c works, In (c, works) grouped ->
    NoDup (map fst works) /\
    forall w movements, In (w, movements) works -> NoDup (map fst movements).

(** What the grouping loop keeps true, in terms of [assoc]. *)
Definition groups_ok (g : LogsTab.composers) : Prop :=
  NoDup (map fst g) /\
  forall c works, assoc c g = Some works ->
    NoDup (map fst works) /\
    forall w movements, assoc w works = Some movements ->
      NoDup (map fst movements) /\
      forall m session_list, assoc m movements = Some session_list -> session_list <> [].

(** A session with a composer and a date. *)
Definition log_session (composer date : string) : session :=
  {[ "composer" := VStr composer; "date" := VStr date ]}.

(** Three sessions, two of one composer. *)
Definition bach_7 : session := log_session "Bach" "2024-01-07".
Definition bach_8 : session := log_session "Bach" "2024-01-08".
Definition chopin_8 : session := log_session "Chopin" "2024-01-08".

(** Two sessions of one movement. *)
Definition gigue_7 : session :=
  {[ "composer" := VStr "Bach"; "work" := VStr "Suite";
     "movement" := VStr "Gigue"; "date" := VStr "2024-01-07" ]}.
Definition gigue_8 : session :=
  {[ "composer" := VStr "Bach"; "work" := VStr "Suite";
     "movement" := VStr "Gigue"; "date" := VStr "2024-01-08" ]}.

(** A session without a composer name and an older one of ["Unknown"]. *)
Definition blank_feb : session := log_session EmptyString "2024-02-01".
Definition unknown_jan : session := log_session "Unknown" "2024-01-01".

(* ===================================================================== *)
(** * The model on examples *)
(* ===================================================================== *)

Example strptime_example :
  strptime_ymd "2024-01-08" = Ok (mkdate 2024 1 8) /\
  strptime_ymd "2024-1-8" = Ok (mkdate 2024 1 8) /\
  strptime_ymd "2024-02-30" = Raise ValueError /\
  strptime_ymd "2024-01-32" = Raise ValueError /\
  strptime_ymd "0000-01-01" = Raise ValueError /\
  strptime_ymd "08/01/2024" = Raise ValueError /\
  isoformat (mkdate 2024 1 8) = "2024-01-08" /\
  toordinal (mkdate 2024 1 8) = 738893 /\
  isoweek (mkdate 2024 1 8) = 2 /\
  isoweek (mkdate 2024 12 30) = 1 /\
  isoweek (mkdate 2021 1 3) = 53.
Proof. vm_compute. repeat split; reflexivity. Qed.

Example format_examples :
  CountdownTimer.format_time 1 = "00:00:01" /\
  CountdownTimer.format_time 3661 = "01:01:01" /\
  CountdownTimer.format_time 360000 = "100:00:00" /\
  generate_progress_bar 50 20 = "[##########..........] 50.0%" /\
  generate_progress_bar 150 20 = "[##############################] 150.0%" /\
  generate_progress_bar (1 # 3) 20 = "[....................] 0.3%" /\
  Dec.format_zero_pad 3 (-5) = "-05" /\
  Dec.str_int (-120) = "-120".
Proof. vm_compute. repeat split; reflexivity. Qed.

(** [round64] against the specification of IEEE 754 in the Standard
    Library, at binary64: the quotient and the product of both
    [calculate_progress], sums, [int] widened, the subnormal range with its
    ties, and the cell count of a bar as the floats give it. *)
Example round64_is_binary64 :
  let div := SpecFloat.SFdiv 53 1024 in
  let mul := SpecFloat.SFmul 53 1024 in
  let add := SpecFloat.SFadd 53 1024 in
  SF2Q (div (b64 20700 0) (b64 18000 0)) = Some (round64 (20700 / 18000)) /\
  SF2Q (mul (div (b64 20700 0) (b64 18000 0)) (b64 100 0))
    = Some (calculate_progress "daily" 20700) /\
  SF2Q (mul (div (b64 5 0) (b64 300 0)) (b64 100 0))
    = Some (calculate_progress_shadowed "daily" 5) /\
  SF2Q (add (div (b64 457 0) (b64 10 0)) (div (b64 551 0) (b64 10 0)))
    = Some (round64 (round64 (457 # 10) + round64 (551 # 10))) /\
  SF2Q (add (b64 (-3) 0) (div (b64 1 0) (b64 3 0)))
    = Some (round64 (-3 + round64 (1 # 3))) /\
  SF2Q (b64 (2 ^ 53 + 1) 0) = Some (round64 (inject_Z (2 ^ 53 + 1))) /\
  SF2Q (b64 (2 ^ 54 + 3) 0) = Some (round64 (inject_Z (2 ^ 54 + 3))) /\
  SF2Q (b64 3 (-1076)) = Some (round64 (3 * 2 ^ (-1076))) /\
  SF2Q (b64 1 (-1075)) = Some (round64 (2 ^ (-1075))) /\
  SF2Q (b64 3 (-1075)) = Some (round64 (3 * 2 ^ (-1075))) /\
  SF2Q (b64 (2 ^ 53 - 1) 970) = Some (round64 (inject_Z (2 ^ 53 - 1) * 2 ^ 970)) /\
  option_map py_int
    (SF2Q (div (mul (mul (div (b64 20700 0) (b64 18000 0)) (b64 100 0)) (b64 20 0))
               (b64 100 0)))
    = Some (py_int (calculate_progress "daily" 20700 * inject_Z 20 / 100)).
Proof. vm_compute. repeat split; reflexivity. Qed.

(** Durations are summed per date, the dates in the order they were first
    met; a session outside the window does not count. *)
Example calculate_period_stats_example :
  calculate_period_stats (mkdate 2024 1 8)
    [timed_session "2024-01-08" 600; timed_session "2024-01-07" 300;
     timed_session "2023-12-31" 900; timed_session "2024-01-08" 60] "weekly"
  = Ok [("2024-01-08", VInt 660); ("2024-01-07", VInt 300)] /\
  calculate_period_stats (mkdate 2024 1 8) [] "weekly" = Ok [] /\
  calculate_period_stats (mkdate 2024 1 8) [dated_session "8 Jan"] "weekly"
  = Raise ValueError.
Proof. vm_compute. repeat split; reflexivity. Qed.

(** A save that goes through: the session gets its defaults and its week,
    month and year, joins the list, and the file holds the whole list. *)
Example save_session_example :
  let s : session := {[ "date" := VStr "2024-01-08"; "duration" := VInt 600;
                        "composer" := VStr EmptyString ]} in
  let saved : session :=
    {[ "date" := VStr "2024-01-08"; "duration" := VInt 600;
       "composer" := VStr "Unknown"; "work" := VStr "Unknown";
       "movement" := VStr "Unknown"; "notes" := VStr EmptyString;
       "week" := VInt 2; "month" := VInt 1; "year" := VInt 2024 ]} in
  save_session WriteOk 0%nat (mkworld {[ 0%nat := s ]} [] FileMissing []) =
  (Ok tt, mkworld {[ 0%nat := saved ]} [0%nat] (FileText (Some (VList [VDict saved])))
            [LogTryingSave; LogSessionSaved saved]) /\
  fst (load_sessions (FileText (Some (VList [VDict saved])))) = VList [VDict saved].
Proof. vm_compute. split; reflexivity. Qed.

(** A write that fails after the append: the list has grown, the file has not
    the list, and the caller sees no exception. *)
Example save_session_write_fails :
  let s : session := {[ "date" := VStr "2024-01-08" ]} in
  exists w',
    save_session OpenFails 0%nat (mkworld {[ 0%nat := s ]} [] FileMissing []) = (Ok tt, w') /\
    sessions w' = [0%nat] /\ file w' = FileMissing.
Proof. eexists. vm_compute. repeat split; reflexivity. Qed.

(* ===================================================================== *)
(** * Decimal text *)
(* ===================================================================== *)

Lemma digit_val_char (d : Z) : 0 <= d <= 9 -> Dec.digit_val (Dec.digit_char d) = Some d.
Proof.
  intros H.
  assert (d = 0 \/ d = 1 \/ d = 2 \/ d = 3 \/ d = 4 \/ d = 5 \/ d = 6 \/ d = 7
          \/ d = 8 \/ d = 9) as Hd by lia.
  repeat (destruct Hd as [-> | Hd]; [reflexivity |]). subst. reflexivity.
Qed.

Lemma value_of_digits_snoc acc cs c :
  Dec.value_of_digits acc (cs ++ [c]) =
  match Dec.value_of_digits acc cs, Dec.digit_val c with
  | Some v, Some d => Some (10 * v + d)
  | _, _ => None
  end.
Proof.
  revert acc. induction cs as [| c' cs IH]; intros acc; simpl.
  - destruct (Dec.digit_val c); reflexivity.
  - destruct (Dec.digit_val c'); [apply IH | reflexivity].
Qed.

Lemma digits_rev_S f n :
  Dec.digits_rev (S f) n =
  if n <? 10 then [n] else (n mod 10) :: Dec.digits_rev f (n / 10).
Proof. reflexivity. Qed.

(** With fuel enough for the size of [n], the digits are digits, read back
    as [n], are one for [n < 10] and otherwise at least two with a leading
    digit that is not zero. *)
Lemma digits_rev_spec fuel : forall n,
  0 <= n < 2 ^ Z.of_nat (S fuel) ->
  let ds := Dec.digits_rev (S fuel) n in
  Forall (fun d => 0 <= d <= 9) ds /\
  Dec.value_of_digits 0 (map Dec.digit_char (rev ds)) = Some n /\
  (n < 10 -> ds = [n]) /\
  (10 <= n -> (2 <= length ds)%nat /\ exists d ds', rev ds = d :: ds' /\ 1 <= d).
Proof.
  induction fuel as [| f IH]; intros n Hn ds; subst ds;
    rewrite digits_rev_S; destruct (Z.ltb_spec n 10) as [Hlt | Hge].
  - split; [| split; [| split]]; [| | reflexivity | lia].
    + constructor; [lia | constructor].
    + cbn. rewrite digit_val_char by lia. f_equal; lia.
  - change (2 ^ Z.of_nat 1) with 2 in Hn. lia.
  - split; [| split; [| split]]; [| | reflexivity | lia].
    + constructor; [lia | constructor].
    + cbn. rewrite digit_val_char by lia. f_equal; lia.
  - assert (0 <= n / 10 < 2 ^ Z.of_nat (S f)) as Hq.
    { rewrite (Nat2Z.inj_succ (S f)), Z.pow_succ_r in Hn by lia.
      split; [apply Z.div_pos; lia |].
      apply Z.div_lt_upper_bound; lia. }
    destruct (IH _ Hq) as (Hall & Hval & Hsmall & Hbig).
    assert (0 <= n mod 10 < 10) as Hm by (apply Z.mod_pos_bound; lia).
    split; [| split; [| split]].
    + constructor; [lia | exact Hall].
    + cbn [rev]. rewrite map_app. cbn [map]. rewrite value_of_digits_snoc, Hval.
      rewrite digit_val_char by lia.
      f_equal. pose proof (Z.div_mod n 10). lia.
    + lia.
    + intros _. split.
      * cbn [length].
        destruct (Z.ltb_spec (n / 10) 10) as [H1 | H1].
        -- rewrite (Hsmall H1). simpl. lia.
        -- destruct (Hbig H1) as [Hl _]. lia.
      * cbn [rev]. destruct (Z.ltb_spec (n / 10) 10) as [H1 | H1].
        -- rewrite (Hsmall H1). cbn. exists (n / 10), [n mod 10]. split; [reflexivity |].
           apply Z.div_le_lower_bound; lia.
        -- destruct (Hbig H1) as [_ (d & ds' & E & Hd)]. rewrite E.
           exists d, (ds' ++ [n mod 10]). split; [reflexivity | exact Hd].
Qed.

Lemma log2_fuel n : 0 <= n -> 0 <= n < 2 ^ Z.of_nat (S (Z.to_nat (Z.log2 n))).
Proof.
  intros H. split; [exact H |].
  rewrite Nat2Z.inj_succ, Z2Nat.id by apply Z.log2_nonneg.
  destruct (Z.eq_dec n 0) as [-> | Hne]; [reflexivity |].
  apply Z.log2_spec. lia.
Qed.

Lemma digits_spec n :
  0 <= n ->
  Forall (fun d => 0 <= d <= 9) (Dec.digits n) /\
  Dec.value_of_digits 0 (map Dec.digit_char (Dec.digits n)) = Some n /\
  (n < 10 -> Dec.digits n = [n]) /\
  (10 <= n -> (2 <= length (Dec.digits n))%nat /\
              exists d ds, Dec.digits n = d :: ds /\ 1 <= d).
Proof.
  intros Hn. unfold Dec.digits.
  destruct (digits_rev_spec _ n (log2_fuel n Hn)) as (Hall & Hval & Hsmall & Hbig).
  split; [apply Forall_rev; exact Hall |]. split; [exact Hval |].
  split; [intros H; rewrite (Hsmall H); reflexivity |].
  intros H. destruct (Hbig H) as [Hlen Hhd]. split; [rewrite length_rev; exact Hlen | exact Hhd].
Qed.

(** Fuel beyond what the number needs changes nothing. *)
Lemma digits_rev_fuel f : forall f' n,
  0 <= n < 2 ^ Z.of_nat (S f) -> n < 2 ^ Z.of_nat (S f') ->
  Dec.digits_rev (S f) n = Dec.digits_rev (S f') n.
Proof.
  induction f as [| f IH]; intros f' n Hn Hn'; rewrite !digits_rev_S;
    destruct (Z.ltb_spec n 10) as [Hlt | Hge]; try reflexivity.
  - change (2 ^ Z.of_nat 1) with 2 in Hn. lia.
  - destruct f' as [| f']; [change (2 ^ Z.of_nat 1) with 2 in Hn'; lia |].
    f_equal. rewrite (Nat2Z.inj_succ (S f)), Z.pow_succ_r in Hn by lia.
    rewrite (Nat2Z.inj_succ (S f')), Z.pow_succ_r in Hn' by lia.
    apply IH.
    + split; [apply Z.div_pos; lia | apply Z.div_lt_upper_bound; lia].
    + apply Z.div_lt_upper_bound; lia.
Qed.

Lemma digits_small n : 0 <= n < 10 -> Dec.digits n = [n].
Proof.
  intros Hn. unfold Dec.digits. rewrite digits_rev_S.
  destruct (Z.ltb_spec n 10); [reflexivity | lia].
Qed.

Lemma digits_step n : 10 <= n -> Dec.digits n = Dec.digits (n / 10) ++ [n mod 10].
Proof.
  intros Hn. unfold Dec.digits. rewrite digits_rev_S.
  destruct (Z.ltb_spec n 10) as [? | _]; [lia |]. cbn [rev]. f_equal. f_equal.
  assert (0 <= n / 10) as Hq by (apply Z.div_pos; lia).
  pose proof (log2_fuel (n / 10) Hq) as Hfq.
  pose proof (log2_fuel n ltac:(lia)) as Hfn.
  rewrite Nat2Z.inj_succ, Z.pow_succ_r in Hfn by lia.
  assert (3 <= Z.log2 n) as Hlog.
  { change 3 with (Z.log2 8). apply Z.log2_le_mono. lia. }
  destruct (Z.to_nat (Z.log2 n)) as [| L] eqn:EL; [lia |].
  apply digits_rev_fuel; [| apply Hfq].
  split; [exact Hq |]. apply Z.div_lt_upper_bound; lia.
Qed.

Lemma string_of_list_length l : String.length (string_of_list_ascii l) = length l.
Proof. induction l as [| c l IH]; cbn; [reflexivity | rewrite IH; reflexivity]. Qed.

Lemma string_of_list_app a b :
  string_of_list_ascii (a ++ b) = string_of_list_ascii a +:+ string_of_list_ascii b.
Proof.
  induction a as [| c a IH]; [reflexivity |].
  cbn [app string_of_list_ascii]. rewrite IH. reflexivity.
Qed.

(** A non-negative number under ["0w"]: zeros, then its digits. *)
Lemma format_zero_pad_digits w n :
  0 <= n ->
  Dec.format_zero_pad w n =
  string_of_list_ascii
    (repeat "0"%char (w - length (Dec.digits n)) ++ map Dec.digit_char (Dec.digits n)).
Proof.
  intros Hn. unfold Dec.format_zero_pad, Dec.str_nonneg.
  destruct (Z.ltb_spec n 0) as [? | _]; [lia |].
  rewrite Z.abs_eq by exact Hn. change (EmptyString +:+ ?x) with x.
  rewrite string_of_list_length, length_map, string_of_list_app.
  cbn [String.length]. rewrite Nat.sub_0_r. reflexivity.
Qed.

Lemma format_zero_pad_2 n : 0 <= n < 100 -> Dec.format_zero_pad 2 n = two_chars n.
Proof.
  intros Hn. rewrite format_zero_pad_digits by lia. unfold two_chars.
  destruct (Z_lt_le_dec n 10) as [H1 | H1].
  - rewrite digits_small by lia. cbn.
    replace (n / 10) with 0 by (Z.div_mod_to_equations; lia).
    replace (n mod 10) with n by (Z.div_mod_to_equations; lia). reflexivity.
  - rewrite digits_step by lia.
    rewrite digits_small by (Z.div_mod_to_equations; lia). reflexivity.
Qed.

Lemma format_zero_pad_4 n : 0 <= n < 10000 -> Dec.format_zero_pad 4 n = four_chars n.
Proof.
  intros Hn. rewrite format_zero_pad_digits by lia. unfold four_chars, two_chars.
  destruct (Z_lt_le_dec n 10) as [H1 | H1];
    [| destruct (Z_lt_le_dec n 100) as [H2 | H2];
       [| destruct (Z_lt_le_dec n 1000) as [H3 | H3]]].
  - rewrite digits_small by lia. cbn.
    replace (n / 1000) with 0 by (Z.div_mod_to_equations; lia).
    replace (n / 100 mod 10) with 0 by (Z.div_mod_to_equations; lia).
    replace (n mod 100 / 10) with 0 by (Z.div_mod_to_equations; lia).
    replace (n mod 100 mod 10) with n by (Z.div_mod_to_equations; lia). reflexivity.
  - rewrite digits_step by lia.
    rewrite digits_small by (Z.div_mod_to_equations; lia). cbn.
    replace (n / 1000) with 0 by (Z.div_mod_to_equations; lia).
    replace (n / 100 mod 10) with 0 by (Z.div_mod_to_equations; lia).
    replace (n mod 100 / 10) with (n / 10) by (Z.div_mod_to_equations; lia).
    replace (n mod 100 mod 10) with (n mod 10) by (Z.div_mod_to_equations; lia).
    reflexivity.
  - rewrite digits_step by lia.
    rewrite (digits_step (n / 10)) by (Z.div_mod_to_equations; lia).
    rewrite digits_small by (Z.div_mod_to_equations; lia). cbn.
    replace (n / 1000) with 0 by (Z.div_mod_to_equations; lia).
    replace (n / 100 mod 10) with (n / 10 / 10) by (Z.div_mod_to_equations; lia).
    replace (n mod 100 / 10) with (n / 10 mod 10) by (Z.div_mod_to_equations; lia).
    replace (n mod 100 mod 10) with (n mod 10) by (Z.div_mod_to_equations; lia).
    reflexivity.
  - rewrite digits_step by lia.
    rewrite (digits_step (n / 10)) by (Z.div_mod_to_equations; lia).
    rewrite (digits_step (n / 10 / 10)) by (Z.div_mod_to_equations; lia).
    rewrite digits_small by (Z.div_mod_to_equations; lia). cbn.
    replace (n / 1000) with (n / 10 / 10 / 10) by (Z.div_mod_to_equations; lia).
    replace (n / 100 mod 10) with (n / 10 / 10 mod 10) by (Z.div_mod_to_equations; lia).
    replace (n mod 100 / 10) with (n / 10 mod 10) by (Z.div_mod_to_equations; lia).
    replace (n mod 100 mod 10) with (n mod 10) by (Z.div_mod_to_equations; lia).
    reflexivity.
Qed.

Lemma list_ascii_app a b :
  list_ascii_of_string (a +:+ b) = list_ascii_of_string a ++ list_ascii_of_string b.
Proof.
  induction a as [| c a IH]; [reflexivity |].
  cbv [String.append]. fold String.append. cbn [list_ascii_of_string app].
  f_equal. apply IH.
Qed.

Lemma string_length_list s : String.length s = length (list_ascii_of_string s).
Proof. induction s as [| c s IH]; cbn; [reflexivity | rewrite IH; reflexivity]. Qed.

Lemma value_of_digits_zeros k cs :
  Dec.value_of_digits 0 (repeat "0"%char k ++ cs) = Dec.value_of_digits 0 cs.
Proof. induction k as [| k IH]; [reflexivity | exact IH]. Qed.

(** A non-negative number formatted with ["0w"]: digits only, at least [w] of
    them and no more than the number needs, reading back as the number. *)
Lemma format_zero_pad_nonneg w n :
  0 <= n ->
  Dec.int_of_digit_string (Dec.format_zero_pad w n) = Some n /\
  String.length (Dec.format_zero_pad w n) = Nat.max w (length (Dec.digits n)).
Proof.
  intros Hn. destruct (digits_spec n Hn) as (Hall & Hval & Hsmall & Hbig).
  unfold Dec.format_zero_pad, Dec.str_nonneg.
  destruct (Z.ltb_spec n 0) as [? | _]; [lia |].
  rewrite Z.abs_eq by exact Hn.
  change (EmptyString +:+ ?x) with x.
  set (ds := map Dec.digit_char (Dec.digits n)) in *.
  assert (length ds = length (Dec.digits n)) as Hlen by apply length_map.
  assert (ds <> []) as Hne.
  { intros E. rewrite E in Hval. cbn in Hval. injection Hval as <-.
    rewrite E in Hlen. rewrite (Hsmall ltac:(lia)) in Hlen. discriminate. }
  split.
  - unfold Dec.int_of_digit_string.
    rewrite list_ascii_app, !list_ascii_of_string_of_list_ascii.
    match goal with |- context [repeat "0"%char ?k] => generalize k end. intros k.
    destruct (repeat _ _ ++ ds) eqn:E.
    + apply app_eq_nil in E as [_ E]. contradiction.
    + rewrite <- E, value_of_digits_zeros. exact Hval.
  - rewrite (string_length_list (_ +:+ _)), list_ascii_app.
    rewrite (string_length_list (string_of_list_ascii ds)).
    rewrite !list_ascii_of_string_of_list_ascii.
    rewrite length_app, repeat_length. cbn [String.length]. lia.
Qed.

(* ===================================================================== *)
(** * Dates: order, day numbers and text agree *)
(* ===================================================================== *)

Lemma digit_char_compare a b :
  0 <= a <= 9 -> 0 <= b <= 9 ->
  Ascii.compare (Dec.digit_char a) (Dec.digit_char b) = (a ?= b).
Proof.
  intros Ha Hb. unfold Ascii.compare, Dec.digit_char.
  rewrite !N_ascii_embedding by lia.
  rewrite Z2N.inj_compare by lia.
  apply Z.add_compare_mono_l.
Qed.

Lemma valid_date_bounds d :
  valid_date d = true ->
  1 <= year d <= 9999 /\ 1 <= month d <= 12 /\
  1 <= day d <= days_in_month (year d) (month d).
Proof. unfold valid_date. rewrite !andb_true_iff, !Z.leb_le. lia. Qed.

Lemma days_in_month_le_31 y m : days_in_month y m <= 31.
Proof.
  unfold days_in_month, DAYS_IN_MONTH.
  destruct ((m =? 2) && is_leap y); [lia |].
  generalize (Z.to_nat m) as k. intros k.
  do 13 (destruct k as [| k]; [simpl; lia |]). simpl. destruct k; lia.
Qed.

Lemma isoformat_chars d :
  valid_date d = true ->
  isoformat d =
  four_chars (year d) +:+ "-" +:+ two_chars (month d) +:+ "-" +:+ two_chars (day d).
Proof.
  intros H. apply valid_date_bounds in H as (Hy & Hm & Hd).
  pose proof (days_in_month_le_31 (year d) (month d)).
  unfold isoformat.
  rewrite format_zero_pad_4, !format_zero_pad_2 by lia. reflexivity.
Qed.

Lemma two_digit_compare a1 a0 b1 b0 :
  0 <= a1 <= 9 -> 0 <= a0 <= 9 -> 0 <= b1 <= 9 -> 0 <= b0 <= 9 ->
  match a1 ?= b1 with Eq => a0 ?= b0 | c => c end = (10 * a1 + a0 ?= 10 * b1 + b0).
Proof.
  intros. symmetry.
  destruct (Z.compare_spec a1 b1); [destruct (Z.compare_spec a0 b0) |..];
    first [ apply Z.compare_eq_iff | apply Z.compare_lt_iff | apply Z.compare_gt_iff ]; lia.
Qed.

(** Python compares the date strings; on ISO strings that is the order of
    the dates. *)
Lemma string_compare_isoformat a b :
  valid_date a = true -> valid_date b = true ->
  String.compare (isoformat a) (isoformat b) = date_compare a b.
Proof.
  intros Ha Hb. rewrite !isoformat_chars by assumption.
  apply valid_date_bounds in Ha as (Hya & Hma & Hda).
  apply valid_date_bounds in Hb as (Hyb & Hmb & Hdb).
  pose proof (days_in_month_le_31 (year a) (month a)).
  pose proof (days_in_month_le_31 (year b) (month b)).
  unfold date_compare, four_chars, two_chars.
  cbv [String.append String.compare].
  assert (forall n k, 0 <= n -> 0 <= n / k mod 10 <= 9) as Hdig.
  { intros n k _. pose proof (Z.mod_pos_bound (n / k) 10). lia. }
  assert (forall n, 0 <= n mod 10 <= 9) as Hdig0.
  { intros n. pose proof (Z.mod_pos_bound n 10). lia. }
  assert (forall n, 0 <= n < 10000 -> 0 <= n / 1000 <= 9) as Hdig3.
  { intros n Hn. split; [apply Z.div_pos; lia |].
    assert (n / 1000 < 10) by (apply Z.div_lt_upper_bound; lia). lia. }
  assert (forall n, 0 <= n < 100 -> 0 <= n / 10 <= 9) as Hdig1.
  { intros n Hn. split; [apply Z.div_pos; lia |].
    assert (n / 10 < 10) by (apply Z.div_lt_upper_bound; lia). lia. }
  assert (forall n, 0 <= n mod 100 / 10 <= 9) as Hdig1'.
  { intros n. apply Hdig1. apply Z.mod_pos_bound. lia. }
  rewrite !digit_char_compare by first [apply Hdig0 | apply Hdig3; lia
     | apply Hdig1; lia | apply Hdig1' | apply Hdig; lia].
  change (Ascii.compare "-" "-") with Eq. cbv iota.
  set (ya := year a) in *. set (yb := year b) in *.
  set (ma := month a) in *. set (mb := month b) in *.
  set (da := day a) in *. set (db := day b) in *.
  assert (forall n, 0 <= n < 10000 ->
     n = 1000 * (n / 1000) + 100 * (n / 100 mod 10) + 10 * (n mod 100 / 10) + n mod 100 mod 10) as Hy4.
  { intros n Hn. Z.div_mod_to_equations. lia. }
  assert (forall n, 0 <= n < 100 -> n = 10 * (n / 10) + n mod 10) as Hy2.
  { intros n Hn. Z.div_mod_to_equations. lia. }
  pose proof (Hy4 ya ltac:(lia)) as Eya.
  pose proof (Hy4 yb ltac:(lia)) as Eyb.
  pose proof (Hy2 ma ltac:(lia)) as Ema. pose proof (Hy2 mb ltac:(lia)) as Emb.
  pose proof (Hy2 da ltac:(lia)) as Eda. pose proof (Hy2 db ltac:(lia)) as Edb.
  pose proof (Hdig3 ya ltac:(lia)). pose proof (Hdig3 yb ltac:(lia)).
  pose proof (Hdig ya 100 ltac:(lia)). pose proof (Hdig yb 100 ltac:(lia)).
  pose proof (Hdig1' ya). pose proof (Hdig1' yb).
  pose proof (Hdig0 (ya mod 100)). pose proof (Hdig0 (yb mod 100)).
  pose proof (Hdig1 ma ltac:(lia)). pose proof (Hdig1 mb ltac:(lia)).
  pose proof (Hdig0 ma). pose proof (Hdig0 mb).
  pose proof (Hdig1 da ltac:(lia)). pose proof (Hdig1 db ltac:(lia)).
  pose proof (Hdig0 da). pose proof (Hdig0 db).
  generalize dependent (ya / 1000). generalize dependent (yb / 1000).
  generalize dependent (ya / 100 mod 10). generalize dependent (yb / 100 mod 10).
  generalize dependent (ya mod 100 / 10). generalize dependent (yb mod 100 / 10).
  generalize dependent (ya mod 100 mod 10). generalize dependent (yb mod 100 mod 10).
  generalize dependent (ma / 10). generalize dependent (mb / 10).
  generalize dependent (ma mod 10). generalize dependent (mb mod 10).
  generalize dependent (da / 10). generalize dependent (db / 10).
  generalize dependent (da mod 10). generalize dependent (db mod 10).
  clear. intros.
  repeat match goal with
  | |- context [?x ?= ?y] =>
      is_var x; is_var y;
      destruct (Z.compare_spec x y); [subst x | |]
  end;
  repeat match goal with
  | |- context [?x ?= ?y] => destruct (Z.compare_spec x y)
  end; try reflexivity; exfalso; lia.
Qed.

Lemma days_before_year_succ y :
  days_before_year (y + 1) = days_before_year y + 365 + leap_day y.
Proof.
  unfold days_before_year, leap_day, is_leap.
  replace (y + 1 - 1) with (y - 1 + 1) by lia.
  destruct (Z.eqb_spec (y mod 4) 0), (Z.eqb_spec (y mod 100) 0),
    (Z.eqb_spec (y mod 400) 0); cbn [andb orb negb];
    Z.div_mod_to_equations; lia.
Qed.

Lemma days_before_year_mono y1 y2 :
  y1 <= y2 -> days_before_year y1 <= days_before_year y2.
Proof.
  intros H. replace y2 with (y1 + Z.of_nat (Z.to_nat (y2 - y1))) by lia.
  induction (Z.to_nat (y2 - y1)) as [| n IH]; [rewrite Z.add_0_r; lia |].
  rewrite Nat2Z.inj_succ.
  replace (y1 + Z.succ (Z.of_nat n)) with (y1 + Z.of_nat n + 1) by lia.
  rewrite days_before_year_succ. unfold leap_day. destruct (is_leap _); lia.
Qed.

(** The day of the year of a valid date lies in the year. *)
Lemma day_of_year_bounds y m d :
  1 <= m <= 12 -> 1 <= d <= days_in_month y m ->
  1 <= days_before_month y m + d <= 365 + leap_day y.
Proof.
  intros Hm Hd. unfold days_before_month, days_in_month, leap_day in *.
  assert (m = 1 \/ m = 2 \/ m = 3 \/ m = 4 \/ m = 5 \/ m = 6 \/ m = 7 \/ m = 8
          \/ m = 9 \/ m = 10 \/ m = 11 \/ m = 12) as Hcases by lia.
  destruct (is_leap y);
    repeat (destruct Hcases as [-> | Hcases]; [table_compute; lia |]);
    subst; table_compute; lia.
Qed.

Lemma month_day_order y m1 d1 m2 d2 :
  1 <= m1 -> m1 < m2 -> m2 <= 12 ->
  1 <= d1 <= days_in_month y m1 -> 1 <= d2 ->
  days_before_month y m1 + d1 < days_before_month y m2 + d2.
Proof.
  intros H1 H2 H3 Hd1 Hd2. unfold days_before_month, days_in_month in *.
  assert (m1 = 1 \/ m1 = 2 \/ m1 = 3 \/ m1 = 4 \/ m1 = 5 \/ m1 = 6 \/ m1 = 7
          \/ m1 = 8 \/ m1 = 9 \/ m1 = 10 \/ m1 = 11) as C1 by lia.
  assert (m2 = 2 \/ m2 = 3 \/ m2 = 4 \/ m2 = 5 \/ m2 = 6 \/ m2 = 7
          \/ m2 = 8 \/ m2 = 9 \/ m2 = 10 \/ m2 = 11 \/ m2 = 12) as C2 by lia.
  destruct (is_leap y);
    repeat (destruct C1 as [-> | C1]);
    try subst m1;
    repeat (destruct C2 as [-> | C2]; [table_compute; lia |]);
    subst; table_compute; lia.
Qed.

(** The order of valid dates is the order of their day numbers. *)
Lemma date_compare_toordinal a b :
  valid_date a = true -> valid_date b = true ->
  date_compare a b = (toordinal a ?= toordinal b).
Proof.
  intros Ha Hb.
  apply valid_date_bounds in Ha as (Hya & Hma & Hda).
  apply valid_date_bounds in Hb as (Hyb & Hmb & Hdb).
  unfold date_compare, toordinal, ymd2ord.
  pose proof (day_of_year_bounds _ _ _ Hma Hda) as Ba.
  pose proof (day_of_year_bounds _ _ _ Hmb Hdb) as Bb.
  symmetry.
  destruct (Z.compare_spec (year a) (year b)) as [Ey | Ly | Ly].
  - rewrite Ey in *.
    destruct (Z.compare_spec (month a) (month b)) as [Em | Lm | Lm].
    + rewrite Em. destruct (Z.compare_spec (day a) (day b));
        first [ apply Z.compare_eq_iff | apply Z.compare_lt_iff | apply Z.compare_gt_iff ]; lia.
    + apply Z.compare_lt_iff.
      pose proof (month_day_order (year b) (month a) (day a) (month b) (day b)). lia.
    + apply Z.compare_gt_iff.
      pose proof (month_day_order (year b) (month b) (day b) (month a) (day a)). lia.
  - apply Z.compare_lt_iff.
    pose proof (days_before_year_mono (year a + 1) (year b) ltac:(lia)).
    rewrite days_before_year_succ in *. lia.
  - apply Z.compare_gt_iff.
    pose proof (days_before_year_mono (year b + 1) (year a) ltac:(lia)).
    rewrite days_before_year_succ in *. lia.
Qed.

Lemma toordinal_inj a b :
  valid_date a = true -> valid_date b = true ->
  toordinal a = toordinal b -> a = b.
Proof.
  intros Ha Hb E. pose proof (date_compare_toordinal a b Ha Hb) as H.
  rewrite E, Z.compare_refl in H. unfold date_compare in H.
  destruct a as [ya ma da], b as [yb mb db]; cbn in *.
  destruct (Z.compare_spec ya yb); try discriminate.
  destruct (Z.compare_spec ma mb); try discriminate.
  apply Z.compare_eq_iff in H. congruence.
Qed.

Lemma is_digit_in_char lo hi a :
  0 <= a <= 9 -> lo <= a <= hi -> is_digit_in lo hi (Dec.digit_char a) = Some a.
Proof.
  intros Ha Hr. unfold is_digit_in. rewrite digit_val_char by exact Ha.
  destruct (Z.leb_spec lo a), (Z.leb_spec a hi); try lia. reflexivity.
Qed.

Lemma re_year_chars {A} y rest (k : Z -> list ascii -> option A) :
  0 <= y < 10000 ->
  re_year (list_ascii_of_string (four_chars y) ++ rest) k = k y rest.
Proof.
  intros Hy. unfold re_year, two_digits, four_chars, two_chars.
  cbn [list_ascii_of_string app].
  assert (0 <= y / 1000 <= 9) by (Z.div_mod_to_equations; lia).
  assert (0 <= y / 100 mod 10 <= 9) by (Z.div_mod_to_equations; lia).
  assert (0 <= y mod 100 / 10 <= 9) by (Z.div_mod_to_equations; lia).
  assert (0 <= y mod 100 mod 10 <= 9) by (Z.div_mod_to_equations; lia).
  rewrite !is_digit_in_char by lia. f_equal.
  Z.div_mod_to_equations; lia.
Qed.

Lemma re_month_day_chars {A} (K : Z -> Z -> A) m d :
  1 <= m <= 12 -> 1 <= d <= 31 ->
  re_month (list_ascii_of_string (two_chars m +:+ "-" +:+ two_chars d))
    (fun m' r3 => literal "-"%char r3 (fun r4 =>
       re_day r4 (fun d' rest => Some (K m' d', rest)))) = Some (K m d, []).
Proof.
  intros Hm Hd.
  replace m with (1 + Z.of_nat (Z.to_nat (m - 1))) by lia.
  replace d with (1 + Z.of_nat (Z.to_nat (d - 1))) by lia.
  assert (Z.to_nat (m - 1) < 12)%nat as Hm' by lia.
  assert (Z.to_nat (d - 1) < 31)%nat as Hd' by lia.
  revert Hm' Hd'. generalize (Z.to_nat (m - 1)) as i, (Z.to_nat (d - 1)) as j.
  clear. intros i j Hi Hj.
  do 12 (destruct i as [| i]; [
    do 31 (destruct j as [| j]; [vm_compute; reflexivity |]); exfalso; lia |]).
  exfalso; lia.
Qed.

(** Parsing what [isoformat] printed gives the date back. *)
Lemma strptime_isoformat d :
  valid_date d = true -> strptime_ymd (isoformat d) = Ok d.
Proof.
  intros Hv. pose proof Hv as Hb. apply valid_date_bounds in Hb as (Hy & Hm & Hd).
  pose proof (days_in_month_le_31 (year d) (month d)).
  unfold strptime_ymd. rewrite isoformat_chars by exact Hv.
  assert (forall a b, list_ascii_of_string (a +:+ b)
                      = list_ascii_of_string a ++ list_ascii_of_string b) as Happ.
  { induction a as [| c a IH]; intros b; [reflexivity |].
    cbv [String.append]. fold String.append. cbn [list_ascii_of_string app].
    f_equal. apply IH. }
  unfold re_match_ymd. rewrite Happ, re_year_chars by lia.
  rewrite Happ. cbn [list_ascii_of_string app literal].
  change (Ascii.eqb "-" "-") with true. cbv iota.
  rewrite (re_month_day_chars (mkdate (year d))) by lia.
  destruct d as [y m dd]; cbn [year month day] in *. rewrite Hv. reflexivity.
Qed.

Lemma strptime_ymd_valid s d : strptime_ymd s = Ok d -> valid_date d = true.
Proof.
  unfold strptime_ymd. destruct (re_match_ymd _) as [[d' [| c r]] |]; try discriminate.
  destruct (valid_date d') eqn:E; [| discriminate]. intros [= <-]. exact E.
Qed.

Lemma iso_date_string_inv k :
  iso_date_string k = true ->
  exists d, strptime_ymd k = Ok d /\ valid_date d = true /\ k = isoformat d.
Proof.
  unfold iso_date_string. destruct (strptime_ymd k) as [d |] eqn:E; [| discriminate].
  intros H. apply String.eqb_eq in H. exists d.
  split; [reflexivity |]. split; [eapply strptime_ymd_valid; eassumption | congruence].
Qed.

Lemma iso_ltb k1 k2 :
  iso_date_string k1 = true -> iso_date_string k2 = true ->
  String.ltb k1 k2 = (key_day k1 <? key_day k2).
Proof.
  intros H1 H2.
  destruct (iso_date_string_inv _ H1) as (d1 & E1 & V1 & ->).
  destruct (iso_date_string_inv _ H2) as (d2 & E2 & V2 & ->).
  unfold key_day, String.ltb. rewrite E1, E2.
  rewrite string_compare_isoformat, date_compare_toordinal by assumption.
  unfold Z.ltb. reflexivity.
Qed.

Lemma has_iso_date_inv s :
  has_iso_date s = true ->
  s !! "date" = Some (VStr (date_str s)) /\ iso_date_string (date_str s) = true /\
  exists d, session_date s = Ok d /\ toordinal d = key_day (date_str s).
Proof.
  unfold has_iso_date, date_str, session_date, dict_item.
  destruct (s !! "date") as [[| | | | k | |] |]; try discriminate.
  intros H. split; [reflexivity |]. split; [exact H |].
  destruct (iso_date_string_inv _ H) as (d & E & _ & _).
  exists d. cbn. unfold key_day. rewrite E. split; reflexivity.
Qed.

Lemma session_day_iso s :
  has_iso_date s = true -> session_day s = Some (key_day (date_str s)).
Proof.
  intros H. destruct (has_iso_date_inv _ H) as (_ & _ & d & E & Hd).
  unfold session_day. rewrite E, Hd. reflexivity.
Qed.

(* ===================================================================== *)
(** * calculate_streak: the sort *)
(* ===================================================================== *)

Lemma insert_desc_perm x l : Permutation (insert_desc x l) (x :: l).
Proof.
  induction l as [| y l IH]; cbn; [reflexivity |].
  destruct (String.ltb _ _); [| reflexivity].
  rewrite IH. apply perm_swap.
Qed.

Lemma sort_desc_perm l : Permutation (sort_desc l) l.
Proof.
  induction l as [| x l IH]; cbn; [reflexivity |].
  rewrite insert_desc_perm. constructor. exact IH.
Qed.

Lemma sort_desc_cons x l : sort_desc (x :: l) = insert_desc x (sort_desc l).
Proof. reflexivity. Qed.

Lemma insert_desc_sorted x l :
  iso_key x -> Forall iso_key l ->
  StronglySorted day_ge l -> StronglySorted day_ge (insert_desc x l).
Proof.
  intros Hx Hl Hs. induction Hs as [| y l Hs IH Hy]; cbn.
  - repeat constructor.
  - inversion Hl as [| ? ? Hiy Hil]; subst.
    rewrite (iso_ltb _ _ Hx Hiy).
    destruct (Z.ltb_spec (key_day (fst x)) (key_day (fst y))) as [Hlt | Hge].
    + constructor; [apply IH; exact Hil |].
      eapply Permutation_Forall; [symmetry; apply insert_desc_perm |].
      constructor; [unfold day_ge; lia | exact Hy].
    + constructor; [constructor; assumption |].
      constructor; [unfold day_ge; lia |].
      eapply Forall_impl; [exact Hy |]. unfold day_ge. intros; lia.
Qed.

Lemma sort_desc_sorted l :
  Forall iso_key l -> StronglySorted day_ge (sort_desc l).
Proof.
  induction 1 as [| x l Hx Hl IH]; cbn; [constructor |].
  apply insert_desc_sorted; [exact Hx | | exact IH].
  eapply Permutation_Forall; [symmetry; apply sort_desc_perm | exact Hl].
Qed.

Lemma ltb_irrefl k : String.ltb k k = false.
Proof.
  unfold String.ltb. destruct (String.compare k k) eqn:E; try reflexivity.
  pose proof (String.compare_antisym k k) as H. rewrite E in H. discriminate.
Qed.

Lemma ltb_asym a b : String.ltb a b = true -> String.ltb b a = false.
Proof.
  unfold String.ltb. rewrite (String.compare_antisym a b).
  destruct (String.compare b a); cbn; congruence.
Qed.

Lemma insert_desc_hd x l : HdRel key_desc x l -> insert_desc x l = x :: l.
Proof.
  destruct 1 as [| y l H]; cbn; [reflexivity |].
  unfold key_desc in H. rewrite H. reflexivity.
Qed.

Lemma insert_desc_Sorted x l : Sorted key_desc l -> Sorted key_desc (insert_desc x l).
Proof.
  induction 1 as [| y l Hs IH Hy]; cbn; [repeat constructor |].
  destruct (String.ltb (fst x) (fst y)) eqn:E.
  - constructor; [exact IH |].
    destruct Hy as [| z l Hz]; cbn.
    + constructor. apply ltb_asym, E.
    + destruct (String.ltb (fst x) (fst z)); constructor;
        [exact Hz | apply ltb_asym, E].
  - constructor; [constructor; assumption | constructor; exact E].
Qed.

Lemma sort_desc_Sorted l : Sorted key_desc (sort_desc l).
Proof.
  induction l as [| x l IH]; [constructor |].
  rewrite sort_desc_cons. apply insert_desc_Sorted, IH.
Qed.

(** A list already in descending order comes back as it was. *)
Lemma sort_desc_id l : Sorted key_desc l -> sort_desc l = l.
Proof.
  induction 1 as [| x l Hs IH Hx]; [reflexivity |].
  rewrite sort_desc_cons, IH. apply insert_desc_hd, Hx.
Qed.

Lemma insert_desc_filter k x l :
  List.filter (fun p => String.eqb (fst p) k) (insert_desc x l) =
  List.filter (fun p => String.eqb (fst p) k) (x :: l).
Proof.
  induction l as [| y l IH]; [reflexivity |]. cbn [insert_desc].
  destruct (String.ltb (fst x) (fst y)) eqn:E; [| reflexivity].
  cbn [List.filter] in *. rewrite IH.
  destruct (String.eqb_spec (fst x) k) as [Ex | Nx];
    destruct (String.eqb_spec (fst y) k) as [Ey | Ny]; try reflexivity.
  rewrite Ex, Ey, ltb_irrefl in E. discriminate.
Qed.

(** The sort is stable: the elements of one key keep their order. *)
Lemma sort_desc_filter k l :
  List.filter (fun p => String.eqb (fst p) k) (sort_desc l) =
  List.filter (fun p => String.eqb (fst p) k) l.
Proof.
  induction l as [| x l IH]; [reflexivity |].
  rewrite sort_desc_cons, insert_desc_filter. cbn [List.filter]. rewrite IH. reflexivity.
Qed.

Lemma all_str_map (l : list session) :
  all_str (map (fun s => VStr (date_str s)) l) = Some (map date_str l).
Proof. induction l as [| s l IH]; cbn; [reflexivity | rewrite IH; reflexivity]. Qed.

Lemma combine_map_self {A B} (f : A -> B) (l : list A) :
  combine (map f l) l = map (fun a => (f a, a)) l.
Proof. induction l as [| a l IH]; cbn; [reflexivity | rewrite IH; reflexivity]. Qed.

Lemma sort_keys_of_str l :
  forallb has_str_date l = true ->
  sort_keys l = Ok (map (fun s => VStr (date_str s)) l).
Proof.
  induction l as [| s l IH]; cbn; [reflexivity |].
  intros H. apply andb_prop in H as [Hs Hl]. rewrite (IH Hl).
  unfold has_str_date in Hs. unfold dict_item, date_str.
  destruct (s !! "date") as [[| | | | k | |] |]; try discriminate. reflexivity.
Qed.

Lemma sort_keys_not_str l :
  forallb has_str_date l = false ->
  match sort_keys l with
  | Ok keys => all_str keys = None
  | Raise _ => True
  end.
Proof.
  induction l as [| s l IH]; cbn; [discriminate |].
  unfold has_str_date at 1, dict_item.
  destruct (s !! "date") as [v |]; cbn; [| trivial].
  destruct (sort_keys l) as [ks |]; cbn; [| trivial].
  destruct v; cbn; try reflexivity.
  intros H. rewrite (IH H). reflexivity.
Qed.

Lemma sorted_sessions_perm l : Permutation (sorted_sessions l) l.
Proof.
  unfold sorted_sessions. rewrite sort_desc_perm. unfold keyed.
  rewrite map_map. cbn. rewrite map_id. reflexivity.
Qed.

Lemma keyed_sorted_fst l :
  Forall (fun p : string * session => fst p = date_str (snd p)) (sort_desc (keyed l)).
Proof.
  eapply Permutation_Forall; [symmetry; apply sort_desc_perm |].
  unfold keyed. apply List.Forall_forall. intros p Hp.
  apply in_map_iff in Hp as (s & <- & _). reflexivity.
Qed.

Lemma keyed_map_snd L :
  Forall (fun p : string * session => fst p = date_str (snd p)) L ->
  keyed (map snd L) = L.
Proof.
  induction 1 as [| [k s] L Hp HL IH]; [reflexivity |].
  unfold keyed in *. cbn in *. rewrite IH. subst k. reflexivity.
Qed.

Lemma map_snd_keyed l : map snd (keyed l) = l.
Proof. unfold keyed. rewrite map_map. cbn. apply map_id. Qed.

Lemma keyed_sorted_sessions l : keyed (sorted_sessions l) = sort_desc (keyed l).
Proof. apply keyed_map_snd, keyed_sorted_fst. Qed.

Lemma Sorted_keyed l : Sorted key_desc (keyed l) <-> Sorted date_desc l.
Proof.
  induction l as [| s l IH]; cbn; [split; constructor |].
  split; intros H; inversion H as [| ? ? Hs Hh]; subst; constructor;
    try (apply IH; exact Hs);
    destruct l; cbn in *; constructor; inversion Hh; subst; assumption.
Qed.

Lemma filter_keyed k l :
  map snd (List.filter (fun p => String.eqb (fst p) k) (keyed l)) = List.filter (dated k) l.
Proof.
  induction l as [| s l IH]; [reflexivity |].
  change (keyed (s :: l)) with ((date_str s, s) :: keyed l).
  cbn [List.filter fst]. unfold dated at 1.
  destruct (String.eqb (date_str s) k); cbn [map snd]; rewrite IH; reflexivity.
Qed.

Lemma sorted_sessions_stable k l :
  List.filter (dated k) (sorted_sessions l) = List.filter (dated k) l.
Proof.
  rewrite <- !filter_keyed, keyed_sorted_sessions, sort_desc_filter. reflexivity.
Qed.

Lemma sorted_sessions_Sorted l : Sorted date_desc (sorted_sessions l).
Proof. apply Sorted_keyed. rewrite keyed_sorted_sessions. apply sort_desc_Sorted. Qed.

Lemma sorted_sessions_fix l : sorted_sessions l = l <-> Sorted date_desc l.
Proof.
  split.
  - intros <-. apply sorted_sessions_Sorted.
  - intros H. unfold sorted_sessions. rewrite sort_desc_id by (apply Sorted_keyed, H).
    apply map_snd_keyed.
Qed.

Lemma sorted_sessions_days l :
  Forall (fun s => has_iso_date s = true) l ->
  StronglySorted Z.ge (map day_of_session (sorted_sessions l)).
Proof.
  intros Hl. unfold sorted_sessions.
  assert (Forall iso_key (keyed l)) as Hk.
  { unfold keyed. apply List.Forall_forall. intros p Hp.
    apply in_map_iff in Hp as (s & <- & Hs).
    rewrite List.Forall_forall in Hl. unfold iso_key. cbn.
    apply (has_iso_date_inv _ (Hl _ Hs)). }
  pose proof (sort_desc_sorted _ Hk) as Hs.
  pose proof (keyed_sorted_fst l) as Hf.
  induction Hs as [| p L Hs IH Hp]; cbn; [constructor |].
  inversion Hf as [| ? ? Hfp HfL]; subst.
  constructor; [apply IH; exact HfL |].
  apply List.Forall_forall. intros t Ht.
  apply in_map_iff in Ht as (s & <- & Hs').
  apply in_map_iff in Hs' as (q & <- & Hq).
  rewrite List.Forall_forall in Hp, HfL.
  specialize (Hp _ Hq). specialize (HfL _ Hq).
  unfold day_ge, day_of_session in *. rewrite <- Hfp, <- HfL. exact Hp.
Qed.

(** The list after the call: sorted when every date is a string; as it was
    when a date is missing or the list has one element; not determined when
    the sort met a date that is not a string. *)
Lemma calculate_streak_state l :
  snd (calculate_streak l) =
  if forallb has_str_date l then Some (sorted_sessions l)
  else match l with [_] => Some l | _ => match sort_keys l with
                                         | Ok _ => None
                                         | Raise _ => Some l
                                         end end.
Proof.
  destruct (forallb has_str_date l) eqn:E.
  - unfold calculate_streak. destruct l as [| s l]; [reflexivity |].
    rewrite sort_keys_of_str, all_str_map, combine_map_self by exact E. reflexivity.
  - pose proof (sort_keys_not_str l E) as H. unfold calculate_streak.
    destruct l as [| s l]; [discriminate |].
    destruct (sort_keys (s :: l)) as [keys |].
    + rewrite H. destruct l; reflexivity.
    + destruct l; reflexivity.
Qed.

Lemma dated_session_inj a b : dated_session a = dated_session b -> a = b.
Proof.
  intros E. apply (f_equal (fun m : gmap string value => m !! "date")) in E.
  unfold dated_session in E. rewrite !lookup_singleton_eq in E. congruence.
Qed.

(** C8, as the code has it.  [calculate_streak] sorts the list it is given in
    place.  Whenever the call leaves the list in a state [l'] the model
    determines, [l'] holds the same sessions as before (a permutation:
    nothing added, dropped or altered), and the sessions of any one date are
    in the order they had.  When every session has a string [date], [l'] is
    in descending order of date string, and it equals the list before the
    call exactly when that list already was. *)
Theorem calculate_streak_sorts_in_place (sessions l' : list session) :
  snd (calculate_streak sessions) = Some l' ->
  Permutation sessions l' /\
  (forall k, List.filter (dated k) l' = List.filter (dated k) sessions) /\
  (forallb has_str_date sessions = true ->
     Sorted date_desc l' /\ (l' = sessions <-> Sorted date_desc sessions)).
Proof.
  rewrite calculate_streak_state.
  destruct (forallb has_str_date sessions) eqn:E.
  - intros [= <-]. split; [symmetry; apply sorted_sessions_perm |].
    split; [intros k; apply sorted_sessions_stable |].
    intros _. split; [apply sorted_sessions_Sorted | apply sorted_sessions_fix].
  - intros H. assert (l' = sessions) as ->.
    { destruct sessions as [| s [| s' l]]; [discriminate E | congruence |].
      destruct (sort_keys _); congruence. }
    split; [reflexivity |]. split; [reflexivity | discriminate].
Qed.

(** C8 at a list of 2024-01-01 followed by 2024-01-02. *)
Lemma calculate_streak_sorts_in_place_witness :
  snd (calculate_streak [dated_session "2024-01-01"; dated_session "2024-01-02"])
  = Some [dated_session "2024-01-02"; dated_session "2024-01-01"] /\
  Permutation [dated_session "2024-01-01"; dated_session "2024-01-02"]
              [dated_session "2024-01-02"; dated_session "2024-01-01"].
Proof.
  assert (snd (calculate_streak [dated_session "2024-01-01"; dated_session "2024-01-02"])
          = Some [dated_session "2024-01-02"; dated_session "2024-01-01"]) as H
    by (vm_compute; reflexivity).
  split; [exact H |]. exact (proj1 (calculate_streak_sorts_in_place _ _ H)).
Defined.

(** C8 as stated fails on a list of 2024-01-01 followed by 2024-01-02: the
    call leaves the two sessions in the opposite order. *)
Lemma calculate_streak_reorders_input :
  snd (calculate_streak [dated_session "2024-01-01"; dated_session "2024-01-02"])
  = Some [dated_session "2024-01-02"; dated_session "2024-01-01"] /\
  snd (calculate_streak [dated_session "2024-01-01"; dated_session "2024-01-02"])
  <> Some [dated_session "2024-01-01"; dated_session "2024-01-02"].
Proof.
  assert (snd (calculate_streak [dated_session "2024-01-01"; dated_session "2024-01-02"])
          = Some [dated_session "2024-01-02"; dated_session "2024-01-01"]) as H
    by (vm_compute; reflexivity).
  split; [exact H |]. rewrite H. intros E.
  assert (dated_session "2024-01-02" = dated_session "2024-01-01") as E1 by congruence.
  apply dated_session_inj in E1. discriminate E1.
Qed.

(* ===================================================================== *)
(** * calculate_streak: the walk *)
(* ===================================================================== *)

Lemma advances_nonneg prev days : 0 <= advances prev days.
Proof.
  revert prev. induction days as [| c rest IH]; intros prev; cbn; [lia |].
  destruct (_ =? 1); [specialize (IH c); lia |].
  destruct (_ =? 0); [apply IH | lia].
Qed.

(** On days in descending order, none after [prev], the walk counts how far
    the days [prev - 1], [prev - 2], ... are all present. *)
Lemma advances_run days : forall prev,
  StronglySorted Z.ge days -> Forall (fun c => c <= prev) days ->
  (forall i, 1 <= i <= advances prev days -> In (prev - i) days) /\
  ~ In (prev - advances prev days - 1) days.
Proof.
  induction days as [| c rest IH]; intros prev Hs Hle; cbn.
  - split; [intros i Hi; lia | tauto].
  - inversion Hs as [| ? ? Hs' Hc]; subst. inversion Hle as [| ? ? Hcp Hrest]; subst.
    assert (Forall (fun x => x <= c) rest) as Hrc.
    { eapply Forall_impl; [exact Hc |]. intros; cbn in *; lia. }
    destruct (Z.eqb_spec (prev - c) 1) as [E1 | N1].
    + destruct (IH c Hs' Hrc) as [Hin Hout].
      pose proof (advances_nonneg c rest).
      split.
      * intros i Hi. destruct (Z.eq_dec i 1) as [-> | Hne]; [left; lia |].
        right. replace (prev - i) with (c - (i - 1)) by lia. apply Hin. lia.
      * intros [Hc' | Hr]; [lia |].
        apply Hout. replace (c - advances c rest - 1)
          with (prev - (1 + advances c rest) - 1) by lia. exact Hr.
    + destruct (Z.eqb_spec (prev - c) 0) as [E0 | N0].
      * destruct (IH prev Hs' Hrest) as [Hin Hout].
        pose proof (advances_nonneg prev rest).
        split.
        -- intros i Hi. right. apply Hin. exact Hi.
        -- intros [Hc' | Hr]; [lia | exact (Hout Hr)].
      * split; [intros i Hi; lia |].
        rewrite Z.sub_0_r. intros [Hc' | Hr]; [lia |].
        rewrite List.Forall_forall in Hrc. specialize (Hrc _ Hr). lia.
Qed.

(** The loop of the code on sessions that all carry an ISO date is the walk
    on their days. *)
Lemma streak_loop_advances l : forall prev n,
  Forall (fun s => has_iso_date s = true) l ->
  streak_loop prev n l =
  Ok (n + advances (toordinal prev) (map (fun s => key_day (date_str s)) l)).
Proof.
  induction l as [| s l IH]; intros prev n Hl; cbn.
  - f_equal. lia.
  - inversion Hl as [| ? ? Hs Hl']; subst.
    destruct (has_iso_date_inv _ Hs) as (Hd & _ & d & Ed & Hord).
    unfold session_date in Ed. unfold dict_item in *. rewrite Hd in *. cbn in Ed |- *.
    rewrite Ed. cbn. unfold days_between. rewrite Hord.
    destruct (_ =? 1).
    + rewrite IH by exact Hl'. rewrite Hord. f_equal. lia.
    + destruct (_ =? 0); [apply IH; exact Hl' | f_equal; lia].
Qed.

Lemma forallb_Forall_iso l :
  forallb has_iso_date l = true -> Forall (fun s => has_iso_date s = true) l.
Proof. intros H. apply List.Forall_forall. apply forallb_forall, H. Qed.

Lemma sort_keys_iso l :
  Forall (fun s => has_iso_date s = true) l ->
  sort_keys l = Ok (map (fun s => VStr (date_str s)) l).
Proof.
  induction 1 as [| s l Hs Hl IH]; cbn; [reflexivity |].
  destruct (has_iso_date_inv _ Hs) as (Hd & _).
  unfold dict_item. rewrite Hd. cbn. rewrite IH. reflexivity.
Qed.

Lemma calculate_streak_str l :
  l <> [] -> Forall (fun s => has_iso_date s = true) l ->
  calculate_streak l = (streak_of_sorted (sorted_sessions l), Some (sorted_sessions l)).
Proof.
  intros Hne Hl. unfold calculate_streak. destruct l as [| s l]; [congruence |].
  rewrite sort_keys_iso by exact Hl. rewrite all_str_map, combine_map_self. reflexivity.
Qed.

Lemma elem_of_days_of l t :
  Forall (fun s => has_iso_date s = true) l ->
  t ∈ days_of l <-> In t (map day_of_session l).
Proof.
  intros Hl. unfold days_of. rewrite elem_of_list_to_set, list_elem_of_omap.
  rewrite List.Forall_forall in Hl. split.
  - intros (s & Hs & Hd). apply list_elem_of_In in Hs.
    rewrite (session_day_iso _ (Hl _ Hs)) in Hd. injection Hd as <-.
    apply (in_map day_of_session). exact Hs.
  - intros Ht. apply in_map_iff in Ht as (s & <- & Hs).
    exists s. split; [apply list_elem_of_In; exact Hs | apply session_day_iso, Hl, Hs].
Qed.

Lemma omap_session_day l :
  Forall (fun s => has_iso_date s = true) l ->
  omap session_day l = map day_of_session l.
Proof.
  induction 1 as [| s l Hs Hl IH]; [reflexivity |].
  cbn. rewrite (session_day_iso _ Hs), IH. reflexivity.
Qed.

Lemma days_of_nil_empty : days_of [] = ∅.
Proof. reflexivity. Qed.

Lemma elem_of_three (t a b c : Z) :
  t ∈ ({[a; b; c]} : gset Z) <-> t = a \/ t = b \/ t = c.
Proof. rewrite !elem_of_union, !elem_of_singleton. tauto. Qed.

Lemma elem_of_two (t a b : Z) : t ∈ ({[a; b]} : gset Z) <-> t = a \/ t = b.
Proof. rewrite elem_of_union, !elem_of_singleton. tauto. Qed.

Lemma calculate_streak_run l :
  l <> [] -> Forall (fun s => has_iso_date s = true) l ->
  exists k T,
    fst (calculate_streak l) = Ok k /\ 1 <= k /\
    (forall t, t ∈ days_of l -> t <= T) /\
    (forall i, 0 <= i < k -> T - i ∈ days_of l) /\
    (T - k ∉ days_of l) /\
    (exists days, Permutation days (map day_of_session l) /\
                  StronglySorted Z.ge days /\ k = advances T days + 1).
Proof.
  intros Hne Hl. rewrite calculate_streak_str by assumption. cbn [fst].
  pose proof (sorted_sessions_perm l) as Hperm.
  pose proof (sorted_sessions_days l Hl) as Hsorted.
  assert (Forall (fun s => has_iso_date s = true) (sorted_sessions l)) as Hiso.
  { eapply Permutation_Forall; [symmetry; exact Hperm | exact Hl]. }
  assert (forall t, t ∈ days_of l <-> In t (map day_of_session (sorted_sessions l))) as Hmem.
  { intros t. rewrite elem_of_days_of by exact Hl. split; apply Permutation_in;
      [symmetry |]; apply Permutation_map; exact Hperm. }
  destruct (sorted_sessions l) as [| s0 rest] eqn:Es.
  { apply Permutation_nil in Hperm. congruence. }
  set (days := map day_of_session (s0 :: rest)) in *.
  exists (advances (day_of_session s0) days + 1), (day_of_session s0).
  inversion Hiso as [| ? ? Hs0 Hrest]; subst.
  destruct (has_iso_date_inv _ Hs0) as (Hd & _ & d0 & Ed & Hord).
  assert (Forall (fun c => c <= day_of_session s0) days) as Hle.
  { subst days. cbn [map] in *. inversion Hsorted as [| ? ? _ Hhd]; subst.
    constructor; [lia |]. eapply Forall_impl; [exact Hhd |]. intros; cbn in *; lia. }
  destruct (advances_run days (day_of_session s0) Hsorted Hle) as [Hin Hout].
  pose proof (advances_nonneg (day_of_session s0) days) as Hnn.
  split; [| split; [lia | split; [| split; [| split]]]].
  - unfold streak_of_sorted. unfold session_date in Ed.
    destruct (dict_item s0 "date") as [v |]; [| discriminate]. cbn [rbind] in Ed |- *.
    rewrite Ed. cbn [rbind]. rewrite streak_loop_advances by exact Hiso. cbn [rbind].
    rewrite Hord. reflexivity.
  - intros t Ht. apply Hmem in Ht. rewrite List.Forall_forall in Hle. apply Hle, Ht.
  - intros i Hi. apply Hmem. destruct (Z.eq_dec i 0) as [-> | Hi0].
    + rewrite Z.sub_0_r. left. reflexivity.
    + apply Hin. lia.
  - intros Ht. apply Hmem in Ht. apply Hout.
    replace (day_of_session s0 - advances (day_of_session s0) days - 1)
      with (day_of_session s0 - (advances (day_of_session s0) days + 1)) by lia.
    exact Ht.
  - exists days. split; [| split; [exact Hsorted | reflexivity]].
    subst days. apply Permutation_map. exact Hperm.
Qed.

(** C1.  On sessions whose [date] is an ISO date string, [calculate_streak]
    returns [0] for the empty collection.  For a non-empty one it returns
    [advances T days + 1], where [days] are the session days in descending
    order and [T], their head, is the most recent: the walk goes back from
    [T], skips a repeated day, counts an advance of one day, and stops at the
    first wider gap.  That number [k] is the length of the run of consecutive
    days ending at [T]: each of [T], [T - 1], ..., [T - (k - 1)] has a
    session and [T - k] has none.  In particular sessions dated exactly
    [T], [T - 1], [T - 2] give [3] and sessions dated exactly [T], [T - 2]
    give [1]. *)
Theorem calculate_streak_counts_consecutive_days (sessions : list session) :
  forallb has_iso_date sessions = true ->
  exists k,
    fst (calculate_streak sessions) = Ok k /\
    (sessions = [] -> k = 0) /\
    (sessions <> [] ->
       exists T days,
         Permutation days (omap session_day sessions) /\
         StronglySorted Z.ge days /\ hd_error days = Some T /\
         k = advances T days + 1 /\
         (forall t, t ∈ days_of sessions -> t <= T) /\
         (forall i, 0 <= i < k -> T - i ∈ days_of sessions) /\
         T - k ∉ days_of sessions) /\
    (forall T, days_of sessions = {[T; T - 1; T - 2]} -> k = 3) /\
    (forall T, days_of sessions = {[T; T - 2]} -> k = 1).
Proof.
  intros Hiso. apply forallb_Forall_iso in Hiso.
  destruct sessions as [| s0 rest].
  { exists 0. split; [reflexivity |]. split; [reflexivity |]. split; [congruence |].
    split; intros T H; exfalso; rewrite days_of_nil_empty in H;
      apply (not_elem_of_empty (C := gset Z) T); rewrite H;
      [apply elem_of_three | apply elem_of_two]; left; reflexivity. }
  set (sessions := s0 :: rest) in *.
  assert (sessions <> []) as Hne by discriminate.
  destruct (calculate_streak_run sessions Hne Hiso)
    as (k & T & Hk & Hk1 & Hmax & Hrun & Hstop & days & Hperm & Hsorted & Hadv).
  exists k. split; [exact Hk |]. split; [intros E; congruence |].
  split; [| split].
  - intros _. exists T, days. rewrite omap_session_day by exact Hiso.
    split; [exact Hperm |]. split; [exact Hsorted |].
    split; [| split; [exact Hadv | split; [exact Hmax | split; [exact Hrun | exact Hstop]]]].
    (* the head of the sorted days is the latest day *)
    assert (In T (map day_of_session sessions)) as HT.
    { apply elem_of_days_of; [exact Hiso |]. specialize (Hrun 0 ltac:(lia)).
      rewrite Z.sub_0_r in Hrun. exact Hrun. }
    apply (Permutation_in _ (Permutation_sym Hperm)) in HT.
    destruct days as [| d0 days']; [destruct HT |]. cbn. f_equal.
    assert (d0 <= T).
    { apply Hmax, elem_of_days_of; [exact Hiso |].
      apply (Permutation_in _ Hperm). left. reflexivity. }
    inversion Hsorted as [| ? ? _ Hhd]; subst.
    destruct HT as [-> | HT]; [reflexivity |].
    rewrite List.Forall_forall in Hhd. specialize (Hhd _ HT). lia.
  - intros T0 HD. rewrite HD in Hmax, Hrun, Hstop.
    setoid_rewrite elem_of_three in Hmax. setoid_rewrite elem_of_three in Hrun.
    rewrite elem_of_three in Hstop.
    pose proof (Hmax T0 ltac:(tauto)). pose proof (Hrun 0 ltac:(lia)).
    destruct (Z_lt_le_dec 3 k) as [Hgt | Hle]; [| lia].
    pose proof (Hrun 3 ltac:(lia)). lia.
  - intros T0 HD. rewrite HD in Hmax, Hrun, Hstop.
    setoid_rewrite elem_of_two in Hmax. setoid_rewrite elem_of_two in Hrun.
    rewrite elem_of_two in Hstop.
    pose proof (Hmax T0 ltac:(tauto)). pose proof (Hrun 0 ltac:(lia)).
    destruct (Z_lt_le_dec 1 k) as [Hgt | Hle]; [| lia].
    pose proof (Hrun 1 ltac:(lia)). lia.
Qed.

(** C1 at sessions of 2024-01-07, 2024-01-08, 2024-01-06 and 2024-01-08
    again (day 738893 is 2024-01-08). *)
Lemma calculate_streak_counts_consecutive_days_witness :
  forallb has_iso_date streak_example = true /\
  days_of streak_example = {[738893; 738893 - 1; 738893 - 2]} /\
  fst (calculate_streak streak_example) = Ok 3.
Proof.
  assert (forallb has_iso_date streak_example = true) as H by (vm_compute; reflexivity).
  assert (days_of streak_example = {[738893; 738893 - 1; 738893 - 2]}) as HD
    by (vm_compute; reflexivity).
  split; [exact H |]. split; [exact HD |].
  destruct (calculate_streak_counts_consecutive_days streak_example H)
    as (k & Hk & _ & _ & H3 & _).
  rewrite Hk. f_equal. exact (H3 738893 HD).
Defined.

(** A gap gives [1].  So do two consecutive days written without the leading
    zero: ["2024-9-30"] sorts above ["2024-10-01"], the walk then starts from
    the older day, which is why the theorem above asks for ISO date
    strings. *)
Example calculate_streak_gap :
  fst (calculate_streak [dated_session "2024-01-08"; dated_session "2024-01-06"]) = Ok 1 /\
  fst (calculate_streak [dated_session "2024-9-30"; dated_session "2024-10-01"]) = Ok 1.
Proof. vm_compute. split; reflexivity. Qed.

(* ===================================================================== *)
(** * calculate_period_stats *)
(* ===================================================================== *)

Lemma date_parses_inv s :
  date_parses s = true ->
  exists d, session_date s = Ok d /\ s !! "date" = Some (VStr (date_str s)).
Proof.
  unfold date_parses, session_date, dict_item, date_str.
  destruct (s !! "date") as [v |]; cbn; [| discriminate].
  destruct v; cbn; try discriminate.
  destruct (strptime_ymd s0) as [d |]; [| discriminate].
  intros _. exists d. split; reflexivity.
Qed.

(** The first loop keeps, in order, the sessions that pass the test. *)
Lemma valid_sessions_filter period_type now l :
  forallb date_parses l = true ->
  valid_sessions period_type now l =
  Ok (List.filter (fun s => match session_date s with
                            | Ok d => period_keeps period_type now d
                            | Raise _ => false
                            end) l).
Proof.
  induction l as [| s l IH]; cbn [forallb valid_sessions List.filter]; [reflexivity |].
  intros H. apply andb_prop in H as [Hs Hl]. rewrite (IH Hl). clear IH.
  unfold date_parses in Hs. unfold session_date in *.
  destruct (dict_item s "date") as [v |]; [| discriminate]. cbn [rbind] in *.
  destruct (strptime v) as [d |]; [| discriminate]. cbn [rbind].
  reflexivity.
Qed.

Lemma valid_sessions_In period_type now l s d :
  forallb date_parses l = true -> session_date s = Ok d ->
  exists kept, valid_sessions period_type now l = Ok kept /\
    (In s kept <-> In s l /\ period_keeps period_type now d = true) /\
    forallb date_parses kept = true.
Proof.
  intros Hl Hd. rewrite valid_sessions_filter by exact Hl.
  eexists. split; [reflexivity |]. split.
  - rewrite filter_In, Hd. reflexivity.
  - apply forallb_forall. intros x Hx. apply filter_In in Hx as [Hx _].
    rewrite forallb_forall in Hl. apply Hl, Hx.
Qed.

(** What the test of the loop amounts to: the signed difference against the
    window. *)
(** What the test of the loop amounts to: the signed difference against the
    window. *)
Lemma period_keeps_window period_type now d n :
  window_days period_type = Some n ->
  period_keeps period_type now d = (toordinal now - toordinal d <=? n).
Proof.
  unfold window_days, period_keeps, days_between.
  destruct (String.eqb_spec period_type "daily") as [-> | _]; [discriminate |].
  destruct (String.eqb period_type "weekly"); [intros [= <-]; reflexivity |].
  destruct (String.eqb period_type "monthly"); [intros [= <-]; reflexivity |].
  destruct (String.eqb period_type "yearly"); [intros [= <-]; reflexivity |].
  discriminate.
Qed.

(** On a session that is not dated after [now] the loop is the rolling
    window of the specification: it keeps the session exactly when it lies
    within the window before [now], both ends included. *)
Lemma valid_sessions_past_window period_type now l n s d :
  window_days period_type = Some n ->
  forallb date_parses l = true -> session_date s = Ok d ->
  toordinal d <= toordinal now ->
  exists kept, valid_sessions period_type now l = Ok kept /\
    (In s kept <-> In s l /\ 0 <= toordinal now - toordinal d <= n).
Proof.
  intros Hw Hl Hd Hpast.
  destruct (valid_sessions_In period_type now l s d Hl Hd) as (kept & Ek & Hin & _).
  exists kept. split; [exact Ek |]. rewrite Hin, (period_keeps_window _ _ _ _ Hw).
  rewrite Z.leb_le. intuition lia.
Qed.

(** C2.  The filtering loop on 2024-01-08.  With ['weekly'] it keeps the
    session of 2024-01-01 (7 days back) and drops the one of 2023-12-31
    (8 days back), as the claim says; it also keeps the session dated
    2024-01-09, the day after [now], which is not within the 7 days before
    [now].  With ['daily'] it keeps the session of that day only. *)
Theorem weekly_window_keeps_future_session :
  valid_sessions "weekly" (mkdate 2024 1 8)
    [dated_session "2024-01-01"; dated_session "2023-12-31"; dated_session "2024-01-09"]
  = Ok [dated_session "2024-01-01"; dated_session "2024-01-09"] /\
  valid_sessions "daily" (mkdate 2024 1 8)
    [dated_session "2024-01-08"; dated_session "2024-01-07"; dated_session "2024-01-09"]
  = Ok [dated_session "2024-01-08"].
Proof. split; vm_compute; reflexivity. Qed.

Lemma py_add_number a b :
  is_number a = true -> is_number b = true ->
  exists c, py_add a b = Ok c /\ is_number c = true.
Proof. destruct a, b; try discriminate; intros _ _; eexists; split; reflexivity. Qed.

Lemma stats_lookup_update k v k' stats :
  In k' (map fst (stats_update k v stats)) <-> In k' (map fst stats).
Proof.
  induction stats as [| [k0 v0] stats IH]; cbn; [reflexivity |].
  destruct (String.eqb k k0); cbn; [reflexivity | rewrite IH; reflexivity].
Qed.

Lemma stats_update_numbers k v stats :
  is_number v = true ->
  Forall (fun p : string * value => is_number (snd p) = true) stats ->
  Forall (fun p : string * value => is_number (snd p) = true) (stats_update k v stats).
Proof.
  intros Hv. induction 1 as [| [k0 v0] stats Hp Hs IH]; cbn; [constructor |].
  destruct (String.eqb k k0); constructor; assumption.
Qed.

Lemma stats_lookup_Some k stats v :
  stats_lookup k stats = Some v -> In k (map fst stats) /\ In (k, v) stats.
Proof.
  induction stats as [| [k0 v0] stats IH]; cbn; [discriminate |].
  destruct (String.eqb_spec k k0) as [-> | Hne].
  - intros [= ->]. split; left; reflexivity.
  - intros H. destruct (IH H). split; right; assumption.
Qed.

(** The second loop, on sessions whose date parsed and whose duration is a
    number, returns one entry per date it met. *)
Lemma sum_by_date_ok valid : forall stats,
  forallb date_parses valid = true ->
  forallb has_numeric_duration valid = true ->
  Forall (fun p : string * value => is_number (snd p) = true) stats ->
  exists items, sum_by_date stats valid = Ok items /\
    forall k, In k (map fst items) <->
              In k (map fst stats) \/ In k (map date_str valid).
Proof.
  induction valid as [| s valid IH]; intros stats Hd Hn Hs.
  - exists stats. split; [reflexivity |]. cbn. tauto.
  - cbn [forallb] in Hd, Hn. apply andb_prop in Hd as [Hd Hd'].
    apply andb_prop in Hn as [Hn Hn'].
    destruct (date_parses_inv _ Hd) as (d & _ & Hk).
    unfold has_numeric_duration in Hn.
    destruct (s !! "duration") as [dur |] eqn:Edur; [| discriminate].
    cbn [sum_by_date]. unfold dict_item. rewrite Hk, Edur. cbn [rbind].
    destruct (stats_lookup (date_str s) stats) as [total |] eqn:El.
    + destruct (stats_lookup_Some _ _ _ El) as [Hin Hin'].
      assert (is_number total = true) as Ht.
      { rewrite List.Forall_forall in Hs. apply (Hs _ Hin'). }
      destruct (py_add_number _ _ Ht Hn) as (c & -> & Hc). cbn [rbind].
      destruct (IH (stats_update (date_str s) c stats) Hd' Hn'
                  (stats_update_numbers _ _ _ Hc Hs)) as (items & -> & Hitems).
      exists items. split; [reflexivity |]. intros k.
      rewrite Hitems, stats_lookup_update. cbn [map In].
      split; [tauto |]. intros [H | [<- | H]]; tauto.
    + assert (Forall (fun p : string * value => is_number (snd p) = true)
                (stats ++ [(date_str s, dur)])) as Hs'.
      { apply Forall_app. split; [exact Hs | constructor; [exact Hn | constructor]]. }
      destruct (IH _ Hd' Hn' Hs') as (items & -> & Hitems).
      exists items. split; [reflexivity |]. intros k.
      rewrite Hitems, map_app, in_app_iff. cbn [map In]. tauto.
Qed.

(** C10.  For ['weekly'], ['monthly'] and ['yearly'], a session dated after
    [now] is kept by the filtering loop of [calculate_period_stats], and its
    date is among the entries the function returns; for ['daily'] the loop
    drops it.  (The dates of the collection must parse, or the function
    raises; for the returned entries the durations must be numbers.) *)
Theorem future_sessions_are_kept (now : date) (sessions : list session)
    (period_type : string) (s : session) (d : date) :
  In period_type ["weekly"; "monthly"; "yearly"] ->
  forallb date_parses sessions = true ->
  In s sessions -> session_date s = Ok d -> toordinal now < toordinal d ->
  (exists kept, valid_sessions period_type now sessions = Ok kept /\ In s kept) /\
  (exists kept, valid_sessions "daily" now sessions = Ok kept /\ ~ In s kept) /\
  (forallb has_numeric_duration sessions = true ->
   exists items, calculate_period_stats now sessions period_type = Ok items /\
                 In (date_str s) (map fst items)).
Proof.
  intros Hp Hl Hs Hd Hfut.
  assert (period_keeps period_type now d = true) as Hkeep.
  { unfold period_keeps, days_between.
    destruct Hp as [<- | [<- | [<- | []]]]; cbn; apply Z.leb_le; lia. }
  assert (period_keeps "daily" now d = false) as Hdaily.
  { unfold period_keeps. cbn.
    destruct (Z.eqb_spec (year d) (year now)) as [Ey |]; [| reflexivity].
    destruct (Z.eqb_spec (month d) (month now)) as [Em |]; [| reflexivity].
    destruct (Z.eqb_spec (day d) (day now)) as [Ed |]; [| reflexivity].
    exfalso. unfold toordinal in Hfut. rewrite Ey, Em, Ed in Hfut. lia. }
  destruct (valid_sessions_In period_type now sessions s d Hl Hd)
    as (kept & Ek & Hin & Hparse).
  destruct (valid_sessions_In "daily" now sessions s d Hl Hd)
    as (kept' & Ek' & Hin' & _).
  split; [exists kept; split; [exact Ek | apply Hin; tauto] |].
  split; [exists kept'; split; [exact Ek' |] |].
  { rewrite Hin', Hdaily. intros [_ H]. discriminate. }
  intros Hnum. unfold calculate_period_stats.
  destruct sessions as [| s0 rest] eqn:Es; [destruct Hs |]. rewrite <- Es in *.
  rewrite Ek. cbn [rbind].
  assert (forallb has_numeric_duration kept = true) as Hnum'.
  { rewrite valid_sessions_filter in Ek by exact Hl. injection Ek as <-.
    apply forallb_forall. intros x Hx. apply filter_In in Hx as [Hx _].
    rewrite forallb_forall in Hnum. apply Hnum, Hx. }
  destruct (sum_by_date_ok kept [] Hparse Hnum' (List.Forall_nil _)) as (items & -> & Hitems).
  exists items. split; [reflexivity |]. apply Hitems. right.
  apply in_map. apply Hin. tauto.
Qed.

(** C10 at a session of 2024-01-20 seen from 2024-01-08. *)
Lemma future_sessions_are_kept_witness :
  In "weekly" ["weekly"; "monthly"; "yearly"] /\
  forallb date_parses [timed_session "2024-01-20" 600] = true /\
  In (timed_session "2024-01-20" 600) [timed_session "2024-01-20" 600] /\
  session_date (timed_session "2024-01-20" 600) = Ok (mkdate 2024 1 20) /\
  toordinal (mkdate 2024 1 8) < toordinal (mkdate 2024 1 20) /\
  (exists kept,
     valid_sessions "weekly" (mkdate 2024 1 8) [timed_session "2024-01-20" 600] = Ok kept /\
     In (timed_session "2024-01-20" 600) kept).
Proof.
  assert (In "weekly" ["weekly"; "monthly"; "yearly"]) as H1 by (left; reflexivity).
  assert (forallb date_parses [timed_session "2024-01-20" 600] = true) as H2
    by (vm_compute; reflexivity).
  assert (In (timed_session "2024-01-20" 600) [timed_session "2024-01-20" 600]) as H3
    by (left; reflexivity).
  assert (session_date (timed_session "2024-01-20" 600) = Ok (mkdate 2024 1 20)) as H4
    by (vm_compute; reflexivity).
  assert (toordinal (mkdate 2024 1 8) < toordinal (mkdate 2024 1 20)) as H5
    by (vm_compute; reflexivity).
  repeat (split; [assumption |]).
  exact (proj1 (future_sessions_are_kept _ _ _ _ _ H1 H2 H3 H4 H5)).
Defined.

(* ===================================================================== *)
(** * Rounding to the nearest double *)
(* ===================================================================== *)

Lemma pow2_pos e : (0 < 2 ^ e)%Q.
Proof. apply Qpower_0_lt. reflexivity. Qed.

Lemma pow2_nz e : ~ (2 ^ e == 0)%Q.
Proof. intros H. pose proof (pow2_pos e) as P. rewrite H in P. now apply Qlt_irrefl in P. Qed.

Lemma pow2_plus a b : (2 ^ (a + b) == 2 ^ a * 2 ^ b)%Q.
Proof. apply Qpower_plus. discriminate. Qed.

Lemma pow2_succ a : (2 ^ (a + 1) == 2 * 2 ^ a)%Q.
Proof. rewrite pow2_plus. change (2 ^ 1)%Q with 2%Q. ring. Qed.

Lemma pow2_le a b : a <= b -> (2 ^ a <= 2 ^ b)%Q.
Proof. intros H. apply Qpower_le_compat_l; [exact H|discriminate]. Qed.

Lemma pow2_lt a b : a < b -> (2 ^ a < 2 ^ b)%Q.
Proof. intros H. apply Qpower_lt_compat_l; [exact H|reflexivity]. Qed.

Lemma pow2_lt_inv a b : (2 ^ a < 2 ^ b)%Q -> a < b.
Proof. intros H. apply (Qpower_lt_compat_l_inv 2); [exact H|reflexivity]. Qed.

Lemma pow2_Z n : 0 <= n -> (inject_Z (2 ^ n) == 2 ^ n)%Q.
Proof. intros H. now rewrite Zpower_Qpower. Qed.

Lemma ilog2_spec x : (0 < x)%Q -> (2 ^ ilog2 x <= x)%Q /\ (x < 2 ^ (ilog2 x + 1))%Q.
Proof.
  intros Hx. destruct x as [n d]. unfold ilog2. cbn [Qnum Qden].
  assert (Hn : 0 < n) by (unfold Qlt in Hx; cbn in Hx; lia).
  set (a := Z.log2 n). set (b := Z.log2 (Z.pos d)).
  pose proof (Z.log2_spec n Hn) as Ha. fold a in Ha.
  pose proof (Z.log2_spec (Z.pos d) eq_refl) as Hb. fold b in Hb.
  pose proof (Z.log2_nonneg n) as Ha0. fold a in Ha0.
  pose proof (Z.log2_nonneg (Z.pos d)) as Hb0. fold b in Hb0.
  assert (Ex : (n # d == inject_Z n / inject_Z (Z.pos d))%Q).
  { rewrite (Qmake_Qdiv n d). reflexivity. }
  assert (Hd : (0 < inject_Z (Z.pos d))%Q) by reflexivity.
  assert (HA : (inject_Z (2 ^ a) <= inject_Z n)%Q) by (rewrite <- Zle_Qle; lia).
  assert (HA' : (inject_Z n < 2 * inject_Z (2 ^ a))%Q).
  { change 2%Q with (inject_Z 2). rewrite <- inject_Z_mult, <- Zlt_Qlt.
    rewrite Z.pow_succ_r in Ha by lia. lia. }
  assert (HB : (inject_Z (2 ^ b) <= inject_Z (Z.pos d))%Q) by (rewrite <- Zle_Qle; lia).
  assert (HB' : (inject_Z (Z.pos d) < 2 * inject_Z (2 ^ b))%Q).
  { change 2%Q with (inject_Z 2). rewrite <- inject_Z_mult, <- Zlt_Qlt.
    rewrite Z.pow_succ_r in Hb by lia. lia. }
  rewrite (pow2_Z a Ha0) in HA, HA'. rewrite (pow2_Z b Hb0) in HB, HB'.
  assert (Ek : (2 ^ a == 2 ^ (a - b) * 2 ^ b)%Q).
  { rewrite <- pow2_plus. now replace (a - b + b) with a by lia. }
  pose proof (pow2_pos (a - b)) as Pk. pose proof (pow2_pos b) as Pb.
  pose proof (pow2_pos a) as Pa.
  set (X := (n # d)%Q) in *. set (N := inject_Z n) in *. set (D := inject_Z (Z.pos d)) in *.
  assert (EN : (N == X * D)%Q).
  { rewrite Ex. field. intros H. rewrite H in Hd. now apply Qlt_irrefl in Hd. }
  assert (Hup : (X < 2 ^ (a - b + 1))%Q).
  { rewrite pow2_succ.
    destruct (Qlt_le_dec X (2 * 2 ^ (a - b))) as [H|H]; [exact H|exfalso].
    assert ((2 * 2 ^ (a - b)) * D <= X * D)%Q by (apply Qmult_le_compat_r; lra).
    assert (2 ^ (a - b) * 2 ^ b <= 2 ^ (a - b) * D)%Q by (apply Qmult_le_l; lra).
    lra. }
  assert (Hlo : (2 ^ (a - b - 1) < X)%Q).
  { assert (E1 : (2 ^ (a - b) == 2 * 2 ^ (a - b - 1))%Q).
    { rewrite <- pow2_succ. now replace (a - b - 1 + 1) with (a - b) by lia. }
    pose proof (pow2_pos (a - b - 1)) as P1.
    destruct (Qlt_le_dec (2 ^ (a - b - 1)) X) as [H|H]; [exact H|exfalso].
    assert (X * D <= 2 ^ (a - b - 1) * D)%Q by (apply Qmult_le_compat_r; lra).
    assert (2 ^ (a - b - 1) * D < 2 ^ (a - b - 1) * (2 * 2 ^ b))%Q
      by (apply Qmult_lt_l; lra).
    assert (2 ^ a == 2 * 2 ^ (a - b - 1) * 2 ^ b)%Q by (rewrite Ek, E1; ring).
    lra. }
  destruct (Qle_bool (2 ^ (a - b)) X) eqn:E.
  - apply Qle_bool_iff in E. split; [exact E|exact Hup].
  - assert (Hlt : (X < 2 ^ (a - b))%Q).
    { apply Qnot_le_lt. intros H. apply Qle_bool_iff in H. congruence. }
    replace (a - b - 1 + 1) with (a - b) by lia. split; [lra|exact Hlt].
Qed.

Lemma ilog2_unique x k :
  (2 ^ k <= x)%Q -> (x < 2 ^ (k + 1))%Q -> ilog2 x = k.
Proof.
  intros H1 H2.
  assert (Hx : (0 < x)%Q) by (pose proof (pow2_pos k); lra).
  destruct (ilog2_spec x Hx) as [H3 H4].
  assert (ilog2 x < k + 1) by (apply pow2_lt_inv; lra).
  assert (k < ilog2 x + 1) by (apply pow2_lt_inv; lra).
  lia.
Qed.

Lemma ilog2_comp x y : (0 < x)%Q -> (x == y)%Q -> ilog2 x = ilog2 y.
Proof.
  intros Hx E. destruct (ilog2_spec x Hx) as [H1 H2].
  symmetry. apply ilog2_unique; rewrite <- E; assumption.
Qed.

Lemma ilog2_mono x y : (0 < x)%Q -> (x <= y)%Q -> ilog2 x <= ilog2 y.
Proof.
  intros Hx Hxy. destruct (ilog2_spec x Hx) as [H1 _].
  destruct (ilog2_spec y) as [_ H2]; [lra|].
  assert (ilog2 x < ilog2 y + 1) by (apply pow2_lt_inv; lra). lia.
Qed.

Lemma round_half_even_floor x :
  Qfloor x <= round_half_even x <= Qfloor x + 1.
Proof.
  unfold round_half_even.
  destruct (x - inject_Z (Qfloor x) ?= 1 # 2)%Q; [destruct (Z.even _)| |]; lia.
Qed.

Lemma round_half_even_near x :
  (Qabs (inject_Z (round_half_even x) - x) <= 1 # 2)%Q.
Proof.
  apply Qabs_Qle_condition.
  pose proof (Qfloor_le x) as H1. pose proof (Qlt_floor x) as H2.
  rewrite inject_Z_plus in H2. change (inject_Z 1) with 1%Q in H2.
  unfold round_half_even.
  destruct (x - inject_Z (Qfloor x) ?= 1 # 2)%Q eqn:E.
  - apply Qeq_alt in E.
    destruct (Z.even _); [|rewrite inject_Z_plus; change (inject_Z 1) with 1%Q]; lra.
  - apply Qlt_alt in E. lra.
  - apply Qgt_alt in E. rewrite inject_Z_plus. change (inject_Z 1) with 1%Q. lra.
Qed.

Lemma round_half_even_comp x y : (x == y)%Q -> round_half_even x = round_half_even y.
Proof.
  intros E. unfold round_half_even. rewrite (Qfloor_comp _ _ E).
  assert (E' : (x - inject_Z (Qfloor y) == y - inject_Z (Qfloor y))%Q) by now rewrite E.
  now rewrite (Qcompare_comp _ _ E' _ _ (Qeq_refl (1 # 2))).
Qed.

Lemma round_half_even_Z n : round_half_even (inject_Z n) = n.
Proof.
  unfold round_half_even. rewrite Qfloor_Z.
  assert (E : (inject_Z n - inject_Z n ?= 1 # 2)%Q = Lt).
  { assert (E0 : (inject_Z n - inject_Z n == 0)%Q) by ring.
    now rewrite (Qcompare_comp _ _ E0 _ _ (Qeq_refl (1 # 2))). }
  now rewrite E.
Qed.

Lemma round_half_even_mono x y : (x <= y)%Q -> round_half_even x <= round_half_even y.
Proof.
  intros H. pose proof (Qfloor_resp_le _ _ H) as Hf.
  pose proof (round_half_even_floor x) as Bx. pose proof (round_half_even_floor y) as By.
  destruct (Z.eq_dec (Qfloor x) (Qfloor y)) as [E|N]; [|lia].
  unfold round_half_even. rewrite E.
  destruct (x - inject_Z (Qfloor y) ?= 1 # 2)%Q eqn:Ex;
    [apply Qeq_alt in Ex|apply Qlt_alt in Ex|apply Qgt_alt in Ex];
    (destruct (y - inject_Z (Qfloor y) ?= 1 # 2)%Q eqn:Ey;
     [apply Qeq_alt in Ey|apply Qlt_alt in Ey|apply Qgt_alt in Ey]);
    try (destruct (Z.even _)); try lia; exfalso; lra.
Qed.

Lemma round64_pos_eq x :
  round64_pos x = (inject_Z (round_half_even (x / 2 ^ ulp_exp x)) * 2 ^ ulp_exp x)%Q.
Proof. reflexivity. Qed.

Lemma scaled_bounds x :
  (0 < x)%Q ->
  (x / 2 ^ ulp_exp x < inject_Z (2 ^ 53))%Q /\
  (-1074 < ulp_exp x -> (inject_Z (2 ^ 52) <= x / 2 ^ ulp_exp x)%Q).
Proof.
  intros Hx. destruct (ilog2_spec x Hx) as [H1 H2].
  pose proof (pow2_pos (ulp_exp x)) as Pe.
  split.
  - apply Qlt_shift_div_r; [exact Pe|].
    rewrite (pow2_Z 53) by lia. rewrite <- pow2_plus.
    eapply Qlt_le_trans; [exact H2|]. apply pow2_le. unfold ulp_exp. lia.
  - intros Hn. apply Qle_shift_div_l; [exact Pe|].
    rewrite (pow2_Z 52) by lia. rewrite <- pow2_plus.
    eapply Qle_trans; [|exact H1]. apply pow2_le. unfold ulp_exp in *. lia.
Qed.

Lemma round64_pos_mantissa x :
  (0 < x)%Q ->
  0 <= round_half_even (x / 2 ^ ulp_exp x) <= 2 ^ 53 /\
  (-1074 < ulp_exp x -> 2 ^ 52 <= round_half_even (x / 2 ^ ulp_exp x)).
Proof.
  intros Hx. destruct (scaled_bounds x Hx) as [H1 H2].
  pose proof (pow2_pos (ulp_exp x)) as Pe.
  assert (H0 : (inject_Z 0 <= x / 2 ^ ulp_exp x)%Q).
  { apply Qle_shift_div_l; [exact Pe|]. change (inject_Z 0) with 0%Q. lra. }
  split; [split|].
  - rewrite <- (round_half_even_Z 0). now apply round_half_even_mono.
  - rewrite <- (round_half_even_Z (2 ^ 53)). apply round_half_even_mono. lra.
  - intros Hn. rewrite <- (round_half_even_Z (2 ^ 52)). apply round_half_even_mono. auto.
Qed.

Lemma round64_pos_nonneg x : (0 < x)%Q -> (0 <= round64_pos x)%Q.
Proof.
  intros Hx. rewrite round64_pos_eq.
  destruct (round64_pos_mantissa x Hx) as [[H _] _].
  apply Qmult_le_0_compat; [|apply Qlt_le_weak, pow2_pos].
  change 0%Q with (inject_Z 0). now rewrite <- Zle_Qle.
Qed.

(** The error of rounding: half a unit in the last place. *)
Lemma round64_pos_error x :
  (0 < x)%Q -> (Qabs (round64_pos x - x) <= 2 ^ (ulp_exp x - 1))%Q.
Proof.
  intros Hx. rewrite round64_pos_eq.
  pose proof (pow2_pos (ulp_exp x)) as Pe.
  set (e := ulp_exp x) in *. set (s := (x / 2 ^ e)%Q).
  assert (Ex : (x == s * 2 ^ e)%Q) by (unfold s; field; apply pow2_nz).
  assert (E : (inject_Z (round_half_even s) * 2 ^ e - x ==
               (inject_Z (round_half_even s) - s) * 2 ^ e)%Q) by (rewrite Ex at 1; ring).
  rewrite E, Qabs_Qmult, (Qabs_pos (2 ^ e)) by lra.
  assert (E2 : (2 ^ (e - 1) == (1 # 2) * 2 ^ e)%Q).
  { replace e with (e - 1 + 1) at 2 by lia. rewrite pow2_succ. field. }
  rewrite E2. apply Qmult_le_compat_r; [apply round_half_even_near|lra].
Qed.

Lemma round64_pos_mono x y :
  (0 < x)%Q -> (x <= y)%Q -> (round64_pos x <= round64_pos y)%Q.
Proof.
  intros Hx Hxy. assert (Hy : (0 < y)%Q) by lra.
  pose proof (ilog2_mono x y Hx Hxy) as Hl.
  assert (He : ulp_exp x <= ulp_exp y) by (unfold ulp_exp; lia).
  rewrite !round64_pos_eq.
  destruct (Z.eq_dec (ulp_exp x) (ulp_exp y)) as [E|N].
  - rewrite E. pose proof (pow2_pos (ulp_exp y)) as Pe.
    apply Qmult_le_compat_r; [|lra]. rewrite <- Zle_Qle.
    apply round_half_even_mono. apply Qle_shift_div_l; [exact Pe|].
    assert (Ex : (x / 2 ^ ulp_exp y * 2 ^ ulp_exp y == x)%Q) by (field; apply pow2_nz).
    now rewrite Ex.
  - destruct (round64_pos_mantissa x Hx) as [[_ Hx1] _].
    destruct (round64_pos_mantissa y Hy) as [_ Hy1].
    assert (Hn : -1074 < ulp_exp y) by (unfold ulp_exp in *; lia).
    specialize (Hy1 Hn).
    pose proof (pow2_pos (ulp_exp x)) as Px. pose proof (pow2_pos (ulp_exp y)) as Py.
    apply Qle_trans with (inject_Z (2 ^ 53) * 2 ^ ulp_exp x)%Q.
    { apply Qmult_le_compat_r; [|lra]. now rewrite <- Zle_Qle. }
    apply Qle_trans with (inject_Z (2 ^ 52) * 2 ^ ulp_exp y)%Q.
    2:{ apply Qmult_le_compat_r; [|lra]. now rewrite <- Zle_Qle. }
    rewrite (pow2_Z 53), (pow2_Z 52) by lia. rewrite <- !pow2_plus.
    apply pow2_le. lia.
Qed.

Lemma round64_of_pos x : (0 < x)%Q -> (round64 x == round64_pos x)%Q.
Proof.
  intros H. unfold round64.
  assert (C : (x ?= 0)%Q = Gt) by (apply Qgt_alt; exact H).
  rewrite C. apply Qred_correct.
Qed.

Lemma round64_of_neg x : (x < 0)%Q -> (round64 x == - round64_pos (- x))%Q.
Proof.
  intros H. unfold round64.
  assert (C : (x ?= 0)%Q = Lt) by (apply Qlt_alt; exact H).
  rewrite C. apply Qred_correct.
Qed.

Lemma round64_of_zero x : (x == 0)%Q -> round64 x = 0%Q.
Proof.
  intros H. unfold round64.
  assert (C : (x ?= 0)%Q = Eq) by (apply Qeq_alt; exact H).
  now rewrite C.
Qed.

Lemma round64_pos_comp x y : (0 < x)%Q -> (x == y)%Q -> (round64_pos x == round64_pos y)%Q.
Proof.
  intros Hx E. rewrite !round64_pos_eq. unfold ulp_exp.
  rewrite <- (ilog2_comp x y Hx E).
  assert (E' : (x / 2 ^ Z.max (ilog2 x - 52) (-1074) ==
                y / 2 ^ Z.max (ilog2 x - 52) (-1074))%Q)
    by (apply Qdiv_comp; [exact E|reflexivity]).
  now rewrite (round_half_even_comp _ _ E').
Qed.

Lemma round64_comp x y : (x == y)%Q -> round64 x = round64 y.
Proof.
  intros E. unfold round64.
  rewrite (Qcompare_comp _ _ E _ _ (Qeq_refl 0)).
  destruct (y ?= 0)%Q eqn:C; [reflexivity| |].
  - apply Qlt_alt in C. apply Qred_complete.
    assert (Hx : (0 < - x)%Q) by (rewrite E; lra).
    assert (E' : (- x == - y)%Q) by now rewrite E.
    now rewrite (round64_pos_comp _ _ Hx E').
  - apply Qgt_alt in C. apply Qred_complete.
    apply round64_pos_comp; [rewrite E; exact C|exact E].
Qed.

Lemma round64_opp x : (round64 (- x) == - round64 x)%Q.
Proof.
  destruct (Q_dec x 0) as [[H|H]|H].
  - rewrite (round64_of_neg x H), (round64_of_pos (- x)) by lra. ring.
  - rewrite (round64_of_pos x H), (round64_of_neg (- x)) by lra.
    assert (E : (- - x == x)%Q) by ring.
    now rewrite (round64_pos_comp (- - x) x) by (try exact E; lra).
  - rewrite (round64_of_zero x H), (round64_of_zero (- x)) by (rewrite H; reflexivity).
    reflexivity.
Qed.

Lemma round64_nonneg x : (0 <= x)%Q -> (0 <= round64 x)%Q.
Proof.
  intros H. destruct (Qlt_le_dec 0 x) as [P|Z].
  - rewrite (round64_of_pos x P). now apply round64_pos_nonneg.
  - rewrite (round64_of_zero x) by lra. apply Qle_refl.
Qed.

Lemma round64_nonpos x : (x <= 0)%Q -> (round64 x <= 0)%Q.
Proof.
  intros H. assert (H' : (0 <= round64 (- x))%Q) by (apply round64_nonneg; lra).
  rewrite round64_opp in H'. lra.
Qed.

(** Rounding keeps the order. *)
Lemma round64_mono x y : (x <= y)%Q -> (round64 x <= round64 y)%Q.
Proof.
  intros H. destruct (Qlt_le_dec 0 x) as [Px|Nx].
  - rewrite (round64_of_pos x Px), (round64_of_pos y) by lra.
    now apply round64_pos_mono.
  - destruct (Qlt_le_dec y 0) as [Ny|Py].
    + rewrite (round64_of_neg x), (round64_of_neg y) by lra.
      apply Qopp_le_compat. apply round64_pos_mono; lra.
    + apply Qle_trans with 0%Q; [now apply round64_nonpos|now apply round64_nonneg].
Qed.

Lemma round64_pos_error_bound x :
  (0 < x)%Q ->
  (Qabs (round64_pos x - x) <= 2 ^ (-1075))%Q \/
  ((2 ^ (-1022) <= x)%Q /\ (Qabs (round64_pos x - x) <= x * 2 ^ (-53))%Q).
Proof.
  intros Hx. pose proof (round64_pos_error x Hx) as He.
  destruct (Z_le_gt_dec (ilog2 x - 52) (-1074)) as [S|N].
  - left. replace (ulp_exp x) with (-1074) in He by (unfold ulp_exp; lia). exact He.
  - right. destruct (ilog2_spec x Hx) as [H1 _].
    replace (ulp_exp x) with (ilog2 x - 52) in He by (unfold ulp_exp; lia).
    split.
    + eapply Qle_trans; [|exact H1]. apply pow2_le. lia.
    + eapply Qle_trans; [exact He|].
      replace (ilog2 x - 52 - 1) with (ilog2 x + -53) by lia.
      rewrite pow2_plus. apply Qmult_le_compat_r; [exact H1|].
      apply Qlt_le_weak, pow2_pos.
Qed.

(** The error of [round64]: at most [2 ** -53] of the value, or [2 ** -1075]
    where the doubles are evenly spaced. *)
Lemma round64_error x :
  (Qabs (round64 x - x) <= Qabs x * 2 ^ (-53) + 2 ^ (-1075))%Q.
Proof.
  pose proof (pow2_pos (-53)) as P1. pose proof (pow2_pos (-1075)) as P2.
  destruct (Q_dec x 0) as [[H|H]|H].
  - rewrite (round64_of_neg x H).
    assert (E : (- round64_pos (- x) - x == - (round64_pos (- x) - - x))%Q) by ring.
    rewrite E, Qabs_opp, (Qabs_neg x) by lra.
    destruct (round64_pos_error_bound (- x)) as [B|[_ B]]; [lra| |].
    + assert (0 <= - x * 2 ^ (-53))%Q by (apply Qmult_le_0_compat; lra). lra.
    + lra.
  - rewrite (round64_of_pos x H), (Qabs_pos x) by lra.
    destruct (round64_pos_error_bound x H) as [B|[_ B]].
    + assert (0 <= x * 2 ^ (-53))%Q by (apply Qmult_le_0_compat; lra). lra.
    + lra.
  - rewrite (round64_of_zero x H).
    assert (E : (0 - x == 0)%Q) by (rewrite H; ring).
    rewrite E. change (Qabs 0) with 0%Q.
    assert (0 <= Qabs x * 2 ^ (-53))%Q
      by (apply Qmult_le_0_compat; [apply Qabs_nonneg|lra]). lra.
Qed.

(** In the range of the normal doubles the error is relative. *)
Lemma round64_error_normal x :
  (2 ^ (-1022) <= x)%Q -> (Qabs (round64 x - x) <= x * 2 ^ (-53))%Q.
Proof.
  intros H. pose proof (pow2_pos (-1022)) as P.
  assert (Hx : (0 < x)%Q) by lra.
  rewrite (round64_of_pos x Hx).
  pose proof (round64_pos_error x Hx) as He.
  destruct (ilog2_spec x Hx) as [H1 H2].
  assert (Hl : -1022 <= ilog2 x).
  { assert (-1022 < ilog2 x + 1) by (apply pow2_lt_inv; lra). lia. }
  replace (ulp_exp x) with (ilog2 x - 52) in He by (unfold ulp_exp; lia).
  eapply Qle_trans; [exact He|].
  replace (ilog2 x - 52 - 1) with (ilog2 x + -53) by lia.
  rewrite pow2_plus. apply Qmult_le_compat_r; [exact H1|].
  apply Qlt_le_weak, pow2_pos.
Qed.

(** A number [n * 2 ** f] with [|n| < 2 ** 53] and [f >= -1074] is a double. *)
Lemma round64_pos_repr n f :
  0 < n < 2 ^ 53 -> -1074 <= f ->
  (round64_pos (inject_Z n * 2 ^ f) == inject_Z n * 2 ^ f)%Q.
Proof.
  intros Hn Hf. set (x := (inject_Z n * 2 ^ f)%Q).
  pose proof (pow2_pos f) as Pf.
  assert (Hl : ilog2 x = Z.log2 n + f).
  { pose proof (Z.log2_spec n (proj1 Hn)) as [L1 L2].
    pose proof (Z.log2_nonneg n) as L0.
    apply ilog2_unique; unfold x.
    - rewrite pow2_plus. apply Qmult_le_compat_r; [|lra].
      rewrite <- (pow2_Z _ L0), <- Zle_Qle. exact L1.
    - replace (Z.log2 n + f + 1) with (Z.succ (Z.log2 n) + f) by lia.
      rewrite pow2_plus. apply Qmult_lt_compat_r; [exact Pf|].
      rewrite <- (pow2_Z (Z.succ (Z.log2 n))) by lia. rewrite <- Zlt_Qlt. exact L2. }
  assert (L52 : Z.log2 n <= 52).
  { assert (Z.log2 n < 53) by (apply Z.log2_lt_pow2; lia). lia. }
  rewrite round64_pos_eq.
  assert (He : ulp_exp x <= f) by (unfold ulp_exp; lia).
  set (e := ulp_exp x) in *.
  assert (Ef : (2 ^ f == 2 ^ (f - e) * 2 ^ e)%Q).
  { rewrite <- pow2_plus. now replace (f - e + e) with f by lia. }
  assert (Es : (x / 2 ^ e == inject_Z (n * 2 ^ (f - e)))%Q).
  { unfold x. rewrite inject_Z_mult, (pow2_Z (f - e)) by lia. rewrite Ef. field.
    apply pow2_nz. }
  rewrite (round_half_even_comp _ _ Es), round_half_even_Z.
  unfold x. rewrite inject_Z_mult, (pow2_Z (f - e)) by lia. rewrite Ef. ring.
Qed.

Lemma round64_repr n f :
  Z.abs n < 2 ^ 53 -> -1074 <= f ->
  (round64 (inject_Z n * 2 ^ f) == inject_Z n * 2 ^ f)%Q.
Proof.
  intros Hn Hf. pose proof (pow2_pos f) as Pf.
  destruct (Z.lt_trichotomy n 0) as [N|[->|P]].
  - assert (Hx : (inject_Z n * 2 ^ f < 0)%Q).
    { assert (0 < inject_Z (- n) * 2 ^ f)%Q.
      { apply Qmult_lt_0_compat; [|exact Pf]. change 0%Q with (inject_Z 0).
        rewrite <- Zlt_Qlt. lia. }
      rewrite inject_Z_opp in H. lra. }
    rewrite (round64_of_neg _ Hx).
    assert (E : (- (inject_Z n * 2 ^ f) == inject_Z (- n) * 2 ^ f)%Q)
      by (rewrite inject_Z_opp; ring).
    assert (Hx' : (0 < - (inject_Z n * 2 ^ f))%Q) by lra.
    rewrite (round64_pos_comp _ _ Hx' E), round64_pos_repr by lia.
    rewrite inject_Z_opp. ring.
  - rewrite round64_of_zero; ring.
  - assert (Hx : (0 < inject_Z n * 2 ^ f)%Q).
    { apply Qmult_lt_0_compat; [|exact Pf]. change 0%Q with (inject_Z 0).
      rewrite <- Zlt_Qlt. lia. }
    rewrite (round64_of_pos _ Hx). apply round64_pos_repr; lia.
Qed.

(** The result is a reduced fraction. *)
Lemma round64_red x : Qred (round64 x) = round64 x.
Proof.
  unfold round64. destruct (x ?= 0)%Q; [reflexivity| |]; apply Qcanon.Qred_involutive.
Qed.

(** Rounding twice is rounding once. *)
Lemma round64_idem x : round64 (round64 x) = round64 x.
Proof.
  assert (Hpos : forall y, (0 < y)%Q -> (round64 (round64_pos y) == round64_pos y)%Q).
  { intros y Hy. rewrite round64_pos_eq.
    destruct (round64_pos_mantissa y Hy) as [[M0 M1] _].
    assert (He : -1074 <= ulp_exp y) by (unfold ulp_exp; lia).
    destruct (Z.eq_dec (round_half_even (y / 2 ^ ulp_exp y)) (2 ^ 53)) as [E|N].
    - rewrite E.
      assert (E2 : (inject_Z (2 ^ 53) * 2 ^ ulp_exp y ==
                    inject_Z (2 ^ 52) * 2 ^ (ulp_exp y + 1))%Q).
      { rewrite pow2_succ. change (2 ^ 53) with (2 * 2 ^ 52). rewrite inject_Z_mult.
        change (inject_Z 2) with 2%Q. ring. }
      rewrite (round64_comp _ _ E2), E2. apply round64_repr; [reflexivity|lia].
    - apply round64_repr; lia. }
  assert (E : (round64 (round64 x) == round64 x)%Q).
  { destruct (Q_dec x 0) as [[H|H]|H].
    - rewrite (round64_comp _ _ (round64_of_neg x H)), round64_opp, Hpos by lra.
      now rewrite (round64_of_neg x H).
    - rewrite (round64_comp _ _ (round64_of_pos x H)), Hpos by lra.
      now rewrite (round64_of_pos x H).
    - now rewrite (round64_of_zero x H). }
  transitivity (Qred (round64 (round64 x))); [symmetry; apply round64_red|].
  transitivity (Qred (round64 x)); [now apply Qred_complete|apply round64_red].
Qed.

Lemma round64_fixed x y : (x == round64 y)%Q -> (round64 x == x)%Q.
Proof.
  intros E. rewrite (round64_comp _ _ E), round64_idem. symmetry. exact E.
Qed.

(** An [int] of at most [2 ** 53] in magnitude widens to the same number. *)
Lemma round64_small_int z : Z.abs z <= 2 ^ 53 -> (round64 (inject_Z z) == inject_Z z)%Q.
Proof.
  intros H. destruct (Z.eq_dec (Z.abs z) (2 ^ 53)) as [E|N].
  - assert (Ez : z = 2 ^ 53 \/ z = - 2 ^ 53) by lia.
    destruct Ez as [-> | ->].
    + assert (E2 : (inject_Z (2 ^ 53) == inject_Z (2 ^ 52) * 2 ^ 1)%Q) by reflexivity.
      rewrite (round64_comp _ _ E2), E2. apply round64_repr; [reflexivity|lia].
    + assert (E2 : (inject_Z (- 2 ^ 53) == inject_Z (- 2 ^ 52) * 2 ^ 1)%Q) by reflexivity.
      rewrite (round64_comp _ _ E2), E2. apply round64_repr; [reflexivity|lia].
  - assert (E2 : (inject_Z z == inject_Z z * 2 ^ 0)%Q) by (change (2 ^ 0)%Q with 1%Q; ring).
    rewrite (round64_comp _ _ E2). rewrite E2 at 2.
    apply round64_repr; lia.
Qed.

(* ===================================================================== *)
(** * calculate_progress and generate_progress_bar *)
(* ===================================================================== *)

Lemma goals_hours_lookup p : goals_hours !! p = goal_hours_spec p.
Proof.
  unfold goals_hours, goal_hours_spec. cbn [list_to_map foldr uncurry fst snd].
  destruct (String.eqb_spec p "daily") as [-> | N1]; [reflexivity |].
  rewrite lookup_insert_ne by congruence.
  destruct (String.eqb_spec p "weekly") as [-> | N2]; [reflexivity |].
  rewrite lookup_insert_ne by congruence.
  destruct (String.eqb_spec p "monthly") as [-> | N3]; [reflexivity |].
  rewrite lookup_insert_ne by congruence.
  destruct (String.eqb_spec p "yearly") as [-> | N4]; [reflexivity |].
  rewrite lookup_insert_ne by congruence. apply lookup_empty.
Qed.

Lemma goal_hours_positive period hours :
  goal_hours_spec period = Some hours -> 0 < hours.
Proof.
  unfold goal_hours_spec.
  repeat match goal with |- context [String.eqb ?a ?b] => destruct (String.eqb a b) end;
    intros [= <-]; lia.
Qed.

Lemma calculate_progress_eq period hours total :
  goal_hours_spec period = Some hours ->
  calculate_progress period total =
  round64 (round64 (total / inject_Z (hours * 3600)) * 100).
Proof.
  intros H. pose proof (goal_hours_positive _ _ H) as Hh.
  unfold calculate_progress. rewrite goals_hours_lookup, H. cbn [default]. unfold id.
  destruct (Z.eqb_spec (hours * 3600) 0) as [E|_]; [lia|reflexivity].
Qed.

(** A quotient and a product by 100, each rounded, against the exact
    percentage. *)
Lemma percent_error (goal : Z) (total : Q) :
  0 < goal ->
  (Qabs (round64 (round64 (total / inject_Z goal) * 100) - 100 * total / inject_Z goal)
   <= Qabs (100 * total / inject_Z goal) * 2 ^ (-51) + 2 ^ (-1068))%Q.
Proof.
  intros Hg.
  assert (Hgq : ~ (inject_Z goal == 0)%Q).
  { intros H. unfold Qeq in H. cbn in H. lia. }
  set (x := (total / inject_Z goal)%Q).
  assert (EP : (100 * total / inject_Z goal == 100 * x)%Q) by (unfold x; field; exact Hgq).
  rewrite EP.
  pose proof (round64_error x) as E1.
  pose proof (round64_error (round64 x * 100)) as E2.
  set (r1 := round64 x) in *. set (r2 := round64 (r1 * 100)) in *.
  set (u := (2 ^ (-53))%Q) in *. set (h := (2 ^ (-1075))%Q) in *.
  assert (Hu : (0 < u)%Q) by apply pow2_pos.
  assert (Hh : (0 < h)%Q) by apply pow2_pos.
  assert (Hu1 : (u <= 1 # 100)%Q) by (unfold u; vm_compute; discriminate).
  assert (E51 : (2 ^ (-51) == 4 * u)%Q).
  { unfold u. replace (-51) with (2 + -53) by lia. now rewrite pow2_plus. }
  assert (E68 : (2 ^ (-1068) == 128 * h)%Q).
  { unfold h. replace (-1068) with (7 + -1075) by lia. now rewrite pow2_plus. }
  rewrite E51, E68.
  assert (EA : (Qabs (100 * x) == 100 * Qabs x)%Q) by (rewrite Qabs_Qmult; reflexivity).
  rewrite EA.
  assert (EY : (Qabs (r1 * 100) <= 100 * Qabs x + 100 * (Qabs x * u + h))%Q).
  { assert (E : (r1 * 100 == 100 * x + 100 * (r1 - x))%Q) by ring.
    rewrite E. eapply Qle_trans; [apply Qabs_triangle|].
    rewrite !Qabs_Qmult. change (Qabs 100) with 100%Q. lra. }
  assert (ER : (Qabs (r2 - 100 * x) <= Qabs (r2 - r1 * 100) + 100 * Qabs (r1 - x))%Q).
  { assert (E : (r2 - 100 * x == (r2 - r1 * 100) + 100 * (r1 - x))%Q) by ring.
    rewrite E. eapply Qle_trans; [apply Qabs_triangle|].
    rewrite Qabs_Qmult. change (Qabs 100) with 100%Q. lra. }
  pose proof (Qabs_nonneg x) as Hx. set (a := Qabs x) in *.
  set (b := Qabs (r1 * 100)) in *. set (c := Qabs (r2 - r1 * 100)) in *.
  set (d := Qabs (r1 - x)) in *. set (t := Qabs (r2 - 100 * x)) in *.
  assert (Hau : (0 <= a * u)%Q) by (apply Qmult_le_0_compat; lra).
  assert (Hbu : (b * u <= (100 * a + 100 * (a * u + h)) * u)%Q)
    by (apply Qmult_le_compat_r; lra).
  assert (Hauu : (u * (a * u) <= (1 # 100) * (a * u))%Q)
    by (apply Qmult_le_compat_r; lra).
  assert (Hhu : (u * h <= (1 # 100) * h)%Q) by (apply Qmult_le_compat_r; lra).
  lra.
Qed.

(** C3, as the code has it.  For a period kind of the goal table (5, 25,
    100 and 1200 hours for ['daily'], ['weekly'], ['monthly'], ['yearly'],
    taken in seconds) the [calculate_progress] in force returns the float
    product by 100 of the float quotient [total / goal_seconds]: both
    operations are rounded to a double, so that the result lies within
    [2 ** -51] of [100 * total / goal_seconds], relatively (and [2 ** -1068]
    absolutely, for totals next to nothing), without being equal to it in
    general.  The result does not decrease when the total grows, and a
    total equal to the goal gives [100].  Every other period kind gives
    [0]; [calculate_progress('daily', 18000)] is [100] and
    [calculate_progress('unknown', 100)] is [0].  (Totals are taken up to
    [2 ** 1000], within the range of the doubles.) *)
Theorem calculate_progress_percent (period_type : string) (total : Q) :
  (Qabs total <= 2 ^ 1000)%Q ->
  match goal_hours_spec period_type with
  | Some hours =>
      let goal_seconds := inject_Z (hours * 3600) in
      calculate_progress period_type total
        = round64 (round64 (total / goal_seconds) * 100) /\
      (Qabs (calculate_progress period_type total - 100 * total / goal_seconds)
       <= Qabs (100 * total / goal_seconds) * 2 ^ (-51) + 2 ^ (-1068))%Q /\
      (forall total' : Q, (total <= total')%Q -> (total' <= 2 ^ 1000)%Q ->
         (calculate_progress period_type total
          <= calculate_progress period_type total')%Q) /\
      ((total == goal_seconds)%Q ->
       (calculate_progress period_type total == 100)%Q)
  | None => calculate_progress period_type total = 0%Q
  end /\
  (calculate_progress "daily" 18000 == 100)%Q /\
  calculate_progress "unknown" 100 = 0%Q.
Proof.
  intros _. split; [| split; vm_compute; reflexivity].
  destruct (goal_hours_spec period_type) as [hours|] eqn:Hg.
  - pose proof (goal_hours_positive _ _ Hg) as Hh.
    assert (Hpos : (0 < inject_Z (hours * 3600))%Q).
    { change 0%Q with (inject_Z 0). rewrite <- Zlt_Qlt. lia. }
    cbv zeta. split; [now apply calculate_progress_eq|].
    split; [|split].
    + rewrite (calculate_progress_eq _ _ _ Hg). apply percent_error. lia.
    + intros total' Hle _. rewrite !(calculate_progress_eq _ _ _ Hg).
      apply round64_mono. apply Qmult_le_compat_r; [|discriminate].
      apply round64_mono. apply Qmult_le_compat_r; [exact Hle|].
      apply Qlt_le_weak, Qinv_lt_0_compat, Hpos.
    + intros E. rewrite (calculate_progress_eq _ _ _ Hg).
      assert (E1 : (total / inject_Z (hours * 3600) == 1)%Q).
      { rewrite E. field. intros H. rewrite H in Hpos. now apply Qlt_irrefl in Hpos. }
      rewrite (round64_comp _ _ E1). reflexivity.
  - unfold calculate_progress. rewrite goals_hours_lookup, Hg. reflexivity.
Qed.

(** C3 at 20700 seconds against the daily goal. *)
Lemma calculate_progress_percent_witness :
  (Qabs 20700 <= 2 ^ 1000)%Q /\
  calculate_progress "daily" 20700
    = round64 (round64 (20700 / inject_Z (5 * 3600)) * 100) /\
  (Qabs (calculate_progress "daily" 20700 - 100 * 20700 / inject_Z (5 * 3600))
   <= Qabs (100 * 20700 / inject_Z (5 * 3600)) * 2 ^ (-51) + 2 ^ (-1068))%Q.
Proof.
  assert (H : (Qabs 20700 <= 2 ^ 1000)%Q) by (vm_compute; discriminate).
  split; [exact H|].
  pose proof (proj1 (calculate_progress_percent "daily" 20700 H)) as T.
  change (goal_hours_spec "daily") with (Some 5) in T. cbv beta iota zeta in T.
  split; [exact (proj1 T)|exact (proj1 (proj2 T))].
Defined.

(** C3 as stated fails at 20700 seconds against the daily goal, where
    [100 * total / goal_seconds] is 115: the quotient 1.15 is no double, the
    one nearest lies below it, and so does the product,
    114.99999999999999. *)
Lemma calculate_progress_daily_20700 :
  (100 * 20700 / inject_Z (5 * 3600) == 115)%Q /\
  calculate_progress "daily" 20700 = (8092405580431359 # 70368744177664)%Q /\
  (calculate_progress "daily" 20700 < 100 * 20700 / inject_Z (5 * 3600))%Q.
Proof. repeat split; vm_compute; reflexivity. Qed.

(** The first definition of [calculate_progress], had it stayed bound, would
    report sixty times as much. *)
Example shadowed_progress_differs :
  (calculate_progress_shadowed "daily" 18000 == 6000)%Q /\
  (calculate_progress "daily" 18000 == 100)%Q.
Proof. split; vm_compute; reflexivity. Qed.

Lemma take_until_app c l rest :
  Forall (fun x => Ascii.eqb x c = false) l -> take_until c (l ++ c :: rest) = l.
Proof.
  induction 1 as [| x l Hx Hl IH]; cbn.
  - rewrite Ascii.eqb_refl. reflexivity.
  - rewrite Hx, IH. reflexivity.
Qed.

Lemma drop_through_app c l rest :
  Forall (fun x => Ascii.eqb x c = false) l -> drop_through c (l ++ c :: rest) = rest.
Proof.
  induction 1 as [| x l Hx Hl IH]; cbn.
  - rewrite Ascii.eqb_refl. reflexivity.
  - rewrite Hx, IH. reflexivity.
Qed.

Lemma Forall_repeat_neq (c x : ascii) n :
  Ascii.eqb x c = false -> Forall (fun y => Ascii.eqb y c = false) (repeat x n).
Proof. intros H. induction n; cbn; constructor; assumption. Qed.

Lemma generate_progress_bar_chars percentage width :
  list_ascii_of_string (generate_progress_bar percentage width) =
  "["%char ::
  (repeat "#"%char (Z.to_nat (py_int (percentage * inject_Z width / 100))) ++
   repeat "."%char (Z.to_nat (width - py_int (percentage * inject_Z width / 100)))) ++
  "]"%char :: " "%char :: list_ascii_of_string (format_1f percentage +:+ "%").
Proof.
  unfold generate_progress_bar, str_repeat.
  rewrite !list_ascii_app, !list_ascii_of_string_of_list_ascii.
  cbn [list_ascii_of_string app]. rewrite <- !app_assoc. reflexivity.
Qed.

Lemma py_int_percent percentage width :
  (0 <= percentage)%Q -> (percentage <= 100)%Q -> 0 <= width ->
  py_int (percentage * inject_Z width / 100) = Qfloor (percentage * inject_Z width / 100) /\
  0 <= py_int (percentage * inject_Z width / 100) <= width.
Proof.
  intros H0 H100 Hw.
  assert (0 <= inject_Z width)%Q as Hw'
    by (change 0%Q with (inject_Z 0); rewrite <- Zle_Qle; exact Hw).
  set (x := (percentage * inject_Z width / 100)%Q).
  assert (0 <= x)%Q as Hx0.
  { subst x. apply Qle_shift_div_l; [reflexivity |]. rewrite Qmult_0_l.
    apply Qmult_le_0_compat; assumption. }
  assert (x <= inject_Z width)%Q as Hxw.
  { subst x. apply Qle_shift_div_r; [reflexivity |].
    rewrite (Qmult_comm (inject_Z width)). apply Qmult_le_compat_r; assumption. }
  unfold py_int. apply Qle_bool_iff in Hx0 as Hb. rewrite Hb. split; [reflexivity |].
  split.
  - change 0 with (Qfloor 0). apply Qfloor_resp_le, Hx0.
  - rewrite <- (Qfloor_Z width). apply Qfloor_resp_le, Hxw.
Qed.

(** C6, as the code has it.  [generate_progress_bar] draws
    [filled = int(percentage * width / 100)] filled cells and
    [width - filled] empty ones, a negative count drawing none, and nothing
    clamps [filled].  For a percentage from 0 to 100 (and [width >= 0])
    [filled] is the floor of [percentage * width / 100], lies in
    [0 .. width], and the bar has exactly [width] cells; once [filled]
    exceeds [width] the bar has [filled] cells, more than [width].  The text
    after the bar is the percentage itself to one decimal; and
    [generate_progress_bar(50, 20)] is ten filled and ten empty cells
    followed by ["50.0%"]. *)
Theorem progress_bar_is_not_clamped (percentage : Q) (width : Z) :
  let filled := py_int (percentage * inject_Z width / 100) in
  let cells := bar_cells (generate_progress_bar percentage width) in
  cells = repeat "#"%char (Z.to_nat filled) ++ repeat "."%char (Z.to_nat (width - filled)) /\
  length cells = (Z.to_nat filled + Z.to_nat (width - filled))%nat /\
  ((0 <= percentage)%Q -> (percentage <= 100)%Q -> 0 <= width ->
     filled = Qfloor (percentage * inject_Z width / 100) /\
     0 <= filled <= width /\ length cells = Z.to_nat width) /\
  (0 <= width -> width < filled ->
     length cells = Z.to_nat filled /\ (Z.to_nat width < length cells)%nat) /\
  bar_text (generate_progress_bar percentage width) = format_1f percentage +:+ "%" /\
  generate_progress_bar 50 20 = "[##########..........] 50.0%".
Proof.
  intros filled cells.
  assert (Forall (fun x => Ascii.eqb x "]" = false)
            (repeat "#"%char (Z.to_nat filled) ++
             repeat "."%char (Z.to_nat (width - filled)))) as Hcells.
  { apply Forall_app. split; apply Forall_repeat_neq; reflexivity. }
  assert (cells = repeat "#"%char (Z.to_nat filled) ++
                  repeat "."%char (Z.to_nat (width - filled))) as Ec.
  { subst cells. unfold bar_cells. rewrite generate_progress_bar_chars.
    cbn [drop_through]. change (Ascii.eqb "[" "[") with true. cbv iota.
    apply take_until_app, Hcells. }
  assert (length cells = (Z.to_nat filled + Z.to_nat (width - filled))%nat) as El.
  { rewrite Ec, length_app, !repeat_length. reflexivity. }
  split; [exact Ec |]. split; [exact El |].
  split; [| split; [| split]].
  - intros H0 H100 Hw. destruct (py_int_percent _ _ H0 H100 Hw) as [Hf Hr].
    fold filled in Hf, Hr. split; [exact Hf |]. split; [exact Hr |]. lia.
  - intros Hw H. split; lia.
  - unfold bar_text. rewrite generate_progress_bar_chars.
    cbn [drop_through]. change (Ascii.eqb "[" "]") with false. cbv iota.
    rewrite drop_through_app by exact Hcells.
    cbn [drop_through]. change (Ascii.eqb " " " ") with true. cbv iota.
    apply string_of_list_ascii_of_string.
  - vm_compute. reflexivity.
Qed.

(** C6 at 50 percent and width 20. *)
Lemma progress_bar_is_not_clamped_witness :
  (0 <= 50)%Q /\ (50 <= 100)%Q /\ 0 <= 20 /\
  length (bar_cells (generate_progress_bar 50 20)) = Z.to_nat 20.
Proof.
  assert (0 <= 50)%Q as H1 by (vm_compute; discriminate).
  assert (50 <= 100)%Q as H2 by (vm_compute; discriminate).
  assert (0 <= 20) as H3 by lia.
  repeat (split; [assumption |]).
  destruct (progress_bar_is_not_clamped 50 20) as (_ & _ & H & _).
  exact (proj2 (proj2 (H H1 H2 H3))).
Defined.

(** C6 as stated fails at 150 percent and width 20: the bar has 30 cells. *)
Lemma progress_bar_150_overflows :
  length (bar_cells (generate_progress_bar 150 20)) = 30%nat /\
  length (bar_cells (generate_progress_bar 150 20)) <> Z.to_nat 20.
Proof. split; [vm_compute; reflexivity | vm_compute; discriminate]. Qed.

(* ===================================================================== *)
(** * The timers *)
(* ===================================================================== *)

Section PracticeTimerTraces.

Import PracticeTimer TimerTrace.

Lemma interval_sum_snoc l s e :
  (interval_sum (l ++ [(s, e)]) == interval_sum l + (e - s))%Q.
Proof.
  induction l as [| i l IH]; cbn.
  - ring.
  - unfold interval_sum in IH. rewrite IH. ring.
Qed.

Lemma step_agrees self h call : agrees self h -> agrees (step self call) (record h call).
Proof.
  intros (Hs & Hr & Ht). destruct self as [st tt rn], h as [done cur].
  cbn in Hs, Hr, Ht. subst st. destruct call as [now []], cur as [s |];
    cbn in Hr; subst rn; cbn; unfold agrees; cbn; repeat split; try assumption; try reflexivity.
  rewrite interval_sum_snoc, Ht. reflexivity.
Qed.

Lemma run_agrees calls : agrees (run calls) (history_of calls).
Proof.
  unfold run, history_of.
  assert (agrees init (mkhistory [] None)) as H0 by (repeat split; reflexivity).
  revert H0. generalize init, (mkhistory [] None).
  induction calls as [| c calls IH]; intros self h H; cbn; [exact H |].
  apply IH, step_agrees, H.
Qed.

(** C9.  After any sequence of calls on a fresh [PracticeTimer], each made at
    a reading of the clock: [get_total_time] is the sum of the running
    intervals completed since the last reset plus, while running, the time
    since the last start; reading it leaves the timer as it is; [start] does
    nothing while running and [stop] does nothing while idle; after [reset]
    the elapsed time is [0].  Starting at 10 and stopping at 12 gives 2;
    starting again at 20 and reading at 21 gives 3. *)
Theorem practice_timer_accumulates (calls : list (Q * op)) (now : Q) :
  let self := run calls in
  (fst (get_total_time now self) == elapsed_spec now (history_of calls))%Q /\
  snd (get_total_time now self) = self /\
  (if running self then start now self = self else stop now self = self) /\
  fst (get_total_time now (reset self)) = 0%Q /\
  (fst (get_total_time 12 (run [(10, Start); (12, Stop)])) == 2)%Q /\
  (fst (get_total_time 21 (run [(10, Start); (12, Stop); (20, Start)])) == 3)%Q.
Proof.
  intros self. destruct (run_agrees calls) as (Hs & Hr & Ht). fold self in Hs, Hr, Ht.
  split; [| split; [| split; [| split; [| split]]]].
  - unfold get_total_time, elapsed_spec. rewrite Hr, Hs. unfold is_running.
    destruct (since (history_of calls)); cbn; rewrite Ht; ring.
  - unfold get_total_time. destruct (running self); reflexivity.
  - unfold start, stop. destruct (running self) eqn:E; rewrite ?E; reflexivity.
  - reflexivity.
  - vm_compute. reflexivity.
  - vm_compute. reflexivity.
Qed.

End PracticeTimerTraces.

(** C5, as the code has it.  [CountdownTimer.format_time] renders a
    non-negative number of seconds as [HH:MM:SS]: three fields of decimal
    digits that read back as [seconds // 3600], [(seconds % 3600) // 60] and
    [seconds % 60]; minutes and seconds have exactly two digits; the hours
    field is zero-padded to two digits too, and is wider only when the hours
    have more digits than two. *)
Theorem format_time_pads_hours (seconds : Z) :
  0 <= seconds ->
  let h := seconds / 3600 in
  let m := seconds mod 3600 / 60 in
  let s := seconds mod 60 in
  exists hh mm ss : string,
    CountdownTimer.format_time seconds = hh +:+ ":" +:+ mm +:+ ":" +:+ ss /\
    Dec.int_of_digit_string hh = Some h /\
    Dec.int_of_digit_string mm = Some m /\
    Dec.int_of_digit_string ss = Some s /\
    String.length hh = Nat.max 2 (length (Dec.digits h)) /\
    String.length mm = 2%nat /\ String.length ss = 2%nat /\
    h * 3600 + m * 60 + s = seconds /\ 0 <= m < 60 /\ 0 <= s < 60.
Proof.
  intros Hs h m s.
  assert (0 <= h) by (apply Z.div_pos; lia).
  assert (0 <= m < 60) by (subst m; Z.div_mod_to_equations; lia).
  assert (0 <= s < 60) by (subst s; Z.div_mod_to_equations; lia).
  exists (Dec.format_zero_pad 2 h), (Dec.format_zero_pad 2 m), (Dec.format_zero_pad 2 s).
  destruct (format_zero_pad_nonneg 2 h ltac:(lia)) as [Hh1 Hh2].
  destruct (format_zero_pad_nonneg 2 m ltac:(lia)) as [Hm1 _].
  destruct (format_zero_pad_nonneg 2 s ltac:(lia)) as [Hs1 _].
  repeat split; try assumption; try lia.
  - rewrite format_zero_pad_2 by lia. reflexivity.
  - rewrite format_zero_pad_2 by lia. reflexivity.
  - subst h m s. Z.div_mod_to_equations. lia.
Qed.

(** C5 at 3661 seconds, ["01:01:01"]. *)
Lemma format_time_pads_hours_witness :
  0 <= 3661 /\
  exists hh mm ss : string,
    CountdownTimer.format_time 3661 = hh +:+ ":" +:+ mm +:+ ":" +:+ ss /\
    Dec.int_of_digit_string hh = Some 1 /\
    Dec.int_of_digit_string mm = Some 1 /\
    Dec.int_of_digit_string ss = Some 1 /\
    String.length hh = 2%nat.
Proof.
  assert (0 <= 3661) as H by lia.
  split; [exact H |].
  destruct (format_time_pads_hours 3661 H)
    as (hh & mm & ss & E & Hh & Hm & Hs & Hl & _).
  exists hh, mm, ss. repeat split; assumption.
Defined.

(** C5 as stated fails at one second: the text is ["00:00:01"], with the
    hours padded, not ["0:00:01"]. *)
Lemma format_time_one_second :
  CountdownTimer.format_time 1 = "00:00:01" /\
  CountdownTimer.format_time 1 <> "0:00:01".
Proof. split; [vm_compute; reflexivity | vm_compute; discriminate]. Qed.

(* ===================================================================== *)
(** * load_sessions and save_session *)
(* ===================================================================== *)

Lemma dict_setdefault_eq k dflt d :
  dict_setdefault k dflt d !! k = Some (default dflt (d !! k)).
Proof.
  unfold dict_setdefault. destruct (d !! k) eqn:E; [exact E | apply lookup_insert_eq].
Qed.

Lemma dict_setdefault_ne k dflt d k' :
  k <> k' -> dict_setdefault k dflt d !! k' = d !! k'.
Proof.
  intros Hne. unfold dict_setdefault.
  destruct (d !! k); [reflexivity | apply lookup_insert_ne, Hne].
Qed.

Lemma dict_setdefault_keeps k dflt d k' v :
  d !! k' = Some v -> dict_setdefault k dflt d !! k' = Some v.
Proof.
  intros H. destruct (decide (k = k')) as [<- | Hne].
  - rewrite dict_setdefault_eq, H. reflexivity.
  - rewrite dict_setdefault_ne by exact Hne. exact H.
Qed.

Lemma set_defaults_filled item record :
  set_defaults item = Ok record -> loaded_from item record.
Proof.
  destruct item as [| | | | | | d]; try discriminate. cbn. intros [= <-].
  eexists d, _. split; [reflexivity |]. split; [reflexivity |].
  unfold filled_from. split; [| split; [| split; [| split]]].
  - rewrite !dict_setdefault_ne by discriminate. apply dict_setdefault_eq.
  - rewrite !(dict_setdefault_ne _ _ _ "work") by discriminate.
    rewrite dict_setdefault_eq, dict_setdefault_ne by discriminate. reflexivity.
  - rewrite (dict_setdefault_ne _ _ _ "movement") by discriminate.
    rewrite dict_setdefault_eq, !dict_setdefault_ne by discriminate. reflexivity.
  - rewrite dict_setdefault_eq, !dict_setdefault_ne by discriminate. reflexivity.
  - intros k v Hk. do 4 apply dict_setdefault_keeps. exact Hk.
Qed.

Lemma for_each_session_filled items records :
  for_each_session items = Ok records -> Forall2 loaded_from items records.
Proof.
  revert records. induction items as [| item items IH]; intros records; cbn.
  - intros [= <-]. constructor.
  - destruct (set_defaults item) as [r |] eqn:Er; [| discriminate]. cbn.
    destruct (for_each_session items) as [rs |]; [| discriminate]. cbn.
    intros [= <-]. constructor; [apply set_defaults_filled, Er | apply IH; reflexivity].
Qed.

(** C7, as the code has it.  Every record [load_sessions] returns comes from
    a stored object: [composer], [work] and [movement] are ["Unknown"] and
    [notes] is the empty string when the stored object lacks the key; a key
    the stored object has keeps its stored value, an empty string or a null
    included. *)
Theorem load_sessions_fills_absent_keys (f : file_state) (records : list value) :
  fst (load_sessions f) = VList records ->
  exists items,
    Forall2 loaded_from items records /\
    (records <> [] -> f = FileText (Some (VList items))).
Proof.
  unfold load_sessions.
  destruct f as [| | [data |]]; cbn;
    try (intros [= <-]; exists []; split; [constructor | congruence]).
  destruct (load_loop data) as [v |] eqn:El; cbn;
    [| intros [= <-]; exists []; split; [constructor | congruence]].
  intros ->. unfold load_loop in El. destruct data as [| | | | s | items | d]; try discriminate.
  - destruct (String.eqb s EmptyString); discriminate.
  - destruct (for_each_session items) as [rs |] eqn:Ef; [| discriminate].
    cbn in El. injection El as <-. exists items.
    split; [apply for_each_session_filled, Ef | reflexivity].
  - destruct (bool_decide _); discriminate.
Qed.

(** C7 at a file holding one empty object. *)
Lemma load_sessions_fills_absent_keys_witness :
  fst (load_sessions (FileText (Some (VList [VDict ∅])))) =
    VList [VDict {[ "composer" := VStr "Unknown"; "work" := VStr "Unknown";
                    "movement" := VStr "Unknown"; "notes" := VStr EmptyString ]}] /\
  exists items,
    Forall2 loaded_from items
      [VDict {[ "composer" := VStr "Unknown"; "work" := VStr "Unknown";
                "movement" := VStr "Unknown"; "notes" := VStr EmptyString ]}].
Proof.
  assert (fst (load_sessions (FileText (Some (VList [VDict ∅])))) =
    VList [VDict {[ "composer" := VStr "Unknown"; "work" := VStr "Unknown";
                    "movement" := VStr "Unknown"; "notes" := VStr EmptyString ]}]) as H
    by (vm_compute; reflexivity).
  split; [exact H |].
  destruct (load_sessions_fills_absent_keys _ _ H) as (items & Hitems & _).
  exists items. exact Hitems.
Defined.

(** C7 as stated fails on a stored record whose [composer] is the empty
    string and whose [work] is null: both are falsy, and both come back as
    they were stored, not as ["Unknown"]. *)
Lemma load_sessions_keeps_blank_values :
  exists loaded,
    fst (load_sessions (FileText (Some (VList [VDict blank_record])))) = VList [VDict loaded] /\
    truthy (VStr EmptyString) = false /\ truthy VNone = false /\
    blank_record !! "composer" = Some (VStr EmptyString) /\
    blank_record !! "work" = Some VNone /\
    loaded !! "composer" = Some (VStr EmptyString) /\
    loaded !! "work" = Some VNone /\
    loaded !! "composer" <> Some (VStr "Unknown") /\
    loaded !! "work" <> Some (VStr "Unknown").
Proof.
  eexists. split; [reflexivity |].
  repeat split; try reflexivity; vm_compute; discriminate.
Qed.

Lemma bind_obj_get {A} l k dflt (f : value -> M A) w d :
  objs w !! l = Some d ->
  bind (obj_get l k dflt) f w = f (dict_get d k dflt) w.
Proof. intros H. unfold bind, obj_get. rewrite H. reflexivity. Qed.

Lemma bind_obj_set {A} l k v (f : unit -> M A) w d :
  objs w !! l = Some d ->
  bind (obj_set l k v) f w = f tt (put_obj l (<[k := v]> d) w).
Proof. intros H. unfold bind, obj_set. rewrite H. reflexivity. Qed.

Lemma put_obj_lookup l d w : objs (put_obj l d w) !! l = Some d.
Proof. apply lookup_insert_eq. Qed.

Lemma put_obj_put_obj l d d' w : put_obj l d' (put_obj l d w) = put_obj l d' w.
Proof. unfold put_obj. cbn. rewrite insert_insert_eq. reflexivity. Qed.

Lemma with_defaults_date d : with_defaults d !! "date" = d !! "date".
Proof. unfold with_defaults. rewrite !lookup_insert_ne by discriminate. reflexivity. Qed.

(** [save_session] up to the point where the date is read. *)
Lemma save_session_until_date io session w d :
  objs w !! session = Some d ->
  save_session io session w =
  try_except
    (bind (obj_item session "date") (fun session_date_str =>
     bind (lift (strptime session_date_str)) (fun session_date =>
     bind (obj_set session "week" (VInt (isoweek session_date))) (fun _ =>
     bind (obj_set session "month" (VInt (month session_date))) (fun _ =>
     bind (obj_set session "year" (VInt (year session_date))) (fun _ =>
     bind (list_append session) (fun _ =>
     bind (write_file io) (fun _ => print_saved session))))))))
    (fun e => print (LogErrorSaving e))
    (put_obj session (with_defaults d)
       (mkworld (objs w) (sessions w) (file w) (out w ++ [LogTryingSave]))).
Proof.
  intros H. unfold save_session.
  unfold bind at 1. cbn [print]. unfold try_except.
  set (w0 := mkworld (objs w) (sessions w) (file w) (out w ++ [LogTryingSave])).
  assert (objs w0 !! session = Some d) as H0 by exact H.
  rewrite (bind_obj_get _ _ _ _ _ _ H0), (bind_obj_set _ _ _ _ _ _ H0).
  rewrite (bind_obj_get _ _ _ _ _ _ (put_obj_lookup _ _ _)),
          (bind_obj_set _ _ _ _ _ _ (put_obj_lookup _ _ _)), put_obj_put_obj.
  rewrite (bind_obj_get _ _ _ _ _ _ (put_obj_lookup _ _ _)),
          (bind_obj_set _ _ _ _ _ _ (put_obj_lookup _ _ _)), put_obj_put_obj.
  rewrite (bind_obj_get _ _ _ _ _ _ (put_obj_lookup _ _ _)),
          (bind_obj_set _ _ _ _ _ _ (put_obj_lookup _ _ _)), put_obj_put_obj.
  reflexivity.
Qed.

(** C4.  When the [date] of the session handed to [save_session] is missing,
    is not a string or does not parse as [YYYY-MM-DD], the call returns
    normally, so no exception reaches the caller; the list [sessions] is
    what it was, the file is what it was (whatever the disk would have done),
    and no dict other than the session itself has changed, so that the
    records of the collection read as before when the session was not
    already one of them.  The session itself has by then received its
    defaults, and the failure is printed. *)
Theorem save_session_rejects_bad_date (io : write_outcome) (session : loc)
    (w : world) (d : gmap string value) :
  objs w !! session = Some d -> date_parses d = false ->
  exists (w' : world) (e : exn),
    save_session io session w = (Ok tt, w') /\
    sessions w' = sessions w /\
    file w' = file w /\
    (forall l, l <> session -> objs w' !! l = objs w !! l) /\
    (~ In session (sessions w) -> dump w' = dump w) /\
    objs w' !! session = Some (with_defaults d) /\
    out w' = out w ++ [LogTryingSave; LogErrorSaving e].
Proof.
  intros Hd Hbad. rewrite (save_session_until_date _ _ _ _ Hd).
  set (w1 := put_obj session (with_defaults d) _).
  assert (exists e, session_date d = Raise e) as [e He].
  { unfold date_parses in Hbad. destruct (session_date d) as [? | e]; [discriminate |].
    exists e. reflexivity. }
  assert (exists e', bind (obj_item session "date") (fun session_date_str =>
     bind (lift (strptime session_date_str)) (fun session_date =>
     bind (obj_set session "week" (VInt (isoweek session_date))) (fun _ =>
     bind (obj_set session "month" (VInt (month session_date))) (fun _ =>
     bind (obj_set session "year" (VInt (year session_date))) (fun _ =>
     bind (list_append session) (fun _ =>
     bind (write_file io) (fun _ => print_saved session))))))) w1 = (Raise e', w1))
    as [e' Hbody].
  { unfold bind at 1, obj_item. subst w1. rewrite put_obj_lookup.
    unfold session_date, dict_item in *. rewrite with_defaults_date.
    destruct (d !! "date") as [v |]; [| exists KeyError; reflexivity].
    cbn [rbind] in He. unfold bind at 1, lift. rewrite He. exists e. reflexivity. }
  unfold try_except. rewrite Hbody. cbn [print].
  eexists _, e'. split; [reflexivity |]. cbn.
  split; [reflexivity |]. split; [reflexivity |].
  split; [intros l Hl; apply lookup_insert_ne; congruence |].
  split; [| split; [apply lookup_insert_eq | rewrite <- app_assoc; reflexivity]].
  unfold dump. cbn. generalize (sessions w) as ls.
  induction ls as [| l ls IH]; intros Hnot; [reflexivity |].
  assert (~ In session ls) as Hnot' by (intros H; apply Hnot; right; exact H).
  specialize (IH Hnot'). injection IH as IH.
  cbn. rewrite lookup_insert_ne by (intros E; apply Hnot; left; symmetry; exact E).
  rewrite IH. reflexivity.
Qed.

(** C4 at a session dated ["08/01/2024"]. *)
Lemma save_session_rejects_bad_date_witness :
  objs bad_date_world !! 0%nat = Some {[ "date" := VStr "08/01/2024" ]} /\
  date_parses {[ "date" := VStr "08/01/2024" ]} = false /\
  exists (w' : world) (e : exn),
    save_session WriteOk 0%nat bad_date_world = (Ok tt, w') /\
    sessions w' = sessions bad_date_world /\ file w' = file bad_date_world.
Proof.
  assert (objs bad_date_world !! 0%nat = Some {[ "date" := VStr "08/01/2024" ]}) as H1
    by (vm_compute; reflexivity).
  assert (date_parses {[ "date" := VStr "08/01/2024" ]} = false) as H2
    by (vm_compute; reflexivity).
  split; [exact H1 |]. split; [exact H2 |].
  destruct (save_session_rejects_bad_date WriteOk 0%nat bad_date_world _ H1 H2)
    as (w' & e & Hs & Hl & Hf & _).
  exists w', e. split; [exact Hs |]. split; [exact Hl | exact Hf].
Defined.

(* ===================================================================== *)
(** * calculate_period_stats: totals, nesting and failures *)
(* ===================================================================== *)

Lemma stats_update_keys k v stats : map fst (stats_update k v stats) = map fst stats.
Proof.
  induction stats as [|[k' v'] rest IH]; cbn; [reflexivity|].
  destruct (String.eqb k k'); cbn; [reflexivity|]. now rewrite IH.
Qed.

Lemma stats_lookup_app k stats k' v :
  stats_lookup k (stats ++ [(k', v)]) =
  match stats_lookup k stats with
  | Some x => Some x
  | None => if String.eqb k k' then Some v else None
  end.
Proof.
  induction stats as [|[k0 v0] rest IH]; cbn; [reflexivity|].
  destruct (String.eqb k k0); [reflexivity|exact IH].
Qed.

Lemma stats_lookup_update_eq k k' v stats :
  stats_lookup k (stats_update k' v stats) =
  if String.eqb k k' then
    match stats_lookup k' stats with Some _ => Some v | None => None end
  else stats_lookup k stats.
Proof.
  induction stats as [|[k0 v0] rest IH]; cbn.
  - now destruct (String.eqb k k').
  - destruct (String.eqb k' k0) eqn:E0; cbn.
    + apply String.eqb_eq in E0. subst k0.
      destruct (String.eqb k k') eqn:E; [reflexivity|reflexivity].
    + destruct (String.eqb k k0) eqn:E1.
      * apply String.eqb_eq in E1. subst k0.
        rewrite String.eqb_sym in E0. now rewrite E0.
      * exact IH.
Qed.

Lemma stats_lookup_None k stats :
  stats_lookup k stats = None <-> ~ In k (map fst stats).
Proof.
  induction stats as [|[k0 v0] rest IH]; cbn; [tauto|].
  destruct (String.eqb k k0) eqn:E.
  - apply String.eqb_eq in E. subst. split; [discriminate|]. intros H. exfalso. auto.
  - apply String.eqb_neq in E. rewrite IH. split; [intros H [H1|H1]; [congruence|auto]|tauto].
Qed.

Lemma stats_lookup_NoDup k v stats :
  NoDup (map fst stats) -> In (k, v) stats -> stats_lookup k stats = Some v.
Proof.
  induction stats as [|[k0 v0] rest IH]; cbn; [tauto|].
  intros Hnd [H|H].
  - injection H as -> ->. now rewrite String.eqb_refl.
  - apply NoDup_cons in Hnd as [Hni Hnd'].
    destruct (String.eqb k k0) eqn:E.
    + apply String.eqb_eq in E. subst. exfalso. apply Hni.
      apply list_elem_of_In. apply (in_map fst) in H. exact H.
    + apply IH; assumption.
Qed.

Lemma py_add_shape a b :
  is_number a = true -> is_number b = true ->
  match as_int a, as_int b with
  | Some x, Some y => py_add a b = Ok (VInt (x + y))
  | _, _ => py_add a b = Ok (VFloat (round64 (widen a + widen b)))
  end.
Proof. destruct a, b; try discriminate; intros _ _; reflexivity. Qed.

Lemma as_int_num v z : as_int v = Some z -> num_of v = inject_Z z.
Proof. destruct v; try discriminate; now intros [= <-]. Qed.

Lemma as_int_None v : is_number v = true -> as_int v = None -> exists q, v = VFloat q.
Proof. destruct v; try discriminate. intros _ _. now exists q. Qed.

Lemma widen_small v :
  is_number v = true -> (Qabs (num_of v) < inject_Z (2 ^ 53 + 1))%Q ->
  (widen v == num_of v)%Q.
Proof.
  destruct v; try discriminate; intros _ H; try reflexivity.
  cbn [widen num_of] in *. apply round64_small_int.
  assert (E : (Qabs (inject_Z z) == inject_Z (Z.abs z))%Q).
  { unfold inject_Z. now rewrite <- Zabs_Qabs. }
  rewrite E in H. rewrite <- Zlt_Qlt in H. lia.
Qed.

Lemma add_all_cons first x rest :
  add_all first (x :: rest) =
  match py_add first x with
  | Ok c => add_all c rest
  | Raise e => Raise e
  end.
Proof.
  unfold add_all. cbn [fold_left rbind].
  destruct (py_add first x) as [c|e]; [reflexivity|].
  induction rest as [|y rest IH]; [reflexivity|exact IH].
Qed.

Lemma add_all_snoc first rest x :
  add_all first (rest ++ [x]) = rbind (add_all first rest) (fun a => py_add a x).
Proof. unfold add_all. now rewrite fold_left_app. Qed.

Lemma filter_dated_cons k s rest :
  List.filter (dated k) (s :: rest) =
  if String.eqb k (date_str s) then s :: List.filter (dated k) rest
  else List.filter (dated k) rest.
Proof.
  cbn [List.filter]. replace (dated k s) with (String.eqb k (date_str s)); [reflexivity|].
  unfold dated. apply String.eqb_sym.
Qed.

(** The second loop on sessions of dates that parse and durations that are
    numbers: one entry per date string, and the entry of a date is what
    [+=] makes of the durations of that date, in their order. *)
Lemma sum_by_date_groups valid : forall stats,
  forallb date_parses valid = true ->
  forallb has_numeric_duration valid = true ->
  Forall (fun p : string * value => is_number (snd p) = true) stats ->
  NoDup (map fst stats) ->
  exists items, sum_by_date stats valid = Ok items /\
    Forall (fun p : string * value => is_number (snd p) = true) items /\
    NoDup (map fst items) /\
    (forall k, In k (map fst items) <->
               In k (map fst stats) \/ In k (map date_str valid)) /\
    (forall k v, stats_lookup k items = Some v ->
       match stats_lookup k stats with
       | Some v0 => add_all v0 (map duration_value (List.filter (dated k) valid)) = Ok v
       | None => exists first rest,
           map duration_value (List.filter (dated k) valid) = first :: rest /\
           add_all first rest = Ok v
       end) /\
    (exists new, map fst items = map fst stats ++ new).
Proof.
  induction valid as [|s rest IH]; intros stats Hd Hn Hs Hnd.
  - exists stats. cbn. repeat split; try assumption; try tauto.
    + intros k v Hk. rewrite Hk. reflexivity.
    + exists []. now rewrite app_nil_r.
  - cbn in Hd, Hn. apply andb_true_iff in Hd as [Hd1 Hd2].
    apply andb_true_iff in Hn as [Hn1 Hn2].
    destruct (date_parses_inv s Hd1) as (d & Hsd & Hdate).
    unfold has_numeric_duration in Hn1.
    destruct (s !! "duration") as [x|] eqn:Hx; [|discriminate].
    assert (Hdur : duration_value s = x) by (unfold duration_value; now rewrite Hx).
    cbn [sum_by_date]. unfold dict_item. rewrite Hdate, Hx. cbn [rbind].
    destruct (stats_lookup (date_str s) stats) as [total|] eqn:Hl.
    + destruct (stats_lookup_Some _ _ _ Hl) as [Hin1 Hin2].
      assert (Ht : is_number total = true).
      { rewrite List.Forall_forall in Hs. exact (Hs _ Hin2). }
      destruct (py_add_number total x Ht Hn1) as (c & Hc & Hcn).
      rewrite Hc. cbn [rbind].
      destruct (IH (stats_update (date_str s) c stats) Hd2 Hn2)
        as (items & Hi & Hf & Hnd' & Hk & Hv & Ho).
      { now apply stats_update_numbers. }
      { now rewrite stats_update_keys. }
      exists items. split; [exact Hi|]. split; [exact Hf|]. split; [exact Hnd'|].
      split; [|split].
      * intros k. rewrite Hk, stats_update_keys. cbn [map In].
        split; [tauto|]. intros [H|[H|H]]; [tauto| |tauto]. left. now subst.
      * intros k v Hkv. specialize (Hv k v Hkv).
        rewrite stats_lookup_update_eq in Hv. rewrite filter_dated_cons.
        destruct (String.eqb k (date_str s)) eqn:E.
        -- apply String.eqb_eq in E. subst k. rewrite Hl in *.
           cbn [map]. rewrite Hdur, add_all_cons, Hc. exact Hv.
        -- exact Hv.
      * now rewrite stats_update_keys in Ho.
    + destruct (IH (stats ++ [(date_str s, x)]) Hd2 Hn2)
        as (items & Hi & Hf & Hnd' & Hk & Hv & Ho).
      { apply Forall_app. split; [exact Hs|]. constructor; [exact Hn1|constructor]. }
      { rewrite map_app. cbn [map fst]. apply NoDup_app. split; [exact Hnd|]. split.
        - intros y Hy Hy'. apply list_elem_of_In in Hy, Hy'. cbn in Hy'.
          destruct Hy' as [<-|[]]. apply stats_lookup_None in Hl. auto.
        - apply NoDup_singleton. }
      exists items. split; [exact Hi|]. split; [exact Hf|]. split; [exact Hnd'|].
      split; [|split].
      * intros k. rewrite Hk, map_app, in_app_iff. cbn [map In fst]. tauto.
      * intros k v Hkv. specialize (Hv k v Hkv).
        rewrite stats_lookup_app in Hv. rewrite filter_dated_cons.
        destruct (String.eqb k (date_str s)) eqn:E.
        -- apply String.eqb_eq in E. subst k. rewrite Hl in *.
           cbn [map]. rewrite Hdur. eexists _, _. split; [reflexivity|exact Hv].
        -- destruct (stats_lookup k stats); exact Hv.
      * destruct Ho as (new & Ho). rewrite map_app in Ho. cbn [map fst] in Ho.
        exists (date_str s :: new). rewrite Ho, <- app_assoc. reflexivity.
Qed.

Lemma sumQ_cons {A} (f : A -> Q) x l : sumQ f (x :: l) = (f x + sumQ f l)%Q.
Proof. reflexivity. Qed.

Lemma sumQ_app {A} (f : A -> Q) l1 l2 : (sumQ f (l1 ++ l2) == sumQ f l1 + sumQ f l2)%Q.
Proof. induction l1 as [|x l1 IH]; cbn [app]; rewrite ?sumQ_cons; [cbn; ring|rewrite IH; ring]. Qed.

Lemma sumQ_map {A B} (g : A -> B) (f : B -> Q) l : sumQ f (map g l) = sumQ (fun x => f (g x)) l.
Proof. induction l as [|x l IH]; [reflexivity|]. cbn [map]. rewrite !sumQ_cons. now rewrite IH. Qed.

Lemma sumQ_le {A} (f g : A -> Q) l :
  Forall (fun x => (f x <= g x)%Q) l -> (sumQ f l <= sumQ g l)%Q.
Proof.
  induction 1 as [|x l Hx _ IH]; [apply Qle_refl|]. rewrite !sumQ_cons. lra.
Qed.

Lemma sumQ_nonneg {A} (f : A -> Q) l :
  Forall (fun x => (0 <= f x)%Q) l -> (0 <= sumQ f l)%Q.
Proof.
  induction 1 as [|x l Hx _ IH]; [apply Qle_refl|]. rewrite sumQ_cons. lra.
Qed.

Lemma sumQ_plus {A} (f g : A -> Q) l :
  (sumQ (fun x => f x + g x) l == sumQ f l + sumQ g l)%Q.
Proof. induction l as [|x l IH]; [cbn; ring|]. rewrite !sumQ_cons, IH. ring. Qed.

Lemma sumQ_scale {A} (f : A -> Q) c l :
  (sumQ (fun x => f x * c) l == sumQ f l * c)%Q.
Proof. induction l as [|x l IH]; [cbn; ring|]. rewrite !sumQ_cons, IH. ring. Qed.

Lemma sumQ_ext {A} (f g : A -> Q) l :
  Forall (fun x => (f x == g x)%Q) l -> (sumQ f l == sumQ g l)%Q.
Proof.
  induction 1 as [|x l Hx _ IH]; [reflexivity|]. rewrite !sumQ_cons, Hx, IH. reflexivity.
Qed.

Lemma sumQ_abs {A} (f : A -> Q) l : (Qabs (sumQ f l) <= sumQ (fun x => Qabs (f x)) l)%Q.
Proof.
  induction l as [|x l IH]; [cbn; discriminate|]. rewrite !sumQ_cons.
  eapply Qle_trans; [apply Qabs_triangle|]. lra.
Qed.

Lemma sumQ_one {A} (l : list A) : (sumQ (fun _ => 1) l == inject_Z (Z.of_nat (length l)))%Q.
Proof.
  induction l as [|x l IH]; [reflexivity|]. rewrite sumQ_cons, IH. cbn [length].
  rewrite Nat2Z.inj_succ, <- Z.add_1_l, inject_Z_plus. reflexivity.
Qed.

Lemma sumQ_filter_split {A} (f : A -> Q) (p : A -> bool) l :
  (sumQ f l == sumQ f (List.filter p l) + sumQ f (List.filter (fun x => negb (p x)) l))%Q.
Proof.
  induction l as [|x l IH]; [cbn; ring|]. cbn [List.filter]. rewrite sumQ_cons, IH.
  destruct (p x); cbn [negb]; rewrite sumQ_cons; ring.
Qed.

(** The sessions fall into their dates. *)
Lemma sumQ_by_date (f : session -> Q) (keys : list string) : forall l,
  NoDup keys -> (forall s, In s l -> In (date_str s) keys) ->
  (sumQ (fun k => sumQ f (List.filter (dated k) l)) keys == sumQ f l)%Q.
Proof.
  induction keys as [|k keys IH]; intros l Hnd Hin.
  - destruct l as [|s l]; [reflexivity|]. destruct (Hin s); now left.
  - apply NoDup_cons in Hnd as [Hk Hnd]. rewrite sumQ_cons.
    rewrite (sumQ_filter_split f (dated k) l).
    rewrite <- (IH (List.filter (fun s => negb (dated k s)) l) Hnd).
    + apply Qplus_comp; [reflexivity|]. apply sumQ_ext.
      apply List.Forall_forall. intros k' Hk'.
      assert (E : List.filter (dated k') (List.filter (fun s => negb (dated k s)) l)
                  = List.filter (dated k') l).
      { clear -Hk Hk'. induction l as [|s l IHl]; [reflexivity|]. cbn [List.filter].
        destruct (dated k s) eqn:E1; cbn [negb List.filter].
        - destruct (dated k' s) eqn:E2; [|exact IHl].
          unfold dated in E1, E2. apply String.eqb_eq in E1, E2. subst.
          exfalso. apply Hk. now apply list_elem_of_In.
        - destruct (dated k' s); [now rewrite IHl|exact IHl]. }
      now rewrite E.
    + intros s Hs. apply filter_In in Hs as [Hs Hn].
      destruct (Hin s Hs) as [E|H]; [|exact H].
      unfold dated in Hn. subst k. now rewrite String.eqb_refl in Hn.
Qed.

Lemma sum_slack_nonneg G : (0 <= G)%Q -> (0 <= sum_slack G)%Q.
Proof.
  intros H. unfold sum_slack. pose proof (pow2_pos (-52)). pose proof (pow2_pos (-1074)).
  assert (0 <= G * 2 ^ (-52))%Q by (apply Qmult_le_0_compat; lra). lra.
Qed.

(** One sum of two numbers that are small together. *)
Lemma py_add_close (G : Q) a x :
  (0 <= G)%Q -> (G <= inject_Z (2 ^ 52))%Q ->
  is_number a = true -> is_number x = true ->
  (Qabs (num_of a) + Qabs (num_of x) <= 2 * G + 2 ^ (-1022))%Q ->
  exists c, py_add a x = Ok c /\ is_number c = true /\
            (Qabs (num_of c - (num_of a + num_of x)) <= sum_slack G)%Q.
Proof.
  intros HG0 HG Ha Hx Hm. pose proof (py_add_shape a x Ha Hx) as Hs.
  pose proof (sum_slack_nonneg G HG0) as Hd.
  assert (Hfloat : py_add a x = Ok (VFloat (round64 (widen a + widen x))) ->
    exists c, py_add a x = Ok c /\ is_number c = true /\
              (Qabs (num_of c - (num_of a + num_of x)) <= sum_slack G)%Q).
  { intros E. eexists. split; [exact E|]. split; [reflexivity|]. cbn [num_of].
    pose proof (Qabs_nonneg (num_of a)) as Na. pose proof (Qabs_nonneg (num_of x)) as Nx.
    assert (Hsmall : (2 * G + 2 ^ (-1022) < inject_Z (2 ^ 53 + 1))%Q).
    { assert ((2 ^ (-1022) < 1)%Q) by (vm_compute; reflexivity).
      rewrite inject_Z_plus. change (2 ^ 53) with (2 * 2 ^ 52). rewrite inject_Z_mult.
      change (inject_Z 2) with 2%Q. change (inject_Z 1) with 1%Q. lra. }
    assert (Ea : (widen a == num_of a)%Q) by (apply widen_small; [exact Ha|lra]).
    assert (Ex : (widen x == num_of x)%Q) by (apply widen_small; [exact Hx|lra]).
    assert (E2 : (widen a + widen x == num_of a + num_of x)%Q) by now rewrite Ea, Ex.
    rewrite (round64_comp _ _ E2).
    eapply Qle_trans; [apply round64_error|].
    assert (Ht : (Qabs (num_of a + num_of x) <= 2 * G + 2 ^ (-1022))%Q).
    { eapply Qle_trans; [apply Qabs_triangle|exact Hm]. }
    assert (Hu : (Qabs (num_of a + num_of x) * 2 ^ (-53)
                  <= (2 * G + 2 ^ (-1022)) * 2 ^ (-53))%Q).
    { apply Qmult_le_compat_r; [exact Ht|]. apply Qlt_le_weak, pow2_pos. }
    assert (E52 : (2 ^ (-52) == 2 * 2 ^ (-53))%Q) by reflexivity.
    assert (E74 : (2 ^ (-1074) == 2 * 2 ^ (-1075))%Q) by reflexivity.
    assert (E75 : (2 ^ (-1022) * 2 ^ (-53) == 2 ^ (-1075))%Q) by reflexivity.
    unfold sum_slack. rewrite E52, E74.
    assert (E3 : ((2 * G + 2 ^ (-1022)) * 2 ^ (-53)
                  == G * (2 * 2 ^ (-53)) + 2 ^ (-1022) * 2 ^ (-53))%Q) by ring.
    rewrite E3, E75 in Hu. lra. }
  destruct (as_int a) as [ia|] eqn:Ia; [destruct (as_int x) as [ix|] eqn:Ix|];
    try (apply Hfloat; exact Hs).
  eexists. split; [exact Hs|]. split; [reflexivity|].
  rewrite (as_int_num _ _ Ia), (as_int_num _ _ Ix). cbn [num_of].
  assert (E : (inject_Z (ia + ix) - (inject_Z ia + inject_Z ix) == 0)%Q)
    by (rewrite inject_Z_plus; ring).
  rewrite E. exact Hd.
Qed.

(** A run of sums that stays small: every sum may lose [sum_slack]. *)
Lemma add_all_close (G : Q) rest : forall first,
  (0 <= G)%Q -> (G <= inject_Z (2 ^ 52))%Q ->
  is_number first = true -> Forall (fun v => is_number v = true) rest ->
  (Qabs (num_of first) + sumQ (fun v => Qabs (num_of v)) rest
   + inject_Z (Z.of_nat (length rest)) * sum_slack G <= 2 * G + 2 ^ (-1022))%Q ->
  exists v, add_all first rest = Ok v /\ is_number v = true /\
    (Qabs (num_of v - (num_of first + sumQ num_of rest))
     <= inject_Z (Z.of_nat (length rest)) * sum_slack G)%Q.
Proof.
  induction rest as [|x rest IH]; intros first HG0 HG Hf Hr Hm.
  - exists first. split; [reflexivity|]. split; [exact Hf|].
    cbn [length sumQ fold_right]. change (inject_Z (Z.of_nat 0)) with 0%Q.
    assert (E : (num_of first - (num_of first + 0) == 0)%Q) by ring.
    rewrite E, Qmult_0_l. apply Qle_refl.
  - apply List.Forall_cons_iff in Hr as [Hx Hr].
    pose proof (sum_slack_nonneg G HG0) as Hd.
    rewrite sumQ_cons in Hm. cbn [length] in Hm |- *.
    rewrite Nat2Z.inj_succ, <- Z.add_1_l, inject_Z_plus in Hm |- *.
    change (inject_Z 1) with 1%Q in *.
    set (n := inject_Z (Z.of_nat (length rest))) in *.
    assert (Hn : (0 <= n)%Q).
    { unfold n. change 0%Q with (inject_Z 0). rewrite <- Zle_Qle. lia. }
    assert (Hnd : (0 <= n * sum_slack G)%Q) by (apply Qmult_le_0_compat; assumption).
    assert (Hg : (0 <= sumQ (fun v => Qabs (num_of v)) rest)%Q).
    { apply sumQ_nonneg. apply List.Forall_forall. intros. apply Qabs_nonneg. }
    destruct (py_add_close G first x HG0 HG Hf Hx) as (c & Hc & Hcn & Hce); [lra|].
    assert (Hcabs : (Qabs (num_of c) <= Qabs (num_of first) + Qabs (num_of x) + sum_slack G)%Q).
    { assert (E : (num_of c == (num_of c - (num_of first + num_of x))
                               + (num_of first + num_of x))%Q) by ring.
      rewrite E. eapply Qle_trans; [apply Qabs_triangle|].
      pose proof (Qabs_triangle (num_of first) (num_of x)). lra. }
    destruct (IH c HG0 HG Hcn Hr) as (v & Hv & Hvn & Hve); [lra|].
    exists v. split; [now rewrite add_all_cons, Hc|]. split; [exact Hvn|].
    rewrite sumQ_cons.
    assert (E : (num_of v - (num_of first + (num_of x + sumQ num_of rest))
                 == (num_of v - (num_of c + sumQ num_of rest))
                    + (num_of c - (num_of first + num_of x)))%Q) by ring.
    rewrite E. eapply Qle_trans; [apply Qabs_triangle|]. lra.
Qed.

Lemma total_duration_sumQ l : total_duration l = sumQ duration_of l.
Proof. reflexivity. Qed.

Lemma gross_duration_sumQ l : gross_duration l = sumQ (fun s => Qabs (duration_of s)) l.
Proof. reflexivity. Qed.

Lemma gross_duration_nonneg l : (0 <= gross_duration l)%Q.
Proof.
  rewrite gross_duration_sumQ. apply sumQ_nonneg. apply List.Forall_forall.
  intros. apply Qabs_nonneg.
Qed.

Lemma gross_duration_filter p l : (gross_duration (List.filter p l) <= gross_duration l)%Q.
Proof.
  rewrite !gross_duration_sumQ.
  rewrite (sumQ_filter_split (fun s => Qabs (duration_of s)) p l).
  assert (0 <= sumQ (fun s => Qabs (duration_of s)) (List.filter (fun x => negb (p x)) l))%Q.
  { apply sumQ_nonneg. apply List.Forall_forall. intros. apply Qabs_nonneg. }
  lra.
Qed.

Lemma sum_slack_mono G G' : (G <= G')%Q -> (sum_slack G <= sum_slack G')%Q.
Proof.
  intros H. unfold sum_slack.
  assert (G * 2 ^ (-52) <= G' * 2 ^ (-52))%Q
    by (apply Qmult_le_compat_r; [exact H|apply Qlt_le_weak, pow2_pos]).
  lra.
Qed.

(** [n] sums that may lose [sum_slack G] each stay within the bound of
    [py_add_close] as long as [n] is at most [2 ** 52]. *)
Lemma slack_budget G n :
  (0 <= G)%Q -> 0 <= n <= 2 ^ 52 ->
  (inject_Z n * sum_slack G <= G + 2 ^ (-1022))%Q.
Proof.
  intros HG Hn. pose proof (sum_slack_nonneg G HG) as Hd.
  apply Qle_trans with (inject_Z (2 ^ 52) * sum_slack G)%Q.
  - apply Qmult_le_compat_r; [|exact Hd]. rewrite <- Zle_Qle. lia.
  - unfold sum_slack.
    assert (E : (inject_Z (2 ^ 52) * (G * 2 ^ (-52) + 2 ^ (-1074))
                 == G * (inject_Z (2 ^ 52) * 2 ^ (-52)) + inject_Z (2 ^ 52) * 2 ^ (-1074))%Q)
      by ring.
    rewrite E.
    assert (E1 : (inject_Z (2 ^ 52) * 2 ^ (-52) == 1)%Q) by reflexivity.
    assert (E2 : (inject_Z (2 ^ 52) * 2 ^ (-1074) == 2 ^ (-1022))%Q) by reflexivity.
    rewrite E1, E2. lra.
Qed.

Lemma durations_numbers l :
  forallb has_numeric_duration l = true ->
  Forall (fun v => is_number v = true) (map duration_value l).
Proof.
  intros H. apply List.Forall_map. apply List.Forall_forall. intros s Hs.
  rewrite forallb_forall in H. specialize (H s Hs).
  unfold has_numeric_duration in H. unfold duration_value.
  destruct (s !! "duration"); [exact H|discriminate].
Qed.

Lemma length_cons_Z {A} (x : A) l :
  inject_Z (Z.of_nat (length (x :: l))) == inject_Z (Z.of_nat (length l)) + 1.
Proof.
  cbn [length]. rewrite Nat2Z.inj_succ, <- Z.add_1_r, inject_Z_plus. reflexivity.
Qed.

(** The total of one date against the durations of that date. *)
Lemma group_close (G : Q) (group : list session) first rest v :
  (0 <= G)%Q -> (G <= inject_Z (2 ^ 52))%Q ->
  forallb has_numeric_duration group = true ->
  (gross_duration group <= G)%Q -> Z.of_nat (length group) <= 2 ^ 52 ->
  map duration_value group = first :: rest ->
  add_all first rest = Ok v ->
  is_number v = true /\
  (Qabs (num_of v - total_duration group)
   <= (inject_Z (Z.of_nat (length group)) - 1) * sum_slack G)%Q.
Proof.
  intros HG0 HG Hn Hg Hl Hm Hv.
  pose proof (durations_numbers _ Hn) as Hnum. rewrite Hm in Hnum.
  apply List.Forall_cons_iff in Hnum as [Hf Hr].
  assert (El : (inject_Z (Z.of_nat (length group))
                == inject_Z (Z.of_nat (length rest)) + 1)%Q).
  { rewrite <- (length_map duration_value group), Hm. apply length_cons_Z. }
  assert (Eg : (gross_duration group
                == Qabs (num_of first) + sumQ (fun v => Qabs (num_of v)) rest)%Q).
  { rewrite gross_duration_sumQ.
    change (sumQ (fun s => Qabs (duration_of s)) group)
      with (sumQ (fun s => Qabs (num_of (duration_value s))) group).
    rewrite <- (sumQ_map duration_value (fun v => Qabs (num_of v))), Hm. reflexivity. }
  assert (Et : (total_duration group == num_of first + sumQ num_of rest)%Q).
  { rewrite total_duration_sumQ.
    change (sumQ duration_of group) with (sumQ (fun s => num_of (duration_value s)) group).
    rewrite <- (sumQ_map duration_value num_of), Hm. reflexivity. }
  assert (Hlen : 0 <= Z.of_nat (length rest) <= 2 ^ 52).
  { rewrite <- (length_map duration_value group), Hm in Hl. cbn [length] in Hl. lia. }
  pose proof (slack_budget G _ HG0 Hlen) as Hb.
  destruct (add_all_close G rest first HG0 HG Hf Hr) as (v' & Hv' & Hvn & Hve); [lra|].
  rewrite Hv in Hv'. injection Hv' as <-.
  split; [exact Hvn|]. rewrite Et, El.
  assert (E : (inject_Z (Z.of_nat (length rest)) + 1 - 1
               == inject_Z (Z.of_nat (length rest)))%Q) by ring.
  now rewrite E.
Qed.

Lemma kept_sessions_forallb (P : session -> bool) period_type now l :
  forallb P l = true -> forallb P (kept_sessions period_type now l) = true.
Proof.
  unfold kept_sessions. induction l as [|s rest IH]; cbn; [reflexivity|].
  intros H. apply andb_true_iff in H as [H1 H2].
  destruct (match session_date s with Ok d => _ | Raise _ => _ end); cbn;
    [rewrite H1|]; auto.
Qed.

Lemma calculate_period_stats_eq now l period_type :
  calculate_period_stats now l period_type =
  rbind (valid_sessions period_type now l) (sum_by_date []).
Proof. now destruct l. Qed.


Lemma int_like_number v : int_like v = true -> is_number v = true.
Proof. destruct v; try discriminate; reflexivity. Qed.

Lemma py_add_int a x :
  int_like a = true -> int_like x = true ->
  exists c, py_add a x = Ok c /\ int_like c = true /\
            (num_of c == num_of a + num_of x)%Q.
Proof.
  destruct a, x; try discriminate; intros _ _; eexists; (split; [reflexivity|]);
    (split; [reflexivity|]); cbn [num_of]; now rewrite inject_Z_plus.
Qed.

Lemma py_add_int_inv a x c :
  is_number a = true -> is_number x = true ->
  py_add a x = Ok c -> int_like c = true -> int_like a = true /\ int_like x = true.
Proof.
  destruct a, x; try discriminate; intros _ _ [= <-]; try discriminate; now split.
Qed.

(** Sums of [int] are exact. *)
Lemma add_all_int rest : forall first,
  int_like first = true -> Forall (fun v => int_like v = true) rest ->
  exists v, add_all first rest = Ok v /\ int_like v = true /\
            (num_of v == num_of first + sumQ num_of rest)%Q.
Proof.
  induction rest as [|x rest IH]; intros first Hf Hr.
  - exists first. split; [reflexivity|]. split; [exact Hf|]. cbn. ring.
  - apply List.Forall_cons_iff in Hr as [Hx Hr].
    destruct (py_add_int first x Hf Hx) as (c & Hc & Hci & Hce).
    destruct (IH c Hci Hr) as (v & Hv & Hvi & Hve).
    exists v. split; [now rewrite add_all_cons, Hc|]. split; [exact Hvi|].
    rewrite sumQ_cons, Hve, Hce. ring.
Qed.

(** A sum that is an [int] had only [int] operands. *)
Lemma add_all_int_inv rest : forall first v,
  is_number first = true -> Forall (fun v => is_number v = true) rest ->
  add_all first rest = Ok v -> int_like v = true ->
  int_like first = true /\ Forall (fun v => int_like v = true) rest.
Proof.
  induction rest as [|x rest IH]; intros first v Hf Hr Hv Hi.
  - cbn in Hv. injection Hv as <-. split; [exact Hi|constructor].
  - apply List.Forall_cons_iff in Hr as [Hx Hr].
    rewrite add_all_cons in Hv.
    destruct (py_add_number first x Hf Hx) as (c & Hc & Hcn). rewrite Hc in Hv.
    destruct (IH c v Hcn Hr Hv Hi) as [Hci Hri].
    destruct (py_add_int_inv _ _ _ Hf Hx Hc Hci) as [H1 H2].
    split; [exact H1|]. now constructor.
Qed.

(** [calculate_period_stats] on dates that parse and kept durations that are
    numbers. *)
Lemma calculate_period_stats_groups now sessions period :
  forallb date_parses sessions = true ->
  forallb has_numeric_duration (kept_sessions period now sessions) = true ->
  exists items,
    calculate_period_stats now sessions period = Ok items /\
    Forall (fun p : string * value => is_number (snd p) = true) items /\
    NoDup (map fst items) /\
    (forall k, In k (map fst items) <->
               In k (map date_str (kept_sessions period now sessions))) /\
    (forall k v, In (k, v) items ->
       exists first rest,
         map duration_value (List.filter (dated k) (kept_sessions period now sessions))
           = first :: rest /\
         add_all first rest = Ok v).
Proof.
  intros Hd Hn.
  pose proof (kept_sessions_forallb date_parses period now _ Hd) as Hkd.
  destruct (sum_by_date_groups (kept_sessions period now sessions) [] Hkd Hn)
    as (items & Hi & Hf & Hnd & Hk & Hv & _); [constructor|constructor|].
  exists items. split.
  { rewrite calculate_period_stats_eq, (valid_sessions_filter _ _ _ Hd). exact Hi. }
  split; [exact Hf|]. split; [exact Hnd|]. split.
  - intros k. rewrite Hk. cbn. tauto.
  - intros k v Hin. exact (Hv k v (stats_lookup_NoDup _ _ _ Hnd Hin)).
Qed.

Lemma filter_length_Z {A} (p : A -> bool) l :
  Z.of_nat (length (List.filter p l)) <= Z.of_nat (length l).
Proof. pose proof (List.filter_length_le p l). lia. Qed.

Lemma total_le_gross l : (Qabs (total_duration l) <= gross_duration l)%Q.
Proof. rewrite total_duration_sumQ, gross_duration_sumQ. apply sumQ_abs. Qed.

(** The entries against the durations of their dates. *)
Lemma entries_close now sessions period items :
  let kept := kept_sessions period now sessions in
  forallb has_numeric_duration kept = true ->
  (gross_duration kept <= inject_Z (2 ^ 52))%Q ->
  Z.of_nat (length kept) <= 2 ^ 52 ->
  (forall k v, In (k, v) items ->
     exists first rest,
       map duration_value (List.filter (dated k) kept) = first :: rest /\
       add_all first rest = Ok v) ->
  Forall (fun p : string * value =>
    let group := List.filter (dated (fst p)) kept in
    is_number (snd p) = true /\
    (Qabs (num_of (snd p) - total_duration group)
     <= (inject_Z (Z.of_nat (length group)) - 1) * sum_slack (gross_duration group))%Q)
    items.
Proof.
  intros kept Hn HG Hl Hv. apply List.Forall_forall. intros [k v] Hin. cbn [fst snd].
  destruct (Hv k v Hin) as (first & rest & Hm & Ha).
  set (group := List.filter (dated k) kept).
  pose proof (gross_duration_filter (dated k) kept) as Hg. fold group in Hg.
  pose proof (filter_length_Z (dated k) kept) as Hlen. fold group in Hlen.
  assert (Hng : forallb has_numeric_duration group = true).
  { apply forallb_forall. intros s Hs. apply filter_In in Hs as [Hs _].
    rewrite forallb_forall in Hn. auto. }
  apply (group_close (gross_duration group) group first rest v); try assumption.
  - apply gross_duration_nonneg.
  - lra.
  - apply Qle_refl.
  - lia.
Qed.

Lemma Qmult_le_nonneg_l (c a b : Q) :
  (0 <= c)%Q -> (a <= b)%Q -> (c * a <= c * b)%Q.
Proof. intros Hc H. rewrite !(Qmult_comm c). now apply Qmult_le_compat_r. Qed.

Lemma sumQ_groups (f : session -> Q) (items : list (string * value)) l :
  NoDup (map fst items) -> (forall s, In s l -> In (date_str s) (map fst items)) ->
  (sumQ (fun p : string * value => sumQ f (List.filter (dated (fst p)) l)) items
   == sumQ f l)%Q.
Proof.
  intros Hnd Hin.
  rewrite <- (sumQ_map fst (fun k => sumQ f (List.filter (dated k) l)) items).
  now apply sumQ_by_date.
Qed.

Lemma py_sum_add_all items : py_sum items = add_all (VInt 0) items.
Proof. reflexivity. Qed.

(** The total of a period against the durations the period keeps: every
    session may cost one [sum_slack]. *)
Lemma period_total_close now sessions period :
  let kept := kept_sessions period now sessions in
  forallb date_parses sessions = true ->
  forallb has_numeric_duration kept = true ->
  (gross_duration kept <= inject_Z (2 ^ 52))%Q ->
  Z.of_nat (length kept) <= 2 ^ 52 ->
  exists data total,
    calculate_period_stats now sessions period = Ok data /\
    py_sum (map snd data) = Ok total /\
    is_number total = true /\
    (Qabs (num_of total - total_duration kept)
     <= inject_Z (Z.of_nat (length kept)) * sum_slack (gross_duration kept))%Q.
Proof.
  intros kept Hd Hn HG Hl.
  destruct (calculate_period_stats_groups now sessions period Hd Hn)
    as (items & Hi & Hf & Hnd & Hk & Hv). fold kept in Hk, Hv.
  pose proof (entries_close now sessions period items Hn HG Hl Hv) as HE.
  fold kept in HE. cbv zeta in HE.
  set (G := gross_duration kept) in *.
  pose proof (gross_duration_nonneg kept) as HG0. fold G in HG0.
  pose proof (sum_slack_nonneg G HG0) as Hd0.
  set (d := sum_slack G) in *.
  set (S := fun p : string * value => total_duration (List.filter (dated (fst p)) kept)).
  set (Gk := fun p : string * value => gross_duration (List.filter (dated (fst p)) kept)).
  set (N := fun p : string * value =>
              sumQ (fun _ : session => 1%Q) (List.filter (dated (fst p)) kept)).
  assert (Hcover : forall s, In s kept -> In (date_str s) (map fst items)).
  { intros s Hs. apply Hk. now apply in_map. }
  assert (P1 : (sumQ S items == total_duration kept)%Q)
    by (apply (sumQ_groups duration_of); assumption).
  assert (P2 : (sumQ Gk items == G)%Q)
    by (apply (sumQ_groups (fun s => Qabs (duration_of s))); assumption).
  assert (P3 : (sumQ N items == inject_Z (Z.of_nat (length kept)))%Q).
  { unfold N. rewrite (sumQ_groups (fun _ => 1%Q)) by assumption. apply sumQ_one. }
  assert (HE' : Forall (fun p : string * value =>
                  (Qabs (num_of (snd p) - S p) <= (N p - 1) * d)%Q /\
                  (Qabs (num_of (snd p)) <= Gk p + (N p - 1) * d)%Q) items).
  { rewrite List.Forall_forall in HE |- *. intros [k v] Hin.
    destruct (HE _ Hin) as [_ Hc]. cbn [fst snd] in Hc |- *.
    destruct (Hv k v Hin) as (first & rest & Hm & _).
    set (group := List.filter (dated k) kept) in *.
    assert (HN : (N (k, v) == inject_Z (Z.of_nat (length group)))%Q)
      by (unfold N; cbn [fst]; apply sumQ_one).
    assert (H1 : (0 <= N (k, v) - 1)%Q).
    { rewrite HN, <- (length_map duration_value group), Hm, length_cons_Z.
      assert (0 <= inject_Z (Z.of_nat (length rest)))%Q
        by (change 0%Q with (inject_Z 0); rewrite <- Zle_Qle; lia).
      lra. }
    assert (H2 : (sum_slack (gross_duration group) <= d)%Q).
    { apply sum_slack_mono. apply gross_duration_filter. }
    assert (H3 : (Qabs (num_of v - S (k, v)) <= (N (k, v) - 1) * d)%Q).
    { eapply Qle_trans; [exact Hc|]. rewrite HN.
      apply Qmult_le_nonneg_l; [now rewrite <- HN|exact H2]. }
    split; [exact H3|].
    assert (E : (num_of v == (num_of v - S (k, v)) + S (k, v))%Q) by ring.
    rewrite E. eapply Qle_trans; [apply Qabs_triangle|].
    pose proof (total_le_gross group) as Ht. unfold S, Gk. cbn [fst]. fold group.
    unfold S in H3. cbn [fst] in H3. fold group in H3. lra. }
  assert (ED : (sumQ (fun _ : string * value => 1%Q) items
                == inject_Z (Z.of_nat (length items)))%Q) by apply sumQ_one.
  set (D := inject_Z (Z.of_nat (length items))) in *.
  set (n := inject_Z (Z.of_nat (length kept))) in *.
  assert (Esl : (sumQ (fun p => (N p - 1) * d) items == (n - D) * d)%Q).
  { rewrite (sumQ_scale (fun p => (N p - 1)%Q) d items).
    assert (E : (sumQ (fun p => N p - 1) items == sumQ N items + sumQ (fun _ => -(1)) items)%Q).
    { rewrite <- sumQ_plus. apply sumQ_ext. apply List.Forall_forall. intros. ring. }
    assert (E' : (sumQ (fun _ : string * value => -(1)) items == - D)%Q).
    { rewrite <- ED. clear. induction items as [|p items IH]; [reflexivity|].
      rewrite !sumQ_cons, IH. ring. }
    rewrite E, E', P3. ring. }
  assert (A : (Qabs (sumQ (fun p => num_of (snd p)) items - total_duration kept)
               <= (n - D) * d)%Q).
  { rewrite <- P1.
    assert (E : (sumQ (fun p : string * value => num_of (snd p)) items - sumQ S items
                 == sumQ (fun p => num_of (snd p) - S p) items)%Q).
    { assert (E0 : (sumQ (fun p => num_of (snd p) - S p) items
                    == sumQ (fun p : string * value => num_of (snd p)) items
                       + sumQ (fun p => - S p) items)%Q).
      { rewrite <- sumQ_plus. apply sumQ_ext. apply List.Forall_forall. intros. ring. }
      assert (E1 : (sumQ (fun p => - S p) items == - sumQ S items)%Q).
      { clear. induction items as [|p items IH]; [reflexivity|].
        rewrite !sumQ_cons, IH. ring. }
      rewrite E0, E1. ring. }
    rewrite E. eapply Qle_trans; [apply sumQ_abs|]. rewrite <- Esl.
    apply sumQ_le. eapply List.Forall_impl; [|exact HE']. intros p [H _]. exact H. }
  assert (B : (sumQ (fun p : string * value => Qabs (num_of (snd p))) items
               <= G + (n - D) * d)%Q).
  { rewrite <- P2, <- Esl, <- sumQ_plus.
    apply sumQ_le. eapply List.Forall_impl; [|exact HE']. intros p [_ H]. exact H. }
  pose proof (slack_budget G (Z.of_nat (length kept)) HG0 ltac:(lia)) as Hbud.
  fold d n in Hbud.
  destruct (add_all_close G (map snd items) (VInt 0) HG0 HG eq_refl) as (t & Ht & Htn & Hte).
  { apply List.Forall_map. exact Hf. }
  { rewrite length_map. fold D d. rewrite (sumQ_map snd (fun v => Qabs (num_of v))).
    change (Qabs (num_of (VInt 0))) with 0%Q. lra. }
  exists items, t. split; [exact Hi|]. split; [exact Ht|]. split; [exact Htn|].
  rewrite length_map in Hte. fold D d in Hte.
  rewrite (sumQ_map snd num_of) in Hte. change (num_of (VInt 0)) with 0%Q in Hte.
  assert (E : (num_of t - total_duration kept
               == (num_of t - (0 + sumQ (fun p : string * value => num_of (snd p)) items))
                  + (sumQ (fun p : string * value => num_of (snd p)) items
                     - total_duration kept))%Q) by ring.
  rewrite E. eapply Qle_trans; [apply Qabs_triangle|]. lra.
Qed.

(** The total of a period whose kept durations are all [int]. *)
Lemma period_total_int now sessions period :
  forallb date_parses sessions = true ->
  forallb has_int_duration (kept_sessions period now sessions) = true ->
  exists data total,
    calculate_period_stats now sessions period = Ok data /\
    py_sum (map snd data) = Ok total /\
    int_like total = true /\
    (num_of total == total_duration (kept_sessions period now sessions))%Q.
Proof.
  intros Hd Hint. set (kept := kept_sessions period now sessions) in *.
  assert (Hn : forallb has_numeric_duration kept = true).
  { apply forallb_forall. intros s Hs. rewrite forallb_forall in Hint.
    specialize (Hint s Hs). unfold has_int_duration in Hint.
    apply int_like_number in Hint. unfold has_numeric_duration, duration_value in *.
    destruct (s !! "duration"); [exact Hint|discriminate]. }
  destruct (calculate_period_stats_groups now sessions period Hd Hn)
    as (items & Hi & Hf & Hnd & Hk & Hv). fold kept in Hk, Hv.
  assert (HE : Forall (fun p : string * value =>
                 int_like (snd p) = true /\
                 (num_of (snd p) == sumQ duration_of (List.filter (dated (fst p)) kept))%Q)
               items).
  { apply List.Forall_forall. intros [k v] Hin. cbn [fst snd].
    destruct (Hv k v Hin) as (first & rest & Hm & Ha).
    assert (Hall : Forall (fun v => int_like v = true) (first :: rest)).
    { rewrite <- Hm. apply List.Forall_map. apply List.Forall_forall. intros s Hs.
      apply filter_In in Hs as [Hs _]. rewrite forallb_forall in Hint. exact (Hint s Hs). }
    apply List.Forall_cons_iff in Hall as [H1 H2].
    destruct (add_all_int rest first H1 H2) as (v' & Hv' & Hvi & Hve).
    rewrite Ha in Hv'. injection Hv' as <-. split; [exact Hvi|].
    rewrite Hve.
    change (sumQ duration_of (List.filter (dated k) kept))
      with (sumQ (fun s => num_of (duration_value s)) (List.filter (dated k) kept)).
    rewrite <- (sumQ_map duration_value num_of), Hm. reflexivity. }
  destruct (add_all_int (map snd items) (VInt 0) eq_refl) as (t & Ht & Hti & Hte).
  { apply List.Forall_map. eapply List.Forall_impl; [|exact HE]. intros p [H _]. exact H. }
  exists items, t. split; [exact Hi|]. split; [exact Ht|]. split; [exact Hti|].
  rewrite Hte, (sumQ_map snd num_of). change (num_of (VInt 0)) with 0%Q.
  rewrite total_duration_sumQ.
  rewrite <- (sumQ_groups duration_of items kept Hnd).
  - rewrite Qplus_0_l. apply sumQ_ext. eapply List.Forall_impl; [|exact HE].
    intros p [_ H]. exact H.
  - intros s Hs. apply Hk. now apply in_map.
Qed.

(** X1.  On a collection whose dates all parse, and when the sessions the
    period keeps have a number for duration (the others need not),
    [calculate_period_stats] returns one entry per date string of the kept
    sessions, no date twice.  The entry of a date is what [+=] makes of the
    durations of the kept sessions of that date, taken in their order: the
    first as it is, every further one added to it, the sum rounded to a
    double once a float is among them.  It therefore lies within
    [(n - 1) * (gross * 2 ** -52 + 2 ** -1074)] of their sum, [n] being the
    number of these sessions and [gross] their seconds with the signs
    dropped.  (The kept sessions are at most [2 ** 52] and hold at most
    [2 ** 52] seconds, signs dropped, so that every [int] widens to a float
    as it is and no sum leaves the range of the doubles.) *)
Theorem calculate_period_stats_totals (now : date) (sessions : list session)
    (period_type : string) :
  forallb date_parses sessions = true ->
  forallb has_numeric_duration (kept_sessions period_type now sessions) = true ->
  (gross_duration (kept_sessions period_type now sessions) <= 2 ^ 52)%Q ->
  Z.of_nat (length (kept_sessions period_type now sessions)) <= 2 ^ 52 ->
  exists items,
    calculate_period_stats now sessions period_type = Ok items /\
    NoDup (map fst items) /\
    (forall k, In k (map fst items) <->
               In k (map date_str (kept_sessions period_type now sessions))) /\
    (forall k v, In (k, v) items ->
       let group := List.filter (dated k) (kept_sessions period_type now sessions) in
       is_number v = true /\
       (exists first rest,
          map duration_value group = first :: rest /\ add_all first rest = Ok v) /\
       (Qabs (num_of v - total_duration group)
        <= (inject_Z (Z.of_nat (length group)) - 1)
           * (gross_duration group * 2 ^ (-52) + 2 ^ (-1074)))%Q).
Proof.
  intros Hd Hn HG Hl. rewrite <- (pow2_Z 52) in HG by lia.
  destruct (calculate_period_stats_groups now sessions period_type Hd Hn)
    as (items & Hi & Hf & Hnd & Hk & Hv).
  pose proof (entries_close now sessions period_type items Hn HG Hl Hv) as HE.
  cbv zeta in HE. rewrite List.Forall_forall in HE.
  exists items. split; [exact Hi|]. split; [exact Hnd|]. split; [exact Hk|].
  intros k v Hin group. destruct (HE _ Hin) as [H1 H2].
  split; [exact H1|]. split; [exact (Hv k v Hin)|exact H2].
Qed.

(** X1 on the three float sessions of one day. *)
Lemma calculate_period_stats_totals_witness :
  forallb date_parses float_example = true /\
  forallb has_numeric_duration
    (kept_sessions "daily" (mkdate 2024 1 8) float_example) = true /\
  (gross_duration (kept_sessions "daily" (mkdate 2024 1 8) float_example) <= 2 ^ 52)%Q /\
  Z.of_nat (length (kept_sessions "daily" (mkdate 2024 1 8) float_example)) <= 2 ^ 52 /\
  calculate_period_stats (mkdate 2024 1 8) float_example "daily"
    = Ok [("2024-01-08", VFloat 2700)] /\
  exists items,
    calculate_period_stats (mkdate 2024 1 8) float_example "daily" = Ok items /\
    NoDup (map fst items).
Proof.
  assert (H1 : forallb date_parses float_example = true) by (vm_compute; reflexivity).
  assert (H2 : forallb has_numeric_duration
                 (kept_sessions "daily" (mkdate 2024 1 8) float_example) = true)
    by (vm_compute; reflexivity).
  assert (H3 : (gross_duration (kept_sessions "daily" (mkdate 2024 1 8) float_example)
                <= 2 ^ 52)%Q) by (vm_compute; discriminate).
  assert (H4 : Z.of_nat (length (kept_sessions "daily" (mkdate 2024 1 8) float_example))
               <= 2 ^ 52) by (vm_compute; discriminate).
  split; [exact H1|]. split; [exact H2|]. split; [exact H3|]. split; [exact H4|].
  split; [vm_compute; reflexivity|].
  destruct (calculate_period_stats_totals (mkdate 2024 1 8) float_example "daily"
              H1 H2 H3 H4) as (items & E & N & _).
  exists items. split; assumption.
Defined.

Lemma strptime_ymd_error s e : strptime_ymd s = Raise e -> e = ValueError.
Proof.
  unfold strptime_ymd.
  destruct (re_match_ymd _) as [[d [|c r]]|]; [destruct (valid_date d)| |]; congruence.
Qed.

Lemma session_date_error s :
  date_parses s = false -> session_date s = Raise (date_error s).
Proof.
  unfold date_parses, session_date, date_error, dict_item.
  destruct (s !! "date") as [v|]; cbn; [|reflexivity].
  destruct v; cbn; try reflexivity.
  destruct (strptime_ymd s0) eqn:E; [discriminate|].
  intros _. now rewrite (strptime_ymd_error _ _ E).
Qed.

Lemma valid_sessions_bad_date period_type now good bad rest :
  forallb date_parses good = true -> date_parses bad = false ->
  valid_sessions period_type now (good ++ bad :: rest) = Raise (date_error bad).
Proof.
  intros Hg Hb. induction good as [|s good IH]; cbn [app valid_sessions].
  - pose proof (session_date_error bad Hb) as H. unfold session_date in H.
    destruct (dict_item bad "date") as [v|e]; cbn [rbind] in *.
    + now rewrite H.
    + congruence.
  - cbn in Hg. apply andb_true_iff in Hg as [H1 H2].
    destruct (date_parses_inv s H1) as (d & Hsd & Hdate).
    unfold session_date in Hsd. destruct (dict_item s "date") as [v|e]; [|discriminate].
    cbn [rbind] in *. rewrite Hsd. cbn [rbind]. now rewrite (IH H2).
Qed.

Lemma sum_by_date_no_duration good bad rest : forall stats,
  forallb date_parses (good ++ bad :: rest) = true ->
  forallb has_numeric_duration good = true ->
  Forall (fun p : string * value => is_number (snd p) = true) stats ->
  bad !! "duration" = None ->
  sum_by_date stats (good ++ bad :: rest) = Raise KeyError.
Proof.
  induction good as [|s good IH]; intros stats Hd Hn Hs Hb; cbn [app] in *.
  - cbn in Hd. apply andb_true_iff in Hd as [Hd1 _].
    destruct (date_parses_inv bad Hd1) as (d & _ & Hdate).
    cbn [sum_by_date]. unfold dict_item. now rewrite Hdate, Hb.
  - cbn in Hd, Hn. apply andb_true_iff in Hd as [Hd1 Hd2].
    apply andb_true_iff in Hn as [Hn1 Hn2].
    destruct (date_parses_inv s Hd1) as (d & _ & Hdate).
    unfold has_numeric_duration in Hn1.
    destruct (s !! "duration") as [v|] eqn:Hv; [|discriminate].
    cbn [sum_by_date]. unfold dict_item. rewrite Hdate, Hv. cbn [rbind].
    destruct (stats_lookup (date_str s) stats) as [total|] eqn:Hl.
    + destruct (stats_lookup_Some _ _ _ Hl) as [_ Hin2].
      assert (Ht : is_number total = true).
      { rewrite List.Forall_forall in Hs. exact (Hs _ Hin2). }
      destruct (py_add_number total v Ht Hn1) as (c & Hc & Hcn).
      rewrite Hc. cbn [rbind]. apply IH; auto. now apply stats_update_numbers.
    + apply IH; auto. apply Forall_app. split; [exact Hs|]. constructor; [exact Hn1|constructor].
Qed.

(** X2.  A session whose date is missing, is not a string or does not parse
    makes [calculate_period_stats] raise, wherever it stands in the
    collection and whatever the period kind (a kind the function does not
    know included): [KeyError], [TypeError] or [ValueError], that of the first
    such session.  When all dates parse, the first kept session without a
    [duration] raises [KeyError]. *)
Theorem calculate_period_stats_raises (now : date) (good : list session)
    (bad : session) (rest : list session) (period_type : string) :
  forallb date_parses good = true ->
  (date_parses bad = false ->
   calculate_period_stats now (good ++ bad :: rest) period_type
   = Raise (date_error bad)) /\
  (forall d, session_date bad = Ok d -> period_keeps period_type now d = true ->
   forallb date_parses rest = true ->
   forallb has_numeric_duration (kept_sessions period_type now good) = true ->
   bad !! "duration" = None ->
   calculate_period_stats now (good ++ bad :: rest) period_type = Raise KeyError).
Proof.
  intros Hg. split.
  - intros Hb. rewrite calculate_period_stats_eq.
    now rewrite (valid_sessions_bad_date _ _ _ _ _ Hg Hb).
  - intros d Hd Hk Hr Hn Hb. rewrite calculate_period_stats_eq.
    assert (Hbp : date_parses bad = true) by (unfold date_parses; now rewrite Hd).
    assert (Hall : forallb date_parses (good ++ bad :: rest) = true).
    { rewrite forallb_app. cbn. now rewrite Hg, Hbp, Hr. }
    rewrite (valid_sessions_filter _ _ _ Hall). cbn [rbind].
    pose proof (kept_sessions_forallb date_parses period_type now _ Hall) as Hkp.
    unfold kept_sessions in *. rewrite List.filter_app in *. cbn [List.filter] in *.
    rewrite Hd, Hk in *.
    apply sum_by_date_no_duration; auto.
Qed.

(** X2 at a session without a date after a good one, and at a session of
    the day without a duration. *)
Lemma calculate_period_stats_raises_witness :
  forallb date_parses [timed_session "2024-01-08" 600] = true /\
  date_parses (∅ : session) = false /\
  calculate_period_stats (mkdate 2024 1 8)
    ([timed_session "2024-01-08" 600] ++ ∅ :: []) "daily" = Raise KeyError /\
  calculate_period_stats (mkdate 2024 1 8)
    ([timed_session "2024-01-08" 600] ++ dated_session "2024-01-08" :: []) "daily"
    = Raise KeyError.
Proof.
  split; [reflexivity|]. split; [reflexivity|].
  pose proof (calculate_period_stats_raises (mkdate 2024 1 8)
                [timed_session "2024-01-08" 600] ∅ [] "daily" eq_refl) as [H _].
  pose proof (calculate_period_stats_raises (mkdate 2024 1 8)
                [timed_session "2024-01-08" 600] (dated_session "2024-01-08") []
                "daily" eq_refl) as [_ H'].
  split.
  - exact (H eq_refl).
  - exact (H' (mkdate 2024 1 8) eq_refl eq_refl eq_refl eq_refl eq_refl).
Defined.

(** X3.  The total a period is credited with in [update_progress], the sum
    of the totals [calculate_period_stats] returns, is the sum of the
    durations of the sessions the period keeps up to the rounding of the
    float sums: it lies within [n * (gross * 2 ** -52 + 2 ** -1074)] of it,
    [n] being the number of kept sessions and [gross] their seconds with the
    signs dropped, and it is that sum exactly when every kept duration is an
    [int].  Neither step raises.  (At most [2 ** 52] kept sessions, holding
    at most [2 ** 52] seconds.) *)
Theorem period_total_is_kept_duration (now : date) (sessions : list session)
    (period : string) :
  forallb date_parses sessions = true ->
  forallb has_numeric_duration (kept_sessions period now sessions) = true ->
  (gross_duration (kept_sessions period now sessions) <= 2 ^ 52)%Q ->
  Z.of_nat (length (kept_sessions period now sessions)) <= 2 ^ 52 ->
  exists data total,
    calculate_period_stats now sessions period = Ok data /\
    py_sum (map snd data) = Ok total /\
    period_total now sessions period = Ok total /\
    is_number total = true /\
    (Qabs (num_of total - total_duration (kept_sessions period now sessions))
     <= inject_Z (Z.of_nat (length (kept_sessions period now sessions)))
        * (gross_duration (kept_sessions period now sessions) * 2 ^ (-52)
           + 2 ^ (-1074)))%Q /\
    (forallb has_int_duration (kept_sessions period now sessions) = true ->
     (num_of total == total_duration (kept_sessions period now sessions))%Q).
Proof.
  intros Hd Hn HG Hl. rewrite <- (pow2_Z 52) in HG by lia.
  destruct (period_total_close now sessions period Hd Hn HG Hl)
    as (data & total & Hdata & Ht & Htn & Hte).
  exists data, total. split; [exact Hdata|]. split; [exact Ht|]. split.
  { unfold period_total. rewrite Hdata. exact Ht. }
  split; [exact Htn|]. split; [exact Hte|].
  intros Hint.
  destruct (period_total_int now sessions period Hd Hint)
    as (data' & total' & Hdata' & Ht' & _ & Hq).
  rewrite Hdata in Hdata'. injection Hdata' as <-.
  rewrite Ht in Ht'. injection Ht' as <-. exact Hq.
Qed.

(** X3 on the sessions of the example, seen on 2024-01-08 with ['daily']. *)
Lemma period_total_is_kept_duration_witness :
  forallb date_parses stats_example = true /\
  forallb has_numeric_duration
    (kept_sessions "daily" (mkdate 2024 1 8) stats_example) = true /\
  (gross_duration (kept_sessions "daily" (mkdate 2024 1 8) stats_example) <= 2 ^ 52)%Q /\
  Z.of_nat (length (kept_sessions "daily" (mkdate 2024 1 8) stats_example)) <= 2 ^ 52 /\
  period_total (mkdate 2024 1 8) stats_example "daily" = Ok (VInt 900) /\
  exists total,
    period_total (mkdate 2024 1 8) stats_example "daily" = Ok total /\
    is_number total = true.
Proof.
  assert (H1 : forallb date_parses stats_example = true) by (vm_compute; reflexivity).
  assert (H2 : forallb has_numeric_duration
                 (kept_sessions "daily" (mkdate 2024 1 8) stats_example) = true)
    by (vm_compute; reflexivity).
  assert (H3 : (gross_duration (kept_sessions "daily" (mkdate 2024 1 8) stats_example)
                <= 2 ^ 52)%Q) by (vm_compute; discriminate).
  assert (H4 : Z.of_nat (length (kept_sessions "daily" (mkdate 2024 1 8) stats_example))
               <= 2 ^ 52) by (vm_compute; discriminate).
  split; [exact H1|]. split; [exact H2|]. split; [exact H3|]. split; [exact H4|].
  split; [vm_compute; reflexivity|].
  destruct (period_total_is_kept_duration (mkdate 2024 1 8) stats_example "daily"
              H1 H2 H3 H4) as (data & t & _ & _ & E & N & _).
  exists t. split; assumption.
Defined.

(** The float sum of a day depends on the order of its sessions: 45.7,
    55.1 and 2599.2 seconds make 2700.0, and in the opposite order the
    double below it. *)
Example period_total_depends_on_order :
  period_total (mkdate 2024 1 8) float_example "daily" = Ok (VFloat 2700) /\
  period_total (mkdate 2024 1 8) float_example_reordered "daily"
    = Ok (VFloat (5937362789990399 # 2199023255552)) /\
  Permutation float_example float_example_reordered /\
  (5937362789990399 # 2199023255552 < 2700)%Q.
Proof.
  split; [vm_compute; reflexivity|]. split; [vm_compute; reflexivity|].
  split; [|reflexivity].
  unfold float_example, float_example_reordered.
  eapply perm_trans; [apply perm_skip, perm_swap|].
  eapply perm_trans; [apply perm_swap|]. apply perm_skip, perm_swap.
Qed.

Lemma period_keeps_nest now d :
  (period_keeps "daily" now d = true -> period_keeps "weekly" now d = true) /\
  (period_keeps "weekly" now d = true -> period_keeps "monthly" now d = true) /\
  (period_keeps "monthly" now d = true -> period_keeps "yearly" now d = true).
Proof.
  unfold period_keeps. cbn [String.eqb Ascii.eqb Bool.eqb]. unfold days_between, toordinal.
  repeat split.
  - rewrite !andb_true_iff, !Z.eqb_eq, Z.leb_le. intros [[-> ->] ->]. lia.
  - rewrite !Z.leb_le. lia.
  - rewrite !Z.leb_le. lia.
Qed.

Lemma filter_sublist_impl {A} (P Q : A -> bool) l :
  (forall x, P x = true -> Q x = true) ->
  List.filter P l `sublist_of` List.filter Q l.
Proof.
  intros H. induction l as [|x l IH]; cbn; [constructor|].
  destruct (P x) eqn:E.
  - rewrite (H x E). now constructor.
  - destruct (Q x); [now constructor|exact IH].
Qed.

Lemma kept_sessions_sublist p q now l :
  (forall d, period_keeps p now d = true -> period_keeps q now d = true) ->
  kept_sessions p now l `sublist_of` kept_sessions q now l.
Proof.
  intros H. apply filter_sublist_impl. intros s. destruct (session_date s); auto.
Qed.

Lemma kept_sessions_Forall (P : session -> Prop) period_type now l :
  Forall P l -> Forall P (kept_sessions period_type now l).
Proof.
  intros H. apply List.Forall_forall. intros s Hs. apply filter_In in Hs as [Hs _].
  rewrite List.Forall_forall in H. auto.
Qed.


Lemma int_abs_nonneg v : (0 <= int_abs v)%Q.
Proof. unfold int_abs. destruct (as_int v); [apply Qabs_nonneg|apply Qle_refl]. Qed.

Lemma sumQ_int_abs_nonneg l : (0 <= sumQ int_abs l)%Q.
Proof. apply sumQ_nonneg. apply List.Forall_forall. intros. apply int_abs_nonneg. Qed.

Lemma int_abs_le v : (int_abs v <= Qabs (num_of v))%Q.
Proof.
  unfold int_abs. destruct (as_int v) as [z|] eqn:E; [|apply Qabs_nonneg].
  rewrite (as_int_num _ _ E). apply Qle_refl.
Qed.

Lemma int_abs_small v :
  is_number v = true -> (int_abs v <= inject_Z (2 ^ 53))%Q -> (widen v == num_of v)%Q.
Proof.
  intros Hn H. destruct (as_int v) as [z|] eqn:E.
  - apply widen_small; [exact Hn|]. unfold int_abs in H. rewrite E in H.
    rewrite (as_int_num _ _ E). eapply Qle_lt_trans; [exact H|].
    rewrite <- Zlt_Qlt. lia.
  - destruct (as_int_None v Hn E) as (q & ->). reflexivity.
Qed.

(** Next to small [int], every sum is the exact sum rounded. *)
Lemma py_add_rounded a x :
  is_number a = true -> is_number x = true ->
  (int_abs a + int_abs x <= inject_Z (2 ^ 53))%Q ->
  exists c, py_add a x = Ok c /\ is_number c = true /\
            (num_of c == round64 (num_of a + num_of x))%Q /\
            (int_abs c <= int_abs a + int_abs x)%Q.
Proof.
  intros Ha Hx Hb. pose proof (py_add_shape a x Ha Hx) as Hs.
  pose proof (int_abs_nonneg a) as Na. pose proof (int_abs_nonneg x) as Nx.
  assert (Hfloat : py_add a x = Ok (VFloat (round64 (widen a + widen x))) ->
    exists c, py_add a x = Ok c /\ is_number c = true /\
              (num_of c == round64 (num_of a + num_of x))%Q /\
              (int_abs c <= int_abs a + int_abs x)%Q).
  { intros E. eexists. split; [exact E|]. split; [reflexivity|]. split.
    - cbn [num_of].
      assert (Ea : (widen a == num_of a)%Q) by (apply int_abs_small; [exact Ha|lra]).
      assert (Ex : (widen x == num_of x)%Q) by (apply int_abs_small; [exact Hx|lra]).
      assert (E2 : (widen a + widen x == num_of a + num_of x)%Q) by now rewrite Ea, Ex.
      now rewrite (round64_comp _ _ E2).
    - unfold int_abs at 1. cbn [as_int]. lra. }
  destruct (as_int a) as [ia|] eqn:Ia; [destruct (as_int x) as [ix|] eqn:Ix|];
    try (apply Hfloat; exact Hs).
  eexists. split; [exact Hs|]. split; [reflexivity|].
  assert (Ha' : int_abs a = Qabs (inject_Z ia)) by (unfold int_abs; now rewrite Ia).
  assert (Hx' : int_abs x = Qabs (inject_Z ix)) by (unfold int_abs; now rewrite Ix).
  assert (Hsum : (Qabs (inject_Z (ia + ix)) <= int_abs a + int_abs x)%Q).
  { rewrite Ha', Hx', inject_Z_plus. apply Qabs_triangle. }
  split.
  - rewrite (as_int_num _ _ Ia), (as_int_num _ _ Ix). cbn [num_of].
    rewrite <- inject_Z_plus. symmetry. apply round64_small_int.
    assert (E : (Qabs (inject_Z (ia + ix)) == inject_Z (Z.abs (ia + ix)))%Q).
    { unfold inject_Z. now rewrite <- Zabs_Qabs. }
    rewrite Zle_Qle, <- E. lra.
  - unfold int_abs at 1. cbn [as_int]. exact Hsum.
Qed.

(** Sums of numbers that are not negative, over a list and over a part of
    it: the whole gives no less. *)
Lemma add_all_sublist_le l1 l2 :
  l1 `sublist_of` l2 -> forall a b,
  Forall (fun v => is_number v = true /\ (0 <= num_of v)%Q) l2 ->
  is_number a = true -> is_number b = true ->
  (round64 (num_of b) == num_of b)%Q ->
  (0 <= num_of a)%Q -> (num_of a <= num_of b)%Q ->
  (int_abs a + sumQ int_abs l1 <= inject_Z (2 ^ 53))%Q ->
  (int_abs b + sumQ int_abs l2 <= inject_Z (2 ^ 53))%Q ->
  exists r1 r2, add_all a l1 = Ok r1 /\ add_all b l2 = Ok r2 /\
    is_number r1 = true /\ is_number r2 = true /\
    (0 <= num_of r1)%Q /\ (num_of r1 <= num_of r2)%Q.
Proof.
  induction 1 as [|x l1 l2 _ IH|x l1 l2 _ IH]; intros a b Hl Ha Hb Hrb H0 Hab Ba Bb.
  - exists a, b. repeat split; assumption.
  - apply List.Forall_cons_iff in Hl as [[Hx Hx0] Hl].
    rewrite !sumQ_cons in Ba, Bb.
    pose proof (sumQ_int_abs_nonneg l1). pose proof (sumQ_int_abs_nonneg l2).
    destruct (py_add_rounded a x Ha Hx) as (c1 & Hc1 & Hn1 & He1 & Hi1); [lra|].
    destruct (py_add_rounded b x Hb Hx) as (c2 & Hc2 & Hn2 & He2 & Hi2); [lra|].
    destruct (IH c1 c2 Hl Hn1 Hn2) as (r1 & r2 & R1 & R2 & R3);
      try lra.
    + exact (round64_fixed _ _ He2).
    + rewrite He1. apply round64_nonneg. lra.
    + rewrite He1, He2. apply round64_mono. lra.
    + exists r1, r2. rewrite !add_all_cons, Hc1, Hc2. auto.
  - apply List.Forall_cons_iff in Hl as [[Hx Hx0] Hl].
    rewrite sumQ_cons in Bb.
    pose proof (sumQ_int_abs_nonneg l2).
    pose proof (int_abs_nonneg x).
    destruct (py_add_rounded b x Hb Hx) as (c2 & Hc2 & Hn2 & He2 & Hi2); [lra|].
    assert (Hgrow : (num_of b <= num_of c2)%Q).
    { rewrite He2, <- Hrb at 1. apply round64_mono. lra. }
    destruct (IH a c2 Hl Ha Hn2) as (r1 & r2 & R1 & R2 & R3); try lra.
    + exact (round64_fixed _ _ He2).
    + exists r1, r2. rewrite add_all_cons, Hc2. auto.
Qed.

Lemma session_date_key s :
  date_parses s = true -> session_date s = strptime_ymd (date_str s).
Proof.
  intros H. destruct (date_parses_inv s H) as (d & _ & Hdate).
  unfold session_date, dict_item. now rewrite Hdate.
Qed.

(** What the first loop keeps depends on the date string alone. *)
Lemma kept_sessions_by_key period now l :
  forallb date_parses l = true ->
  kept_sessions period now l
  = List.filter (fun s => key_keeps period now (date_str s)) l.
Proof.
  intros H. unfold kept_sessions. apply filter_ext_in. intros s Hs.
  rewrite forallb_forall in H. now rewrite (session_date_key s (H s Hs)).
Qed.

Lemma filter_filter_impl {A} (p q : A -> bool) l :
  (forall x, p x = true -> q x = true) ->
  List.filter p (List.filter q l) = List.filter p l.
Proof.
  intros H. induction l as [|x l IH]; [reflexivity|]. cbn [List.filter].
  destruct (q x) eqn:Eq; cbn [List.filter].
  - now rewrite IH.
  - destruct (p x) eqn:Ep; [|exact IH]. rewrite (H x Ep) in Eq. discriminate.
Qed.

Lemma key_keeps_nest now k :
  (key_keeps "daily" now k = true -> key_keeps "weekly" now k = true) /\
  (key_keeps "weekly" now k = true -> key_keeps "monthly" now k = true) /\
  (key_keeps "monthly" now k = true -> key_keeps "yearly" now k = true).
Proof.
  unfold key_keeps. destruct (strptime_ymd k) as [d|]; [apply period_keeps_nest|].
  repeat split; discriminate.
Qed.

Section FilterStats.

Variable pk : string -> bool.

Lemma stats_lookup_filter k stats :
  stats_lookup k (List.filter (fun p : string * value => pk (fst p)) stats)
  = if pk k then stats_lookup k stats else None.
Proof.
  induction stats as [|[k0 v0] stats IH]; cbn [List.filter stats_lookup fst].
  - now destruct (pk k).
  - destruct (pk k0) eqn:E0; cbn [stats_lookup].
    + destruct (String.eqb_spec k k0) as [->|N]; [now rewrite E0|exact IH].
    + rewrite IH. destruct (String.eqb_spec k k0) as [->|N]; [now rewrite E0|reflexivity].
Qed.

Lemma stats_update_filter k v stats :
  List.filter (fun p : string * value => pk (fst p)) (stats_update k v stats) =
  if pk k then stats_update k v (List.filter (fun p : string * value => pk (fst p)) stats)
  else List.filter (fun p : string * value => pk (fst p)) stats.
Proof.
  induction stats as [|[k0 v0] stats IH]; cbn [stats_update].
  - cbn. now destruct (pk k).
  - destruct (String.eqb_spec k k0) as [->|N]; cbn [List.filter fst].
    + destruct (pk k0) eqn:E0; [|reflexivity].
      cbn [stats_update]. now rewrite String.eqb_refl.
    + rewrite IH. destruct (pk k0) eqn:E0, (pk k) eqn:E; cbn [stats_update];
        try reflexivity.
      destruct (String.eqb_spec k k0); [contradiction|reflexivity].
Qed.

(** The second loop on the sessions of some of the dates gives the entries
    of these dates. *)
Lemma sum_by_date_filter l : forall stats items,
  sum_by_date stats l = Ok items ->
  sum_by_date (List.filter (fun p : string * value => pk (fst p)) stats)
    (List.filter (fun s => pk (date_str s)) l)
  = Ok (List.filter (fun p : string * value => pk (fst p)) items).
Proof.
  induction l as [|s l IH]; intros stats items.
  - cbn. now intros [= ->].
  - cbn [sum_by_date List.filter]. unfold dict_item.
    destruct (s !! "date") as [dv|] eqn:Hd; [|discriminate]. cbn [rbind].
    destruct (s !! "duration") as [x|] eqn:Hx; [|discriminate]. cbn [rbind].
    destruct dv as [| | | |k| |]; try discriminate.
    assert (Ek : date_str s = k) by (unfold date_str; now rewrite Hd).
    rewrite Ek.
    destruct (stats_lookup k stats) as [total|] eqn:Hl.
    + destruct (py_add total x) as [c|] eqn:Hc; [|discriminate]. cbn [rbind].
      intros Hi. specialize (IH _ _ Hi). rewrite stats_update_filter in IH.
      destruct (pk k) eqn:E; [|exact IH].
      cbn [sum_by_date]. unfold dict_item. rewrite Hd, Hx. cbn [rbind].
      rewrite stats_lookup_filter, E, Hl, Hc. exact IH.
    + intros Hi. specialize (IH _ _ Hi). rewrite List.filter_app in IH.
      cbn [List.filter fst] in IH.
      destruct (pk k) eqn:E.
      * cbn [sum_by_date]. unfold dict_item. rewrite Hd, Hx. cbn [rbind].
        rewrite stats_lookup_filter, E, Hl. exact IH.
      * now rewrite app_nil_r in IH.
Qed.

End FilterStats.

Lemma py_add_nonneg a x c :
  is_number a = true -> is_number x = true ->
  (0 <= num_of a)%Q -> (0 <= num_of x)%Q -> py_add a x = Ok c -> (0 <= num_of c)%Q.
Proof.
  intros Ha Hx H0a H0x Hc. pose proof (py_add_shape a x Ha Hx) as Hs.
  assert (Hw : forall v, is_number v = true -> (0 <= num_of v)%Q -> (0 <= widen v)%Q).
  { intros v Hv H. destruct v; try discriminate; try exact H.
    cbn [widen]. now apply round64_nonneg. }
  assert (Hfloat : py_add a x = Ok (VFloat (round64 (widen a + widen x))) ->
                   (0 <= num_of c)%Q).
  { intros E. rewrite E in Hc. injection Hc as <-. cbn [num_of].
    apply round64_nonneg. pose proof (Hw a Ha H0a). pose proof (Hw x Hx H0x). lra. }
  destruct (as_int a) as [ia|] eqn:Ia; [destruct (as_int x) as [ix|] eqn:Ix|];
    try (apply Hfloat; exact Hs).
  rewrite Hs in Hc. injection Hc as <-. cbn [num_of]. rewrite inject_Z_plus.
  rewrite (as_int_num _ _ Ia) in H0a. rewrite (as_int_num _ _ Ix) in H0x. lra.
Qed.

Lemma add_all_nonneg rest : forall first v,
  is_number first = true -> Forall (fun v => is_number v = true) rest ->
  (0 <= num_of first)%Q -> Forall (fun v => (0 <= num_of v)%Q) rest ->
  add_all first rest = Ok v -> (0 <= num_of v)%Q.
Proof.
  induction rest as [|x rest IH]; intros first v Hf Hr H0 Hr0 Hv.
  - cbn in Hv. now injection Hv as <-.
  - apply List.Forall_cons_iff in Hr as [Hx Hr].
    apply List.Forall_cons_iff in Hr0 as [Hx0 Hr0].
    rewrite add_all_cons in Hv.
    destruct (py_add_number first x Hf Hx) as (c & Hc & Hcn). rewrite Hc in Hv.
    apply (IH c v Hcn Hr); try assumption.
    exact (py_add_nonneg _ _ _ Hf Hx H0 Hx0 Hc).
Qed.

Lemma List_filter_sublist {A} (p : A -> bool) l : List.filter p l `sublist_of` l.
Proof.
  induction l as [|x l IH]; [constructor|]. cbn [List.filter].
  destruct (p x); now constructor.
Qed.

Lemma sumQ_sublist {A} (f : A -> Q) l1 l2 :
  l1 `sublist_of` l2 -> Forall (fun x => (0 <= f x)%Q) l2 -> (sumQ f l1 <= sumQ f l2)%Q.
Proof.
  induction 1 as [|x l1 l2 _ IH|x l1 l2 _ IH]; intros Hf; rewrite ?sumQ_cons.
  - apply Qle_refl.
  - apply List.Forall_cons_iff in Hf as [_ Hf]. specialize (IH Hf). lra.
  - apply List.Forall_cons_iff in Hf as [Hx Hf]. specialize (IH Hf). lra.
Qed.

Lemma gross_total_nonneg l :
  Forall (fun s => (0 <= duration_of s)%Q) l -> (gross_duration l == total_duration l)%Q.
Proof.
  intros H. rewrite gross_duration_sumQ, total_duration_sumQ. apply sumQ_ext.
  eapply List.Forall_impl; [|exact H]. intros s Hs. now apply Qabs_pos.
Qed.

(** The entries of a period whose kept durations are not negative: they are
    not negative, and those that are [int] hold no more than the sessions
    do. *)
Lemma entries_nonneg now sessions period items :
  let kept := kept_sessions period now sessions in
  forallb has_numeric_duration kept = true ->
  Forall (fun s => (0 <= duration_of s)%Q) kept ->
  NoDup (map fst items) ->
  (forall s, In s kept -> In (date_str s) (map fst items)) ->
  (forall k v, In (k, v) items ->
     exists first rest,
       map duration_value (List.filter (dated k) kept) = first :: rest /\
       add_all first rest = Ok v) ->
  Forall (fun v => is_number v = true /\ (0 <= num_of v)%Q) (map snd items) /\
  (sumQ int_abs (map snd items) <= total_duration kept)%Q.
Proof.
  intros kept Hn Hpos Hnd Hcover Hv.
  assert (HE : Forall (fun p : string * value =>
                 (is_number (snd p) = true /\ (0 <= num_of (snd p))%Q) /\
                 (int_abs (snd p)
                  <= sumQ (fun s => Qabs (duration_of s)) (List.filter (dated (fst p)) kept))%Q)
               items).
  { apply List.Forall_forall. intros [k v] Hin. cbn [fst snd].
    destruct (Hv k v Hin) as (first & rest & Hm & Ha).
    set (group := List.filter (dated k) kept) in *.
    assert (Hng : forallb has_numeric_duration group = true).
    { apply forallb_forall. intros s Hs. apply filter_In in Hs as [Hs _].
      rewrite forallb_forall in Hn. auto. }
    pose proof (durations_numbers _ Hng) as Hnum. rewrite Hm in Hnum.
    assert (Hp : Forall (fun v => (0 <= num_of v)%Q) (first :: rest)).
    { rewrite <- Hm. apply List.Forall_map. apply List.Forall_forall. intros s Hs.
      apply filter_In in Hs as [Hs _]. rewrite List.Forall_forall in Hpos.
      exact (Hpos s Hs). }
    apply List.Forall_cons_iff in Hnum as [Hf Hr].
    apply List.Forall_cons_iff in Hp as [Hf0 Hr0].
    assert (Hvn : is_number v = true).
    { clear -Hf Hr Ha. revert first Hf Ha. induction rest as [|x rest IH]; intros first Hf Ha.
      - cbn in Ha. now injection Ha as <-.
      - apply List.Forall_cons_iff in Hr as [Hx Hr]. rewrite add_all_cons in Ha.
        destruct (py_add_number first x Hf Hx) as (c & Hc & Hcn). rewrite Hc in Ha.
        exact (IH Hr c Hcn Ha). }
    split; [split; [exact Hvn|exact (add_all_nonneg _ _ _ Hf Hr Hf0 Hr0 Ha)]|].
    change (sumQ (fun s => Qabs (duration_of s)) group) with (gross_duration group).
    destruct (int_like v) eqn:Ei.
    - destruct (add_all_int_inv rest first v Hf Hr Ha Ei) as [I1 I2].
      destruct (add_all_int rest first I1 I2) as (v' & Hv' & _ & Hve).
      rewrite Ha in Hv'. injection Hv' as <-.
      eapply Qle_trans; [apply int_abs_le|].
      assert (Et : (total_duration group == num_of first + sumQ num_of rest)%Q).
      { rewrite total_duration_sumQ.
        change (sumQ duration_of group)
          with (sumQ (fun s => num_of (duration_value s)) group).
        rewrite <- (sumQ_map duration_value num_of), Hm. reflexivity. }
      rewrite Hve, <- Et. apply total_le_gross.
    - unfold int_like in Ei. unfold int_abs. destruct (as_int v); [discriminate|].
      apply gross_duration_nonneg. }
  split.
  - apply List.Forall_map. eapply List.Forall_impl; [|exact HE]. intros p [H _]. exact H.
  - rewrite (sumQ_map snd int_abs).
    rewrite <- (gross_total_nonneg kept Hpos), gross_duration_sumQ.
    rewrite <- (sumQ_groups (fun s => Qabs (duration_of s)) items kept Hnd Hcover).
    apply sumQ_le. eapply List.Forall_impl; [|exact HE]. intros p [_ H]. exact H.
Qed.

(** The total of a period and that of a period which keeps at least the
    same dates. *)
Lemma period_total_le now sessions p q :
  (forall k, key_keeps p now k = true -> key_keeps q now k = true) ->
  forallb date_parses sessions = true ->
  forallb has_numeric_duration sessions = true ->
  Forall (fun s => (0 <= duration_of s)%Q) sessions ->
  (total_duration sessions <= inject_Z (2 ^ 53))%Q ->
  exists tp tq,
    period_total now sessions p = Ok tp /\ period_total now sessions q = Ok tq /\
    (0 <= num_of tp)%Q /\ (num_of tp <= num_of tq)%Q.
Proof.
  intros Hpq Hd Hn Hpos Hbound.
  set (kq := kept_sessions q now sessions).
  assert (Hnq : forallb has_numeric_duration kq = true)
    by now apply kept_sessions_forallb.
  assert (Hposq : Forall (fun s => (0 <= duration_of s)%Q) kq)
    by now apply kept_sessions_Forall.
  destruct (calculate_period_stats_groups now sessions q Hd Hnq)
    as (items & Hi & Hf & Hnd & Hk & Hv). fold kq in Hk, Hv.
  assert (Hcover : forall s, In s kq -> In (date_str s) (map fst items)).
  { intros s Hs. apply Hk. now apply in_map. }
  destruct (entries_nonneg now sessions q items Hnq Hposq Hnd Hcover Hv) as [Hval Hint].
  fold kq in Hint.
  assert (Hkq : (total_duration kq <= inject_Z (2 ^ 53))%Q).
  { eapply Qle_trans; [|exact Hbound]. rewrite !total_duration_sumQ.
    apply sumQ_sublist; [|exact Hpos].
    unfold kq, kept_sessions. apply List_filter_sublist. }
  set (itemsp := List.filter (fun e : string * value => key_keeps p now (fst e)) items).
  assert (Hip : calculate_period_stats now sessions p = Ok itemsp).
  { rewrite calculate_period_stats_eq, (valid_sessions_filter _ _ _ Hd). cbn [rbind].
    fold (kept_sessions p now sessions).
    rewrite calculate_period_stats_eq, (valid_sessions_filter _ _ _ Hd) in Hi.
    cbn [rbind] in Hi. fold (kept_sessions q now sessions) in Hi. fold kq in Hi.
    assert (Ek : kept_sessions p now sessions
                 = List.filter (fun s => key_keeps p now (date_str s)) kq).
    { unfold kq. rewrite (kept_sessions_by_key p now _ Hd), (kept_sessions_by_key q now _ Hd).
      symmetry. apply filter_filter_impl. intros s. apply Hpq. }
    rewrite Ek.
    exact (sum_by_date_filter (key_keeps p now) kq [] items Hi). }
  assert (Hsub : map snd itemsp `sublist_of` map snd items).
  { apply fmap_sublist. apply List_filter_sublist. }
  assert (Hnn : Forall (fun v => (0 <= int_abs v)%Q) (map snd items)).
  { apply List.Forall_forall. intros. apply int_abs_nonneg. }
  pose proof (sumQ_sublist int_abs _ _ Hsub Hnn) as Hsum.
  destruct (add_all_sublist_le _ _ Hsub (VInt 0) (VInt 0) Hval eq_refl eq_refl)
    as (tp & tq & Hp1 & Hq1 & _ & _ & Hp0 & Hle).
  - reflexivity.
  - apply Qle_refl.
  - apply Qle_refl.
  - change (int_abs (VInt 0)) with 0%Q. lra.
  - change (int_abs (VInt 0)) with 0%Q. lra.
  - exists tp, tq. unfold period_total. rewrite Hip, Hi. cbn [rbind].
    rewrite !py_sum_add_all. auto.
Qed.

(** X4.  Seen from one day, the periods nest: the sessions ['daily'] keeps
    are among those ['weekly'] keeps, these among those of ['monthly'], these
    among those of ['yearly'], each time in the same order.  When no duration
    is negative and the collection holds at most [2 ** 53] seconds, the
    totals credited to the four periods grow accordingly: a rounded sum of
    such numbers is no less than either of them.  (Beyond [2 ** 53] an
    [int] loses its last places when it is widened to a float, and the
    total of a longer period can fall below that of a shorter one.) *)
Theorem period_totals_nest (now : date) (sessions : list session) :
  forallb date_parses sessions = true ->
  forallb has_numeric_duration sessions = true ->
  kept_sessions "daily" now sessions `sublist_of` kept_sessions "weekly" now sessions /\
  kept_sessions "weekly" now sessions `sublist_of` kept_sessions "monthly" now sessions /\
  kept_sessions "monthly" now sessions `sublist_of` kept_sessions "yearly" now sessions /\
  (Forall (fun s => (0 <= duration_of s)%Q) sessions ->
   (total_duration sessions <= 2 ^ 53)%Q ->
   exists daily weekly monthly yearly,
     period_total now sessions "daily" = Ok daily /\
     period_total now sessions "weekly" = Ok weekly /\
     period_total now sessions "monthly" = Ok monthly /\
     period_total now sessions "yearly" = Ok yearly /\
     (0 <= num_of daily)%Q /\ (num_of daily <= num_of weekly)%Q /\
     (num_of weekly <= num_of monthly)%Q /\ (num_of monthly <= num_of yearly)%Q).
Proof.
  intros Hd Hn.
  assert (S1 := kept_sessions_sublist "daily" "weekly" now sessions
                  (fun d => proj1 (period_keeps_nest now d))).
  assert (S2 := kept_sessions_sublist "weekly" "monthly" now sessions
                  (fun d => proj1 (proj2 (period_keeps_nest now d)))).
  assert (S3 := kept_sessions_sublist "monthly" "yearly" now sessions
                  (fun d => proj2 (proj2 (period_keeps_nest now d)))).
  split; [exact S1|]. split; [exact S2|]. split; [exact S3|].
  intros Hpos Hb. rewrite <- (pow2_Z 53) in Hb by lia.
  destruct (period_total_le now sessions "daily" "weekly"
              (fun k => proj1 (key_keeps_nest now k)) Hd Hn Hpos Hb)
    as (td & tw & Hd1 & Hw1 & Hd0 & Hdw).
  destruct (period_total_le now sessions "weekly" "monthly"
              (fun k => proj1 (proj2 (key_keeps_nest now k))) Hd Hn Hpos Hb)
    as (tw' & tm & Hw2 & Hm1 & _ & Hwm).
  destruct (period_total_le now sessions "monthly" "yearly"
              (fun k => proj2 (proj2 (key_keeps_nest now k))) Hd Hn Hpos Hb)
    as (tm' & ty & Hm2 & Hy1 & _ & Hmy).
  rewrite Hw1 in Hw2. injection Hw2 as <-. rewrite Hm1 in Hm2. injection Hm2 as <-.
  exists td, tw, tm, ty. repeat (split; [assumption|]). assumption.
Qed.

(** X4 on the sessions of the example, seen on 2024-01-08. *)
Lemma period_totals_nest_witness :
  forallb date_parses stats_example = true /\
  forallb has_numeric_duration stats_example = true /\
  kept_sessions "daily" (mkdate 2024 1 8) stats_example
    `sublist_of` kept_sessions "weekly" (mkdate 2024 1 8) stats_example /\
  period_total (mkdate 2024 1 8) stats_example "daily" = Ok (VInt 900) /\
  period_total (mkdate 2024 1 8) stats_example "weekly" = Ok (VInt 960).
Proof.
  split; [reflexivity|]. split; [reflexivity|]. split.
  - exact (proj1 (period_totals_nest (mkdate 2024 1 8) stats_example eq_refl eq_refl)).
  - split; vm_compute; reflexivity.
Defined.

(** Without the bound the totals need not grow: an [int] of [2 ** 53 + 1]
    seconds is the whole of the day, and widened to a float in the sum of
    the week it is [2 ** 53]. *)
Example period_totals_wide_int :
  period_total (mkdate 2024 1 8) wide_int_example "daily" = Ok (VInt (2 ^ 53 + 1)) /\
  period_total (mkdate 2024 1 8) wide_int_example "weekly"
    = Ok (VFloat (inject_Z (2 ^ 53))) /\
  (inject_Z (2 ^ 53) < inject_Z (2 ^ 53 + 1))%Q.
Proof. repeat split; vm_compute; reflexivity. Qed.

(* ===================================================================== *)
(** * calculate_streak: repeated calls, order, bounds and failures *)
(* ===================================================================== *)

Lemma calculate_streak_of_str l :
  forallb has_str_date l = true ->
  calculate_streak l =
  match l with
  | [] => (Ok 0, Some [])
  | _ => (streak_of_sorted (sorted_sessions l), Some (sorted_sessions l))
  end.
Proof.
  intros E. unfold calculate_streak. destruct l as [| s l]; [reflexivity |].
  rewrite sort_keys_of_str, all_str_map, combine_map_self by exact E. reflexivity.
Qed.

Lemma forallb_Permutation {A} (P : A -> bool) l l' :
  Permutation l l' -> forallb P l = forallb P l'.
Proof.
  induction 1; cbn; try congruence.
  now rewrite !andb_assoc, (andb_comm (P y)).
Qed.

(** X5.  For sessions with string dates, a second call of
    [calculate_streak] on the list the first call left behind finds it in
    order, leaves it as it is and returns what the first call returned. *)
Theorem calculate_streak_second_call (sessions l1 : list session) :
  forallb has_str_date sessions = true ->
  snd (calculate_streak sessions) = Some l1 ->
  calculate_streak l1 = (fst (calculate_streak sessions), Some l1).
Proof.
  intros Hs. rewrite (calculate_streak_of_str _ Hs).
  destruct sessions as [|s l]; cbn [snd fst].
  - intros [= <-]. reflexivity.
  - intros [= <-].
    assert (Hs1 : forallb has_str_date (sorted_sessions (s :: l)) = true).
    { rewrite (forallb_Permutation _ _ _ (sorted_sessions_perm (s :: l))). exact Hs. }
    rewrite (calculate_streak_of_str _ Hs1).
    assert (Hfix : sorted_sessions (sorted_sessions (s :: l)) = sorted_sessions (s :: l)).
    { apply sorted_sessions_fix, sorted_sessions_Sorted. }
    rewrite Hfix.
    destruct (sorted_sessions (s :: l)) eqn:E; [|reflexivity].
    exfalso. pose proof (sorted_sessions_perm (s :: l)) as P. rewrite E in P.
    apply Permutation_nil in P. discriminate.
Qed.

(** X5 on the sessions of the streak example. *)
Lemma calculate_streak_second_call_witness :
  forallb has_str_date streak_example = true /\
  snd (calculate_streak streak_example) = Some streak_example_sorted /\
  calculate_streak streak_example_sorted =
    (fst (calculate_streak streak_example), Some streak_example_sorted).
Proof.
  split; [reflexivity|].
  assert (H : snd (calculate_streak streak_example) = Some streak_example_sorted)
    by reflexivity.
  split; [exact H|].
  exact (calculate_streak_second_call streak_example _ eq_refl H).
Defined.

Lemma streak_run_unique (D : gset Z) k T k' T' :
  1 <= k -> 1 <= k' ->
  (forall t, t ∈ D -> t <= T) -> (forall i, 0 <= i < k -> T - i ∈ D) -> T - k ∉ D ->
  (forall t, t ∈ D -> t <= T') -> (forall i, 0 <= i < k' -> T' - i ∈ D) -> T' - k' ∉ D ->
  k = k'.
Proof.
  intros Hk Hk' Hmax Hrun Hend Hmax' Hrun' Hend'.
  assert (HT : T ∈ D) by (replace T with (T - 0) by lia; apply Hrun; lia).
  assert (HT' : T' ∈ D) by (replace T' with (T' - 0) by lia; apply Hrun'; lia).
  assert (T = T') by (apply Hmax' in HT; apply Hmax in HT'; lia). subst T'.
  destruct (Z.lt_trichotomy k k') as [H|[H|H]]; [|exact H|].
  - exfalso. apply Hend. apply Hrun'. lia.
  - exfalso. apply Hend'. apply Hrun. lia.
Qed.

Lemma days_of_nonempty l :
  l <> [] -> Forall (fun s => has_iso_date s = true) l -> days_of l <> ∅.
Proof.
  intros Hne Hl. destruct l as [|s l]; [congruence|]. intros E.
  assert (H : day_of_session s ∈ days_of (s :: l)).
  { apply elem_of_days_of; [exact Hl|]. now left. }
  rewrite E in H. set_solver.
Qed.

Lemma days_of_Permutation l l' : Permutation l l' -> days_of l = days_of l'.
Proof.
  intros P. unfold days_of. apply set_eq. intros t.
  rewrite !elem_of_list_to_set, !list_elem_of_omap.
  split; intros (s & Hs & Ht); exists s; (split; [|exact Ht]);
    apply list_elem_of_In; apply list_elem_of_In in Hs.
  - exact (Permutation_in _ P Hs).
  - exact (Permutation_in _ (Permutation_sym P) Hs).
Qed.

(** Two collections with the same days have the same streak. *)
Lemma calculate_streak_days l l' :
  forallb has_iso_date l = true -> forallb has_iso_date l' = true ->
  days_of l = days_of l' ->
  fst (calculate_streak l) = fst (calculate_streak l').
Proof.
  intros Hl Hl' E.
  apply forallb_Forall_iso in Hl, Hl'.
  destruct l as [|s l], l' as [|s' l'].
  - reflexivity.
  - exfalso. apply (days_of_nonempty (s' :: l')); [discriminate|exact Hl'|].
    rewrite <- E. apply days_of_nil_empty.
  - exfalso. apply (days_of_nonempty (s :: l)); [discriminate|exact Hl|].
    rewrite E. apply days_of_nil_empty.
  - destruct (calculate_streak_run (s :: l)) as (k & T & Hk & H1 & Hmax & Hrun & Hend & _);
      [discriminate|exact Hl|].
    destruct (calculate_streak_run (s' :: l')) as (k' & T' & Hk' & H1' & Hmax' & Hrun' & Hend' & _);
      [discriminate|exact Hl'|].
    rewrite Hk, Hk'. f_equal. rewrite <- E in *.
    exact (streak_run_unique _ _ _ _ _ H1 H1' Hmax Hrun Hend Hmax' Hrun' Hend').
Qed.

(** X6.  On sessions with ISO dates the streak depends only on the set of
    days that have a session: neither the order of the collection nor the
    number of sessions of a day changes it.  In particular every reordering
    of a collection has the streak of the collection. *)
Theorem calculate_streak_depends_on_days (l l' : list session) :
  forallb has_iso_date l = true ->
  (forallb has_iso_date l' = true -> days_of l = days_of l' ->
   fst (calculate_streak l) = fst (calculate_streak l')) /\
  (Permutation l l' -> fst (calculate_streak l) = fst (calculate_streak l')).
Proof.
  intros Hl. split.
  - intros Hl' E. now apply calculate_streak_days.
  - intros P. apply calculate_streak_days; [exact Hl| |now apply days_of_Permutation].
    now rewrite <- (forallb_Permutation _ _ _ P).
Qed.

(** X6 on the streak example and a shuffle of it without the repeated day. *)
Lemma calculate_streak_depends_on_days_witness :
  forallb has_iso_date streak_example = true /\
  forallb has_iso_date streak_example_shuffled = true /\
  days_of streak_example = days_of streak_example_shuffled /\
  fst (calculate_streak streak_example) = fst (calculate_streak streak_example_shuffled).
Proof.
  assert (E : days_of streak_example = days_of streak_example_shuffled)
    by (vm_compute; reflexivity).
  split; [reflexivity|]. split; [reflexivity|]. split; [exact E|].
  exact (proj1 (calculate_streak_depends_on_days streak_example streak_example_shuffled
                  eq_refl) eq_refl E).
Defined.

Lemma size_list_to_set_le (l : list Z) : (size (list_to_set l : gset Z) <= length l)%nat.
Proof.
  induction l as [|x l IH]; cbn [list_to_set length].
  - rewrite size_empty. lia.
  - destruct (decide (x ∈ (list_to_set l : gset Z))) as [Hin|Hni].
    + rewrite (subseteq_union_1_L {[x]}) by (apply singleton_subseteq_l; exact Hin).
      lia.
    + rewrite size_union by (apply disjoint_singleton_l; exact Hni).
      rewrite size_singleton. lia.
Qed.

Lemma run_size (D : gset Z) (T : Z) (n : nat) :
  (forall i, 0 <= i < Z.of_nat n -> T - i ∈ D) -> (n <= size D)%nat.
Proof.
  intros Hrun.
  set (run := (fun i : nat => T - Z.of_nat i) <$> seq 0 n).
  assert (Hnd : NoDup run).
  { apply NoDup_fmap_2; [intros a b; lia|apply NoDup_seq]. }
  assert (Hsub : (list_to_set run : gset Z) ⊆ D).
  { intros t Ht. apply elem_of_list_to_set in Ht. unfold run in Ht.
    apply list_elem_of_fmap in Ht as (i & -> & Hi). apply elem_of_seq in Hi.
    apply Hrun. lia. }
  apply subseteq_size in Hsub. rewrite (size_list_to_set run Hnd) in Hsub.
  unfold run in Hsub. rewrite length_fmap, length_seq in Hsub. exact Hsub.
Qed.

(** X7.  On a non-empty collection with ISO dates the streak is at least 1
    and at most the number of distinct days that have a session, which is at
    most the number of sessions. *)
Theorem calculate_streak_bounds (sessions : list session) :
  sessions <> [] -> forallb has_iso_date sessions = true ->
  exists k,
    fst (calculate_streak sessions) = Ok k /\
    1 <= k <= Z.of_nat (size (days_of sessions)) /\
    (size (days_of sessions) <= length sessions)%nat.
Proof.
  intros Hne Hl. apply forallb_Forall_iso in Hl.
  destruct (calculate_streak_run sessions Hne Hl) as (k & T & Hk & H1 & _ & Hrun & _).
  exists k. split; [exact Hk|]. split; [split; [exact H1|]|].
  - pose proof (run_size (days_of sessions) T (Z.to_nat k)) as H.
    rewrite Z2Nat.id in H by lia. specialize (H Hrun). lia.
  - unfold days_of. etransitivity; [apply size_list_to_set_le|].
    rewrite (omap_session_day _ Hl), length_map. lia.
Qed.

(** X7 on the streak example: four sessions, three days, a streak of 3. *)
Lemma calculate_streak_bounds_witness :
  streak_example <> [] /\ forallb has_iso_date streak_example = true /\
  size (days_of streak_example) = 3%nat /\
  exists k, fst (calculate_streak streak_example) = Ok k /\
            1 <= k <= Z.of_nat (size (days_of streak_example)).
Proof.
  assert (Hne : streak_example <> []) by discriminate.
  split; [exact Hne|]. split; [reflexivity|]. split; [vm_compute; reflexivity|].
  destruct (calculate_streak_bounds streak_example Hne eq_refl) as (k & H1 & H2 & _).
  exists k. split; assumption.
Defined.

Lemma sort_keys_raises l e : sort_keys l = Raise e -> e = KeyError.
Proof.
  induction l as [|s l IH]; cbn; [discriminate|].
  unfold dict_item. destruct (s !! "date"); cbn.
  - destruct (sort_keys l); cbn; [discriminate|]. intros [= <-]. now apply IH.
  - congruence.
Qed.

Lemma sort_keys_undated l :
  (exists s, In s l /\ s !! "date" = None) -> sort_keys l = Raise KeyError.
Proof.
  intros (s & Hin & Hs). induction l as [|s0 l IH]; [destruct Hin|].
  cbn. unfold dict_item. destruct Hin as [->|Hin].
  - now rewrite Hs.
  - destruct (s0 !! "date"); cbn; [|reflexivity]. now rewrite (IH Hin).
Qed.

Lemma sort_keys_dated l :
  Forall (fun s : session => s !! "date" <> None) l -> exists keys, sort_keys l = Ok keys.
Proof.
  induction 1 as [|s l Hs _ [keys IH]]; cbn; [now exists []|].
  unfold dict_item. destruct (s !! "date") as [v|]; [|congruence]. cbn.
  rewrite IH. cbn. eauto.
Qed.

Lemma session_date_str s :
  has_str_date s = true ->
  (exists d, session_date s = Ok d) \/ session_date s = Raise ValueError.
Proof.
  unfold has_str_date, session_date, dict_item.
  destruct (s !! "date") as [[]|]; try discriminate. intros _. cbn.
  destruct (strptime_ymd s0) eqn:E; [eauto|]. right. now rewrite (strptime_ymd_error _ _ E).
Qed.

Lemma streak_loop_str l : forall prev n,
  forallb has_str_date l = true ->
  (exists k, streak_loop prev n l = Ok k) \/ streak_loop prev n l = Raise ValueError.
Proof.
  induction l as [|s l IH]; intros prev n Hl; cbn [streak_loop]; [eauto|].
  cbn in Hl. apply andb_true_iff in Hl as [Hs Hl].
  destruct (session_date_str s Hs) as [[d Hd]|Hd]; unfold session_date in Hd.
  - destruct (dict_item s "date") as [v|]; [|discriminate]. cbn [rbind] in *. rewrite Hd.
    cbn [rbind]. destruct (_ =? 1); [apply IH, Hl|]. destruct (_ =? 0); [apply IH, Hl|eauto].
  - destruct (dict_item s "date") as [v|]; cbn [rbind] in *;
      [rewrite Hd|injection Hd as ->]; auto.
Qed.

Lemma streak_of_sorted_str l :
  forallb has_str_date l = true -> l <> [] ->
  (exists k, streak_of_sorted l = Ok k) \/ streak_of_sorted l = Raise ValueError.
Proof.
  intros Hl Hne. destruct l as [|s l]; [congruence|]. unfold streak_of_sorted.
  assert (Hs : has_str_date s = true) by (cbn in Hl; now apply andb_true_iff in Hl as [? _]).
  destruct (session_date_str s Hs) as [[d Hd]|Hd]; unfold session_date in Hd.
  - destruct (dict_item s "date") as [v|]; [|discriminate]. cbn [rbind] in *. rewrite Hd.
    cbn [rbind]. destruct (streak_loop_str (s :: l) d 0 Hl) as [[k Hk]|Hk]; rewrite Hk; cbn; eauto.
  - destruct (dict_item s "date") as [v|]; cbn [rbind] in *;
      [rewrite Hd|injection Hd as ->]; auto.
Qed.

(** X8.  How [calculate_streak] fails.  A session without a [date], wherever
    it stands, raises [KeyError] and the list is left as it was: nothing is
    sorted.  When every session has a date but one of them is not a string,
    the call raises [TypeError].  When every date is a string the list is
    left sorted, whether the call returns or a date fails to parse, which is
    a [ValueError]; no other exception occurs. *)
Theorem calculate_streak_raises (sessions : list session) :
  sessions <> [] ->
  ((exists s, In s sessions /\ s !! "date" = None) ->
   calculate_streak sessions = (Raise KeyError, Some sessions)) /\
  (Forall (fun s : session => s !! "date" <> None) sessions ->
   forallb has_str_date sessions = false ->
   fst (calculate_streak sessions) = Raise TypeError) /\
  (forallb has_str_date sessions = true ->
   snd (calculate_streak sessions) = Some (sorted_sessions sessions) /\
   ((exists k, fst (calculate_streak sessions) = Ok k) \/
    fst (calculate_streak sessions) = Raise ValueError)).
Proof.
  intros Hne. split; [|split].
  - intros H. unfold calculate_streak. rewrite (sort_keys_undated _ H).
    destruct sessions; [congruence|reflexivity].
  - intros Hd Hs. pose proof (sort_keys_not_str _ Hs) as H.
    destruct (sort_keys_dated _ Hd) as [keys Hk]. rewrite Hk in H.
    unfold calculate_streak. rewrite Hk, H. destruct sessions; [congruence|reflexivity].
  - intros Hs. rewrite (calculate_streak_of_str _ Hs).
    destruct sessions as [|s l]; [congruence|]. cbn [fst snd]. split; [reflexivity|].
    apply streak_of_sorted_str.
    + rewrite (forallb_Permutation _ _ _ (sorted_sessions_perm (s :: l))). exact Hs.
    + intros E. pose proof (sorted_sessions_perm (s :: l)) as P. rewrite E in P.
      apply Permutation_nil in P. discriminate.
Qed.

(** X8 on a list with an undated session in the middle. *)
Lemma calculate_streak_raises_witness :
  undated_example <> [] /\
  (exists s, In s undated_example /\ s !! "date" = None) /\
  calculate_streak undated_example = (Raise KeyError, Some undated_example).
Proof.
  assert (Hne : undated_example <> []) by discriminate.
  assert (Hs : exists s : session, In s undated_example /\ s !! "date" = None).
  { exists ∅. split; [right; left; reflexivity|reflexivity]. }
  split; [exact Hne|]. split; [exact Hs|].
  exact (proj1 (calculate_streak_raises undated_example Hne) Hs).
Defined.

(* ===================================================================== *)
(** * save_session and load_sessions: every outcome *)
(* ===================================================================== *)

Lemma isoweek1monday_spec y :
  let f := days_before_year y + 1 in
  f - 3 <= isoweek1monday y <= f + 3 /\ (isoweek1monday y + 6) mod 7 = 0.
Proof.
  assert (E1 : ymd2ord y 1 1 = days_before_year y + 1).
  { unfold ymd2ord, days_before_month, DAYS_BEFORE_MONTH.
    change (Z.to_nat 1) with 1%nat. change (2 <? 1) with false.
    cbn [nth andb]. lia. }
  unfold isoweek1monday. rewrite E1.
  set (f := days_before_year y + 1). cbv zeta.
  destruct (3 <? (f + 6) mod 7) eqn:E;
    [apply Z.ltb_lt in E|apply Z.ltb_ge in E]; split; try lia.
  all: Z.div_mod_to_equations; lia.
Qed.

Lemma isoweek_bounds d : valid_date d = true -> 1 <= isoweek d <= 53.
Proof.
  intros Hv. destruct (valid_date_bounds d Hv) as (Hy & Hm & Hd).
  pose proof (day_of_year_bounds (year d) (month d) (day d) Hm Hd) as Hdoy.
  pose proof (isoweek1monday_spec (year d)) as [H0 M0].
  pose proof (isoweek1monday_spec (year d - 1)) as [Hp Mp].
  pose proof (isoweek1monday_spec (year d + 1)) as [Hn Mn].
  pose proof (days_before_year_succ (year d)) as S0.
  pose proof (days_before_year_succ (year d - 1)) as Sp.
  replace (year d - 1 + 1) with (year d) in Sp by lia.
  assert (L0 : 0 <= leap_day (year d) <= 1) by (unfold leap_day; destruct (is_leap _); lia).
  assert (Lp : 0 <= leap_day (year d - 1) <= 1)
    by (unfold leap_day; destruct (is_leap _); lia).
  unfold isoweek, toordinal, ymd2ord.
  set (today := days_before_year (year d) + days_before_month (year d) (month d) + day d).
  assert (Ht : days_before_year (year d) + 1 <= today
               <= days_before_year (year d) + 365 + leap_day (year d)) by (unfold today; lia).
  clearbody today. cbv zeta in *.
  generalize dependent (isoweek1monday (year d)). intros m0 H0 M0.
  generalize dependent (isoweek1monday (year d - 1)). intros mp Hp Mp.
  generalize dependent (isoweek1monday (year d + 1)). intros mn Hn Mn.
  generalize dependent (days_before_year (year d)). intros f0.
  generalize dependent (days_before_year (year d - 1)). intros fp.
  generalize dependent (days_before_year (year d + 1)). intros fn.
  generalize dependent (leap_day (year d)). intros l0.
  generalize dependent (leap_day (year d - 1)). intros lp.
  intros.
  destruct ((today - m0) / 7 <? 0) eqn:E1; [apply Z.ltb_lt in E1|apply Z.ltb_ge in E1].
  - Z.div_mod_to_equations; lia.
  - destruct ((52 <=? (today - m0) / 7) && (mn <=? today)) eqn:E2; [lia|].
    apply andb_false_iff in E2 as [E2|E2];
      [apply Z.leb_gt in E2|apply Z.leb_gt in E2]; Z.div_mod_to_equations; lia.
Qed.

Lemma save_session_parsed io session w d dt :
  objs w !! session = Some d -> session_date d = Ok dt ->
  save_session io session w =
  let w1 := mkworld (<[session := saved_record d dt]> (objs w)) (sessions w ++ [session])
                    (file w) (out w ++ [LogTryingSave]) in
  (Ok tt,
   match io with
   | WriteOk => mkworld (objs w1) (sessions w1) (FileText (Some (dump w1)))
                        (out w1 ++ [LogSessionSaved (saved_record d dt)])
   | OpenFails => mkworld (objs w1) (sessions w1) (file w)
                          (out w1 ++ [LogErrorSaving OSError])
   | DumpFails => mkworld (objs w1) (sessions w1) (FileText None)
                          (out w1 ++ [LogErrorSaving OSError])
   end).
Proof.
  intros Hd Hdt. rewrite (save_session_until_date _ _ _ _ Hd).
  set (w0 := mkworld (objs w) (sessions w) (file w) (out w ++ [LogTryingSave])).
  unfold try_except, bind at 1, obj_item. rewrite put_obj_lookup.
  unfold session_date, dict_item in Hdt. unfold dict_item. rewrite with_defaults_date.
  destruct (d !! "date") as [v|]; [|discriminate]. cbn [rbind] in Hdt.
  unfold bind at 1, lift. rewrite Hdt.
  rewrite (bind_obj_set _ _ _ _ _ _ (put_obj_lookup _ _ _)), put_obj_put_obj.
  rewrite (bind_obj_set _ _ _ _ _ _ (put_obj_lookup _ _ _)), put_obj_put_obj.
  rewrite (bind_obj_set _ _ _ _ _ _ (put_obj_lookup _ _ _)), put_obj_put_obj.
  fold (saved_record d dt).
  unfold bind at 1, list_append. unfold bind, write_file, print_saved, print, put_obj.
  cbn [objs sessions file out w0].
  destruct io; cbn [objs sessions file out]; rewrite ?lookup_insert_eq; reflexivity.
Qed.

Lemma save_session_unparsed io session w d e :
  objs w !! session = Some d -> session_date d = Raise e ->
  save_session io session w =
  (Ok tt, mkworld (<[session := with_defaults d]> (objs w)) (sessions w) (file w)
                  (out w ++ [LogTryingSave; LogErrorSaving e])).
Proof.
  intros Hd He. rewrite (save_session_until_date _ _ _ _ Hd).
  unfold try_except, bind at 1, obj_item. rewrite put_obj_lookup.
  unfold session_date, dict_item in He. unfold dict_item. rewrite with_defaults_date.
  destruct (d !! "date") as [v|]; cbn [rbind] in He.
  - unfold bind at 1, lift. rewrite He. unfold print, put_obj. cbn [objs sessions file out].
    now rewrite <- app_assoc.
  - injection He as <-. unfold print, put_obj. cbn [objs sessions file out].
    now rewrite <- app_assoc.
Qed.

Lemma save_session_no_dict io session w :
  objs w !! session = None ->
  save_session io session w =
  (Ok tt, mkworld (objs w) (sessions w) (file w)
                  (out w ++ [LogTryingSave; LogErrorSaving AttributeError])).
Proof.
  intros Hd. unfold save_session. unfold bind at 1. cbn [print].
  unfold try_except, bind at 1, obj_get. cbn [objs]. rewrite Hd.
  unfold print. cbn [objs sessions file out]. now rewrite <- app_assoc.
Qed.

(** X9.  A session whose date parses: [save_session] returns normally, has
    appended that very dict at the end of the list, has touched no other
    dict, and, when the write succeeds, leaves in the file exactly the list
    as it now is, the new record last, and reports the save. *)
Theorem save_session_appends_and_writes (session : loc) (w : world)
    (d : gmap string value) (dt : date) :
  objs w !! session = Some d -> session_date d = Ok dt ->
  exists w',
    save_session WriteOk session w = (Ok tt, w') /\
    sessions w' = sessions w ++ [session] /\
    objs w' !! session = Some (saved_record d dt) /\
    (forall l, l <> session -> objs w' !! l = objs w !! l) /\
    file w' = FileText (Some (dump w')) /\
    (exists earlier, dump w' = VList (earlier ++ [VDict (saved_record d dt)])) /\
    out w' = out w ++ [LogTryingSave; LogSessionSaved (saved_record d dt)].
Proof.
  intros Hd Hdt. rewrite (save_session_parsed _ _ _ _ _ Hd Hdt). cbv zeta.
  eexists. split; [reflexivity|]. cbn [objs sessions file out].
  split; [reflexivity|]. split; [apply lookup_insert_eq|].
  split; [intros l Hl; apply lookup_insert_ne; congruence|].
  split; [reflexivity|]. split.
  - unfold dump. cbn [objs sessions]. rewrite omap_app. cbn [omap list_omap].
    rewrite lookup_insert_eq. cbn [fmap option_fmap option_map]. eauto.
  - now rewrite <- app_assoc.
Qed.

(** X9 on the example store. *)
Lemma save_session_appends_and_writes_witness :
  objs save_example !! 1%nat = Some (timed_session "2024-01-08" 600) /\
  session_date (timed_session "2024-01-08" 600) = Ok (mkdate 2024 1 8) /\
  exists w',
    save_session WriteOk 1%nat save_example = (Ok tt, w') /\
    sessions w' = [0%nat; 1%nat] /\ file w' = FileText (Some (dump w')).
Proof.
  assert (H1 : objs save_example !! 1%nat = Some (timed_session "2024-01-08" 600))
    by apply lookup_insert_eq.
  assert (H2 : session_date (timed_session "2024-01-08" 600) = Ok (mkdate 2024 1 8))
    by reflexivity.
  split; [exact H1|]. split; [exact H2|].
  destruct (save_session_appends_and_writes 1%nat save_example _ _ H1 H2)
    as (w' & E & Hs & _ & _ & Hf & _).
  exists w'. split; [exact E|]. split; [exact Hs|exact Hf].
Defined.

(** X10.  When the write fails the caller sees no exception, and the
    session has been appended to the list and normalised all the same:
    nothing is rolled back.  When it is [open] that fails the file is what it
    was, so the list in memory has a record the file lacks. *)
Theorem save_session_write_failure_keeps_append (io : write_outcome) (session : loc)
    (w : world) (d : gmap string value) (dt : date) :
  objs w !! session = Some d -> session_date d = Ok dt -> io <> WriteOk ->
  exists w',
    save_session io session w = (Ok tt, w') /\
    sessions w' = sessions w ++ [session] /\
    objs w' !! session = Some (saved_record d dt) /\
    (io = OpenFails -> file w' = file w) /\
    out w' = out w ++ [LogTryingSave; LogErrorSaving OSError].
Proof.
  intros Hd Hdt Hio. rewrite (save_session_parsed _ _ _ _ _ Hd Hdt). cbv zeta.
  eexists. split; [reflexivity|].
  destruct io; [congruence| |]; cbn [objs sessions file out];
    (split; [reflexivity|]); (split; [apply lookup_insert_eq|]);
    (split; [intros; try reflexivity; discriminate|]); now rewrite <- app_assoc.
Qed.

(** X10 on the example store, [open] failing. *)
Lemma save_session_write_failure_keeps_append_witness :
  objs save_example !! 1%nat = Some (timed_session "2024-01-08" 600) /\
  session_date (timed_session "2024-01-08" 600) = Ok (mkdate 2024 1 8) /\
  OpenFails <> WriteOk /\
  exists w',
    save_session OpenFails 1%nat save_example = (Ok tt, w') /\
    sessions w' = [0%nat; 1%nat] /\ file w' = FileMissing.
Proof.
  assert (H1 : objs save_example !! 1%nat = Some (timed_session "2024-01-08" 600))
    by apply lookup_insert_eq.
  assert (H2 : session_date (timed_session "2024-01-08" 600) = Ok (mkdate 2024 1 8))
    by reflexivity.
  assert (H3 : OpenFails <> WriteOk) by discriminate.
  split; [exact H1|]. split; [exact H2|]. split; [exact H3|].
  destruct (save_session_write_failure_keeps_append OpenFails 1%nat save_example _ _ H1 H2 H3)
    as (w' & E & Hs & _ & Hf & _).
  exists w'. split; [exact E|]. split; [exact Hs|exact (Hf eq_refl)].
Defined.

(** X11.  [save_session] never lets an exception reach its caller, whatever
    it is handed.  Afterwards the list is what it was or has the session
    appended, no dict but the session's has changed, and what was printed
    before is still there, followed by the line of the attempt. *)
Theorem save_session_never_raises (io : write_outcome) (session : loc) (w : world) :
  exists w',
    save_session io session w = (Ok tt, w') /\
    (sessions w' = sessions w \/ sessions w' = sessions w ++ [session]) /\
    (forall l, l <> session -> objs w' !! l = objs w !! l) /\
    (exists later, out w' = out w ++ LogTryingSave :: later) /\
    (objs w !! session = None -> objs w' = objs w /\ sessions w' = sessions w /\
                                 file w' = file w).
Proof.
  destruct (objs w !! session) as [d|] eqn:Hd.
  - destruct (session_date d) as [dt|e] eqn:Hdt.
    + rewrite (save_session_parsed _ _ _ _ _ Hd Hdt). cbv zeta. eexists.
      split; [reflexivity|].
      destruct io; cbn [objs sessions file out];
        (split; [right; reflexivity|]);
        (split; [intros l Hl; apply lookup_insert_ne; congruence|]);
        (split; [rewrite <- app_assoc; eexists; reflexivity|discriminate]).
    + rewrite (save_session_unparsed _ _ _ _ _ Hd Hdt). eexists.
      split; [reflexivity|]. cbn [objs sessions file out].
      split; [left; reflexivity|].
      split; [intros l Hl; apply lookup_insert_ne; congruence|].
      split; [eexists; reflexivity|discriminate].
  - rewrite (save_session_no_dict _ _ _ Hd). eexists.
    split; [reflexivity|]. cbn [objs sessions file out].
    split; [left; reflexivity|]. split; [reflexivity|].
    split; [eexists; reflexivity|auto].
Qed.

Lemma with_defaults_lookup d k :
  with_defaults d !! k =
  if String.eqb k "notes" then Some (dict_get d "notes" (VStr EmptyString))
  else if String.eqb k "movement" then
    Some (py_or (dict_get d "movement" (VStr "Unknown")) (VStr "Unknown"))
  else if String.eqb k "work" then
    Some (py_or (dict_get d "work" (VStr "Unknown")) (VStr "Unknown"))
  else if String.eqb k "composer" then
    Some (py_or (dict_get d "composer" (VStr "Unknown")) (VStr "Unknown"))
  else d !! k.
Proof.
  unfold with_defaults. cbv zeta. unfold dict_get.
  rewrite !(lookup_insert_ne _ _ "notes") by discriminate.
  rewrite !(lookup_insert_ne _ _ "movement") by discriminate.
  rewrite !(lookup_insert_ne _ _ "work") by discriminate.
  destruct (String.eqb k "notes") eqn:E1.
  { apply String.eqb_eq in E1. subst. now rewrite lookup_insert_eq. }
  apply String.eqb_neq in E1. rewrite lookup_insert_ne by congruence.
  destruct (String.eqb k "movement") eqn:E2.
  { apply String.eqb_eq in E2. subst. now rewrite lookup_insert_eq. }
  apply String.eqb_neq in E2. rewrite lookup_insert_ne by congruence.
  destruct (String.eqb k "work") eqn:E3.
  { apply String.eqb_eq in E3. subst. now rewrite lookup_insert_eq. }
  apply String.eqb_neq in E3. rewrite lookup_insert_ne by congruence.
  destruct (String.eqb k "composer") eqn:E4.
  { apply String.eqb_eq in E4. subst. now rewrite lookup_insert_eq. }
  apply String.eqb_neq in E4. now rewrite lookup_insert_ne by congruence.
Qed.

Lemma saved_record_lookup d dt k :
  saved_record d dt !! k =
  if String.eqb k "year" then Some (VInt (year dt))
  else if String.eqb k "month" then Some (VInt (month dt))
  else if String.eqb k "week" then Some (VInt (isoweek dt))
  else with_defaults d !! k.
Proof.
  unfold saved_record.
  destruct (String.eqb k "year") eqn:E1.
  { apply String.eqb_eq in E1. subst. now rewrite lookup_insert_eq. }
  apply String.eqb_neq in E1. rewrite lookup_insert_ne by congruence.
  destruct (String.eqb k "month") eqn:E2.
  { apply String.eqb_eq in E2. subst. now rewrite lookup_insert_eq. }
  apply String.eqb_neq in E2. rewrite lookup_insert_ne by congruence.
  destruct (String.eqb k "week") eqn:E3.
  { apply String.eqb_eq in E3. subst. now rewrite lookup_insert_eq. }
  apply String.eqb_neq in E3. now rewrite lookup_insert_ne by congruence.
Qed.

Lemma py_or_unknown_truthy v : truthy (py_or v (VStr "Unknown")) = true.
Proof. unfold py_or. destruct (truthy v) eqn:E; [exact E|reflexivity]. Qed.

Lemma session_date_valid d dt : session_date d = Ok dt -> valid_date dt = true.
Proof.
  unfold session_date, dict_item. destruct (d !! "date") as [[]|]; try discriminate.
  cbn. apply strptime_ymd_valid.
Qed.

(** X12.  The record a successful call leaves behind: [composer], [work]
    and [movement] hold the value handed in when it is truthy and
    ["Unknown"] otherwise, so they are never empty; [notes] is there;
    [week], [month] and [year] are those of the date, whatever the dict held
    under these keys, with the week from 1 to 53, the month from 1 to 12 and
    the year from 1 to 9999; every other key has the value it had. *)
Theorem save_session_record_fields (io : write_outcome) (session : loc)
    (w : world) (d : gmap string value) (dt : date) :
  objs w !! session = Some d -> session_date d = Ok dt ->
  exists r,
    objs (snd (save_session io session w)) !! session = Some r /\
    (forall k, In k ["composer"; "work"; "movement"] ->
       r !! k = Some (py_or (default (VStr "Unknown") (d !! k)) (VStr "Unknown")) /\
       exists v, r !! k = Some v /\ truthy v = true) /\
    r !! "notes" = Some (default (VStr EmptyString) (d !! "notes")) /\
    r !! "week" = Some (VInt (isoweek dt)) /\ 1 <= isoweek dt <= 53 /\
    r !! "month" = Some (VInt (month dt)) /\ 1 <= month dt <= 12 /\
    r !! "year" = Some (VInt (year dt)) /\ 1 <= year dt <= 9999 /\
    (forall k, ~ In k ["composer"; "work"; "movement"; "notes"; "week"; "month"; "year"] ->
       r !! k = d !! k).
Proof.
  intros Hd Hdt. exists (saved_record d dt).
  pose proof (session_date_valid _ _ Hdt) as Hv.
  destruct (valid_date_bounds _ Hv) as (Hy & Hm & _).
  split.
  { rewrite (save_session_parsed _ _ _ _ _ Hd Hdt). cbv zeta.
    destruct io; cbn [snd objs]; apply lookup_insert_eq. }
  split.
  { intros k Hk. assert (E : saved_record d dt !! k =
      Some (py_or (default (VStr "Unknown") (d !! k)) (VStr "Unknown"))).
    { cbn in Hk. destruct Hk as [<-|[<-|[<-|[]]]];
        rewrite saved_record_lookup, with_defaults_lookup; reflexivity. }
    split; [exact E|]. eexists. split; [exact E|apply py_or_unknown_truthy]. }
  split; [rewrite saved_record_lookup, with_defaults_lookup; reflexivity|].
  split; [rewrite saved_record_lookup; reflexivity|].
  split; [apply isoweek_bounds, Hv|].
  split; [rewrite saved_record_lookup; reflexivity|]. split; [exact Hm|].
  split; [rewrite saved_record_lookup; reflexivity|]. split; [exact Hy|].
  intros k Hk. rewrite saved_record_lookup, with_defaults_lookup.
  cbn [In] in Hk.
  repeat match goal with
         | |- context [String.eqb k ?s] =>
             destruct (String.eqb k s) eqn:?E;
             [apply String.eqb_eq in E; exfalso; apply Hk; subst k; tauto|clear E]
         end.
  reflexivity.
Qed.

(** X12 on the example store: the session of 2024-01-08 is of week 2. *)
Lemma save_session_record_fields_witness :
  objs save_example !! 1%nat = Some (timed_session "2024-01-08" 600) /\
  session_date (timed_session "2024-01-08" 600) = Ok (mkdate 2024 1 8) /\
  exists r,
    objs (snd (save_session WriteOk 1%nat save_example)) !! 1%nat = Some r /\
    r !! "composer" = Some (VStr "Unknown") /\
    r !! "week" = Some (VInt 2).
Proof.
  assert (H1 : objs save_example !! 1%nat = Some (timed_session "2024-01-08" 600))
    by apply lookup_insert_eq.
  assert (H2 : session_date (timed_session "2024-01-08" 600) = Ok (mkdate 2024 1 8))
    by reflexivity.
  split; [exact H1|]. split; [exact H2|].
  destruct (save_session_record_fields WriteOk 1%nat save_example _ _ H1 H2)
    as (r & E & Hc & _ & Hw & _).
  exists r. split; [exact E|]. split; [|exact Hw].
  exact (proj1 (Hc "composer" (or_introl eq_refl))).
Defined.

Lemma has_defaults_iff d :
  has_defaults d = true <->
  is_Some (d !! "composer") /\ is_Some (d !! "work") /\
  is_Some (d !! "movement") /\ is_Some (d !! "notes").
Proof.
  unfold has_defaults. cbn [forallb]. rewrite !andb_true_iff, !bool_decide_eq_true. tauto.
Qed.

Lemma with_defaults_has_defaults d : has_defaults (with_defaults d) = true.
Proof.
  apply has_defaults_iff. rewrite !with_defaults_lookup. cbn. repeat split; eauto.
Qed.

Lemma saved_record_has_defaults d dt : has_defaults (saved_record d dt) = true.
Proof.
  apply has_defaults_iff. rewrite !saved_record_lookup, !with_defaults_lookup. cbn.
  repeat split; eauto.
Qed.

Lemma normalised_insert w l d ss f o :
  normalised w -> has_defaults d = true ->
  (forall x, In x ss -> In x (sessions w) \/ x = l) ->
  normalised (mkworld (<[l := d]> (objs w)) ss f o).
Proof.
  intros Hn Hd Hss. unfold normalised in *. cbn [objs sessions].
  apply List.Forall_forall. intros x Hx. rewrite List.Forall_forall in Hn.
  destruct (decide (x = l)) as [->|Hne].
  - exists d. split; [apply lookup_insert_eq|exact Hd].
  - destruct (Hss x Hx) as [H|H]; [|congruence].
    destruct (Hn x H) as (d0 & H0 & H1). exists d0. split; [|exact H1].
    rewrite lookup_insert_ne by congruence. exact H0.
Qed.

(** X13.  When every record of the list has [composer], [work], [movement]
    and [notes], the same holds after [save_session], whatever it was handed
    and however the call went. *)
Theorem save_session_keeps_normalised (io : write_outcome) (session : loc) (w : world) :
  normalised w -> normalised (snd (save_session io session w)).
Proof.
  intros Hn. destruct (objs w !! session) as [d|] eqn:Hd.
  - destruct (session_date d) as [dt|e] eqn:Hdt.
    + rewrite (save_session_parsed _ _ _ _ _ Hd Hdt). cbv zeta.
      destruct io; cbn [snd objs sessions];
        (apply normalised_insert;
         [exact Hn|apply saved_record_has_defaults|
          intros x Hx; apply in_app_or in Hx as [Hx|[<-|[]]]; auto]).
    + rewrite (save_session_unparsed _ _ _ _ _ Hd Hdt). cbn [snd].
      apply normalised_insert; [exact Hn|apply with_defaults_has_defaults|auto].
  - rewrite (save_session_no_dict _ _ _ Hd). cbn [snd]. exact Hn.
Qed.

(** X13 on a first save into an empty list. *)
Lemma save_session_keeps_normalised_witness :
  normalised first_save_example /\
  normalised (snd (save_session WriteOk 0%nat first_save_example)).
Proof.
  assert (H : normalised first_save_example) by constructor.
  split; [exact H|].
  exact (save_session_keeps_normalised WriteOk 0%nat first_save_example H).
Defined.

Lemma dict_setdefault_present k dflt d : is_Some (d !! k) -> dict_setdefault k dflt d = d.
Proof. intros [v H]. unfold dict_setdefault. now rewrite H. Qed.

Lemma set_defaults_has_defaults d :
  has_defaults d = true -> set_defaults (VDict d) = Ok (VDict d).
Proof.
  intros H. apply has_defaults_iff in H as (H1 & H2 & H3 & H4). unfold set_defaults.
  rewrite (dict_setdefault_present "composer") by exact H1.
  rewrite (dict_setdefault_present "work") by exact H2.
  rewrite (dict_setdefault_present "movement") by exact H3.
  rewrite (dict_setdefault_present "notes") by exact H4. reflexivity.
Qed.

Lemma for_each_session_normalised w :
  normalised w ->
  for_each_session (omap (fun l => VDict <$> objs w !! l) (sessions w)) =
  Ok (omap (fun l => VDict <$> objs w !! l) (sessions w)).
Proof.
  unfold normalised. induction 1 as [|l ls (d & Hd & Hdef) _ IH]; [reflexivity|].
  cbn [omap list_omap]. rewrite Hd. cbn [fmap option_fmap option_map for_each_session].
  rewrite (set_defaults_has_defaults _ Hdef). cbn [rbind].
  fold (omap (fun l => VDict <$> objs w !! l) ls). rewrite IH. reflexivity.
Qed.

Lemma omap_insert_fresh (objs0 : gmap loc session) l d ls :
  ~ In l ls ->
  omap (fun x => VDict <$> <[l := d]> objs0 !! x) ls = omap (fun x => VDict <$> objs0 !! x) ls.
Proof.
  induction ls as [|x ls IH]; intros Hni; [reflexivity|].
  cbn [omap list_omap]. rewrite lookup_insert_ne by (intros ->; apply Hni; now left).
  fold (omap (fun x => VDict <$> <[l := d]> objs0 !! x) ls).
  fold (omap (fun x => VDict <$> objs0 !! x) ls).
  rewrite IH by (intros H; apply Hni; now right). reflexivity.
Qed.

(** X14.  Save, then load: on a normalised list, once [save_session] has
    written the file, [load_sessions] on that file returns exactly the
    records the list holds, in the list's order and unchanged; these are the
    records it held before followed by the saved session (when that dict was
    not in the list already). *)
Theorem save_then_load_round_trip (session : loc) (w : world)
    (d : gmap string value) (dt : date) :
  normalised w -> objs w !! session = Some d -> session_date d = Ok dt ->
  let w' := snd (save_session WriteOk session w) in
  load_sessions (file w') = (dump w', [LogTryingLoad]) /\
  (forall earlier, dump w = VList earlier -> ~ In session (sessions w) ->
     dump w' = VList (earlier ++ [VDict (saved_record d dt)])).
Proof.
  intros Hn Hd Hdt w'.
  assert (Hn' : normalised w').
  { subst w'. rewrite (save_session_parsed _ _ _ _ _ Hd Hdt). cbv zeta. cbn [snd].
    apply normalised_insert; [exact Hn|apply saved_record_has_defaults|].
    intros x Hx. apply in_app_or in Hx as [Hx|[<-|[]]]; auto. }
  assert (Hf : file w' = FileText (Some (dump w'))).
  { subst w'. rewrite (save_session_parsed _ _ _ _ _ Hd Hdt). reflexivity. }
  split.
  - rewrite Hf. unfold load_sessions, load_loop. unfold dump at 1.
    rewrite (for_each_session_normalised _ Hn'). reflexivity.
  - intros earlier He Hni. subst w'. rewrite (save_session_parsed _ _ _ _ _ Hd Hdt).
    cbv zeta. unfold dump in *. cbn [snd objs sessions]. rewrite omap_app.
    cbn [omap list_omap]. rewrite lookup_insert_eq.
    rewrite (omap_insert_fresh _ _ _ _ Hni). injection He as <-. reflexivity.
Qed.

(** X14 on a first save into an empty list. *)
Lemma save_then_load_round_trip_witness :
  normalised first_save_example /\
  objs first_save_example !! 0%nat = Some (timed_session "2024-01-08" 600) /\
  session_date (timed_session "2024-01-08" 600) = Ok (mkdate 2024 1 8) /\
  load_sessions (file (snd (save_session WriteOk 0%nat first_save_example))) =
    (dump (snd (save_session WriteOk 0%nat first_save_example)), [LogTryingLoad]).
Proof.
  assert (H0 : normalised first_save_example) by constructor.
  assert (H1 : objs first_save_example !! 0%nat = Some (timed_session "2024-01-08" 600))
    by apply lookup_singleton_eq.
  assert (H2 : session_date (timed_session "2024-01-08" 600) = Ok (mkdate 2024 1 8))
    by reflexivity.
  split; [exact H0|]. split; [exact H1|]. split; [exact H2|].
  exact (proj1 (save_then_load_round_trip 0%nat first_save_example _ _ H0 H1 H2)).
Defined.

Lemma set_defaults_normal item record :
  set_defaults item = Ok record -> normal_record record.
Proof.
  destruct item; try discriminate. cbn. intros [= <-]. eexists. split; [reflexivity|].
  apply has_defaults_iff.
  repeat split;
    repeat first [ rewrite dict_setdefault_eq; eauto
                 | rewrite dict_setdefault_ne by discriminate ].
Qed.

Lemma for_each_session_normal items records :
  for_each_session items = Ok records -> Forall normal_record records.
Proof.
  revert records. induction items as [|item items IH]; intros records; cbn.
  - intros [= <-]. constructor.
  - destruct (set_defaults item) as [r|] eqn:E; [|discriminate]. cbn.
    destruct (for_each_session items) as [rs|]; [|discriminate]. cbn.
    intros [= <-]. constructor; [exact (set_defaults_normal _ _ E)|now apply IH].
Qed.

Lemma for_each_session_fix records :
  Forall normal_record records -> for_each_session records = Ok records.
Proof.
  induction 1 as [|r rs (d & -> & Hd) _ IH]; [reflexivity|].
  cbn [for_each_session]. rewrite (set_defaults_has_defaults _ Hd). cbn [rbind].
  rewrite IH. reflexivity.
Qed.

(** X15.  What [load_sessions] returns, whatever the file: a list of
    records that each have [composer], [work], [movement] and [notes], or,
    when the file holds exactly the empty object or the empty string, that
    value.  Loading a file that holds what it returned gives the same
    again. *)
Theorem load_sessions_result (f : file_state) :
  let loaded := fst (load_sessions f) in
  ((exists records, loaded = VList records /\ Forall normal_record records) \/
   (loaded = VDict ∅ /\ f = FileText (Some (VDict ∅))) \/
   (loaded = VStr EmptyString /\ f = FileText (Some (VStr EmptyString)))) /\
  load_sessions (FileText (Some loaded)) = (loaded, [LogTryingLoad]).
Proof.
  assert (Hnil : (exists records, VList [] = VList records /\ Forall normal_record records)).
  { exists []. split; [reflexivity|constructor]. }
  destruct f as [| |[v|]]; cbn; auto.
  destruct v as [| | | |s|l|d]; cbn; auto.
  - destruct (String.eqb s EmptyString) eqn:E; cbn; auto.
    apply String.eqb_eq in E. subst. cbn. auto.
  - destruct (for_each_session l) as [records|] eqn:E; cbn; auto.
    pose proof (for_each_session_normal _ _ E) as Hn. split; [left; eauto|].
    now rewrite (for_each_session_fix _ Hn).
  - destruct (bool_decide (d = ∅)) eqn:E; cbn; auto.
    apply bool_decide_eq_true in E. subst. split; [auto|]. reflexivity.
Qed.

Lemma for_each_session_bad items item :
  In item items -> (forall d, item <> VDict d) ->
  for_each_session items = Raise AttributeError.
Proof.
  intros Hin Hbad. induction items as [|x items IH]; [destruct Hin|].
  cbn. destruct Hin as [->|Hin].
  - destruct item; try reflexivity. now destruct (Hbad d).
  - destruct x; try reflexivity. cbn. now rewrite (IH Hin).
Qed.

(** X16.  One element of the stored list that is not an object makes
    [load_sessions] return the empty list: every record of the file is left
    out.  The first session saved into that list then replaces the file's
    content by that one record. *)
Theorem load_sessions_all_or_nothing (items : list value) (item : value)
    (w : world) (session : loc) (d : gmap string value) (dt : date) :
  In item items -> (forall x, item <> VDict x) ->
  load_sessions (FileText (Some (VList items))) =
    (VList [], [LogTryingLoad; LogUnexpected AttributeError]) /\
  (file w = FileText (Some (VList items)) -> sessions w = [] ->
   objs w !! session = Some d -> session_date d = Ok dt ->
   file (snd (save_session WriteOk session w)) =
     FileText (Some (VList [VDict (saved_record d dt)]))).
Proof.
  intros Hin Hbad. split.
  - cbn. now rewrite (for_each_session_bad _ _ Hin Hbad).
  - intros _ Hs Hd Hdt. rewrite (save_session_parsed _ _ _ _ _ Hd Hdt). cbv zeta.
    cbn [snd file]. unfold dump. cbn [objs sessions]. rewrite Hs. cbn [app omap list_omap].
    rewrite lookup_insert_eq. reflexivity.
Qed.

(** X16 on a file holding one record and a stray number. *)
Lemma load_sessions_all_or_nothing_witness :
  In (VInt 7) [VDict (timed_session "2024-01-07" 60); VInt 7] /\
  (forall x, VInt 7 <> VDict x) /\
  load_sessions (FileText (Some (VList [VDict (timed_session "2024-01-07" 60); VInt 7]))) =
    (VList [], [LogTryingLoad; LogUnexpected AttributeError]).
Proof.
  assert (H1 : In (VInt 7) [VDict (timed_session "2024-01-07" 60); VInt 7])
    by (right; left; reflexivity).
  assert (H2 : forall x, VInt 7 <> VDict x) by discriminate.
  split; [exact H1|]. split; [exact H2|].
  exact (proj1 (load_sessions_all_or_nothing _ _ first_save_example 0%nat
                  (timed_session "2024-01-08" 600) (mkdate 2024 1 8) H1 H2)).
Defined.

(* ===================================================================== *)
(** * PracticeTimer under a clock that never goes back *)
(* ===================================================================== *)

Section PracticeTimerClock.

Import PracticeTimer TimerTrace.

Lemma timer_within_step t0 tl self now o :
  (t0 <= tl)%Q -> (tl <= now)%Q -> timer_within t0 tl self ->
  timer_within t0 now (step self (now, o)).
Proof.
  intros H0 Hl (Hpos & H). unfold timer_within.
  destruct self as [st tot run]; cbn [start_time total_time running] in *.
  destruct st as [s|]; destruct H as (-> & H); destruct o;
    cbn [step start stop reset get_total_time snd negb running start_time total_time
         default];
    unfold id; repeat split; try reflexivity; try lra.
Qed.

Lemma timer_within_run calls : forall t0 tl self,
  (t0 <= tl)%Q -> chronological tl calls -> timer_within t0 tl self ->
  timer_within t0 (last_reading tl calls) (fold_left step calls self) /\
  (t0 <= last_reading tl calls)%Q.
Proof.
  induction calls as [|[now o] calls IH]; intros t0 tl self H0 Hc Hw.
  - cbn. auto.
  - destruct Hc as [Hn Hc]. cbn [fold_left last_reading fst].
    apply IH; [lra|exact Hc|]. now apply timer_within_step with (tl := tl).
Qed.

(** X17.  A [PracticeTimer] driven by a clock that never goes back, first
    touched at [t0] and read at [now], not before the last call: [running]
    holds exactly when [start_time] is set, which is what
    [CronometroTab.toggle_timer] tests; and the elapsed time is not negative
    and not more than the time gone by since [t0]. *)
Theorem practice_timer_within_wall_clock (t0 now : Q) (calls : list (Q * op)) :
  chronological t0 calls -> (last_reading t0 calls <= now)%Q ->
  let self := run calls in
  (running self = true <-> start_time self <> None) /\
  (0 <= fst (get_total_time now self))%Q /\
  (fst (get_total_time now self) <= now - t0)%Q.
Proof.
  intros Hc Hn self.
  destruct (timer_within_run calls t0 t0 init (Qle_refl _) Hc) as [(Hpos & H) Hl].
  { unfold timer_within. cbn. repeat split; lra. }
  fold (run calls) in Hpos, H. fold self in Hpos, H.
  unfold get_total_time.
  destruct (start_time self) as [s|] eqn:Es.
  - destruct H as (Hr & H1 & H2 & H3). rewrite Hr. cbn [fst default]. unfold id.
    split; [split; [discriminate|reflexivity]|]. split; lra.
  - destruct H as (Hr & H1). rewrite Hr. cbn [fst].
    split; [split; [discriminate|congruence]|]. split; lra.
Qed.

(** X17 on a start at 10, a stop at 12 and a start at 20, read at 21. *)
Lemma practice_timer_within_wall_clock_witness :
  chronological 10 timer_example /\
  (last_reading 10 timer_example <= 21)%Q /\
  (fst (get_total_time 21 (run timer_example)) <= 21 - 10)%Q.
Proof.
  assert (H1 : chronological 10 timer_example).
  { cbn. repeat split; unfold Qle; cbn; lia. }
  assert (H2 : (last_reading 10 timer_example <= 21)%Q).
  { cbn. unfold Qle; cbn; lia. }
  split; [exact H1|]. split; [exact H2|].
  exact (proj2 (proj2 (practice_timer_within_wall_clock 10 21 timer_example H1 H2))).
Defined.

End PracticeTimerClock.

(* ===================================================================== *)
(** * Metronome, format_duration and the countdown thread *)
(* ===================================================================== *)

Lemma set_bpm_range bpm m : 20 <= Metronome.bpm (Metronome.set_bpm bpm m) <= 300.
Proof.
  unfold Metronome.set_bpm. cbn [Metronome.bpm].
  destruct (bpm <? 20) eqn:E1; [lia|]. destruct (300 <? bpm) eqn:E2; lia.
Qed.

Lemma press_step_range m p :
  20 <= Metronome.bpm m <= 300 -> 20 <= Metronome.bpm (press_step m p) <= 300.
Proof. intros _. destruct p; apply set_bpm_range. Qed.

Lemma press_step_multiple m p :
  is_button p = true -> Metronome.bpm m mod 5 = 0 ->
  Metronome.bpm (press_step m p) mod 5 = 0.
Proof.
  intros Hp Hm.
  destruct p; [| |discriminate];
    cbn [press_step MetronomoTab.increase_bpm MetronomoTab.decrease_bpm fst];
    unfold Metronome.set_bpm; cbn [Metronome.bpm];
    repeat match goal with |- context [if ?c then _ else _] => destruct c end;
    try reflexivity; Z.div_mod_to_equations; lia.
Qed.

(** X18.  Whatever is asked of the metronome, through the two buttons or
    through [set_bpm] with any number, its tempo stays from 20 to 300 beats a
    minute; so the interval [run] computes is defined (no division by zero)
    and lies from a fifth of a second to three seconds.  Through the buttons
    alone the tempo stays a multiple of 5. *)
Theorem metronome_bpm_stays_in_range (presses : list press) :
  let m := after_presses presses in
  20 <= Metronome.bpm m <= 300 /\
  (exists interval, Metronome.interval m = Some interval /\
                    (1 # 5 <= interval)%Q /\ (interval <= 3)%Q) /\
  (forallb is_button presses = true -> Metronome.bpm m mod 5 = 0).
Proof.
  cbv zeta. unfold after_presses.
  assert (Hr : forall m, 20 <= Metronome.bpm m <= 300 ->
                         20 <= Metronome.bpm (fold_left press_step presses m) <= 300).
  { induction presses as [|p ps IH]; intros m Hm; [exact Hm|].
    cbn [fold_left]. apply IH, press_step_range, Hm. }
  assert (Hm5 : forall m, forallb is_button presses = true -> Metronome.bpm m mod 5 = 0 ->
                          Metronome.bpm (fold_left press_step presses m) mod 5 = 0).
  { clear Hr. induction presses as [|p ps IH]; intros m Hb Hm; [exact Hm|].
    cbn in Hb. apply andb_true_iff in Hb as [Hp Hb]. cbn [fold_left].
    apply IH; [exact Hb|apply press_step_multiple; assumption]. }
  specialize (Hr Metronome.init ltac:(cbn; lia)).
  split; [exact Hr|]. split.
  - unfold Metronome.interval.
    destruct (Metronome.bpm _ =? 0) eqn:E; [apply Z.eqb_eq in E; lia|].
    eexists. split; [reflexivity|].
    set (b := Metronome.bpm _) in *.
    assert (Hb : (0 < inject_Z b)%Q) by (unfold Qlt; cbn; lia).
    split.
    + apply Qle_shift_div_l; [exact Hb|]. unfold Qle; cbn. lia.
    + apply Qle_shift_div_r; [exact Hb|]. unfold Qle; cbn. lia.
  - intros Hb. apply Hm5; [exact Hb|reflexivity].
Qed.

Lemma py_round_nonneg v :
  is_number v = true -> (0 <= num_of v)%Q -> 0 <= LogsTab.py_round v.
Proof.
  destruct v; try discriminate; intros _; cbn [num_of LogsTab.py_round].
  - destruct b; cbn; lia.
  - unfold Qle; cbn. lia.
  - intros Hq. unfold round_half_even.
    assert (0 <= Qfloor q).
    { change 0 with (Qfloor 0). apply Qfloor_resp_le. exact Hq. }
    destruct (_ ?= _)%Q; [destruct (Z.even _)| |]; lia.
Qed.

Lemma str_nonneg_reads n :
  0 <= n ->
  Dec.int_of_digit_string (Dec.str_nonneg n) = Some n /\
  String.length (Dec.str_nonneg n) = length (Dec.digits n).
Proof.
  intros Hn. destruct (format_zero_pad_nonneg 0 n Hn) as [H1 _].
  rewrite (format_zero_pad_digits 0 n Hn) in H1.
  change (0 - length (Dec.digits n))%nat with 0%nat in H1.
  unfold Dec.str_nonneg. split; [exact H1|].
  now rewrite string_of_list_length, length_map.
Qed.

Lemma format_zero_pad_hours h :
  0 <= h ->
  Dec.format_zero_pad 2 h =
  (if h <? 10 then "0" else EmptyString) +:+ Dec.str_nonneg h.
Proof.
  intros Hh. rewrite (format_zero_pad_digits 2 h Hh), string_of_list_app.
  unfold Dec.str_nonneg. f_equal.
  destruct (h <? 10) eqn:E.
  - apply Z.ltb_lt in E. rewrite digits_small by lia. reflexivity.
  - apply Z.ltb_ge in E. destruct (digits_spec h Hh) as (_ & _ & _ & H).
    destruct (H E) as [Hlen _].
    replace (2 - length (Dec.digits h))%nat with 0%nat by lia. reflexivity.
Qed.

(** X19.  [LogsTab.format_duration] answers ["0:00:00"] to anything that is
    not a number and to a negative number.  A number that is not negative is
    rounded to whole seconds [n], halves to the even side, and rendered as
    [H:MM:SS]: three fields of digits that read back as [n // 3600],
    [(n % 3600) // 60] and [n % 60], minutes and seconds on two digits, the
    hours as they are, without padding.  It is the text of
    [CountdownTimer.format_time] without the zero that pads a single-digit
    hour. *)
Theorem format_duration_fields (total_seconds : value) :
  (is_number total_seconds = false -> LogsTab.format_duration total_seconds = "0:00:00") /\
  (is_number total_seconds = true ->
   ((num_of total_seconds < 0)%Q -> LogsTab.format_duration total_seconds = "0:00:00") /\
   ((0 <= num_of total_seconds)%Q ->
    let n := LogsTab.py_round total_seconds in
    let h := n / 3600 in
    let m := n mod 3600 / 60 in
    let s := n mod 60 in
    0 <= n /\
    (forall z, total_seconds = VInt z -> n = z) /\
    (forall q, total_seconds = VFloat q -> (Qabs (inject_Z n - q) <= 1 # 2)%Q) /\
    exists hh mm ss : string,
      LogsTab.format_duration total_seconds = hh +:+ ":" +:+ mm +:+ ":" +:+ ss /\
      Dec.int_of_digit_string hh = Some h /\
      Dec.int_of_digit_string mm = Some m /\
      Dec.int_of_digit_string ss = Some s /\
      String.length hh = length (Dec.digits h) /\
      String.length mm = 2%nat /\ String.length ss = 2%nat /\
      CountdownTimer.format_time n =
        (if h <? 10 then "0" else EmptyString) +:+ LogsTab.format_duration total_seconds)).
Proof.
  split.
  - destruct total_seconds; try discriminate; reflexivity.
  - intros Hnum. split.
    + intros Hneg. unfold LogsTab.format_duration.
      assert (E : Qle_bool 0 (num_of total_seconds) = false).
      { destruct (Qle_bool 0 (num_of total_seconds)) eqn:E; [|reflexivity].
        apply Qle_bool_iff in E. lra. }
      rewrite E. destruct total_seconds; reflexivity.
    + intros Hpos n h m s.
      pose proof (py_round_nonneg _ Hnum Hpos) as Hn. fold n in Hn.
      assert (Hh : 0 <= h) by (subst h; apply Z.div_pos; lia).
      assert (Hm : 0 <= m < 60) by (subst m; Z.div_mod_to_equations; lia).
      assert (Hs : 0 <= s < 60) by (subst s; Z.div_mod_to_equations; lia).
      split; [exact Hn|]. split; [intros z ->; reflexivity|]. split.
      { intros q ->. subst n. cbn [LogsTab.py_round num_of] in *. unfold round_half_even.
        pose proof (Qfloor_le q) as H1. pose proof (Qlt_floor q) as H2.
        rewrite inject_Z_plus in H2. change (inject_Z 1) with 1%Q in H2.
        destruct (q - inject_Z (Qfloor q) ?= 1 # 2)%Q eqn:E.
        - apply Qeq_alt in E. destruct (Z.even (Qfloor q));
            [|rewrite inject_Z_plus; change (inject_Z 1) with 1%Q];
            apply Qabs_Qle_condition; split; lra.
        - apply Qlt_alt in E. apply Qabs_Qle_condition; split; lra.
        - apply Qgt_alt in E. rewrite inject_Z_plus. change (inject_Z 1) with 1%Q.
          apply Qabs_Qle_condition; split; lra. }
      assert (E : LogsTab.format_duration total_seconds =
                  Dec.str_nonneg h +:+ ":" +:+ Dec.format_zero_pad 2 m +:+ ":" +:+
                  Dec.format_zero_pad 2 s).
      { unfold LogsTab.format_duration.
        assert (E : Qle_bool 0 (num_of total_seconds) = true) by (apply Qle_bool_iff; exact Hpos).
        rewrite E. cbn [negb]. fold n. fold h. fold m. fold s.
        unfold Dec.str_int. replace (h <? 0) with false by (symmetry; apply Z.ltb_ge; lia).
        destruct total_seconds; try discriminate; reflexivity. }
      exists (Dec.str_nonneg h), (Dec.format_zero_pad 2 m), (Dec.format_zero_pad 2 s).
      destruct (str_nonneg_reads h Hh) as [Rh Lh].
      destruct (format_zero_pad_nonneg 2 m (proj1 Hm)) as [Rm Lm].
      destruct (format_zero_pad_nonneg 2 s (proj1 Hs)) as [Rs Ls].
      assert (Dm : (length (Dec.digits m) <= 2)%nat).
      { destruct (Z.lt_ge_cases m 10) as [H|H]; [rewrite digits_small by lia; cbn; lia|].
        rewrite digits_step by lia. rewrite digits_small by (Z.div_mod_to_equations; lia).
        cbn; lia. }
      assert (Ds : (length (Dec.digits s) <= 2)%nat).
      { destruct (Z.lt_ge_cases s 10) as [H|H]; [rewrite digits_small by lia; cbn; lia|].
        rewrite digits_step by lia. rewrite digits_small by (Z.div_mod_to_equations; lia).
        cbn; lia. }
      repeat split; try assumption; try lia.
      rewrite E. unfold CountdownTimer.format_time. fold h. fold m. fold s.
      rewrite (format_zero_pad_hours h Hh).
      destruct (h <? 10); reflexivity.
Qed.

Lemma countdown_texts_S n count :
  countdown_texts n (S count) =
  CountdownThread.Update (CountdownTimer.format_time (n - 1)) :: countdown_texts (n - 1) count.
Proof.
  unfold countdown_texts. cbn [seq map]. rewrite Z.sub_0_r. f_equal.
  rewrite <- seq_shift, map_map. apply map_ext. intros i. do 2 f_equal. lia.
Qed.

(** The loop while the flag stays set: [ticks] turns, fuel permitting. *)
Lemma run_loop_ticks flag ticks : forall fuel looks total calls,
  (ticks <= fuel)%nat -> Z.of_nat ticks <= total ->
  (forall k, (looks <= k < looks + ticks)%nat -> flag k = true) ->
  CountdownThread.run_loop fuel flag looks total calls =
  CountdownThread.run_loop (fuel - ticks) flag (looks + ticks) (total - Z.of_nat ticks)
                           (calls ++ countdown_texts total ticks).
Proof.
  induction ticks as [|ticks IH]; intros fuel looks total calls Hf Ht Hflag.
  - rewrite Nat.sub_0_r, Nat.add_0_r, Z.sub_0_r. cbn. now rewrite app_nil_r.
  - destruct fuel as [|fuel]; [lia|]. cbn [CountdownThread.run_loop].
    replace (0 <? total) with true by (symmetry; apply Z.ltb_lt; lia).
    rewrite (Hflag looks) by lia.
    rewrite IH by (try lia; intros k Hk; apply Hflag; lia).
    replace (looks + S ticks)%nat with (S looks + ticks)%nat by lia.
    replace (total - Z.of_nat (S ticks)) with (total - 1 - Z.of_nat ticks) by lia.
    rewrite countdown_texts_S, <- app_assoc. reflexivity.
Qed.

Lemma run_loop_done fuel flag looks total calls :
  total <= 0 -> CountdownThread.run_loop fuel flag looks total calls = (calls, total, looks).
Proof.
  intros Ht. destruct fuel; [reflexivity|]. cbn.
  now replace (0 <? total) with false by (symmetry; apply Z.ltb_ge; lia).
Qed.

Lemma run_loop_stopped fuel flag looks total calls :
  (0 < fuel)%nat -> 0 < total -> flag looks = false ->
  CountdownThread.run_loop fuel flag looks total calls = (calls, total, S looks).
Proof.
  intros Hf Ht Hk. destruct fuel; [lia|]. cbn.
  replace (0 <? total) with true by (symmetry; apply Z.ltb_lt; lia). now rewrite Hk.
Qed.

(** X20.  The thread of a countdown of [n >= 0] seconds.  Left alone, it
    calls [update_callback] exactly [n] times, with the texts of [n - 1]
    down to [0], then [finished_callback] once, and ends with
    [total_seconds = 0].  When it finds the flag cleared at its look number
    [j < n], and still cleared afterwards, it has made the first [j] calls
    only, never calls [finished_callback], and leaves [total_seconds = n - j].
    Either way [running] is [False] at the end, and the loop has ended within
    [n] turns. *)
Theorem countdown_thread_run (flag : nat -> bool) (self : CountdownThread.t) :
  let n := CountdownThread.total_seconds self in
  0 <= n ->
  ((forall k, (k <= Z.to_nat n)%nat -> flag k = true) ->
   CountdownThread.run flag self =
   (countdown_texts n (Z.to_nat n) ++ [CountdownThread.Finished],
    CountdownThread.mk 0 false)) /\
  (forall j, (j < Z.to_nat n)%nat -> (forall k, (k < j)%nat -> flag k = true) ->
   flag j = false -> flag (S j) = false ->
   CountdownThread.run flag self =
   (countdown_texts n j, CountdownThread.mk (n - Z.of_nat j) false)) /\
  (forall fuel, (Z.to_nat n <= fuel)%nat ->
   CountdownThread.run_with fuel flag self = CountdownThread.run flag self).
Proof.
  intros n Hn.
  assert (Hgen : forall fuel, (Z.to_nat n <= fuel)%nat ->
    (forall k, (k <= Z.to_nat n)%nat -> flag k = true) ->
    CountdownThread.run_with fuel flag self =
    (countdown_texts n (Z.to_nat n) ++ [CountdownThread.Finished],
     CountdownThread.mk 0 false)).
  { intros fuel Hf Hflag. unfold CountdownThread.run_with. fold n.
    rewrite (run_loop_ticks flag (Z.to_nat n)) by (try lia; intros k Hk; apply Hflag; lia).
    rewrite run_loop_done by lia. cbn [app Nat.add]. rewrite Hflag by lia.
    f_equal. f_equal. lia. }
  assert (Hstop : forall fuel j, (Z.to_nat n <= fuel)%nat -> (j < Z.to_nat n)%nat ->
    (forall k, (k < j)%nat -> flag k = true) -> flag j = false -> flag (S j) = false ->
    CountdownThread.run_with fuel flag self =
    (countdown_texts n j, CountdownThread.mk (n - Z.of_nat j) false)).
  { intros fuel j Hf Hj Hflag Hc Hc'. unfold CountdownThread.run_with. fold n.
    rewrite (run_loop_ticks flag j) by (try lia; intros k Hk; apply Hflag; lia).
    rewrite run_loop_stopped by (try lia; exact Hc). cbn [app Nat.add]. now rewrite Hc'. }
  split; [intros Hflag; apply Hgen; [lia|exact Hflag]|].
  split; [intros j Hj Hflag Hc Hc'; apply Hstop; [lia|assumption..]|].
  intros fuel Hf. unfold CountdownThread.run. fold n.
  (* the first look that finds the flag cleared, if any *)
  assert (Hcases : forall m, (m <= Z.to_nat n)%nat ->
            (forall k, (k < m)%nat -> flag k = true) \/
            exists j, (j < m)%nat /\ (forall k, (k < j)%nat -> flag k = true) /\ flag j = false).
  { induction m as [|m IH]; intros Hm; [left; intros k Hk; lia|].
    destruct (IH ltac:(lia)) as [Hall|(j & Hj & Hb & Hc)].
    - destruct (flag m) eqn:E.
      + left. intros k Hk. destruct (Nat.eq_dec k m) as [->|]; [exact E|apply Hall; lia].
      + right. exists m. split; [lia|]. split; assumption.
    - right. exists j. split; [lia|]. split; assumption. }
  unfold CountdownThread.run_with. fold n.
  destruct (Hcases (Z.to_nat n) (Nat.le_refl _)) as [Hall|(j & Hj & Hb & Hc)].
  - rewrite (run_loop_ticks flag (Z.to_nat n) fuel)
      by (try lia; intros k Hk; apply Hall; lia).
    rewrite (run_loop_ticks flag (Z.to_nat n) (Z.to_nat n))
      by (try lia; intros k Hk; apply Hall; lia).
    rewrite (run_loop_done (fuel - _)) by lia.
    rewrite (run_loop_done (Z.to_nat n - _)) by lia. reflexivity.
  - rewrite (run_loop_ticks flag j fuel) by (try lia; intros k Hk; apply Hb; lia).
    rewrite (run_loop_ticks flag j (Z.to_nat n)) by (try lia; intros k Hk; apply Hb; lia).
    rewrite (run_loop_stopped (fuel - _)) by (try lia; exact Hc).
    rewrite (run_loop_stopped (Z.to_nat n - _)) by (try lia; exact Hc). reflexivity.
Qed.

(** X20 on a countdown of three seconds, left alone and stopped at once. *)
Lemma countdown_thread_run_witness :
  0 <= 3 /\
  CountdownThread.run (fun _ => true) (CountdownThread.mk 3 true) =
    ([CountdownThread.Update "00:00:02"; CountdownThread.Update "00:00:01";
      CountdownThread.Update "00:00:00"; CountdownThread.Finished],
     CountdownThread.mk 0 false) /\
  CountdownThread.run (fun k => (k <? 1)%nat) (CountdownThread.mk 3 true) =
    ([CountdownThread.Update "00:00:02"], CountdownThread.mk 2 false).
Proof.
  assert (H : 0 <= 3) by lia.
  split; [exact H|]. split.
  - exact (proj1 (countdown_thread_run (fun _ => true) (CountdownThread.mk 3 true) H)
             (fun _ _ => eq_refl)).
  - apply (proj1 (proj2 (countdown_thread_run (fun k => (k <? 1)%nat)
                           (CountdownThread.mk 3 true) H)) 1%nat).
    + cbn. lia.
    + intros k Hk. apply Nat.ltb_lt. exact Hk.
    + reflexivity.
    + reflexivity.
Defined.

(* ===================================================================== *)
(** * From the totals to the progress text *)
(* ===================================================================== *)

Lemma py_int_nonneg x : (0 <= x)%Q -> py_int x = Qfloor x.
Proof. intros H. unfold py_int. apply Qle_bool_iff in H. now rewrite H. Qed.

Lemma calculate_progress_nonneg period total :
  (0 <= total)%Q -> (0 <= calculate_progress period total)%Q.
Proof.
  intros H. unfold calculate_progress. cbv zeta.
  destruct (default 0 (goals_hours !! period) * 3600 =? 0) eqn:E; [apply Qle_refl|].
  apply Z.eqb_neq in E.
  assert (Hg : 0 <= default 0 (goals_hours !! period)).
  { rewrite goals_hours_lookup. destruct (goal_hours_spec period) as [h|] eqn:Eh;
      cbn [default]; [|lia]. pose proof (goal_hours_positive _ _ Eh). unfold id. lia. }
  apply round64_nonneg. apply Qmult_le_0_compat; [|discriminate].
  apply round64_nonneg. apply Qle_shift_div_l.
  - change 0%Q with (inject_Z 0). rewrite <- Zlt_Qlt. lia.
  - lra.
Qed.

Lemma calculate_progress_mono period total total' :
  (total <= total')%Q ->
  (calculate_progress period total <= calculate_progress period total')%Q.
Proof.
  intros H. destruct (goal_hours_spec period) as [hours|] eqn:Hg.
  - pose proof (goal_hours_positive _ _ Hg) as Hh.
    rewrite !(calculate_progress_eq _ _ _ Hg).
    apply round64_mono. apply Qmult_le_compat_r; [|discriminate].
    apply round64_mono. apply Qmult_le_compat_r; [exact H|].
    apply Qlt_le_weak, Qinv_lt_0_compat.
    change 0%Q with (inject_Z 0). rewrite <- Zlt_Qlt. lia.
  - unfold calculate_progress. rewrite goals_hours_lookup, Hg. apply Qle_refl.
Qed.

Lemma calculate_progress_goal period hours :
  goal_hours_spec period = Some hours ->
  (calculate_progress period (inject_Z (hours * 3600)) == 100)%Q.
Proof.
  intros Hg. pose proof (goal_hours_positive _ _ Hg) as Hh.
  rewrite (calculate_progress_eq _ _ _ Hg).
  assert (E1 : (inject_Z (hours * 3600) / inject_Z (hours * 3600) == 1)%Q).
  { field. intros H. unfold Qeq in H. cbn in H. lia. }
  rewrite (round64_comp _ _ E1). reflexivity.
Qed.

Lemma goal_hours_least period hours : goal_hours_spec period = Some hours -> 5 <= hours.
Proof.
  unfold goal_hours_spec.
  repeat match goal with |- context [String.eqb ?a ?b] => destruct (String.eqb a b) end;
    intros [= <-]; lia.
Qed.

(** X21.  From the total of a period to its bar: each of the twenty cells
    stands for a twentieth of the goal, that is [hours * 180] seconds (a
    quarter of an hour for the daily goal of five hours).  The bar of a
    total that is not negative has [floor(percentage / 5)] filled cells,
    the percentage being the rounded one [calculate_progress] returns: that
    is as many cells as the total holds such parts, give or take one, for
    the rounding can carry the percentage across a multiple of five.  A
    total that meets the goal fills twenty cells at least, and one that does
    not exceed it fills twenty at most.  (Totals up to [2 ** 53]
    seconds.) *)
Theorem progress_bar_of_total (period : string) (hours : Z) (total : Q) :
  goal_hours_spec period = Some hours -> (0 <= total)%Q -> (total <= 2 ^ 53)%Q ->
  let parts := Qfloor (total / inject_Z (hours * 180)) in
  let filled := Qfloor (calculate_progress period total / 5) in
  bar_cells (generate_progress_bar (calculate_progress period total) 20) =
    repeat "#"%char (Z.to_nat filled) ++ repeat "."%char (Z.to_nat (20 - filled)) /\
  0 <= filled /\
  parts - 1 <= filled <= parts + 1 /\
  ((inject_Z (hours * 3600) <= total)%Q -> 20 <= filled) /\
  ((total <= inject_Z (hours * 3600))%Q -> filled <= 20).
Proof.
  intros Hg Ht Hmax parts filled.
  pose proof (goal_hours_least _ _ Hg) as Hh.
  pose proof (calculate_progress_nonneg period total Ht) as Hp0.
  set (p := calculate_progress period total) in *.
  assert (E5 : (p * inject_Z 20 / 100 == p / 5)%Q) by (change (inject_Z 20) with 20%Q; field).
  assert (Hp5 : (0 <= p / 5)%Q) by (apply Qle_shift_div_l; [reflexivity|lra]).
  assert (Ef : py_int (p * inject_Z 20 / 100) = filled).
  { rewrite py_int_nonneg by (rewrite E5; exact Hp5). subst filled.
    apply Qfloor_comp. exact E5. }
  split; [|split; [|split; [|split]]].
  - unfold bar_cells. rewrite generate_progress_bar_chars, Ef.
    cbn [drop_through]. change (Ascii.eqb "[" "[") with true. cbv iota.
    apply take_until_app. apply Forall_app. split; apply Forall_repeat_neq; reflexivity.
  - subst filled. change 0 with (Qfloor 0). now apply Qfloor_resp_le.
  - assert (Hc : (0 < inject_Z (hours * 180))%Q)
      by (change 0%Q with (inject_Z 0); rewrite <- Zlt_Qlt; lia).
    set (X := (total / inject_Z (hours * 180))%Q) in *.
    assert (HX0 : (0 <= X)%Q) by (apply Qle_shift_div_l; [exact Hc|lra]).
    assert (HXmax : (X <= inject_Z (2 ^ 53) / 900)%Q).
    { unfold X. apply Qle_shift_div_r; [exact Hc|].
      rewrite (pow2_Z 53) by lia.
      assert (H900 : (900 <= inject_Z (hours * 180))%Q)
        by (change 900%Q with (inject_Z 900); rewrite <- Zle_Qle; lia).
      assert (Hq : (0 <= 2 ^ 53 / 900)%Q) by (vm_compute; discriminate).
      assert ((2 ^ 53 / 900) * 900 <= 2 ^ 53 / 900 * inject_Z (hours * 180))%Q
        by (apply Qmult_le_nonneg_l; assumption).
      assert (E : (2 ^ 53 / 900 * 900 == 2 ^ 53)%Q) by (field).
      lra. }
    assert (EP : (100 * total / inject_Z (hours * 3600) == 5 * X)%Q).
    { unfold X. replace (hours * 3600) with (hours * 180 * 20) by lia.
      rewrite (inject_Z_mult (hours * 180) 20). change (inject_Z 20) with 20%Q.
      field. intros H. rewrite H in Hc. now apply Qlt_irrefl in Hc. }
    assert (Herr : (Qabs (p - 5 * X) <= Qabs (5 * X) * 2 ^ (-51) + 2 ^ (-1068))%Q).
    { rewrite <- EP. unfold p. rewrite (calculate_progress_eq _ _ _ Hg).
      apply percent_error. lia. }
    rewrite (Qabs_pos (5 * X)) in Herr by lra.
    assert (Hsmall : (5 * X * 2 ^ (-51) + 2 ^ (-1068) < 5)%Q).
    { assert (H1 : (5 * X * 2 ^ (-51) <= 5 * (inject_Z (2 ^ 53) / 900) * 2 ^ (-51))%Q).
      { apply Qmult_le_compat_r; [lra|]. apply Qlt_le_weak, pow2_pos. }
      assert (H2 : (5 * (inject_Z (2 ^ 53) / 900) * 2 ^ (-51) + 2 ^ (-1068) < 5)%Q)
        by (vm_compute; reflexivity).
      lra. }
    apply Qabs_Qle_condition in Herr as [Hlo Hhi].
    assert (H1 : (X - 1 < p / 5)%Q).
    { apply Qlt_shift_div_l; [reflexivity|]. lra. }
    assert (H2 : (p / 5 < X + 1)%Q).
    { apply Qlt_shift_div_r; [reflexivity|]. lra. }
    pose proof (Qfloor_le X) as F1. pose proof (Qlt_floor X) as F2.
    pose proof (Qfloor_le (p / 5)) as F3. pose proof (Qlt_floor (p / 5)) as F4.
    fold parts in F1, F2. fold filled in F3, F4.
    rewrite inject_Z_plus in F2, F4. change (inject_Z 1) with 1%Q in F2, F4.
    split.
    + assert (H : (inject_Z parts < inject_Z (filled + 2))%Q).
      { rewrite inject_Z_plus. change (inject_Z 2) with 2%Q. lra. }
      rewrite <- Zlt_Qlt in H. lia.
    + assert (H : (inject_Z filled < inject_Z (parts + 2))%Q).
      { rewrite inject_Z_plus. change (inject_Z 2) with 2%Q. lra. }
      rewrite <- Zlt_Qlt in H. lia.
  - intros Hge. pose proof (calculate_progress_mono period _ _ Hge) as Hm.
    rewrite (calculate_progress_goal _ _ Hg) in Hm. fold p in Hm.
    subst filled. change 20 with (Qfloor (inject_Z 20)). apply Qfloor_resp_le.
    apply Qle_shift_div_l; [reflexivity|]. change (inject_Z 20) with 20%Q. lra.
  - intros Hle. pose proof (calculate_progress_mono period _ _ Hle) as Hm.
    rewrite (calculate_progress_goal _ _ Hg) in Hm. fold p in Hm.
    subst filled. change 20 with (Qfloor (inject_Z 20)). apply Qfloor_resp_le.
    apply Qle_shift_div_r; [reflexivity|]. change (inject_Z 20) with 20%Q. lra.
Qed.

(** X21 at an hour and a half against the daily goal: six cells. *)
Lemma progress_bar_of_total_witness :
  goal_hours_spec "daily" = Some 5 /\ (0 <= 5400)%Q /\ (5400 <= 2 ^ 53)%Q /\
  bar_cells (generate_progress_bar (calculate_progress "daily" 5400) 20) =
    repeat "#"%char 6 ++ repeat "."%char 14.
Proof.
  assert (H1 : goal_hours_spec "daily" = Some 5) by reflexivity.
  assert (H2 : (0 <= 5400)%Q) by (unfold Qle; cbn; lia).
  assert (H3 : (5400 <= 2 ^ 53)%Q) by (vm_compute; discriminate).
  split; [exact H1|]. split; [exact H2|]. split; [exact H3|].
  exact (proj1 (progress_bar_of_total "daily" 5 5400 H1 H2 H3)).
Defined.

(** The cell lost to rounding: 20700 seconds are 23 twentieths of the daily
    goal, the percentage comes out just below 115, and the bar has 22
    cells. *)
Example progress_bar_daily_20700 :
  Qfloor (20700 / inject_Z (5 * 180)) = 23 /\
  bar_cells (generate_progress_bar (calculate_progress "daily" 20700) 20) =
    repeat "#"%char 22 ++ repeat "."%char 0.
Proof. split; vm_compute; reflexivity. Qed.

Lemma gross_duration_kept period now l :
  (gross_duration (kept_sessions period now l) <= gross_duration l)%Q.
Proof. apply gross_duration_filter. Qed.

Lemma length_kept period now l :
  Z.of_nat (length (kept_sessions period now l)) <= Z.of_nat (length l).
Proof. apply filter_length_Z. Qed.




(** Where the exact percentage would be printed otherwise: one session of
    27 seconds is 0.15 percent of the daily goal, the float below it prints
    as 0.1. *)
Example update_progress_27_seconds :
  EstadisticasTab.update_progress (fun _ => mkdate 2024 1 8)
    [timed_session "2024-01-08" 27] =
  Ok ("Progreso:" +:+ EstadisticasTab.LF +:+
      "Diario: [....................] 0.1%" +:+ EstadisticasTab.LF +:+
      "Semanal: [....................] 0.0%" +:+ EstadisticasTab.LF +:+
      "Mensual: [....................] 0.0%" +:+ EstadisticasTab.LF +:+
      "Anual: [....................] 0.0%" +:+ EstadisticasTab.LF).
Proof. vm_compute. reflexivity. Qed.

Lemma two_chars_length n : String.length (two_chars n) = 2%nat.
Proof. reflexivity. Qed.

Lemma format_time_small t :
  0 <= t < 360000 ->
  CountdownTimer.format_time t =
  two_chars (t / 3600) +:+ ":" +:+ two_chars (t mod 3600 / 60) +:+ ":" +:+ two_chars (t mod 60).
Proof.
  intros Ht. unfold CountdownTimer.format_time. cbv zeta.
  rewrite !format_zero_pad_2 by (Z.div_mod_to_equations; lia). reflexivity.
Qed.

(** X23.  [format_time] reads back what [set_time] was given: for minutes
    and seconds from 0 to 59 and hours that are not negative, the text of
    [set_time(hours, minutes, seconds)] is the three numbers, each on two
    digits at least, hours first.  Within the ranges of the three spin boxes
    of the timer tab (hours up to 24) the text of every second from the time
    set down to zero has exactly eight characters. *)
Theorem set_time_format_time_round_trip (hours minutes seconds : Z) :
  0 <= hours -> 0 <= minutes <= 59 -> 0 <= seconds <= 59 ->
  let total := CountdownTimer.set_time hours minutes seconds in
  total / 3600 = hours /\ total mod 3600 / 60 = minutes /\ total mod 60 = seconds /\
  CountdownTimer.format_time total =
    Dec.format_zero_pad 2 hours +:+ ":" +:+ two_chars minutes +:+ ":" +:+ two_chars seconds /\
  (hours <= 24 ->
   total <= 89999 /\
   forall t, 0 <= t <= total -> String.length (CountdownTimer.format_time t) = 8%nat).
Proof.
  intros Hh Hm Hs total. unfold CountdownTimer.set_time in total.
  assert (E1 : total / 3600 = hours) by (subst total; Z.div_mod_to_equations; lia).
  assert (E2 : total mod 3600 / 60 = minutes) by (subst total; Z.div_mod_to_equations; lia).
  assert (E3 : total mod 60 = seconds) by (subst total; Z.div_mod_to_equations; lia).
  repeat (split; [assumption|]). split.
  - unfold CountdownTimer.format_time. cbv zeta. rewrite E1, E2, E3.
    rewrite (format_zero_pad_2 minutes), (format_zero_pad_2 seconds) by lia. reflexivity.
  - intros H24. split; [subst total; lia|]. intros t Ht.
    rewrite format_time_small by (subst total; lia). reflexivity.
Qed.

(** X23 at one hour, one minute and one second. *)
Lemma set_time_format_time_round_trip_witness :
  0 <= 1 /\ 0 <= 1 <= 59 /\
  CountdownTimer.format_time (CountdownTimer.set_time 1 1 1) =
    Dec.format_zero_pad 2 1 +:+ ":" +:+ two_chars 1 +:+ ":" +:+ two_chars 1.
Proof.
  assert (H1 : 0 <= 1) by lia. assert (H2 : 0 <= 1 <= 59) by lia.
  split; [exact H1|]. split; [exact H2|].
  exact (proj1 (proj2 (proj2 (proj2 (set_time_format_time_round_trip 1 1 1 H1 H2 H2))))).
Defined.

(* ===================================================================== *)
(** * The stopwatch button *)
(* ===================================================================== *)

Lemma new_session_date st et dur date f :
  session_date (CronometroTab.new_session st et dur date f) = strptime_ymd date.
Proof.
  unfold session_date, dict_item, CronometroTab.new_session.
  do 4 (rewrite lookup_insert_ne by discriminate). rewrite lookup_insert_eq. reflexivity.
Qed.

Lemma new_loc_fresh w : objs w !! CronometroTab.new_loc w = None.
Proof. apply not_elem_of_dom. unfold CronometroTab.new_loc. apply is_fresh. Qed.

Lemma new_loc_not_in_list w :
  normalised w -> ~ In (CronometroTab.new_loc w) (sessions w).
Proof.
  intros Hn Hin. unfold normalised in Hn. rewrite List.Forall_forall in Hn.
  destruct (Hn _ Hin) as (d & Hd & _). rewrite new_loc_fresh in Hd. discriminate.
Qed.

Lemma toggle_timer_start refresh_data c f io self w :
  PracticeTimer.start_time (CronometroTab.timer self) = None ->
  CronometroTab.toggle_timer refresh_data c f io self w =
  (Ok CronometroTab.Started,
   CronometroTab.mk (PracticeTimer.start (CronometroTab.time c) (CronometroTab.timer self))
                    (VStr (CronometroTab.now_text c)), w).
Proof. intros H. unfold CronometroTab.toggle_timer. now rewrite H. Qed.

(** X24.  One cycle of the stopwatch button, from a tab whose timer is
    reset.  The first press starts the timer and touches neither the list nor
    the file.  The second press, [d] seconds later by the clock: when
    [d < 1] (a clock set back included) nothing is saved, the list and the
    file are what they were and [refresh_data] is not called; when [d >= 1]
    a new dict is created, [save_session] accepts it (its date is today's
    date in ISO form, which always parses), so that the list has grown by
    that dict, which carries the duration [d], the two clock texts, the
    fields as normalised by [save_session] and the week, month and year of
    today; the file holds the list when the write succeeds; then
    [refresh_data] runs on that store.  Either way the timer is reset. *)
Theorem stopwatch_cycle (refresh_data : M unit) (c1 c2 : CronometroTab.clock)
    (f1 f : CronometroTab.fields) (io : write_outcome) (self : CronometroTab.t)
    (w : world) :
  CronometroTab.timer self = PracticeTimer.init ->
  valid_date (CronometroTab.today c2) = true ->
  let self1 := started_tab (CronometroTab.time c1) (CronometroTab.now_text c1) in
  let d := (CronometroTab.time c2 - CronometroTab.time c1)%Q in
  CronometroTab.toggle_timer refresh_data c1 f1 io self w
    = (Ok CronometroTab.Started, self1, w) /\
  ((d < 1)%Q ->
   CronometroTab.toggle_timer refresh_data c2 f io self1 w
     = (Ok CronometroTab.TooShort, CronometroTab.init, w)) /\
  ((1 <= d)%Q ->
   exists (duration : Q) (w2 : world),
     let l := CronometroTab.new_loc w in
     let record :=
       saved_record
         (CronometroTab.new_session (VStr (CronometroTab.now_text c1))
            (CronometroTab.now_text c2) duration
            (isoformat (CronometroTab.today c2)) f)
         (CronometroTab.today c2) in
     CronometroTab.toggle_timer refresh_data c2 f io self1 w
       = (match fst (refresh_data w2) with
          | Ok _ => Ok CronometroTab.Saved
          | Raise e => Raise e
          end, CronometroTab.init, snd (refresh_data w2)) /\
     (duration == d)%Q /\
     objs w !! l = None /\
     objs w2 = <[l := record]> (objs w) /\
     sessions w2 = sessions w ++ [l] /\
     (io = WriteOk -> file w2 = FileText (Some (dump w2))) /\
     (io = OpenFails -> file w2 = file w) /\
     record !! "date" = Some (VStr (isoformat (CronometroTab.today c2))) /\
     record !! "duration" = Some (VFloat duration) /\
     record !! "start_time" = Some (VStr (CronometroTab.now_text c1)) /\
     record !! "end_time" = Some (VStr (CronometroTab.now_text c2)) /\
     record !! "year" = Some (VInt (year (CronometroTab.today c2)))).
Proof.
  intros Ht Hv self1 d.
  split.
  { rewrite toggle_timer_start by (rewrite Ht; reflexivity). rewrite Ht. reflexivity. }
  set (dq := (0 + (CronometroTab.time c2 - CronometroTab.time c1))%Q).
  assert (Edq : (dq == d)%Q) by (subst dq d; ring).
  assert (Estep : forall b,
    Qle_bool 1 dq = b ->
    CronometroTab.toggle_timer refresh_data c2 f io self1 w =
    if negb b then (Ok CronometroTab.TooShort, CronometroTab.init, w)
    else
      let session := CronometroTab.new_loc w in
      let w1 := mkworld (<[session := CronometroTab.new_session
                              (VStr (CronometroTab.now_text c1)) (CronometroTab.now_text c2)
                              dq (isoformat (CronometroTab.today c2)) f]> (objs w))
                        (sessions w) (file w) (out w) in
      match save_session io session w1 with
      | (Raise e, w2) =>
          (Raise e, CronometroTab.mk (PracticeTimer.mk None dq false)
                      (VStr (CronometroTab.now_text c1)), w2)
      | (Ok _, w2) =>
          match refresh_data w2 with
          | (Ok _, w3) => (Ok CronometroTab.Saved, CronometroTab.init, w3)
          | (Raise e, w3) => (Raise e, CronometroTab.init, w3)
          end
      end).
  { intros b Hb. unfold CronometroTab.toggle_timer, self1, started_tab.
    cbn [CronometroTab.timer CronometroTab.start_time PracticeTimer.start
         PracticeTimer.init PracticeTimer.running PracticeTimer.start_time
         PracticeTimer.total_time PracticeTimer.stop PracticeTimer.get_total_time
         PracticeTimer.reset negb fst default]. unfold id. fold dq. rewrite Hb.
    reflexivity. }
  split.
  - intros Hd.
    assert (E : Qle_bool 1 dq = false).
    { destruct (Qle_bool 1 dq) eqn:E; [|reflexivity].
      apply Qle_bool_iff in E. rewrite Edq in E. lra. }
    rewrite (Estep false E). reflexivity.
  - intros Hd.
    assert (E : Qle_bool 1 dq = true) by (apply Qle_bool_iff; rewrite Edq; exact Hd).
    rewrite (Estep true E). cbn [negb]. cbv zeta.
    set (l := CronometroTab.new_loc w).
    set (ns := CronometroTab.new_session _ _ dq _ f).
    set (w1 := mkworld (<[l := ns]> (objs w)) (sessions w) (file w) (out w)).
    assert (H1 : objs w1 !! l = Some ns) by apply lookup_insert_eq.
    assert (H2 : session_date ns = Ok (CronometroTab.today c2)).
    { subst ns. rewrite new_session_date. apply strptime_isoformat, Hv. }
    rewrite (save_session_parsed io l w1 ns _ H1 H2). cbv beta iota zeta.
    set (rec := saved_record ns (CronometroTab.today c2)).
    match goal with
    | |- context [refresh_data ?x] => set (w2 := x)
    end.
    exists dq, w2. cbv zeta.
    split; [destruct (refresh_data w2) as [[u|e] w3]; reflexivity|].
    split; [exact Edq|]. split; [apply new_loc_fresh|].
    assert (Hobjs : objs w2 = <[l := rec]> (objs w)).
    { subst w2. destruct io; cbn [objs w1]; apply insert_insert_eq. }
    split; [exact Hobjs|].
    split; [subst w2; destruct io; reflexivity|].
    split; [intros ->; subst w2; reflexivity|].
    split; [intros ->; subst w2; reflexivity|].
    subst rec ns. rewrite !saved_record_lookup, !with_defaults_lookup.
    unfold CronometroTab.new_session. cbn [String.eqb Ascii.eqb Bool.eqb].
    repeat split;
      repeat first [ rewrite lookup_insert_eq; reflexivity
                   | rewrite lookup_insert_ne by discriminate ].
Qed.

(** X24 on a press at ten o'clock and a press ten minutes later, with a
    [refresh_data] that does nothing. *)
Lemma stopwatch_cycle_witness :
  CronometroTab.timer CronometroTab.init = PracticeTimer.init /\
  valid_date (CronometroTab.today release_example) = true /\
  CronometroTab.toggle_timer (ret tt) press_example fields_example WriteOk
    CronometroTab.init empty_store
    = (Ok CronometroTab.Started, started_tab 36000 "2024-01-08T10:00:00", empty_store) /\
  exists w2,
    CronometroTab.toggle_timer (ret tt) release_example fields_example WriteOk
      (started_tab 36000 "2024-01-08T10:00:00") empty_store
      = (Ok CronometroTab.Saved, CronometroTab.init, w2) /\
    sessions w2 = [CronometroTab.new_loc empty_store].
Proof.
  assert (H1 : CronometroTab.timer CronometroTab.init = PracticeTimer.init) by reflexivity.
  assert (H2 : valid_date (CronometroTab.today release_example) = true) by reflexivity.
  split; [exact H1|]. split; [exact H2|].
  destruct (stopwatch_cycle (ret tt) press_example release_example fields_example
              fields_example WriteOk CronometroTab.init empty_store H1 H2)
    as (Hs & _ & Hsave).
  split; [exact Hs|].
  destruct Hsave as (duration & w2 & E & _ & _ & _ & Hl & _).
  { unfold Qle; cbn; lia. }
  exists w2. split; [exact E|exact Hl].
Defined.

(* ===================================================================== *)
(** * load_logs: the sort and the groups *)
(* ===================================================================== *)

Lemma string_ltb_lt a b : String.ltb a b = true <-> OrderedTypeEx.String_as_OT.lt a b.
Proof.
  unfold String.ltb. rewrite <- OrderedTypeEx.String_as_OT.cmp_lt.
  unfold OrderedTypeEx.String_as_OT.cmp. destruct (String.compare a b); split; congruence.
Qed.

Lemma string_ltb_trans a b c :
  String.ltb a b = true -> String.ltb b c = true -> String.ltb a c = true.
Proof.
  rewrite !string_ltb_lt. apply OrderedTypeEx.String_as_OT.lt_trans.
Qed.

Lemma string_ltb_total a b : String.ltb a b = false -> String.ltb b a = false -> a = b.
Proof.
  unfold String.ltb. rewrite (String.compare_antisym b a).
  destruct (String.compare a b) eqn:E; cbn; try discriminate.
  intros _ _. now apply String.compare_eq_iff.
Qed.

(** On tuples of one length the order is total: [a >= b >= c] gives
    [a >= c]. *)
Lemma tuple_ge_trans a : forall b c,
  length a = length b -> length b = length c ->
  LogsTab.tuple_ltb a b = false -> LogsTab.tuple_ltb b c = false ->
  LogsTab.tuple_ltb a c = false.
Proof.
  induction a as [|x a IH]; intros [|y b] [|z c]; cbn; try discriminate; auto.
  intros [= Hab] [= Hbc].
  destruct (String.eqb x y) eqn:Exy.
  - apply String.eqb_eq in Exy. subst y.
    destruct (String.eqb x z) eqn:Exz; [apply IH; assumption|auto].
  - destruct (String.eqb y z) eqn:Eyz.
    + apply String.eqb_eq in Eyz. subst z. rewrite Exy. auto.
    + intros H1 H2. destruct (String.eqb x z) eqn:Exz.
      * apply String.eqb_eq in Exz. subst z.
        apply String.eqb_neq in Exy. destruct Exy. now apply string_ltb_total.
      * destruct (String.ltb x z) eqn:L; [|reflexivity].
        destruct (String.ltb z y) eqn:L2.
        -- now rewrite (string_ltb_trans _ _ _ L L2) in H1.
        -- apply String.eqb_neq in Eyz. destruct Eyz. now apply string_ltb_total.
Qed.

Lemma log_insert_desc_perm x l : Permutation (LogsTab.insert_desc x l) (x :: l).
Proof.
  induction l as [|y l IH]; cbn; [reflexivity|].
  destruct (LogsTab.tuple_ltb (fst x) (fst y)); [|reflexivity].
  rewrite IH. apply perm_swap.
Qed.

Lemma log_sort_desc_perm l : Permutation (LogsTab.sort_desc l) l.
Proof.
  induction l as [|x l IH]; cbn; [reflexivity|].
  rewrite log_insert_desc_perm. now constructor.
Qed.

Lemma log_insert_desc_sorted n x l :
  length (fst x) = n -> Forall (fun p : list string * session => length (fst p) = n) l ->
  StronglySorted (fun p q => LogsTab.tuple_ltb (fst p) (fst q) = false) l ->
  StronglySorted (fun p q => LogsTab.tuple_ltb (fst p) (fst q) = false)
                 (LogsTab.insert_desc x l).
Proof.
  intros Hx Hl Hs. induction Hs as [|y l Hs IH Hy]; cbn.
  - repeat constructor.
  - apply List.Forall_cons_iff in Hl as [Hyn Hl].
    destruct (LogsTab.tuple_ltb (fst x) (fst y)) eqn:E.
    + constructor; [apply IH, Hl|].
      apply List.Forall_forall. intros z Hz.
      apply (Permutation_in _ (log_insert_desc_perm x l)) in Hz. destruct Hz as [<-|Hz].
      * (* y >= x since x < y *)
        destruct (LogsTab.tuple_ltb (fst y) (fst x)) eqn:E2; [|reflexivity].
        exfalso. clear -E E2 Hx Hyn.
        assert (H : forall a b, length a = length b -> LogsTab.tuple_ltb a b = true ->
                                LogsTab.tuple_ltb b a = true -> False).
        { clear. induction a as [|u a IH]; intros [|v b]; cbn; try discriminate.
          intros [= Hl]. rewrite (String.eqb_sym v u).
          destruct (String.eqb u v); [apply IH, Hl|].
          intros H1 H2. now rewrite (ltb_asym _ _ H1) in H2. }
        apply (H _ _ (eq_trans Hx (eq_sym Hyn)) E E2).
      * rewrite List.Forall_forall in Hy. auto.
    + constructor; [constructor; assumption|].
      constructor; [exact E|].
      apply List.Forall_forall. intros z Hz. rewrite List.Forall_forall in Hy, Hl.
      apply (tuple_ge_trans _ (fst y)); auto; rewrite ?Hx, ?Hyn; symmetry; auto.
Qed.

Lemma log_sort_desc_sorted n l :
  Forall (fun p : list string * session => length (fst p) = n) l ->
  StronglySorted (fun p q => LogsTab.tuple_ltb (fst p) (fst q) = false)
                 (LogsTab.sort_desc l).
Proof.
  induction 1 as [|x l Hx Hl IH]; cbn; [constructor|].
  apply (log_insert_desc_sorted n); [exact Hx| |exact IH].
  apply List.Forall_forall. intros z Hz.
  apply (Permutation_in _ (log_sort_desc_perm l)) in Hz.
  rewrite List.Forall_forall in Hl. auto.
Qed.

Lemma all_str_length vs ks : all_str vs = Some ks -> length ks = length vs.
Proof.
  revert ks. induction vs as [|v vs IH]; cbn; intros ks.
  - intros [= <-]. reflexivity.
  - destruct v; try discriminate. destruct (all_str vs) as [ks'|]; cbn; [|discriminate].
    intros [= <-]. cbn. now rewrite (IH ks').
Qed.

Lemma text_keys_Some l keys :
  LogsTab.text_keys l = Some keys ->
  keys = map log_key l /\ Forall (fun s => length (log_key s) = 5%nat) l.
Proof.
  revert keys. induction l as [|s l IH]; cbn [LogsTab.text_keys map]; intros keys.
  - intros [= <-]. split; [reflexivity|constructor].
  - destruct (all_str (LogsTab.sort_key s)) as [k|] eqn:Ek; [|discriminate].
    destruct (LogsTab.text_keys l) as [ks|]; [|discriminate].
    intros [= <-]. destruct (IH ks eq_refl) as [-> Hl].
    assert (Hk : log_key s = k) by (unfold log_key; now rewrite Ek).
    split; [now rewrite Hk|]. constructor; [|exact Hl].
    rewrite Hk. apply (all_str_length _ _ Ek).
Qed.

(** The list after the sort of [load_logs]: the same sessions, in descending
    order of keys. *)
Lemma load_logs_sorted l keys :
  LogsTab.text_keys l = Some keys ->
  let sorted := map snd (LogsTab.sort_desc (combine keys l)) in
  Permutation sorted l /\ StronglySorted log_desc sorted.
Proof.
  intros Hk sorted. destruct (text_keys_Some _ _ Hk) as [-> Hlen].
  subst sorted. rewrite combine_map_self.
  set (kl := map (fun s => (log_key s, s)) l).
  assert (Hsnd : map snd kl = l).
  { subst kl. rewrite map_map. cbn. apply map_id. }
  split.
  - rewrite (Permutation_map snd (log_sort_desc_perm kl)). now rewrite Hsnd.
  - assert (Hfst : Forall (fun p : list string * session => fst p = log_key (snd p))
                          (LogsTab.sort_desc kl)).
    { apply List.Forall_forall. intros p Hp.
      apply (Permutation_in _ (log_sort_desc_perm kl)) in Hp.
      subst kl. apply in_map_iff in Hp as (s & <- & _). reflexivity. }
    assert (Hs : StronglySorted (fun p q => LogsTab.tuple_ltb (fst p) (fst q) = false)
                                (LogsTab.sort_desc kl)).
    { apply (log_sort_desc_sorted 5). subst kl. apply List.Forall_forall.
      intros p Hp. apply in_map_iff in Hp as (s & <- & Hs). cbn [fst].
      rewrite List.Forall_forall in Hlen. auto. }
    clear -Hfst Hs. induction Hs as [|p L Hs IH Hp]; cbn; [constructor|].
    apply List.Forall_cons_iff in Hfst as [Hpk Hfst].
    constructor; [apply IH, Hfst|].
    apply List.Forall_forall. intros s Hs'. apply in_map_iff in Hs' as (q & <- & Hq).
    rewrite List.Forall_forall in Hp, Hfst. unfold log_desc.
    rewrite <- Hpk, <- (Hfst q Hq). auto.
Qed.

Lemma assoc_upsert {V} k' k (e : V) f d :
  assoc k' (LogsTab.upsert k e f d) =
  if String.eqb k' k then Some (f (default e (assoc k d))) else assoc k' d.
Proof.
  induction d as [|[k0 v0] d IH]; cbn.
  - now destruct (String.eqb k' k).
  - destruct (String.eqb k k0) eqn:E0; cbn.
    + apply String.eqb_eq in E0. subst k0. now destruct (String.eqb k' k).
    + rewrite IH. destruct (String.eqb k' k0) eqn:E1; [|reflexivity].
      apply String.eqb_eq in E1. subst k0.
      now rewrite String.eqb_sym, E0.
Qed.

Lemma assoc_None {V} k (d : list (string * V)) : assoc k d = None <-> ~ In k (map fst d).
Proof.
  induction d as [|[k0 v0] d IH]; cbn; [tauto|].
  destruct (String.eqb k k0) eqn:E.
  - apply String.eqb_eq in E. subst. split; [discriminate|]. intros H. exfalso. auto.
  - apply String.eqb_neq in E. rewrite IH. split; [intros H [H1|H1]; [congruence|auto]|tauto].
Qed.

Lemma assoc_In {V} k (v : V) d : NoDup (map fst d) -> In (k, v) d -> assoc k d = Some v.
Proof.
  induction d as [|[k0 v0] d IH]; cbn; [tauto|].
  intros Hnd [H|H].
  - injection H as -> ->. now rewrite String.eqb_refl.
  - apply NoDup_cons in Hnd as [Hni Hnd].
    destruct (String.eqb k k0) eqn:E.
    + apply String.eqb_eq in E. subst. exfalso. apply Hni.
      apply list_elem_of_In. apply (in_map fst) in H. exact H.
    + apply IH; assumption.
Qed.

Lemma upsert_keys {V} k (e : V) f d :
  map fst (LogsTab.upsert k e f d) =
  match assoc k d with
  | Some _ => map fst d
  | None => map fst d ++ [k]
  end.
Proof.
  induction d as [|[k0 v0] d IH]; cbn; [reflexivity|].
  destruct (String.eqb k k0) eqn:E; cbn; [reflexivity|].
  rewrite IH. now destruct (assoc k d).
Qed.

Lemma upsert_NoDup {V} k (e : V) f d :
  NoDup (map fst d) -> NoDup (map fst (LogsTab.upsert k e f d)).
Proof.
  intros H. rewrite upsert_keys. destruct (assoc k d) eqn:E; [exact H|].
  apply NoDup_app. split; [exact H|]. split; [|apply NoDup_singleton].
  intros x Hx Hx'. apply list_elem_of_In in Hx, Hx'. destruct Hx' as [<-|[]].
  now apply assoc_None in E.
Qed.

Lemma add_session_ok g s : groups_ok g -> groups_ok (LogsTab.add_session g s).
Proof.
  intros (H1 & H2). unfold LogsTab.add_session. split; [now apply upsert_NoDup|].
  intros c works. rewrite assoc_upsert.
  destruct (String.eqb c (LogsTab.group_label s "composer")) eqn:Ec; [|apply H2].
  apply String.eqb_eq in Ec. subst c. intros [= <-].
  assert (Hw : NoDup (map fst (default [] (assoc (LogsTab.group_label s "composer") g))) /\
               forall w movements,
                 assoc w (default [] (assoc (LogsTab.group_label s "composer") g)) = Some movements ->
                 NoDup (map fst movements) /\
                 forall m session_list, assoc m movements = Some session_list ->
                                        session_list <> []).
  { destruct (assoc (LogsTab.group_label s "composer") g) as [ws|] eqn:E; cbn [default].
    - apply (H2 _ _ E).
    - split; [constructor|]. intros w ms. discriminate. }
  destruct Hw as [Hw1 Hw2]. split; [now apply upsert_NoDup|].
  intros w movements. rewrite assoc_upsert.
  destruct (String.eqb w (LogsTab.group_label s "work")) eqn:Ew; [|apply Hw2].
  apply String.eqb_eq in Ew. subst w. intros [= <-].
  set (works0 := default [] (assoc (LogsTab.group_label s "composer") g)) in *.
  assert (Hm : NoDup (map fst (default [] (assoc (LogsTab.group_label s "work") works0))) /\
               forall m session_list,
                 assoc m (default [] (assoc (LogsTab.group_label s "work") works0))
                 = Some session_list -> session_list <> []).
  { destruct (assoc (LogsTab.group_label s "work") works0) as [ms|] eqn:E; cbn [default].
    - apply (Hw2 _ _ E).
    - split; [constructor|]. intros m sl. discriminate. }
  destruct Hm as [Hm1 Hm2]. split; [now apply upsert_NoDup|].
  intros m session_list. rewrite assoc_upsert.
  destruct (String.eqb m (LogsTab.group_label s "movement")) eqn:Em; [|apply Hm2].
  intros [= <-] H. apply app_eq_nil in H as [_ H]. discriminate.
Qed.

Lemma leaf_add_session g s c w m :
  leaf (LogsTab.add_session g s) c w m =
  leaf g c w m ++ (if has_labels c w m s then [s] else []).
Proof.
  unfold leaf, LogsTab.add_session, has_labels.
  rewrite assoc_upsert, (String.eqb_sym (LogsTab.group_label s "composer") c).
  destruct (String.eqb c (LogsTab.group_label s "composer")) eqn:Ec; cbn [andb].
  2: { destruct (assoc c g) as [ws|]; [destruct (assoc w ws) as [ms|]|];
       now rewrite app_nil_r. }
  apply String.eqb_eq in Ec. subst c.
  rewrite assoc_upsert, (String.eqb_sym (LogsTab.group_label s "work") w).
  destruct (String.eqb w (LogsTab.group_label s "work")) eqn:Ew; cbn [andb].
  2: { destruct (assoc (LogsTab.group_label s "composer") g) as [ws|]; cbn [default assoc]; unfold id;
       [destruct (assoc w ws) as [ms|]|]; now rewrite app_nil_r. }
  apply String.eqb_eq in Ew. subst w.
  rewrite assoc_upsert, (String.eqb_sym (LogsTab.group_label s "movement") m).
  destruct (String.eqb m (LogsTab.group_label s "movement")) eqn:Em; cbn [default]; unfold id.
  - apply String.eqb_eq in Em. subst m.
    destruct (assoc (LogsTab.group_label s "composer") g) as [ws|]; cbn [default assoc]; unfold id;
      [destruct (assoc (LogsTab.group_label s "work") ws) as [ms|]; cbn [default assoc]; unfold id|];
      reflexivity.
  - destruct (assoc (LogsTab.group_label s "composer") g) as [ws|]; cbn [default assoc]; unfold id;
      [destruct (assoc (LogsTab.group_label s "work") ws) as [ms|]; cbn [default assoc]; unfold id|];
      now rewrite app_nil_r.
Qed.

Lemma grouping_loop l : forall g done,
  groups_ok g -> (forall c w m, leaf g c w m = List.filter (has_labels c w m) done) ->
  groups_ok (fold_left LogsTab.add_session l g) /\
  forall c w m, leaf (fold_left LogsTab.add_session l g) c w m =
                List.filter (has_labels c w m) (done ++ l).
Proof.
  induction l as [|s l IH]; intros g done Hg Hl; cbn [fold_left].
  - rewrite app_nil_r. auto.
  - replace (done ++ s :: l) with ((done ++ [s]) ++ l) by now rewrite <- app_assoc.
    apply IH; [now apply add_session_ok|].
    intros c w m. rewrite leaf_add_session, Hl, List.filter_app. cbn [List.filter].
    reflexivity.
Qed.

Lemma groups_ok_distinct g : groups_ok g -> distinct_keys g.
Proof.
  intros (H1 & H2). split; [exact H1|].
  intros c works Hc. destruct (H2 _ _ (assoc_In _ _ _ H1 Hc)) as [H3 H4].
  split; [exact H3|]. intros w movements Hw.
  exact (proj1 (H4 _ _ (assoc_In _ _ _ H3 Hw))).
Qed.

(** What [load_logs] returns: the sorted list and the groups read off it. *)
Lemma load_logs_inv (sessions l' : list session) (grouped : LogsTab.composers) :
  LogsTab.load_logs sessions = Some (grouped, l') ->
  Permutation l' sessions /\ StronglySorted log_desc l' /\ groups_ok grouped /\
  Forall (fun s => length (log_key s) = 5%nat) sessions /\
  forall c w m, leaf grouped c w m = List.filter (has_labels c w m) l'.
Proof.
  unfold LogsTab.load_logs. destruct (LogsTab.text_keys sessions) as [keys|] eqn:Hk;
    [|discriminate].
  cbv zeta. intros [= <- <-].
  destruct (load_logs_sorted _ _ Hk) as [Hp Hs].
  set (sorted := map snd (LogsTab.sort_desc (combine keys sessions))) in *.
  destruct (grouping_loop sorted [] []) as [Hg Hl].
  { split; [constructor|]. intros c works. discriminate. }
  { reflexivity. }
  cbn [app] in Hl.
  split; [exact Hp|]. split; [exact Hs|]. split; [exact Hg|].
  split; [exact (proj2 (text_keys_Some _ _ Hk))|exact Hl].
Qed.

(** X25.  [LogsTab.load_logs] on sessions whose sort keys are text.  The
    list it sorts in place holds the same sessions afterwards, in descending
    order of (composer, work, movement, date, start time).  In the grouping
    it builds, no composer occurs twice, no work twice under a composer, no
    movement twice under a work; the sessions listed under a composer, a work
    and a movement are exactly the sessions of the collection that carry
    these three names (["Unknown"] standing for a missing or empty one), each
    as often as it is in the collection and in the order of the sorted list;
    and no entry is empty. *)
Theorem load_logs_groups (sessions l' : list session) (grouped : LogsTab.composers) :
  LogsTab.load_logs sessions = Some (grouped, l') ->
  Permutation l' sessions /\
  StronglySorted log_desc l' /\
  distinct_keys grouped /\
  (forall c w m, leaf grouped c w m = List.filter (has_labels c w m) l') /\
  (forall c works w movements m session_list,
     In (c, works) grouped -> In (w, movements) works -> In (m, session_list) movements ->
     session_list <> [] /\ session_list = leaf grouped c w m).
Proof.
  intros Hload. destruct (load_logs_inv _ _ _ Hload) as (Hp & Hs & Hg & _ & Hl).
  split; [exact Hp|]. split; [exact Hs|]. split; [now apply groups_ok_distinct|].
  split; [exact Hl|].
  intros c works w movements m session_list Hc Hw Hm.
  destruct Hg as (H1 & H2).
  pose proof (assoc_In _ _ _ H1 Hc) as Ec. destruct (H2 _ _ Ec) as [H3 H4].
  pose proof (assoc_In _ _ _ H3 Hw) as Ew. destruct (H4 _ _ Ew) as [H5 H6].
  pose proof (assoc_In _ _ _ H5 Hm) as Em.
  split; [exact (H6 _ _ Em)|]. unfold leaf. now rewrite Ec, Ew, Em.
Qed.

(** X25 on two sessions of one composer and one of another. *)
Lemma load_logs_groups_witness :
  LogsTab.load_logs [bach_7; chopin_8; bach_8]
  = Some ([("Chopin", [("Unknown", [("Unknown", [chopin_8])])]);
           ("Bach", [("Unknown", [("Unknown", [bach_8; bach_7])])])],
          [chopin_8; bach_8; bach_7]) /\
  Permutation [chopin_8; bach_8; bach_7] [bach_7; chopin_8; bach_8].
Proof.
  assert (H : LogsTab.load_logs [bach_7; chopin_8; bach_8]
  = Some ([("Chopin", [("Unknown", [("Unknown", [chopin_8])])]);
           ("Bach", [("Unknown", [("Unknown", [bach_8; bach_7])])])],
          [chopin_8; bach_8; bach_7])) by reflexivity.
  split; [exact H|]. exact (proj1 (load_logs_groups _ _ _ H)).
Defined.

Lemma StronglySorted_filter_list {A} (R : A -> A -> Prop) (P : A -> bool) l :
  StronglySorted R l -> StronglySorted R (List.filter P l).
Proof.
  induction 1 as [|x l Hs IH Hx]; cbn; [constructor|].
  destruct (P x); [|exact IH]. constructor; [exact IH|].
  apply List.Forall_forall. intros y Hy. apply filter_In in Hy as [Hy _].
  rewrite List.Forall_forall in Hx. auto.
Qed.

Lemma StronglySorted_impl_In {A} (R R' : A -> A -> Prop) l :
  (forall a b, In a l -> In b l -> R a b -> R' a b) ->
  StronglySorted R l -> StronglySorted R' l.
Proof.
  intros H Hs. induction Hs as [|x l Hs IH Hx]; [constructor|].
  constructor.
  - apply IH. intros a b Ha Hb. apply H; now right.
  - apply List.Forall_forall. intros y Hy. rewrite List.Forall_forall in Hx.
    apply H; [now left|now right|auto].
Qed.

Lemma named_key s :
  named s = true -> length (log_key s) = 5%nat ->
  log_key s = LogsTab.group_label s "composer" :: LogsTab.group_label s "work" ::
              LogsTab.group_label s "movement" :: recency s.
Proof.
  unfold named, recency, log_key, LogsTab.sort_key, LogsTab.group_label, dict_get, py_or.
  generalize (default (VStr "1970-01-01") (s !! "date")) as D.
  generalize (default (VStr EmptyString) (s !! "start_time")) as ST.
  intros ST D.
  destruct (s !! "composer") as [[| | | |c| |]|]; try discriminate.
  destruct (s !! "work") as [[| | | |w| |]|]; try discriminate.
  destruct (s !! "movement") as [[| | | |m| |]|]; try discriminate.
  rewrite !andb_true_iff, !negb_true_iff. intros [[Hc Hw] Hm].
  cbn [default]. unfold id. cbn [truthy]. rewrite Hc, Hw, Hm. cbn [negb].
  destruct D, ST; cbn; intros; try discriminate; reflexivity.
Qed.

Lemma tuple_ltb_common a b c x y :
  LogsTab.tuple_ltb (a :: b :: c :: x) (a :: b :: c :: y) = LogsTab.tuple_ltb x y.
Proof. cbn. now rewrite !String.eqb_refl. Qed.

(** X26.  When every session has a composer, a work and a movement that are
    text and not empty (as [save_session] leaves them), the sessions listed
    under a composer, a work and a movement come most recent first: in
    descending order of date and, on one date, of start time. *)
Theorem load_logs_recent_first (sessions l' : list session) (grouped : LogsTab.composers) :
  LogsTab.load_logs sessions = Some (grouped, l') ->
  forallb named sessions = true ->
  forall c w m, StronglySorted recent_first (leaf grouped c w m).
Proof.
  intros Hload Hnamed c w m.
  destruct (load_logs_inv _ _ _ Hload) as (Hp & Hs & _ & Hlen & Hl).
  rewrite Hl.
  apply (StronglySorted_impl_In log_desc).
  - intros a b Ha Hb. apply filter_In in Ha as [Ha La], Hb as [Hb Lb].
    apply (Permutation_in _ Hp) in Ha, Hb.
    rewrite forallb_forall in Hnamed. rewrite List.Forall_forall in Hlen.
    unfold log_desc, recent_first.
    rewrite (named_key a (Hnamed _ Ha) (Hlen _ Ha)), (named_key b (Hnamed _ Hb) (Hlen _ Hb)).
    unfold has_labels in La, Lb. rewrite !andb_true_iff, !String.eqb_eq in La, Lb.
    destruct La as [[-> ->] ->], Lb as [[-> ->] ->].
    now rewrite tuple_ltb_common.
  - apply StronglySorted_filter_list, Hs.
Qed.

(** X26 on two sessions of one movement. *)
Lemma load_logs_recent_first_witness :
  LogsTab.load_logs [gigue_7; gigue_8]
  = Some ([("Bach", [("Suite", [("Gigue", [gigue_8; gigue_7])])])], [gigue_8; gigue_7]) /\
  forallb named [gigue_7; gigue_8] = true /\
  StronglySorted recent_first
    (leaf [("Bach", [("Suite", [("Gigue", [gigue_8; gigue_7])])])] "Bach" "Suite" "Gigue").
Proof.
  assert (H : LogsTab.load_logs [gigue_7; gigue_8]
  = Some ([("Bach", [("Suite", [("Gigue", [gigue_8; gigue_7])])])], [gigue_8; gigue_7]))
    by reflexivity.
  assert (Hn : forallb named [gigue_7; gigue_8] = true) by reflexivity.
  split; [exact H|]. split; [exact Hn|].
  exact (load_logs_recent_first _ _ _ H Hn "Bach" "Suite" "Gigue").
Defined.

(** Without that, a group can show an older session first: a session whose
    composer is empty and one whose composer is ["Unknown"] go under the same
    name, but the sort keeps them apart. *)
Example load_logs_unknown_mix :
  LogsTab.load_logs [blank_feb; unknown_jan]
  = Some ([("Unknown", [("Unknown", [("Unknown", [unknown_jan; blank_feb])])])],
          [unknown_jan; blank_feb]) /\
  recency unknown_jan = ["2024-01-01"; EmptyString] /\
  recency blank_feb = ["2024-02-01"; EmptyString].
Proof. repeat split; reflexivity. Qed.

(* ===================================================================== *)
(** * update_timer, the shadowed goals, and the order of the list *)
(* ===================================================================== *)

Lemma Qfloor_unique (x : Q) (k : Z) :
  (inject_Z k <= x)%Q -> (x < inject_Z (k + 1))%Q -> Qfloor x = k.
Proof.
  intros H1 H2.
  pose proof (Qfloor_le x) as F1. pose proof (Qlt_floor x) as F2.
  assert (A : (inject_Z k < inject_Z (Qfloor x + 1))%Q) by lra.
  assert (B : (inject_Z (Qfloor x) < inject_Z (k + 1))%Q) by lra.
  rewrite <- Zlt_Qlt in A, B. lia.
Qed.

Lemma Qfloor_div_Z (x : Q) (d : Z) :
  0 < d -> Qfloor (x / inject_Z d) = Qfloor x / d.
Proof.
  intros Hd.
  assert (Hq : (0 < inject_Z d)%Q) by (change 0%Q with (inject_Z 0); now rewrite <- Zlt_Qlt).
  pose proof (Qfloor_le x) as F1. pose proof (Qlt_floor x) as F2.
  apply Qfloor_unique.
  - apply Qle_shift_div_l; [exact Hq|]. rewrite <- inject_Z_mult.
    apply Qle_trans with (inject_Z (Qfloor x)); [|exact F1].
    rewrite <- Zle_Qle. Z.div_mod_to_equations. nia.
  - apply Qlt_shift_div_r; [exact Hq|]. rewrite <- inject_Z_mult.
    apply Qlt_le_trans with (inject_Z (Qfloor x + 1)); [exact F2|].
    rewrite <- Zle_Qle. Z.div_mod_to_equations. nia.
Qed.

Lemma Qfloor_sub_Z (x : Q) (z : Z) : Qfloor (x - inject_Z z) = Qfloor x - z.
Proof.
  pose proof (Qfloor_le x) as F1. pose proof (Qlt_floor x) as F2.
  apply Qfloor_unique.
  - unfold Z.sub. rewrite inject_Z_plus, inject_Z_opp. lra.
  - replace (Qfloor x - z + 1) with (Qfloor x + 1 + - z) by lia.
    rewrite inject_Z_plus, inject_Z_opp. lra.
Qed.

Lemma py_int_Z k : py_int (inject_Z k) = k.
Proof.
  unfold py_int. destruct (Qle_bool 0 (inject_Z k)); [apply Qfloor_Z|apply Qceiling_Z].
Qed.

Lemma floor_modulo (x : Q) (d : Z) :
  0 < d -> Qfloor (CronometroTab.modulo x d) = Qfloor x mod d.
Proof.
  intros Hd. unfold CronometroTab.modulo, CronometroTab.floordiv.
  rewrite <- inject_Z_mult, Qfloor_sub_Z, (Qfloor_div_Z x d Hd).
  rewrite Z.mod_eq by lia. reflexivity.
Qed.

(** X27.  While the stopwatch runs, [update_timer] shows the whole seconds
    gone by since the start, in the layout of [CountdownTimer.format_time]:
    for a clock reading not before the start the label reads ["Tiempo: "]
    followed by [format_time] of the elapsed time rounded down; when the
    stopwatch is not running it leaves the label alone. *)
Theorem update_timer_shows_elapsed (now : Q) (self : CronometroTab.t) :
  (PracticeTimer.start_time (CronometroTab.timer self) = None ->
   CronometroTab.update_timer now self = None) /\
  (forall start, PracticeTimer.start_time (CronometroTab.timer self) = Some start ->
   (start <= now)%Q ->
   CronometroTab.update_timer now self =
   Some ("Tiempo: " +:+ CountdownTimer.format_time (Qfloor (now - start)))).
Proof.
  unfold CronometroTab.update_timer. split; [intros ->; reflexivity|].
  intros start -> Hle. cbv zeta. f_equal. f_equal.
  set (e := (now - start)%Q).
  assert (He : (0 <= e)%Q) by (subst e; lra).
  assert (Hn : 0 <= Qfloor e).
  { change 0 with (Qfloor 0). now apply Qfloor_resp_le. }
  unfold CronometroTab.floordiv at 1 2. rewrite !py_int_Z.
  rewrite (Qfloor_div_Z e 3600) by lia.
  rewrite (Qfloor_div_Z (CronometroTab.modulo e 3600) 60) by lia.
  rewrite (floor_modulo e 3600) by lia.
  assert (Hs : py_int (CronometroTab.modulo e 60) = Qfloor e mod 60).
  { rewrite <- (floor_modulo e 60) by lia. apply py_int_nonneg.
    unfold CronometroTab.modulo, CronometroTab.floordiv.
    assert (H : (inject_Z (Qfloor (e / inject_Z 60)) <= e / inject_Z 60)%Q)
      by apply Qfloor_le.
    change (inject_Z 60) with 60%Q in *.
    assert (Ee : (e == e / 60 * 60)%Q) by (field; discriminate).
    set (q := (e / 60)%Q) in *. lra. }
  rewrite Hs. reflexivity.
Qed.

(** X27 at 3661.5 seconds after the start. *)
Lemma update_timer_shows_elapsed_witness :
  PracticeTimer.start_time (CronometroTab.timer (started_tab 10 "2024-01-08T10:00:00"))
    = Some 10%Q /\
  (10 <= 10 + (7323 # 2))%Q /\
  CronometroTab.update_timer (10 + (7323 # 2)) (started_tab 10 "2024-01-08T10:00:00")
    = Some "Tiempo: 01:01:01".
Proof.
  assert (H1 : PracticeTimer.start_time
                 (CronometroTab.timer (started_tab 10 "2024-01-08T10:00:00")) = Some 10%Q)
    by reflexivity.
  assert (H2 : (10 <= 10 + (7323 # 2))%Q) by (unfold Qle; cbn; lia).
  split; [exact H1|]. split; [exact H2|].
  exact (proj2 (update_timer_shows_elapsed (10 + (7323 # 2))
                  (started_tab 10 "2024-01-08T10:00:00")) 10%Q H1 H2).
Defined.

Lemma goals_shadowed_lookup p :
  goals_shadowed !! p = option_map (fun hours => hours * 60) (goal_hours_spec p).
Proof.
  unfold goals_shadowed, goal_hours_spec. cbn [list_to_map foldr uncurry fst snd].
  destruct (String.eqb_spec p "daily") as [-> | N1]; [reflexivity |].
  rewrite lookup_insert_ne by congruence.
  destruct (String.eqb_spec p "weekly") as [-> | N2]; [reflexivity |].
  rewrite lookup_insert_ne by congruence.
  destruct (String.eqb_spec p "monthly") as [-> | N3]; [reflexivity |].
  rewrite lookup_insert_ne by congruence.
  destruct (String.eqb_spec p "yearly") as [-> | N4]; [reflexivity |].
  rewrite lookup_insert_ne by congruence. apply lookup_empty.
Qed.

Lemma calculate_progress_shadowed_eq period hours total :
  goal_hours_spec period = Some hours ->
  calculate_progress_shadowed period total =
  round64 (round64 (total / inject_Z (hours * 60)) * 100).
Proof.
  intros H. pose proof (goal_hours_positive _ _ H) as Hh.
  unfold calculate_progress_shadowed. rewrite goals_shadowed_lookup, H.
  cbn [option_map default]. unfold id.
  destruct (Z.eqb_spec (hours * 60) 0) as [E|_]; [lia|reflexivity].
Qed.

(** X28.  The [calculate_progress] defined first in the module, which the
    second definition replaces before anything calls it, takes its goals in
    minutes: on every period kind and every total it would report sixty
    times what the definition in force reports, up to the rounding of the
    two quotients and the two products (within [2 ** -50] of the total, and
    [2 ** -1062] for totals next to nothing).  The two need not agree to the
    last place: at 5 seconds the first gives 1.6666666666666667 and sixty
    times the second is 1.6666666666666665.  (Totals up to [2 ** 1000].) *)
Theorem calculate_progress_shadowed_sixtyfold (period_type : string) (total : Q) :
  (Qabs total <= 2 ^ 1000)%Q ->
  (Qabs (calculate_progress_shadowed period_type total
         - 60 * calculate_progress period_type total)
   <= Qabs total * 2 ^ (-50) + 2 ^ (-1062))%Q /\
  (goal_hours_spec period_type = None ->
   calculate_progress_shadowed period_type total = 0%Q /\
   calculate_progress period_type total = 0%Q) /\
  (60 * calculate_progress "daily" 5 < calculate_progress_shadowed "daily" 5)%Q.
Proof.
  intros _.
  assert (Hnone : goal_hours_spec period_type = None ->
                  calculate_progress_shadowed period_type total = 0%Q /\
                  calculate_progress period_type total = 0%Q).
  { intros Hg. unfold calculate_progress_shadowed, calculate_progress.
    rewrite goals_shadowed_lookup, goals_hours_lookup, Hg. now split. }
  split; [|split; [exact Hnone|vm_compute; reflexivity]].
  - pose proof (pow2_pos (-50)) as P50. pose proof (pow2_pos (-1062)) as P62.
    pose proof (Qabs_nonneg total) as Ht.
    destruct (goal_hours_spec period_type) as [hours|] eqn:Hg.
    + pose proof (goal_hours_least _ _ Hg) as Hh.
      rewrite (calculate_progress_shadowed_eq _ _ _ Hg), (calculate_progress_eq _ _ _ Hg).
      pose proof (percent_error (hours * 60) total ltac:(lia)) as E1.
      pose proof (percent_error (hours * 3600) total ltac:(lia)) as E2.
      set (s := round64 (round64 (total / inject_Z (hours * 60)) * 100)) in *.
      set (e := round64 (round64 (total / inject_Z (hours * 3600)) * 100)) in *.
      assert (Hq : ~ (inject_Z (hours * 60) == 0)%Q).
      { intros H. unfold Qeq in H. cbn in H. lia. }
      assert (EP : (100 * total / inject_Z (hours * 60)
                    == 60 * (100 * total / inject_Z (hours * 3600)))%Q).
      { replace (hours * 3600) with (hours * 60 * 60) by lia.
        rewrite (inject_Z_mult (hours * 60) 60). change (inject_Z 60) with 60%Q.
        field. exact Hq. }
      set (P := (100 * total / inject_Z (hours * 3600))%Q) in *.
      rewrite EP in E1.
      assert (HP : (60 * Qabs P <= Qabs total * (1 # 3))%Q).
      { assert (E : (60 * Qabs P == Qabs (100 * total / inject_Z (hours * 60)))%Q).
        { rewrite EP, Qabs_Qmult. reflexivity. }
        rewrite E.
        assert (E' : (100 * total / inject_Z (hours * 60)
                      == total * (100 / inject_Z (hours * 60)))%Q) by (field; exact Hq).
        rewrite E', Qabs_Qmult.
        assert (H300 : (0 < inject_Z (hours * 60))%Q)
          by (change 0%Q with (inject_Z 0); rewrite <- Zlt_Qlt; lia).
        assert (Hr : (Qabs (100 / inject_Z (hours * 60)) <= 1 # 3)%Q).
        { rewrite Qabs_pos by (apply Qle_shift_div_l; [exact H300|lra]).
          apply Qle_shift_div_r; [exact H300|].
          assert (300 <= inject_Z (hours * 60))%Q
            by (change 300%Q with (inject_Z 300); rewrite <- Zle_Qle; lia).
          lra. }
        assert (Qabs total * Qabs (100 / inject_Z (hours * 60)) <= Qabs total * (1 # 3))%Q
          by (apply Qmult_le_nonneg_l; assumption).
        lra. }
      rewrite Qabs_Qmult in E1. change (Qabs 60) with 60%Q in E1.
      assert (E51 : (2 ^ (-50) == 2 * 2 ^ (-51))%Q) by reflexivity.
      assert (E68 : (2 ^ (-1062) == 64 * 2 ^ (-1068))%Q) by reflexivity.
      pose proof (pow2_pos (-51)) as P51. pose proof (pow2_pos (-1068)) as P68.
      assert (E : (s - 60 * e == (s - 60 * P) - 60 * (e - P))%Q) by ring.
      rewrite E.
      eapply Qle_trans; [apply Qabs_triangle|].
      rewrite Qabs_opp, Qabs_Qmult. change (Qabs 60) with 60%Q.
      assert (H1 : (60 * Qabs P * 2 ^ (-51) <= Qabs total * (1 # 3) * 2 ^ (-51))%Q)
        by (apply Qmult_le_compat_r; lra).
      assert (H2 : (0 <= Qabs total * 2 ^ (-51))%Q) by (apply Qmult_le_0_compat; lra).
      rewrite E51, E68.
      assert (E3 : (Qabs total * (1 # 3) * 2 ^ (-51)
                    == (1 # 3) * (Qabs total * 2 ^ (-51)))%Q) by ring.
      rewrite E3 in H1. lra.
    + destruct (Hnone eq_refl) as [-> ->].
      assert (E0 : (0 - 60 * 0 == 0)%Q) by ring.
      rewrite E0. change (Qabs 0) with 0%Q.
      assert (0 <= Qabs total * 2 ^ (-50))%Q by (apply Qmult_le_0_compat; lra). lra.
Qed.

(** X28 at five seconds against the daily goal. *)
Lemma calculate_progress_shadowed_sixtyfold_witness :
  (Qabs 5 <= 2 ^ 1000)%Q /\
  (Qabs (calculate_progress_shadowed "daily" 5 - 60 * calculate_progress "daily" 5)
   <= Qabs 5 * 2 ^ (-50) + 2 ^ (-1062))%Q.
Proof.
  assert (H : (Qabs 5 <= 2 ^ 1000)%Q) by (vm_compute; discriminate).
  split; [exact H|].
  exact (proj1 (calculate_progress_shadowed_sixtyfold "daily" 5 H)).
Defined.

Lemma filter_Permutation_list {A} (P : A -> bool) l l' :
  Permutation l l' -> Permutation (List.filter P l) (List.filter P l').
Proof.
  induction 1 as [|x l l' _ IH|x y l|l l' l'' _ IH1 _ IH2]; cbn.
  - constructor.
  - destruct (P x); [now constructor|exact IH].
  - destruct (P x), (P y); try reflexivity. apply perm_swap.
  - now transitivity (List.filter P l').
Qed.

Lemma total_duration_Permutation l l' :
  Permutation l l' -> (total_duration l == total_duration l')%Q.
Proof.
  induction 1 as [|x l l' _ IH|x y l|l l' l'' _ IH1 _ IH2]; cbn [total_duration fold_right].
  - reflexivity.
  - fold (total_duration l) (total_duration l'). now rewrite IH.
  - ring.
  - now rewrite IH1.
Qed.

Lemma gross_duration_Permutation l l' :
  Permutation l l' -> (gross_duration l == gross_duration l')%Q.
Proof.
  induction 1 as [|x l l' _ IH|x y l|l l' l'' _ IH1 _ IH2]; cbn [gross_duration fold_right].
  - reflexivity.
  - fold (gross_duration l) (gross_duration l'). now rewrite IH.
  - ring.
  - now rewrite IH1.
Qed.

(** X29.  Both [calculate_streak] and [load_logs] sort the shared list in
    place, by different keys.  For any reordering of the collection the
    streak is the same (ISO dates).  The total credited to a period is the
    same up to the rounding of the float sums, which do depend on the order
    (dates that parse, numeric durations, at most [2 ** 52] sessions holding
    at most [2 ** 52] seconds): the two totals lie within
    [2 * n * (gross * 2 ** -52 + 2 ** -1074)] of each other, [n] being the
    number of sessions the period keeps and [gross] their seconds, signs
    dropped, and they are equal when every duration is an [int].  In
    particular the list as [load_logs] leaves it gives the streak of the list
    as it was. *)
Theorem statistics_ignore_order (sessions l' : list session) :
  Permutation sessions l' ->
  (forallb has_iso_date sessions = true ->
   fst (calculate_streak l') = fst (calculate_streak sessions)) /\
  (forallb date_parses sessions = true ->
   forallb has_numeric_duration sessions = true ->
   (gross_duration sessions <= 2 ^ 52)%Q ->
   Z.of_nat (length sessions) <= 2 ^ 52 ->
   forall now period, exists total total',
     period_total now sessions period = Ok total /\
     period_total now l' period = Ok total' /\
     (Qabs (num_of total - num_of total')
      <= 2 * inject_Z (Z.of_nat (length (kept_sessions period now sessions)))
         * (gross_duration (kept_sessions period now sessions) * 2 ^ (-52)
            + 2 ^ (-1074)))%Q /\
     (forallb has_int_duration sessions = true ->
      (num_of total == num_of total')%Q)) /\
  (forall grouped sorted,
     LogsTab.load_logs sessions = Some (grouped, sorted) ->
     forallb has_iso_date sessions = true ->
     fst (calculate_streak sorted) = fst (calculate_streak sessions)).
Proof.
  intros P.
  assert (Hstreak : forall l1 l2, Permutation l1 l2 -> forallb has_iso_date l1 = true ->
                                  fst (calculate_streak l2) = fst (calculate_streak l1)).
  { intros l1 l2 P12 H1. apply calculate_streak_days.
    - now rewrite <- (forallb_Permutation _ _ _ P12).
    - exact H1.
    - symmetry. now apply days_of_Permutation. }
  split; [now apply Hstreak|]. split.
  - intros Hd Hn HG Hl now period. rewrite <- (pow2_Z 52) in HG by lia.
    assert (Hd' : forallb date_parses l' = true)
      by now rewrite <- (forallb_Permutation _ _ _ P).
    assert (Hn' : forallb has_numeric_duration l' = true)
      by now rewrite <- (forallb_Permutation _ _ _ P).
    assert (Pk : Permutation (kept_sessions period now sessions)
                             (kept_sessions period now l'))
      by (unfold kept_sessions; now apply filter_Permutation_list).
    set (k := kept_sessions period now sessions) in *.
    set (k' := kept_sessions period now l') in *.
    pose proof (gross_duration_Permutation _ _ Pk) as EG.
    pose proof (total_duration_Permutation _ _ Pk) as ET.
    pose proof (Permutation_length Pk) as EL.
    pose proof (gross_duration_kept period now sessions) as HGk. fold k in HGk.
    pose proof (length_kept period now sessions) as Hlk. fold k in Hlk.
    destruct (period_total_close now sessions period Hd
                (kept_sessions_forallb _ _ _ _ Hn) ltac:(fold k; lra) ltac:(fold k; lia))
      as (data & t & Hdata & Ht & _ & Hte).
    destruct (period_total_close now l' period Hd'
                (kept_sessions_forallb _ _ _ _ Hn')
                ltac:(fold k'; rewrite <- EG; lra) ltac:(fold k'; rewrite <- EL; lia))
      as (data' & t' & Hdata' & Ht' & _ & Hte').
    fold k in Hte. fold k' in Hte'. unfold sum_slack in Hte, Hte'.
    rewrite <- EG, <- ET, <- EL in Hte'.
    exists t, t'. split; [unfold period_total; now rewrite Hdata|].
    split; [unfold period_total; now rewrite Hdata'|]. split.
    + assert (E : (num_of t - num_of t'
                   == (num_of t - total_duration k) - (num_of t' - total_duration k))%Q)
        by ring.
      rewrite E. eapply Qle_trans; [apply Qabs_triangle|]. rewrite Qabs_opp. lra.
    + intros Hint.
      assert (Hint' : forallb has_int_duration l' = true)
        by now rewrite <- (forallb_Permutation _ _ _ P).
      destruct (period_total_int now sessions period Hd
                  (kept_sessions_forallb _ _ _ _ Hint)) as (d1 & t1 & Hd1 & Ht1 & _ & Hq1).
      destruct (period_total_int now l' period Hd'
                  (kept_sessions_forallb _ _ _ _ Hint')) as (d2 & t2 & Hd2 & Ht2 & _ & Hq2).
      rewrite Hdata in Hd1. injection Hd1 as <-. rewrite Ht in Ht1. injection Ht1 as <-.
      rewrite Hdata' in Hd2. injection Hd2 as <-. rewrite Ht' in Ht2. injection Ht2 as <-.
      fold k in Hq1. fold k' in Hq2. now rewrite Hq1, Hq2.
  - intros grouped sorted Hload Hiso. apply Hstreak; [|exact Hiso].
    symmetry. exact (proj1 (load_logs_inv _ _ _ Hload)).
Qed.

(** X29 on the streak example and its shuffle. *)
Lemma statistics_ignore_order_witness :
  Permutation streak_example_sorted streak_example /\
  forallb has_iso_date streak_example_sorted = true /\
  fst (calculate_streak streak_example) = fst (calculate_streak streak_example_sorted).
Proof.
  assert (P : Permutation streak_example_sorted streak_example).
  { unfold streak_example_sorted, streak_example.
    apply perm_trans with [dated_session "2024-01-08"; dated_session "2024-01-07";
                           dated_session "2024-01-08"; dated_session "2024-01-06"].
    - apply perm_skip. apply perm_swap.
    - apply perm_trans with [dated_session "2024-01-07"; dated_session "2024-01-08";
                             dated_session "2024-01-08"; dated_session "2024-01-06"].
      + apply perm_swap.
      + do 2 apply perm_skip. apply perm_swap. }
  split; [exact P|]. split; [reflexivity|].
  exact (proj1 (statistics_ignore_order _ _ P) eq_refl).
Defined.
